(* ===== verification/_CoqProject ===== *)
-Q . S2P
Prelude.v
PyFloat.v
Config.v
Frames.v
Json.v
JsonLaws.v
FrameText.v
Logging.v
Keys.v
RedisApi.v
Async.v
Tasks.v
RefRedis.v
Scan.v
Samples.v
Handshake.v
Auth.v
Hash.v
Database.v
Sessions.v
Publisher.v
Replay.v
Connection.v
Flow.v
Registry.v
State.v
Clients.v
Rooms.v
Fanout.v
Delivery.v
Presence.v
PresenceList.v
Concurrency.v
Handler.v
Isolation.v
Resume.v
Reconnect.v
Lifecycle.v
SessionLife.v
Http.v
DemoPublisher.v
RelayClient.v
EndToEnd.v
Heartbeat.v
Wire.v
Tenants.v
Admission.v
Among.v
Nodes.v
Lifespan.v
Process.v
Stored.v
Observability.v
ControlPlane.v
KeyDirectory.v
Quickstart.v
Tests.v
