(* ===== verification/Prelude.v ===== *)
(** * Relay: a verified model of the real-time gateway

    Relay is a distributed WebSocket gateway in Python (asyncio, FastAPI,
    Redis) with a control plane that manages its tenants and API keys in a SQL
    database.  Publishers POST messages to channels; every gateway node delivers
    them to its subscribed connections; a client that reconnects resumes from
    the last message it acknowledged.  This library translates both services
    into executable definitions, with the publisher and the client that come
    with them, and proves what their parts promise.

    ** The program and the files that model it

    A message is published by [publish_message] ([fanout/publisher.py]): Redis
    gives it the next sequence number of its channel, it is appended to the
    channel's recovery stream and published on Pub/Sub.  On every node the
    listener of the channel ([run_pubsub_listener]) passes it to
    [deliver_local], which appends it to the queue of each local subscriber;
    the sender task of the connection ([connections/manager.py]) writes the
    queue to the socket under an acknowledgement window.  [websocket/handler.py]
    runs the protocol of a connection, [recovery/replay.py] serves RESUME, and
    sessions, presence, rooms and node records are Redis keys with deadlines.
    The control plane ([control_plane/main.py]) writes the tables that
    [authenticate_token] of the gateway reads.

    - [Prelude]: Python strings, shared lemmas.  [PyFloat]: the text of a
      Python float (binary64).  [Config]: [common/config.py].
    - [Frames]: [protocol/frames.py], JSON values, the interfaces [JsonText]
      (json.dumps and json.loads) and [Pydantic].  [Json], [JsonLaws]: Python's
      [json] as an instance, [python_json], with its round trip.  [FrameText]:
      the JSON object of every frame class, printed and read.  [Logging]:
      [observability/logging.py].  [Keys]: [RedisKeys] of
      [redis/client.py] and the keys of [presence/tracker.py].
    - [RedisApi]: the commands the gateway sends, the class [Redis] of a server
      and the class [RedisLaws] of the documented behaviour of each command,
      with deadlines.  [RefRedis]: a server that satisfies the laws, used by
      the witnesses.  [Scan]: the iteration over the pages of SCAN.  [Samples]:
      concrete codecs, settings and data.
    - [Async]: coroutines as trees of events ([proc]), the outside world
      ([env]: clock, fate of each Redis request, UUIDs, sockets), execution of
      one coroutine ([run]) and of a pool under a schedule ([run_sched]), in
      which tasks interleave at suspension points as in asyncio.  [Tasks]:
      what holds under every schedule, of the state, of the texts written to
      sockets and of those published ([safe], [keeps]), and of a state whose
      parts belong to one task each ([owned]).
    - [Handshake]: [asyncio.Semaphore], which admits handshakes.
    - [Auth]: [security/api_keys.py], [protocol/auth.py].  [Hash]: SHA-256.
      [Sessions]: [sessions/manager.py].
    - [Database]: [database/models.py], the session of [database/engine.py] and
      the interface [SqlDb] with [SqlLaws].  [ControlPlane]:
      [control_plane/main.py] and [scripts/seed.py].  [KeyDirectory]: the
      abstract directory of keys it implements, and a database for the
      witnesses.
    - [Publisher], [Replay]: [allocate_sequence], [append_to_channel_buffer],
      [publish_message], [replay_channel].  [Concurrency]: pools of publishers.
    - [Connection], [Flow]: [Connection] of [connections/manager.py]; the
      sender as a state machine, its interleaving with the other tasks
      ([conn_step]), and the theorems on every reachable state.
    - [Registry]: [ConnectionRegistry], with connection objects in a heap,
      since they are shared and mutable.  [State]: the state of a gateway
      process.  [Clients]: the shared Redis client and subscription manager.
    - [Rooms]: [rooms/subscriptions.py].  [Fanout]: [deliver_local],
      [terminate_slow_consumer], [run_pubsub_listener].  [Delivery]: from the
      publication to the socket.  [Presence], [PresenceList]:
      [presence/tracker.py].
    - [Handler], [Isolation], [Lifecycle]: [websocket/handler.py], from the
      admission by the semaphore to the cleanup; the invariant of tenant
      isolation; session choice and cleanup.
      [Resume]: RESUME with any number of channels.  [Reconnect]: RESUME and the
      publications that follow it.  [SessionLife]: the deadline of a session.
    - [Http], [Heartbeat], [Nodes], [Lifespan]: the publish and presence
      endpoints and the drain of [main.py]; [heartbeat/monitor.py];
      [nodes/registration.py]; start-up and shutdown.  [Process]: the whole
      lifespans of the gateway and of the control plane, with the log and the
      shared Redis client.  [Among]: a task while
      the others run.  [Wire], [Tenants], [Admission]: all tasks of a process
      together: what they write, for whom, and how many handshake.
    - [DemoPublisher]: [demo-publisher/publish.py], a client of the publish
      endpoint.  [RelayClient]: [client/src/RelayClient.ts], the class as a
      record, its methods as functions and the events of the browser as the
      steps of a machine.  [EndToEnd]: publisher, gateway and client together.
    - [Stored]: the JSON the gateway keeps in Redis.  [Observability]:
      [observability/metrics.py], the health and metrics endpoints.
    - [Quickstart]: [scripts/init_db.py] and the steps of the quick start.
      [Tests]: the unit tests and the resume tests of the project, evaluated.

    ** What the theorems show

    - Ordering and recovery: a publication refines the abstract channel (the
      last number given out, the retained messages with consecutive numbers);
      replay returns exactly the retained messages above a position, and the
      missed ones when they fit in the buffer; RESUME serves every channel of
      its list on every branch ([resume_exact]); a session lives a full window
      past its last use ([session_kept_alive]); numbers are unique under any
      interleaving and any network faults; what is published reaches the
      sockets of the subscribers of every node in order
      ([published_reaches_socket]); what is stored as JSON is read back as it
      was ([stored_json_roundtrip]), and so is every frame ([frames_roundtrip]).
    - Clients: across a reconnection the application is given exactly the
      messages it has not seen, in order ([resume_to_application]); the window
      of remembered ids is exact ([client_dedup_window]) and the client does
      not give up ([client_keeps_trying]); a publisher that retries with one
      key publishes once ([demo_exactly_once]); the documented first steps, from
      an empty database to published messages, work ([quickstart]).
    - Flow control: for every reachable state of a connection, bounds of the
      window and the queue, no lost wake-up, the FIFO refinement, the law that
      deliveries are limited by acknowledgements, progress, and the blocking of
      control frames behind a full window.
    - Isolation: what is queued for or written to a client, delivered or
      replayed, is of its own tenant, whatever the clients send and however the
      tasks interleave ([tenant_isolation]); sessions are
      resumed by their own tenant; channel names and Redis keys are separate.
      Only frames of the server's side of the protocol are published and written
      to sockets ([wire_typed]; a listener forwards any text, so this supposes
      that Pub/Sub hands on what was published and that the channels are used by
      gateways only).
    - Keys: the control plane refines a directory of API keys, for every
      history of requests and every fault of the database; a key works from its
      creation to its revocation and never after ([control_plane_refines],
      [key_lifecycle], [create_api_key_branches], [seed_usable]).
    - Bookkeeping: the registry's indexes agree with a scan, the rooms implement a
      reference count, fanout is exact and isolates slow consumers, cleanup and
      shutdown release everything, presence and node records follow their
      deadlines, the listing of online users is exact, heartbeats detect silent
      connections, keep those that answer, and end whatever the other tasks do,
      handshakes in progress are bounded and give their slots back
      ([handshakes_bounded]), publish is idempotent and rejects bad requests without
      effect.
    - Operation: log lines hold no secret field, a scrape of the metrics reads
      every one of them once, readiness reflects Redis and the drain, and a
      process starts and stops whatever Redis does, except that a failure to close
      the Redis client makes its shutdown raise ([process_lifespan]).
    - Some theorems state what the code does where a comment or a document
      promises more: [full_window_blocks_all_frames],
      [unsubscribe_stops_foreign_listener], [gap_not_reported],
      [publish_order_can_invert], [ack_position_can_regress],
      [idempotency_race], [cleanup_failure_leaks], [handshake_failure_leaks],
      [expired_key_accepted], [resume_race_loses], [retry_duplicates],
      [failed_handler_not_retried], [late_touch_orphans].

    ** Conventions, bounds and fuel

    Times are integers of milliseconds; the source stores some of them as
    floats of seconds.  The number of an envelope that a listener hears is taken
    to be an integer, as [publish_message] writes it.  A Python [str] is its UTF-8 encoding.  Redis integers
    are 64-bit ([int64_max]).  A Python set is iterated in the order of
    [elements].  The log calls of the components, but for the lifespans ([Process]),
    are left out of their models, which read nothing of them.  Redis, Pydantic and the SQL database are
    parameters whose laws state documented behaviour; JSON text and SHA-256
    are parameters of the definitions too, with Python's [json] and SHA-256
    written out as instances.
    Loops over a list are structural; the polling loop of the heartbeat has
    fuel ([poll_rounds]), shown to be enough because every iteration sleeps
    500 ms, whatever the other tasks do ([heartbeat_terminates]); the pages of a
    SCAN are as many as the server makes them, and some fuel is shown to be
    enough for every server ([run_scan_iter]); [patience] bounds how long a
    connection waits for the semaphore before it is taken to be cancelled, and the
    theorems hold for every number; [run_heartbeat], [run_sender] and the node's
    [_loop] are unbounded in the source and take a number of rounds, and their
    theorems hold for every number.  The fuel of the JSON scanner grows with
    the text and is shown to be enough ([loads_ends]).  The client's frames are a list, so the frame
    loop ends with it.

    ** Not modelled

    What redis-py does with the options of its client, the engine and pool of
    SQLAlchemy, the SQL that [create_all] sends (its effect is the interface
    [Ddl]), the routing and response encoding of FastAPI, [httpx] and the
    browser's WebSocket beyond the events they deliver, and the parsing of command
    lines belong to libraries the sources only call.  The drivers that test running
    services, the load and chaos tools, the deployment files and the React frontend
    hold no logic of the gateway.  The rest of the Python sources is imports,
    comments, the log calls named above and the construction of the application
    objects. *)
From Stdlib Require Import Ascii ZArith Lia DecimalString DecimalZ DecimalPos.
From stdpp Require Import base gmap strings list fin_maps sorting.

#[global] Open Scope string_scope.
#[global] Open Scope list_scope.
#[global] Open Scope Z_scope.
#[global] Set Default Goal Selector "!".

(** ** Python strings

    A Python [str] is represented by its UTF-8 encoding, one [ascii] per byte.
    Concatenation, equality, [startswith] and [endswith] on strings of code
    points agree with the same operations on the encodings, and
    [len(s.encode("utf-8"))] is the length of the representation. *)
Module PyStr.

Definition is_continuation (c : Ascii.ascii) : bool :=
  let n := Ascii.nat_of_ascii c in (128 <=? n)%nat && (n <? 192)%nat.

(** [len(s)]: the number of code points, i.e. of bytes that start one. *)
Fixpoint py_len (s : string) : nat :=
  match s with
  | EmptyString => 0%nat
  | String c s' => if is_continuation c then py_len s' else S (py_len s')
  end.

(** [len(s.encode("utf-8"))]. *)
Definition utf8_len (s : string) : Z := Z.of_nat (String.length s).

(** [s.startswith(p)]. *)
Definition startswith (s p : string) : bool := String.prefix p s.

(** [s[len(p):]] for an [s] that starts with [p]; also [s.removeprefix(p)],
    which leaves [s] alone when it does not start with [p]. *)
Fixpoint drop_prefix (p s : string) : option string :=
  match p, s with
  | EmptyString, _ => Some s
  | String c p', String d s' =>
      if Ascii.eqb c d then drop_prefix p' s' else None
  | String _ _, EmptyString => None
  end.

Definition removeprefix (s p : string) : string :=
  match drop_prefix p s with Some r => r | None => s end.

(** [s.endswith(q)]. *)
Definition endswith (s q : string) : bool :=
  startswith (String.rev s) (String.rev q).

(** [s[:n]] on code points. *)
Fixpoint py_take (n : nat) (s : string) : string :=
  match s with
  | EmptyString => EmptyString
  | String c s' =>
      if is_continuation c then String c (py_take n s')
      else match n with
           | O => EmptyString
           | S n' => String c (py_take n' s')
           end
  end.

(** [bool(s)]. *)
Definition truthy (s : string) : bool :=
  match s with EmptyString => false | _ => true end.

Fixpoint forall_chars (f : Ascii.ascii -> bool) (s : string) : bool :=
  match s with
  | EmptyString => true
  | String c s' => f c && forall_chars f s'
  end.

Definition no_colon (s : string) : bool :=
  forall_chars (fun c => negb (Ascii.eqb c ":"%char)) s.

(** [str(z)] and [int(s)] on a string in the form [str] prints. *)
Definition py_str (z : Z) : string := NilZero.string_of_int (Z.to_int z).
Definition py_int (s : string) : option Z :=
  option_map Z.of_int (NilZero.int_of_string s).

End PyStr.
Export PyStr.

(** ** Lemmas on strings *)

Lemma str_app_cons (c : ascii) (a b : string) :
  (String c a +:+ b) = String c (a +:+ b).
Proof. done. Qed.

Lemma str_app_nil_l (a : string) : ("" +:+ a) = a.
Proof. done. Qed.

Ltac str_simpl := cbn; rewrite ?str_app_cons, ?str_app_nil_l; cbn.

Lemma str_app_assoc (a b c : string) : ((a +:+ b) +:+ c) = (a +:+ (b +:+ c)).
Proof. induction a as [|x a IH]; str_simpl; [done|]. by rewrite IH. Qed.

Lemma str_app_nil_r (a : string) : (a +:+ "") = a.
Proof. induction a as [|x a IH]; str_simpl; [done|]. by rewrite IH. Qed.

Lemma str_app_inv_l (p a b : string) : (p +:+ a) = (p +:+ b) -> a = b.
Proof.
  induction p as [|x p IH]; str_simpl; [done|]. intros H. apply IH. by injection H.
Qed.

Lemma drop_prefix_app (p r : string) : drop_prefix p (p +:+ r) = Some r.
Proof. induction p as [|c p IH]; str_simpl; [done|]. by rewrite Ascii.eqb_refl. Qed.

Lemma drop_prefix_Some (p s r : string) :
  drop_prefix p s = Some r <-> s = (p +:+ r).
Proof.
  split; [|intros ->; apply drop_prefix_app].
  revert s. induction p as [|c p IH]; intros s; cbn; [naive_solver|].
  destruct s as [|d s]; [done|].
  destruct (Ascii.eqb_spec c d) as [->|]; [|done].
  intros ->%IH. done.
Qed.

Lemma startswith_spec (s p : string) :
  startswith s p = true <-> exists r, s = (p +:+ r).
Proof.
  unfold startswith. revert s. induction p as [|c p IH]; intros s.
  - split; [|by destruct s]. intros _. by exists s.
  - destruct s as [|d s]; cbn.
    + split; [done|]. by intros [r ?].
    + destruct (ascii_dec c d) as [->|Hne].
      * rewrite IH. split; intros [r Hr]; exists r.
        -- rewrite Hr. by rewrite str_app_cons.
        -- rewrite str_app_cons in Hr. by injection Hr.
      * split; [done|]. intros [r Hr]. rewrite str_app_cons in Hr. congruence.
Qed.

Lemma startswith_app (p r : string) : startswith (p +:+ r) p = true.
Proof. apply startswith_spec. by exists r. Qed.

(** Two texts that agree up to their first colon agree before and after it:
    the fact behind every namespace separation argument of the code. *)
Lemma colon_split (p q a b : string) :
  no_colon p = true -> no_colon q = true ->
  (p +:+ (":" +:+ a)) = (q +:+ (":" +:+ b)) -> p = q /\ a = b.
Proof.
  revert q. induction p as [|c p IH]; intros [|d q]; unfold no_colon in *; cbn;
    rewrite ?str_app_cons, ?andb_true_iff, ?negb_true_iff, ?Ascii.eqb_neq.
  - intros _ _ H. by injection H.
  - intros _ [Hd _] H. injection H. congruence.
  - intros [Hc _] _ H. injection H. congruence.
  - intros [_ Hp] [_ Hq] H. injection H as -> H.
    by destruct (IH q Hp Hq H) as [-> ->].
Qed.

Lemma py_len_ascii (s : string) :
  forall_chars (fun c => negb (is_continuation c)) s = true ->
  py_len s = String.length s.
Proof.
  induction s as [|c s IH]; cbn; [done|].
  rewrite andb_true_iff, negb_true_iff. intros [-> ?]. by rewrite IH.
Qed.

Lemma utf8_len_nonneg (s : string) : 0 <= utf8_len s.
Proof. unfold utf8_len. lia. Qed.

Lemma forall_chars_impl (f g : ascii -> bool) (s : string) :
  (forall c, f c = true -> g c = true) ->
  forall_chars f s = true -> forall_chars g s = true.
Proof.
  intros Hfg. induction s as [|c s IH]; cbn; [done|].
  rewrite !andb_true_iff. intros [? ?]. auto.
Qed.

Lemma forall_chars_app (f : ascii -> bool) (a b : string) :
  forall_chars f (a +:+ b) = forall_chars f a && forall_chars f b.
Proof. induction a as [|c a IH]; str_simpl; [done|]. by rewrite IH, andb_assoc. Qed.

(** What holds of the digits and the minus sign holds of a printed integer. *)
Lemma forall_chars_py_str (f : ascii -> bool) (z : Z) :
  forall_chars f "-0123456789" = true -> forall_chars f (py_str z) = true.
Proof.
  cbn. intros Hf. rewrite !andb_true_iff in Hf.
  assert (forall d, forall_chars f (NilEmpty.string_of_uint d) = true) as Hu.
  { induction d; cbn; rewrite ?andb_true_iff; tauto. }
  unfold py_str, NilZero.string_of_int.
  destruct (Z.to_int z) as [d|d]; cbn [forall_chars]; rewrite ?andb_true_iff;
    [|split; [tauto|]]; (destruct d; [cbn; rewrite andb_true_iff; tauto|apply Hu..]).
Qed.

Lemma py_int_str (z : Z) : py_int (py_str z) = Some z.
Proof.
  unfold py_int, py_str. rewrite NilZero.isi.
  - cbn. by rewrite DecimalZ.of_to.
  - destruct z as [|p|p]; cbn; [done| |done].
    intros [= H]. by apply (DecimalPos.Unsigned.to_uint_nonnil p).
  - destruct z as [|p|p]; cbn; [done|done|].
    intros [= H]. by apply (DecimalPos.Unsigned.to_uint_nonnil p).
Qed.

Lemma py_str_inj (a b : Z) : py_str a = py_str b -> a = b.
Proof. intros H. apply (f_equal py_int) in H. rewrite !py_int_str in H. congruence. Qed.

(** ** Lemmas on lists *)

Lemma filter_none {A} (P : A -> Prop) {Pd : forall x, Decision (P x)} (l : list A) :
  (forall x, x ∈ l -> ~ P x) -> filter P l = [].
Proof.
  induction l as [|x l IH]; [done|]. intros H. rewrite filter_cons_False by set_solver.
  apply IH. set_solver.
Qed.

Lemma filter_all {A} (P : A -> Prop) {Pd : forall x, Decision (P x)} (l : list A) :
  (forall x, x ∈ l -> P x) -> filter P l = l.
Proof.
  induction l as [|x l IH]; [done|]. intros H. rewrite filter_cons_True by set_solver.
  f_equal. apply IH. set_solver.
Qed.
