(* ===== verification/PyFloat.v ===== *)
(** * Python floats in JSON text

    [json.loads] turns a number with a fraction or an exponent into a [float],
    and [json.dumps] prints a [float] with [repr].  [float_repr t] is the text
    that [json.dumps(float(t))] gives for a number literal [t]: the literal is
    rounded to the nearest binary64 value, ties to even, and the shortest
    decimal that rounds to this value, the closest one among those of the same
    length, is printed in the style of [repr].  Arithmetic is exact on [Z]. *)
From Stdlib Require Import Ascii ZArith Lia.
From stdpp Require Import base strings list.
From S2P Require Import Prelude.

(** ** Decimal literals *)

Definition is_digit (c : ascii) : bool :=
  let n := Ascii.nat_of_ascii c in (48 <=? n)%nat && (n <=? 57)%nat.

Fixpoint span_digits (s : string) : string * string :=
  match s with
  | EmptyString => ("", "")
  | String c r =>
      if is_digit c then let '(d, r') := span_digits r in (String c d, r') else ("", s)
  end.

Definition digits_value (d : string) : Z := default 0 (py_int d).

(** The number of decimal digits of [n > 0]. *)
Definition decimal_length (n : Z) : Z := Z.of_nat (String.length (py_str n)).

(** ** Rounding to binary64 *)

(** [p / q], ties to even, for [p >= 0] and [q > 0]. *)
Definition div_half_even (p q : Z) : Z :=
  let n := p / q in
  match 2 * (p mod q) ?= q with
  | Lt => n
  | Gt => n + 1
  | Eq => if Z.even n then n else n + 1
  end.

(** [p * 2 ^ k] and [p * 10 ^ k] as a fraction. *)
Definition scale (b p q k : Z) : Z * Z :=
  if 0 <=? k then (p * b ^ k, q) else (p, q * b ^ (- k)).

(** The binary64 number nearest to [p / q], as [n * 2 ^ k]; [None] is infinity.
    The mantissa has 53 bits and the exponent is at least -1074. *)
Definition round64 (p q : Z) : option (Z * Z) :=
  if p =? 0 then Some (0, 0)
  else
    let l := Z.log2 p - Z.log2 q in
    let '(a, b) := scale 2 p q (- l) in
    let k := Z.max (-1074) (if b <=? a then l - 52 else l - 53) in
    let '(c, d) := scale 2 p q (- k) in
    let n := div_half_even c d in
    if 1024 <? Z.log2 n + k + 1 then None else Some (n, k).

(** The float a decimal [m * 10 ^ e] is read as.  Outside the exponents of the
    first two tests the result is known without computing the power. *)
Definition float_of_decimal (m e : Z) : option (Z * Z) :=
  if m =? 0 then Some (0, 0)
  else if 310 <? decimal_length m + e then None
  else if decimal_length m + e <? -330 then Some (0, 0)
  else let '(p, q) := scale 10 m 1 e in round64 p q.

(** ** The shortest decimal of a float *)

(** The exponent [x] such that [10 ^ x <= p / q < 10 ^ (x + 1)]. *)
Definition exponent10 (p q : Z) : Z :=
  if q <=? p then decimal_length (p / q) - 1
  else let d := decimal_length (q / p) in
       if p * 10 ^ (d - 1) =? q then 1 - d else - d.

Definition same_float (x y : option (Z * Z)) : bool :=
  match x, y with
  | Some (n, k), Some (n', k') =>
      let b := Z.min k k' in n * 2 ^ (k - b) =? n' * 2 ^ (k' - b)
  | None, None => true
  | _, _ => false
  end.

(** The decimal of [nd] digits that is closest to [p / q] among the two
    neighbours that read back as the float [x]. *)
Definition digits_at (x : Z * Z) (p q x10 nd : Z) : option (Z * Z) :=
  let e := x10 - (nd - 1) in
  let '(a, b) := scale 10 p q (- e) in
  let lo := a / b in
  let ok m := same_float (float_of_decimal m e) (Some x) in
  let nearest := div_half_even a b in
  let other := if nearest =? lo then lo + 1 else lo in
  if ok nearest then Some (nearest, e)
  else if ok other then Some (other, e)
  else None.

Fixpoint shortest (x : Z * Z) (p q x10 nd : Z) (fuel : nat) : Z * Z :=
  match fuel with
  | O => (0, 0)
  | S fuel' =>
      match digits_at x p q x10 nd with
      | Some r => r
      | None => shortest x p q x10 (nd + 1) fuel'
      end
  end.

(** ** The style of [repr] *)

Fixpoint zeros (n : nat) : string :=
  match n with O => "" | S n' => String "0"%char (zeros n') end.

Fixpoint strip_zeros_rev (s : string) : string :=
  match s with
  | String "0"%char r => strip_zeros_rev r
  | _ => s
  end.

Definition strip_zeros (s : string) : string := String.rev (strip_zeros_rev (String.rev s)).

(** Digits [d] with the decimal point after [decpt] of them: fixed notation for
    [-4 < decpt <= 16], else scientific with at least two exponent digits. *)
Definition format_repr (d : string) (decpt : Z) : string :=
  let n := Z.of_nat (String.length d) in
  if (-4 <? decpt) && (decpt <=? 16) then
    if decpt <=? 0 then "0." +:+ zeros (Z.to_nat (- decpt)) +:+ d
    else if n <=? decpt then d +:+ zeros (Z.to_nat (decpt - n)) +:+ ".0"
    else String.substring 0 (Z.to_nat decpt) d +:+ "." +:+
         String.substring (Z.to_nat decpt) (String.length d) d
  else
    let x := decpt - 1 in
    let frac := String.substring 1 (String.length d) d in
    String.substring 0 1 d +:+ (if truthy frac then "." +:+ frac else "") +:+ "e" +:+
    (if x <? 0 then "-" else "+") +:+
    (if Z.abs x <? 10 then "0" else "") +:+ py_str (Z.abs x).

Definition repr_of (x : option (Z * Z)) : string :=
  match x with
  | None => "Infinity"
  | Some (n, k) =>
      if n =? 0 then "0.0"
      else
        let '(p, q) := scale 2 n 1 k in
        let '(m, e) := shortest (n, k) p q (exponent10 p q) 1 17 in
        let d := py_str m in
        format_repr (strip_zeros d) (Z.of_nat (String.length d) + e)
  end.

(** The parts of a literal: sign, digits before and after the point, exponent. *)
Definition float_repr (t : string) : string :=
  let '(sign, t1) := match t with String "-"%char r => ("-", r) | _ => ("", t) end in
  let '(i, t2) := span_digits t1 in
  let '(f, t3) := match t2 with String "."%char r => span_digits r | _ => ("", t2) end in
  let e := match t3 with
           | String _ (String "-"%char r) => - digits_value r
           | String _ (String "+"%char r) => digits_value r
           | String _ r => digits_value r
           | EmptyString => 0
           end in
  sign +:+ repr_of (float_of_decimal (digits_value (i +:+ f)) (e - Z.of_nat (String.length f))).

Example float_repr_fixed : float_repr "1.50" = "1.5".
Proof. vm_compute. done. Qed.
Example float_repr_inexact : float_repr "0.30000000000000004441" = "0.30000000000000004".
Proof. vm_compute. done. Qed.
Example float_repr_exponent : float_repr "123e14" = "1.23e+16".
Proof. vm_compute. done. Qed.
Example float_repr_overflow : float_repr "-1e999" = "-Infinity".
Proof. vm_compute. done. Qed.
