(* ===== verification/Frames.v ===== *)
(** * The client protocol ([packages/protocol/frames.py])

    Frame types, the frame classes, channel-name validation and the error
    codes.  Pydantic (parsing a frame out of a JSON object, printing one) is a
    third-party library: what the code uses of it is the class [Pydantic], and
    what the code relies on is [PydanticLaws]. *)
From Stdlib Require Import Ascii ZArith Lia.
From stdpp Require Import base gmap strings list.
From S2P Require Import Prelude.

(** ** JSON values, as [json.loads] returns them

    Objects are association lists in insertion order, one entry per key.  A
    number with a fraction or exponent is kept as its [repr]. *)
Inductive json :=
| JNull
| JBool (b : bool)
| JInt (z : Z)
| JFloat (repr : string)
| JStr (s : string)
| JArr (l : list json)
| JObj (fields : list (string * json)).

Notation json_object := (list (string * json)).

(** [d.get(k)]. *)
Fixpoint obj_get (k : string) (d : json_object) : option json :=
  match d with
  | [] => None
  | (k', v) :: d' => if String.eqb k k' then Some v else obj_get k d'
  end.

Definition MAX_CHANNEL_LENGTH : nat := 200.

(** The characters of [_CHANNEL_SAFE_CHARS]. *)
Definition _CHANNEL_SAFE_CHARS : string :=
  "abcdefghijklmnopqrstuvwxyzABCDEFGHIJKLMNOPQRSTUVWXYZ0123456789:_-.".

Fixpoint char_in (c : ascii) (s : string) : bool :=
  match s with
  | EmptyString => false
  | String d s' => Ascii.eqb c d || char_in c s'
  end.

(** ** UTC timestamps

    [time.strftime("%Y-%m-%dT%H:%M:%SZ", time.gmtime(t))], for [t] in
    milliseconds: the proleptic Gregorian date of a day number. *)
Definition civil_from_days (z0 : Z) : Z * Z * Z :=
  let z := z0 + 719468 in
  let era := z / 146097 in
  let doe := z mod 146097 in
  let yoe := (doe - doe / 1460 + doe / 36524 - doe / 146096) / 365 in
  let doy := doe - (365 * yoe + yoe / 4 - yoe / 100) in
  let mp := (5 * doy + 2) / 153 in
  let d := doy - (153 * mp + 2) / 5 + 1 in
  let m := if mp <? 10 then mp + 3 else mp - 9 in
  let y := yoe + era * 400 + (if m <=? 2 then 1 else 0) in
  (y, m, d).

Definition pad2 (n : Z) : string := if n <? 10 then "0" +:+ py_str n else py_str n.

Definition utc_timestamp (ms : Z) : string :=
  let s := ms / 1000 in
  let '(y, m, d) := civil_from_days (s / 86400) in
  let r := s mod 86400 in
  py_str y +:+ "-" +:+ pad2 m +:+ "-" +:+ pad2 d +:+ "T" +:+ pad2 (r / 3600)
  +:+ ":" +:+ pad2 (r mod 3600 / 60) +:+ ":" +:+ pad2 (r mod 60) +:+ "Z".

Inductive FrameType :=
| CONNECT | CONNECTED | PING | PONG | SUBSCRIBE | SUBSCRIBED | UNSUBSCRIBE
| UNSUBSCRIBED | MESSAGE | ACK | NACK | RESUME | RESUMED | ERROR | DISCONNECT.

#[export] Instance FrameType_eq_dec : EqDecision FrameType.
Proof. solve_decision. Defined.

(** The value of the [StrEnum] member, which is what [==] compares. *)
Definition frame_type_value (t : FrameType) : string :=
  match t with
  | CONNECT => "CONNECT" | CONNECTED => "CONNECTED" | PING => "PING"
  | PONG => "PONG" | SUBSCRIBE => "SUBSCRIBE" | SUBSCRIBED => "SUBSCRIBED"
  | UNSUBSCRIBE => "UNSUBSCRIBE" | UNSUBSCRIBED => "UNSUBSCRIBED"
  | MESSAGE => "MESSAGE" | ACK => "ACK" | NACK => "NACK"
  | RESUME => "RESUME" | RESUMED => "RESUMED" | ERROR => "ERROR"
  | DISCONNECT => "DISCONNECT"
  end.

(** [validate_channel_name]: the channel itself, or the [ValueError]'s text. *)
Definition validate_channel_name (channel : string) : string + string :=
  if negb (truthy channel) then inl "channel must not be empty"
  else if (MAX_CHANNEL_LENGTH <? py_len channel)%nat
       then inl "channel exceeds max length 200"
  else if negb (forall_chars (fun c => char_in c _CHANNEL_SAFE_CHARS) channel)
       then inl "channel contains unsafe characters"
  else inr channel.

(** ** Frames *)
Record MessageFrame := mkMessageFrame {
  mf_message_id : string;
  mf_channel : string;
  mf_sequence : Z;
  mf_timestamp : string;
  mf_payload : json_object
}.

Inductive frame :=
| ConnectFrame (token : string) (session_id : option string)
| ConnectedFrame (connection_id session_id node_id : string)
    (heartbeat_interval_ms : Z)
| PingFrame (server_time : string)
| PongFrame
| SubscribeFrame (channel : string)
| SubscribedFrame (channel : string)
| UnsubscribeFrame (channel : string)
| UnsubscribedFrame (channel : string)
| MessageF (m : MessageFrame)
| AckFrame (channel : string) (sequence : Z)
| NackFrame (channel message_id reason : string)
| ResumeFrame (session_id : string) (last_ack_by_channel : list (string * Z))
| ResumedFrame (session_id : string) (replayed_by_channel : list (string * Z))
    (gaps : list string)
| ErrorFrame (code message : string)
| DisconnectFrame (reason : string).

Definition frame_type (f : frame) : FrameType :=
  match f with
  | ConnectFrame _ _ => CONNECT | ConnectedFrame _ _ _ _ => CONNECTED
  | PingFrame _ => PING | PongFrame => PONG
  | SubscribeFrame _ => SUBSCRIBE | SubscribedFrame _ => SUBSCRIBED
  | UnsubscribeFrame _ => UNSUBSCRIBE | UnsubscribedFrame _ => UNSUBSCRIBED
  | MessageF _ => MESSAGE | AckFrame _ _ => ACK | NackFrame _ _ _ => NACK
  | ResumeFrame _ _ => RESUME | ResumedFrame _ _ _ => RESUMED
  | ErrorFrame _ _ => ERROR | DisconnectFrame _ => DISCONNECT
  end.

Module ErrorCode.
Definition AUTH_FAILED := "AUTH_FAILED".
Definition CHANNEL_FORBIDDEN := "CHANNEL_FORBIDDEN".
Definition INVALID_CHANNEL := "INVALID_CHANNEL".
Definition INVALID_FRAME := "INVALID_FRAME".
Definition MESSAGE_TOO_LARGE := "MESSAGE_TOO_LARGE".
Definition NOT_CONNECTED := "NOT_CONNECTED".
Definition RESUME_WINDOW_EXPIRED := "RESUME_WINDOW_EXPIRED".
Definition RESUME_GAP := "RESUME_GAP".
Definition SESSION_NOT_FOUND := "SESSION_NOT_FOUND".
Definition SLOW_CONSUMER := "SLOW_CONSUMER".
Definition RATE_LIMITED := "RATE_LIMITED".
Definition UNKNOWN_MESSAGE := "UNKNOWN_MESSAGE".
End ErrorCode.

(** ** JSON text

    [json.dumps] and [json.loads] ([None] when it raises).  The theorems that
    read a text back assume that [loads] inverts [dumps] on that value. *)
Class JsonText := {
  json_dumps : json -> string;
  json_loads : string -> option json
}.

(** ** Pydantic

    [as_str] and [as_int] are the coercions of a [str] and an [int] field,
    [None] when Pydantic raises [ValidationError]; [dump] is
    [model_dump_json]. *)
Class Pydantic := {
  as_str : json -> option string;
  as_int : json -> option Z;
  dump : frame -> string
}.

Class PydanticLaws {Jt : JsonText} {Py : Pydantic} : Prop := {
  as_str_JStr : forall s, as_str (JStr s) = Some s;
  as_int_JInt : forall z, as_int (JInt z) = Some z;
  (* model_dump_json prints a JSON object holding the fields of the frame *)
  dump_message_sequence : forall m, exists d,
    json_loads (dump (MessageF m)) = Some (JObj d) /\
    obj_get "sequence" d = Some (JInt (mf_sequence m))
}.

Section Parsing.
Context {Py : Pydantic}.

Definition str_field (k : string) (raw : json_object) : option string :=
  v ← obj_get k raw; as_str v.

Definition int_field (k : string) (raw : json_object) : option Z :=
  v ← obj_get k raw; as_int v.

(** [SubscribeFrame( **raw )], with the validator of its [channel] field. *)
Definition parse_subscribe (raw : json_object) : option string :=
  c ← str_field "channel" raw;
  match validate_channel_name c with inl _ => None | inr c' => Some c' end.

(** [UnsubscribeFrame( **raw )]: no validator. *)
Definition parse_unsubscribe (raw : json_object) : option string :=
  str_field "channel" raw.

(** [AckFrame( **raw )]. *)
Definition parse_ack (raw : json_object) : option (string * Z) :=
  c ← str_field "channel" raw; n ← int_field "sequence" raw; Some (c, n).

Fixpoint int_items (d : json_object) : option (list (string * Z)) :=
  match d with
  | [] => Some []
  | (k, v) :: d' => n ← as_int v; r ← int_items d'; Some ((k, n) :: r)
  end.

(** [ResumeFrame( **raw )]: [last_ack_by_channel] defaults to the empty dict. *)
Definition parse_resume (raw : json_object) : option (string * list (string * Z)) :=
  sid ← str_field "session_id" raw;
  match obj_get "last_ack_by_channel" raw with
  | None => Some (sid, [])
  | Some (JObj d) => items ← int_items d; Some (sid, items)
  | Some _ => None
  end.

End Parsing.

(** ** Properties of channel validation *)

Definition unsafe_chars : string := " *?{}[]\/'`$()<>|;&".

(** Neither a control character, nor whitespace, nor a Redis glob character,
    nor a brace, nor part of a multi-byte code point. *)
Definition harmless (c : ascii) : bool :=
  (32 <? Ascii.nat_of_ascii c)%nat && (Ascii.nat_of_ascii c <? 127)%nat &&
  negb (char_in c unsafe_chars).

Lemma safe_char_harmless (c : ascii) :
  char_in c _CHANNEL_SAFE_CHARS = true -> harmless c = true.
Proof. destruct c as [[] [] [] [] [] [] [] []]; vm_compute; done. Qed.

Lemma harmless_not_continuation (c : ascii) :
  harmless c = true -> negb (is_continuation c) = true.
Proof. destruct c as [[] [] [] [] [] [] [] []]; vm_compute; done. Qed.

Lemma validate_channel_name_ok (channel c' : string) :
  validate_channel_name channel = inr c' <->
  c' = channel /\ channel <> "" /\ (py_len channel <= 200)%nat /\
  forall_chars (fun c => char_in c _CHANNEL_SAFE_CHARS) channel = true.
Proof.
  unfold validate_channel_name, MAX_CHANNEL_LENGTH.
  destruct channel as [|c s]; [naive_solver|]. cbn [truthy negb].
  destruct (Nat.ltb_spec 200 (py_len (String c s))).
  { split; [done|]. intros (_ & _ & ? & _). lia. }
  destruct (forall_chars _ _); cbn [negb]; naive_solver.
Qed.

(** [validate_channel_name] accepts exactly the non-empty names of at
    most 200 code points over the safe alphabet and returns them unchanged;
    what it accepts is at most 200 bytes long and has no control character,
    whitespace, glob character or brace. *)
Theorem validate_channel_name_spec (channel c' : string) :
  (validate_channel_name channel = inr c' <->
     c' = channel /\ channel <> "" /\ (py_len channel <= 200)%nat /\
     forall_chars (fun c => char_in c _CHANNEL_SAFE_CHARS) channel = true) /\
  (validate_channel_name channel = inr c' ->
     utf8_len channel <= 200 /\ forall_chars harmless channel = true).
Proof.
  split; [apply validate_channel_name_ok|].
  intros (_ & _ & Hlen & Hsafe)%validate_channel_name_ok.
  pose proof (forall_chars_impl _ _ _ safe_char_harmless Hsafe) as Hh.
  split; [|done].
  pose proof (py_len_ascii _ (forall_chars_impl _ _ _ harmless_not_continuation Hh)).
  unfold utf8_len. lia.
Qed.

Lemma validate_channel_name_spec_witness :
  utf8_len "chat:room-42" <= 200 /\ forall_chars harmless "chat:room-42" = true.
Proof.
  destruct (validate_channel_name_spec "chat:room-42" "chat:room-42") as [_ H].
  exact (H eq_refl).
Defined.
