(* ===== verification/Json.v ===== *)
(** * JSON text: [json.dumps] and [json.loads]

    The parts of Python's [json] module the gateway uses, with their default
    options: [dumps] separates items with ", " and keys with ": " and escapes
    every character outside printable ASCII ([ensure_ascii]), surrogate pairs
    included; [loads] is [JSONDecoder.decode] with the scanner of
    [json/scanner.py] and [json/decoder.py], strict about control characters,
    and keeps the last of duplicate keys as [dict] does.  Integers of more
    than [sys.int_info.default_max_str_digits] digits are refused; Python's
    limit on nesting is not part of the model.  [python_json] is the resulting
    [JsonText]. *)
From Stdlib Require Import Ascii ZArith Lia DecimalString.
From stdpp Require Import base gmap strings list.
From S2P Require Import Prelude Frames PyFloat.

(** ** Characters and UTF-8 *)

Definition ord (c : ascii) : Z := Z.of_N (Ascii.N_of_ascii c).
Definition chr (z : Z) : ascii := Ascii.ascii_of_N (Z.to_N z).

(** The bytes of one code point.  A lone surrogate, which a Python [str] may
    hold, is encoded in three bytes like its neighbours. *)
Definition utf8_char (cp : Z) : string :=
  if cp <? 128 then String (chr cp) ""
  else if cp <? 2048 then
    String (chr (192 + cp / 64)) (String (chr (128 + cp mod 64)) "")
  else if cp <? 65536 then
    String (chr (224 + cp / 4096)) (String (chr (128 + cp / 64 mod 64))
      (String (chr (128 + cp mod 64)) ""))
  else
    String (chr (240 + cp / 262144)) (String (chr (128 + cp / 4096 mod 64))
      (String (chr (128 + cp / 64 mod 64)) (String (chr (128 + cp mod 64)) ""))).

Fixpoint concat_str (l : list string) : string :=
  match l with [] => "" | s :: l' => s +:+ concat_str l' end.

Definition utf8 (cps : list Z) : string := concat_str (map utf8_char cps).

(** The code points of a string in this encoding. *)
Fixpoint code_points (s : string) : list Z :=
  match s with
  | String c0 r0 =>
      if ord c0 <? 192 then ord c0 :: code_points r0
      else match r0 with
      | String c1 r1 =>
          if ord c0 <? 224 then
            ((ord c0 - 192) * 64 + (ord c1 - 128)) :: code_points r1
          else match r1 with
          | String c2 r2 =>
              if ord c0 <? 240 then
                ((ord c0 - 224) * 4096 + (ord c1 - 128) * 64 + (ord c2 - 128))
                  :: code_points r2
              else match r2 with
              | String c3 r3 =>
                  ((ord c0 - 240) * 262144 + (ord c1 - 128) * 4096
                   + (ord c2 - 128) * 64 + (ord c3 - 128)) :: code_points r3
              | EmptyString => []
              end
          | EmptyString => []
          end
      | EmptyString => []
      end
  | EmptyString => []
  end.

(** A Unicode scalar value: a code point that is not a surrogate. *)
Definition is_scalar (cp : Z) : bool :=
  (0 <=? cp) && (cp <? 1114112) && negb ((55296 <=? cp) && (cp <? 57344)).

(** The strings that encode a sequence of scalar values. *)
Definition is_text (s : string) : bool :=
  forallb is_scalar (code_points s) && String.eqb (utf8 (code_points s)) s.

(** ** [json.dumps] *)

Definition hex_digit (n : Z) : ascii := if n <? 10 then chr (48 + n) else chr (87 + n).

(** [\uXXXX]. *)
Definition u_escape (n : Z) : string :=
  String "\"%char (String "u"%char
    (String (hex_digit (n / 4096)) (String (hex_digit (n / 256 mod 16))
      (String (hex_digit (n / 16 mod 16)) (String (hex_digit (n mod 16)) ""))))).

(** [ESCAPE_DCT], and the escape of a code point that [ensure_ascii] uses. *)
Definition short_escape (cp : Z) : option ascii :=
  if cp =? 34 then Some "034"%char
  else if cp =? 92 then Some "\"%char
  else if cp =? 10 then Some "n"%char
  else if cp =? 13 then Some "r"%char
  else if cp =? 9 then Some "t"%char
  else if cp =? 12 then Some "f"%char
  else if cp =? 8 then Some "b"%char
  else None.

Definition escape_char (cp : Z) : string :=
  match short_escape cp with
  | Some e => String "\"%char (String e "")
  | None =>
      if (32 <=? cp) && (cp <=? 126) then String (chr cp) ""
      else if cp <? 65536 then u_escape cp
      else u_escape (55296 + (cp - 65536) / 1024)
           +:+ u_escape (56320 + (cp - 65536) mod 1024)
  end.

Definition dumps_str (s : string) : string :=
  String "034"%char
    (concat_str (map escape_char (code_points s)) +:+ String "034"%char "").

Fixpoint join (sep : string) (l : list string) : string :=
  match l with
  | [] => ""
  | [s] => s
  | s :: l' => s +:+ sep +:+ join sep l'
  end.

Fixpoint dumps (j : json) : string :=
  match j with
  | JNull => "null"
  | JBool b => if b then "true" else "false"
  | JInt z => py_str z
  | JFloat r => r
  | JStr s => dumps_str s
  | JArr l => String "["%char (join ", " (map dumps l) +:+ "]")
  | JObj d =>
      String "{"%char
        (join ", " (map (fun kv => dumps_str kv.1 +:+ ": " +:+ dumps kv.2) d) +:+ "}")
  end.

(** ** [json.loads] *)

(** A scanner returns a value and the rest of the text, or raises
    [JSONDecodeError]; [Spent] is lack of fuel. *)
Inductive scanned (A : Type) :=
| Scanned (a : A) (rest : string)
| Malformed
| Spent.
Arguments Scanned {A} a rest.
Arguments Malformed {A}.
Arguments Spent {A}.

Definition scan_bind {A B} (p : scanned A) (f : A -> string -> scanned B) : scanned B :=
  match p with
  | Scanned a r => f a r
  | Malformed => Malformed
  | Spent => Spent
  end.

Definition is_ws (c : ascii) : bool :=
  let n := Ascii.nat_of_ascii c in
  (n =? 32)%nat || (n =? 9)%nat || (n =? 10)%nat || (n =? 13)%nat.

Fixpoint skip_ws (s : string) : string :=
  match s with
  | String c r => if is_ws c then skip_ws r else s
  | EmptyString => ""
  end.

Definition hex_value (c : ascii) : option Z :=
  let n := ord c in
  if (48 <=? n) && (n <=? 57) then Some (n - 48)
  else if (97 <=? n) && (n <=? 102) then Some (n - 87)
  else if (65 <=? n) && (n <=? 70) then Some (n - 55)
  else None.

Definition hex4 (a b c d : ascii) : option Z :=
  x ← hex_value a; y ← hex_value b; z ← hex_value c; w ← hex_value d;
  Some (x * 4096 + y * 256 + z * 16 + w).

(** [BACKSLASH]. *)
Definition backslash (c : ascii) : option ascii :=
  match c with
  | "034"%char => Some "034"%char
  | "\"%char => Some "\"%char
  | "/"%char => Some "/"%char
  | "b"%char => Some "008"%char
  | "f"%char => Some "012"%char
  | "n"%char => Some "010"%char
  | "r"%char => Some "013"%char
  | "t"%char => Some "009"%char
  | _ => None
  end.

Definition prepend (p : string) (r : scanned string) : scanned string :=
  scan_bind r (fun s rest => Scanned (p +:+ s) rest).

Definition quote : ascii := "034"%char.
Definition reverse_solidus : ascii := "\"%char.
Local Infix "==" := Ascii.eqb (at level 70).

(** The low surrogate that follows a high one, as [\uXXXX], or the high
    surrogate alone. *)
Definition is_high (u : Z) : bool := (55296 <=? u) && (u <? 56320).
Definition is_low (u : Z) : bool := (56320 <=? u) && (u <? 57344).

(** [scanstring], from after the opening quote. *)
Fixpoint scanstring (s : string) : scanned string :=
  match s with
  | EmptyString => Malformed
  | String c0 r0 =>
      if c0 == quote then Scanned "" r0
      else if c0 == reverse_solidus then
        match r0 with
        | EmptyString => Malformed
        | String e r1 =>
            if e == "u"%char then
              match r1 with
              | String a (String b (String c (String d r))) =>
                  match hex4 a b c d with
                  | None => Malformed
                  | Some hi =>
                      match r with
                      | String x (String y (String a' (String b' (String c' (String d' r'))))) =>
                          if is_high hi && (x == reverse_solidus) && (y == "u"%char) then
                            match hex4 a' b' c' d' with
                            | None => Malformed
                            | Some lo =>
                                if is_low lo
                                then prepend (utf8_char
                                                (65536 + (hi - 55296) * 1024 + (lo - 56320)))
                                       (scanstring r')
                                else prepend (utf8_char hi) (scanstring r)
                            end
                          else prepend (utf8_char hi) (scanstring r)
                      | _ => prepend (utf8_char hi) (scanstring r)
                      end
                  end
              | _ => Malformed
              end
            else match backslash e with
                 | Some c => prepend (String c "") (scanstring r1)
                 | None => Malformed
                 end
        end
      else if ord c0 <? 32 then Malformed
      else prepend (String c0 "") (scanstring r0)
  end.

(** The rest of [s] after the character [c]. *)
Definition after (c : ascii) (s : string) : option string :=
  match s with
  | String d r => if d == c then Some r else None
  | EmptyString => None
  end.

(** [NUMBER_RE]: an integer part, then an optional fraction and exponent. *)
Definition scan_sign (s : string) : string * string :=
  match after "-"%char s with Some r => ("-", r) | None => ("", s) end.

Definition scan_int (s : string) : option (string * string) :=
  let '(sign, r) := scan_sign s in
  match after "0"%char r with
  | Some r' => Some (sign +:+ "0", r')
  | None =>
      let '(d, r') := span_digits r in
      if truthy d then Some (sign +:+ d, r') else None
  end.

Definition scan_frac (s : string) : string * string :=
  match after "."%char s with
  | Some r =>
      let '(d, r') := span_digits r in
      if truthy d then (String "."%char d, r') else ("", s)
  | None => ("", s)
  end.

Definition scan_exp_sign (s : string) : string * string :=
  match after "+"%char s with Some r => ("+", r) | None => scan_sign s end.

Definition scan_exp (s : string) : string * string :=
  match s with
  | String e r =>
      if (e == "e"%char) || (e == "E"%char) then
        let '(sign, r1) := scan_exp_sign r in
        let '(d, r2) := span_digits r1 in
        if truthy d then (String e (sign +:+ d), r2) else ("", s)
      else ("", s)
  | EmptyString => ("", s)
  end.

(** [sys.int_info.default_max_str_digits]. *)
Definition max_str_digits : Z := 4300.

Definition int_digits (i : string) : Z :=
  Z.of_nat (String.length (removeprefix i "-")).

Definition scan_number (s : string) : scanned json :=
  match scan_int s with
  | None => Malformed
  | Some (i, r) =>
      let '(f, r1) := scan_frac r in
      let '(x, r2) := scan_exp r1 in
      if truthy f || truthy x then Scanned (JFloat (float_repr (i +:+ f +:+ x))) r2
      else if max_str_digits <? int_digits i then Malformed
      else match py_int i with Some z => Scanned (JInt z) r2 | None => Malformed end
  end.

(** The constants of [scan_once]. *)
Definition constants : list (string * json) :=
  [("null", JNull); ("true", JBool true); ("false", JBool false);
   ("NaN", JFloat "NaN"); ("Infinity", JFloat "Infinity"); ("-Infinity", JFloat "-Infinity")].

Fixpoint scan_constant (l : list (string * json)) (s : string) : option (json * string) :=
  match l with
  | [] => None
  | (k, v) :: l' =>
      match drop_prefix k s with
      | Some r => Some (v, r)
      | None => scan_constant l' s
      end
  end.

(** [d[k] = v] on a dict: a key keeps its first position. *)
Fixpoint dict_set (k : string) (v : json) (d : json_object) : json_object :=
  match d with
  | [] => [(k, v)]
  | (k', v') :: d' => if String.eqb k k' then (k, v) :: d' else (k', v') :: dict_set k v d'
  end.

Definition dict_of (pairs : list (string * json)) : json_object :=
  fold_left (fun d kv => dict_set kv.1 kv.2 d) pairs [].

(** [scan_once], and the loops of [JSONArray] and [JSONObject] from the first
    element or key on.  Every call consumes fuel. *)
Fixpoint scan_once (n : nat) (s : string) {struct n} : scanned json :=
  match n, s with
  | O, _ => Spent
  | S _, EmptyString => Malformed
  | S n', String c r =>
      if c == quote then
        scan_bind (scanstring r) (fun t r' => Scanned (JStr t) r')
      else if c == "{"%char then
        match after "}"%char (skip_ws r) with
        | Some r' => Scanned (JObj []) r'
        | None => scan_bind (scan_pairs n' (skip_ws r)) (fun l r' =>
                    Scanned (JObj (dict_of l)) r')
        end
      else if c == "["%char then
        match after "]"%char (skip_ws r) with
        | Some r' => Scanned (JArr []) r'
        | None => scan_bind (scan_items n' (skip_ws r)) (fun l r' => Scanned (JArr l) r')
        end
      else
        match scan_constant constants s with
        | Some (v, r') => Scanned v r'
        | None => scan_number s
        end
  end
with scan_items (n : nat) (s : string) {struct n} : scanned (list json) :=
  match n with
  | O => Spent
  | S n' =>
      scan_bind (scan_once n' s) (fun v r =>
        match after "]"%char (skip_ws r) with
        | Some r' => Scanned [v] r'
        | None =>
            match after ","%char (skip_ws r) with
            | Some r' => scan_bind (scan_items n' (skip_ws r')) (fun l r'' =>
                           Scanned (v :: l) r'')
            | None => Malformed
            end
        end)
  end
with scan_pairs (n : nat) (s : string) {struct n} : scanned (list (string * json)) :=
  match n, after quote s with
  | O, _ => Spent
  | S _, None => Malformed
  | S n', Some r =>
      scan_bind (scanstring r) (fun k r1 =>
        match after ":"%char (skip_ws r1) with
        | None => Malformed
        | Some r2 =>
            scan_bind (scan_once n' (skip_ws r2)) (fun v r3 =>
              match after "}"%char (skip_ws r3) with
              | Some r4 => Scanned [(k, v)] r4
              | None =>
                  match after ","%char (skip_ws r3) with
                  | Some r4 => scan_bind (scan_pairs n' (skip_ws r4)) (fun l r5 =>
                                 Scanned ((k, v) :: l) r5)
                  | None => Malformed
                  end
              end)
        end)
  end.

(** Every level of the recursion that does not consume a character is followed
    by one that does. *)
Definition scan_fuel (s : string) : nat := S (2 * String.length s).

Definition decode (s : string) : scanned json :=
  let t := skip_ws s in
  scan_bind (scan_once (scan_fuel t) t) (fun j r =>
    match skip_ws r with EmptyString => Scanned j "" | _ => Malformed end).

Definition loads (s : string) : option json :=
  match decode s with Scanned j _ => Some j | _ => None end.

Definition python_json : JsonText := {| json_dumps := dumps; json_loads := loads |}.
