(* ===== verification/JsonLaws.v ===== *)
(** * Properties of the JSON codec

    [loads] terminates on every text and its result does not depend on the
    fuel; [loads] inverts [dumps]; what [dumps] prints is printable ASCII. *)
From Stdlib Require Import Ascii ZArith Lia DecimalString DecimalZ.
From stdpp Require Import base gmap strings list.
From S2P Require Import Prelude Frames PyFloat Json.

Notation len := String.length.

(** ** Every scanner consumes input *)

Lemma skip_ws_len (s : string) : (len (skip_ws s) <= len s)%nat.
Proof. induction s as [|c s IH]; cbn; [lia|]. destruct (is_ws c); cbn; lia. Qed.

Lemma after_len (c : ascii) (s r : string) : after c s = Some r -> len s = S (len r).
Proof. destruct s as [|d s]; cbn; [done|]. destruct (Ascii.eqb d c); naive_solver. Qed.

Lemma span_digits_len (s d r : string) :
  span_digits s = (d, r) -> len s = (len d + len r)%nat.
Proof.
  revert d r. induction s as [|c s IH]; intros d r; cbn; [by intros [= <- <-]|].
  destruct (is_digit c); [|by intros [= <- <-]].
  destruct (span_digits s) as [d' r'] eqn:E. intros [= <- <-]. cbn. by rewrite (IH _ _ eq_refl).
Qed.

Lemma drop_prefix_len (k s r : string) :
  drop_prefix k s = Some r -> len s = (len k + len r)%nat.
Proof.
  revert s. induction k as [|c k IH]; intros [|d s]; cbn; [naive_solver..|].
  destruct (Ascii.eqb c d); [|done]. intros H%IH. lia.
Qed.

Lemma scan_constant_len (l : list (string * json)) (s r : string) (v : json) :
  Forall (fun kv => kv.1 <> "") l -> scan_constant l s = Some (v, r) -> (len r < len s)%nat.
Proof.
  induction 1 as [|[k w] l Hk _ IH]; cbn; [done|].
  destruct (drop_prefix k s) as [r'|] eqn:E; [|done]. intros [= <- <-].
  apply drop_prefix_len in E. destruct k; [done|]. cbn in E. lia.
Qed.

(** [shrinks n need s p]: a success of [p] on [s] leaves less text, and only
    fuel below [need] is spent. *)
Definition shrinks {A} (n need : nat) (s : string) (p : scanned A) : Prop :=
  match p with
  | Scanned _ r => (len r < len s)%nat
  | Malformed => True
  | Spent => (n < need)%nat
  end.

Lemma scan_bind_shrinks {A B} n m need need' s s' (p : scanned A)
    (f : A -> string -> scanned B) :
  shrinks m need s p ->
  (len s <= len s')%nat -> ((m < need)%nat -> (n < need')%nat) ->
  (forall a r, (len r < len s)%nat -> shrinks n need' s' (f a r)) ->
  shrinks n need' s' (scan_bind p f).
Proof. intros Hp Hs Hm Hf. destruct p as [a r| |]; cbn in *; auto. Qed.

Lemma prepend_shrinks n need s s' t p :
  (len s <= len s')%nat -> shrinks n need s p -> shrinks n need s' (prepend t p).
Proof.
  intros Hs Hp. destruct p as [a r| |]; cbn in *; auto. lia.
Qed.

Lemma scanstring_shrinks (s : string) : shrinks 0 0 s (scanstring s).
Proof.
  remember (len s) as l eqn:Hl. revert s Hl.
  induction l as [l IH] using lt_wf_ind. intros s ->.
  assert (forall t r, (len r < len s)%nat -> shrinks 0 0 s (prepend t (scanstring r))) as Hp.
  { intros t r Hr. eapply prepend_shrinks; [|by eapply IH]. lia. }
  destruct s as [|c0 r0]; cbn [scanstring]; [done|].
  repeat (case_match; cbn [shrinks] in *; try exact I; try (apply Hp; cbn; lia)).
  cbn. lia.
Qed.

Lemma scan_int_len (s i r : string) : scan_int s = Some (i, r) -> (len r < len s)%nat.
Proof.
  unfold scan_int. destruct (scan_sign s) as [sg r1] eqn:Es.
  assert (len r1 <= len s)%nat as H1.
  { unfold scan_sign in Es. destruct (after _ s) eqn:Ea; [apply after_len in Ea|];
      simplify_eq; lia. }
  destruct (after _ r1) as [r'|] eqn:E0.
  { apply after_len in E0. intros [= <- <-]. lia. }
  destruct (span_digits r1) as [d r'] eqn:Ed. apply span_digits_len in Ed.
  destruct d as [|c d]; cbn; [done|]. intros [= <- <-]. cbn in Ed. lia.
Qed.

Lemma scan_frac_len (s f r : string) : scan_frac s = (f, r) -> (len r <= len s)%nat.
Proof.
  unfold scan_frac. destruct (after _ s) as [r1|] eqn:Ea; [|intros [= <- <-]; lia].
  apply after_len in Ea. destruct (span_digits r1) as [d r'] eqn:Ed.
  apply span_digits_len in Ed. destruct (truthy d); intros [= <- <-]; lia.
Qed.

Lemma scan_exp_len (s f r : string) : scan_exp s = (f, r) -> (len r <= len s)%nat.
Proof.
  unfold scan_exp. destruct s as [|e r0]; [intros [= <- <-]; lia|].
  destruct (_ || _); [|intros [= <- <-]; lia].
  destruct (scan_exp_sign r0) as [sg r1] eqn:Es.
  assert (len r1 <= len r0)%nat as H1.
  { unfold scan_exp_sign, scan_sign in Es.
    destruct (after _ r0) eqn:Ea; [apply after_len in Ea; simplify_eq; lia|].
    destruct (after "-"%char r0) eqn:Eb; [apply after_len in Eb|]; simplify_eq; lia. }
  destruct (span_digits r1) as [d r'] eqn:Ed. apply span_digits_len in Ed.
  destruct (truthy d); intros [= <- <-]; cbn; lia.
Qed.

Lemma scan_number_shrinks (s : string) : shrinks 0 0 s (scan_number s).
Proof.
  unfold scan_number. destruct (scan_int s) as [[i r]|] eqn:Ei; [|done].
  destruct (scan_frac r) as [f r1] eqn:Ef. destruct (scan_exp r1) as [x r2] eqn:Ex.
  apply scan_int_len in Ei. apply scan_frac_len in Ef. apply scan_exp_len in Ex.
  repeat case_match; cbn; lia.
Qed.

Lemma shrinks_any {A} (n need : nat) s (p : scanned A) : shrinks 0 0 s p -> shrinks n need s p.
Proof. destruct p; cbn; [done..|lia]. Qed.

Lemma shrinks_weaken {A} n need s s' (p : scanned A) :
  shrinks n need s p -> (len s <= len s')%nat -> shrinks n need s' p.
Proof. destruct p; cbn; [lia|done|done]. Qed.

Lemma constants_nonempty : Forall (fun kv => kv.1 <> "") constants.
Proof. repeat constructor; done. Qed.

(** The fuel [2 * len s + 1] for a value, and one more for a list of values or
    pairs, is never spent. *)
Lemma scan_shrinks (n : nat) :
  (forall s, shrinks n (2 * len s + 1) s (scan_once n s)) /\
  (forall s, shrinks n (2 * len s + 2) s (scan_items n s)) /\
  (forall s, shrinks n (2 * len s + 2) s (scan_pairs n s)).
Proof.
  induction n as [|n (IHv & IHi & IHp)]; [split_and!; intros s; cbn; lia|].
  split_and!; intros s.
  - destruct s as [|c r]; [done|]. cbn [scan_once].
    pose proof (skip_ws_len r) as Hw.
    destruct (Ascii.eqb c quote).
    { eapply (scan_bind_shrinks _ 0 0); [apply scanstring_shrinks|cbn; lia..]. }
    destruct (Ascii.eqb c "{"%char).
    { destruct (after _ _) as [r'|] eqn:E; [apply after_len in E; cbn; lia|].
      eapply scan_bind_shrinks; [apply IHp|cbn; lia..]. }
    destruct (Ascii.eqb c "["%char).
    { destruct (after _ _) as [r'|] eqn:E; [apply after_len in E; cbn; lia|].
      eapply scan_bind_shrinks; [apply IHi|cbn; lia..]. }
    destruct (scan_constant _ _) as [[v r']|] eqn:E.
    { by apply scan_constant_len in E; [|apply constants_nonempty]. }
    apply shrinks_any, scan_number_shrinks.
  - cbn [scan_items]. eapply scan_bind_shrinks; [apply IHv|lia|lia|].
    intros v r Hr. pose proof (skip_ws_len r) as Hw.
    destruct (after "]"%char _) as [r'|] eqn:E; [apply after_len in E; cbn; lia|].
    destruct (after ","%char _) as [r'|] eqn:E'; [|done]. apply after_len in E'.
    pose proof (skip_ws_len r').
    eapply scan_bind_shrinks; [apply IHi|cbn; lia..].
  - cbn [scan_pairs]. destruct (after quote s) as [r|] eqn:Eq; [|done]. apply after_len in Eq.
    eapply (scan_bind_shrinks _ 0 0); [apply scanstring_shrinks|lia|lia|].
    intros k r1 H1. pose proof (skip_ws_len r1).
    destruct (after ":"%char _) as [r2|] eqn:E2; [|done]. apply after_len in E2.
    pose proof (skip_ws_len r2).
    eapply scan_bind_shrinks; [apply IHv|lia|lia|].
    intros v r3 H3. pose proof (skip_ws_len r3).
    destruct (after "}"%char _) as [r4|] eqn:E4; [apply after_len in E4; cbn; lia|].
    destruct (after ","%char _) as [r4|] eqn:E4'; [|done]. apply after_len in E4'.
    pose proof (skip_ws_len r4).
    eapply scan_bind_shrinks; [apply IHp|cbn; lia..].
Qed.

(** ** The result does not depend on the fuel *)

Definition approx {A} (p q : scanned A) : Prop := p = Spent \/ p = q.

Lemma approx_refl {A} (p : scanned A) : approx p p.
Proof. by right. Qed.

Lemma scan_bind_approx {A B} (p q : scanned A) (f g : A -> string -> scanned B) :
  approx p q -> (forall a r, approx (f a r) (g a r)) -> approx (scan_bind p f) (scan_bind q g).
Proof. intros [->| ->] Hf; [by left|]. destruct q; cbn; [apply Hf|by right..]. Qed.

(** One unfolding of each loop. *)
Definition once_body (pairs : string -> scanned (list (string * json)))
    (items : string -> scanned (list json)) (c : ascii) (r : string) : scanned json :=
  if Ascii.eqb c quote then
    scan_bind (scanstring r) (fun t r' => Scanned (JStr t) r')
  else if Ascii.eqb c "{"%char then
    match after "}"%char (skip_ws r) with
    | Some r' => Scanned (JObj []) r'
    | None => scan_bind (pairs (skip_ws r)) (fun l r' => Scanned (JObj (dict_of l)) r')
    end
  else if Ascii.eqb c "["%char then
    match after "]"%char (skip_ws r) with
    | Some r' => Scanned (JArr []) r'
    | None => scan_bind (items (skip_ws r)) (fun l r' => Scanned (JArr l) r')
    end
  else
    match scan_constant constants (String c r) with
    | Some (v, r') => Scanned v r'
    | None => scan_number (String c r)
    end.

Definition items_body (once : string -> scanned json)
    (items : string -> scanned (list json)) (s : string) : scanned (list json) :=
  scan_bind (once s) (fun v r =>
    match after "]"%char (skip_ws r) with
    | Some r' => Scanned [v] r'
    | None =>
        match after ","%char (skip_ws r) with
        | Some r' => scan_bind (items (skip_ws r')) (fun l r'' => Scanned (v :: l) r'')
        | None => Malformed
        end
    end).

Definition pair_value (once : string -> scanned json)
    (pairs : string -> scanned (list (string * json))) (k r2 : string) :
    scanned (list (string * json)) :=
  scan_bind (once (skip_ws r2)) (fun v r3 =>
    match after "}"%char (skip_ws r3) with
    | Some r4 => Scanned [(k, v)] r4
    | None =>
        match after ","%char (skip_ws r3) with
        | Some r4 => scan_bind (pairs (skip_ws r4)) (fun l r5 => Scanned ((k, v) :: l) r5)
        | None => Malformed
        end
    end).

Lemma scan_once_S n c r :
  scan_once (S n) (String c r) = once_body (scan_pairs n) (scan_items n) c r.
Proof. done. Qed.

Lemma scan_items_S n s : scan_items (S n) s = items_body (scan_once n) (scan_items n) s.
Proof. done. Qed.

Lemma scan_pairs_S n s :
  scan_pairs (S n) s =
  match after quote s with
  | None => Malformed
  | Some r => scan_bind (scanstring r) (fun k r1 =>
      match after ":"%char (skip_ws r1) with
      | None => Malformed
      | Some r2 => pair_value (scan_once n) (scan_pairs n) k r2
      end)
  end.
Proof. done. Qed.

Lemma scan_step (n : nat) :
  (forall s, approx (scan_once n s) (scan_once (S n) s)) /\
  (forall s, approx (scan_items n s) (scan_items (S n) s)) /\
  (forall s, approx (scan_pairs n s) (scan_pairs (S n) s)).
Proof.
  induction n as [|n (IHv & IHi & IHp)]; [split_and!; intros s; by left|].
  split_and!; intros s.
  - destruct s as [|c r]; [by right|]. rewrite !scan_once_S. unfold once_body.
    repeat case_match; auto using approx_refl, scan_bind_approx.
  - rewrite !scan_items_S. apply scan_bind_approx; [apply IHv|]. intros v r.
    repeat case_match; auto using approx_refl, scan_bind_approx.
  - rewrite !scan_pairs_S. destruct (after quote s); [|by right].
    apply scan_bind_approx; [by right|]. intros k r1.
    destruct (after _ _); [|by right]. apply scan_bind_approx; [apply IHv|]. intros v r3.
    repeat case_match; auto using approx_refl, scan_bind_approx.
Qed.

Lemma scan_once_more (n m : nat) (s : string) :
  (n <= m)%nat -> approx (scan_once n s) (scan_once m s).
Proof.
  induction 1 as [|m _ IH]; [by right|].
  destruct IH as [IH| ->]; [by left|]. apply scan_step.
Qed.

Lemma scan_items_more (n m : nat) (s : string) :
  (n <= m)%nat -> approx (scan_items n s) (scan_items m s).
Proof.
  induction 1 as [|m _ IH]; [by right|].
  destruct IH as [IH| ->]; [by left|]. apply scan_step.
Qed.

Lemma scan_pairs_more (n m : nat) (s : string) :
  (n <= m)%nat -> approx (scan_pairs n s) (scan_pairs m s).
Proof.
  induction 1 as [|m _ IH]; [by right|].
  destruct IH as [IH| ->]; [by left|]. apply scan_step.
Qed.

Lemma approx_scanned {A} (p q : scanned A) a r : approx p q -> p = Scanned a r -> q = Scanned a r.
Proof. by intros [->| ->]. Qed.

Lemma scan_fuel_enough (s : string) : scan_once (scan_fuel s) s <> Spent.
Proof.
  intros H. pose proof (proj1 (scan_shrinks (scan_fuel s)) s) as Hs. rewrite H in Hs.
  unfold scan_fuel in Hs. cbn [shrinks] in Hs. lia.
Qed.

(** Whatever fuel gives a result, [scan_fuel] gives the same. *)
Lemma scan_fuel_complete (n : nat) (s : string) j r :
  scan_once n s = Scanned j r -> scan_once (scan_fuel s) s = Scanned j r.
Proof.
  intros H. destruct (Nat.le_ge_cases n (scan_fuel s)) as [Hn|Hn].
  - by eapply approx_scanned; [apply scan_once_more|].
  - destruct (scan_once_more _ _ s Hn) as [E| ->]; [by apply scan_fuel_enough in E|done].
Qed.

(** ** Strings survive escaping *)

Lemma ord_range (c : ascii) : 0 <= ord c < 256.
Proof. unfold ord. pose proof (Ascii.N_ascii_bounded c). lia. Qed.

Lemma ord_chr (z : Z) : 0 <= z < 256 -> ord (chr z) = z.
Proof. intros H. unfold ord, chr. rewrite Ascii.N_ascii_embedding; lia. Qed.

Lemma eqb_ord (a b : ascii) : Ascii.eqb a b = (ord a =? ord b).
Proof.
  destruct (Ascii.eqb_spec a b) as [->|H]; [by rewrite Z.eqb_refl|].
  symmetry. apply Z.eqb_neq. intros E. apply H. unfold ord in E.
  apply N2Z.inj in E. by rewrite <- (Ascii.ascii_N_embedding a), E, Ascii.ascii_N_embedding.
Qed.

Lemma hex_value_digit (n : Z) : 0 <= n < 16 -> hex_value (hex_digit n) = Some n.
Proof.
  intros H. unfold hex_value, hex_digit.
  destruct (Z.ltb_spec n 10); rewrite ord_chr by lia;
    repeat (case_match; [f_equal; lia|]); lia.
Qed.

Lemma hex4_digits (n : Z) : 0 <= n < 65536 ->
  hex4 (hex_digit (n / 4096)) (hex_digit (n / 256 mod 16)) (hex_digit (n / 16 mod 16))
    (hex_digit (n mod 16)) = Some n.
Proof.
  intros H. unfold hex4. rewrite !hex_value_digit by (Z.div_mod_to_equations; lia).
  cbn. f_equal. Z.div_mod_to_equations; lia.
Qed.

Lemma code_points_char (cp : Z) (r : string) :
  0 <= cp < 1114112 -> code_points (utf8_char cp +:+ r) = cp :: code_points r.
Proof.
  intros H. unfold utf8_char.
  destruct (Z.ltb_spec cp 128); [|destruct (Z.ltb_spec cp 2048); [|destruct (Z.ltb_spec cp 65536)]];
    rewrite ?str_app_cons, str_app_nil_l; cbn [code_points];
    rewrite !ord_chr by (Z.div_mod_to_equations; lia);
    repeat (case_match; [try (Z.div_mod_to_equations; lia)|]);
    try (Z.div_mod_to_equations; lia);
    f_equal; Z.div_mod_to_equations; lia.
Qed.

Lemma code_points_utf8 (cps : list Z) :
  Forall (fun cp => 0 <= cp < 1114112) cps -> code_points (utf8 cps) = cps.
Proof.
  unfold utf8. induction 1 as [|cp cps Hc _ IH]; [done|]. cbn [map concat_str].
  by rewrite code_points_char, IH.
Qed.

Lemma scanstring_u_escape (n : Z) (r : string) :
  0 <= n < 65536 -> is_high n = false ->
  scanstring (u_escape n +:+ r) = prepend (utf8_char n) (scanstring r).
Proof.
  intros Hn Hh. unfold u_escape. rewrite !str_app_cons, str_app_nil_l. cbn [scanstring].
  change (Ascii.eqb "\" quote) with false. change (Ascii.eqb "\" reverse_solidus) with true.
  change (Ascii.eqb "u" "u") with true. cbn match. rewrite hex4_digits, Hh by done.
  cbn [andb]. by repeat case_match.
Qed.

Lemma scanstring_surrogates (hi lo : Z) (r : string) :
  is_high hi = true -> is_low lo = true ->
  scanstring (u_escape hi +:+ u_escape lo +:+ r) =
  prepend (utf8_char (65536 + (hi - 55296) * 1024 + (lo - 56320))) (scanstring r).
Proof.
  intros Hh Hl.
  assert (0 <= hi < 65536 /\ 0 <= lo < 65536) as [H1 H2] by (unfold is_high, is_low in *; lia).
  unfold u_escape. rewrite !str_app_cons, !str_app_nil_l. cbn [scanstring].
  change (Ascii.eqb "\" quote) with false. change (Ascii.eqb "\" reverse_solidus) with true.
  change (Ascii.eqb "u" "u") with true. cbn match. rewrite !hex4_digits, Hh, Hl by done. done.
Qed.

Lemma scanstring_plain (cp : Z) (r : string) :
  32 <= cp < 127 -> cp <> 34 -> cp <> 92 ->
  scanstring (String (chr cp) r) = prepend (String (chr cp) "") (scanstring r).
Proof.
  intros H H1 H2. cbn [scanstring]. rewrite !eqb_ord, ord_chr by lia.
  change (ord quote) with 34. change (ord reverse_solidus) with 92.
  destruct (Z.eqb_spec cp 34); [done|]. destruct (Z.eqb_spec cp 92); [done|].
  destruct (Z.ltb_spec cp 32); [lia|done].
Qed.

Lemma short_escape_inv (cp : Z) (e : ascii) :
  short_escape cp = Some e ->
  Ascii.eqb e "u"%char = false /\ backslash e = Some (chr cp) /\ 0 <= cp < 128.
Proof.
  unfold short_escape.
  repeat (case_match; [intros [= <-]; match goal with H : _ = true |- _ =>
    apply Z.eqb_eq in H as -> end; done|]).
  done.
Qed.

Lemma short_escape_none (cp : Z) : short_escape cp = None -> cp <> 34 /\ cp <> 92.
Proof. intros H. split; intros ->; done. Qed.

Lemma utf8_char_ascii (cp : Z) : cp < 128 -> utf8_char cp = String (chr cp) "".
Proof. intros H. unfold utf8_char. by destruct (Z.ltb_spec cp 128); [|lia]. Qed.

Lemma scanstring_escape (cp : Z) (r : string) :
  is_scalar cp = true ->
  scanstring (escape_char cp +:+ r) = prepend (utf8_char cp) (scanstring r).
Proof.
  unfold is_scalar. intros Hs. unfold escape_char.
  destruct (short_escape cp) as [e|] eqn:E.
  { apply short_escape_inv in E as (Hu & Hb & Hr).
    rewrite !str_app_cons, str_app_nil_l. cbn [scanstring].
    change (Ascii.eqb "\" quote) with false. change (Ascii.eqb "\" reverse_solidus) with true.
    cbn match. rewrite Hu, Hb. by rewrite utf8_char_ascii by lia. }
  apply short_escape_none in E as [H1 H2].
  destruct ((32 <=? cp) && (cp <=? 126)) eqn:Hp.
  { rewrite str_app_cons, str_app_nil_l, scanstring_plain by lia.
    by rewrite utf8_char_ascii by lia. }
  destruct (Z.ltb_spec cp 65536).
  { apply scanstring_u_escape; unfold is_high; lia. }
  rewrite str_app_assoc, scanstring_surrogates.
  - f_equal. f_equal. Z.div_mod_to_equations; lia.
  - unfold is_high. Z.div_mod_to_equations; lia.
  - unfold is_low. Z.div_mod_to_equations; lia.
Qed.

Lemma scanstring_escapes (cps : list Z) (r : string) :
  forallb is_scalar cps = true ->
  scanstring (concat_str (map escape_char cps) +:+ String quote r) = Scanned (utf8 cps) r.
Proof.
  unfold utf8. induction cps as [|cp cps IH]; [done|].
  cbn [forallb map concat_str]. intros [Hc Hcs]%andb_true_iff.
  by rewrite str_app_assoc, scanstring_escape, IH by done.
Qed.

(** [scanstring] reads back what [dumps_str] printed. *)
Lemma scanstring_dumps_str (s r : string) :
  is_text s = true ->
  exists b, dumps_str s +:+ r = String quote b /\ scanstring b = Scanned s r.
Proof.
  intros [Hs Hu]%andb_true_iff. apply String.eqb_eq in Hu.
  eexists. split; [unfold dumps_str; by rewrite str_app_cons, str_app_assoc, str_app_cons|].
  rewrite str_app_nil_l. etrans; [by apply scanstring_escapes|]. by rewrite Hu.
Qed.

(** ** Numbers survive printing *)

(** The text after a number: nothing of it may continue the number. *)
Definition stops (r : string) : bool :=
  match r with
  | EmptyString => true
  | String c _ => negb (is_digit c) && negb (Ascii.eqb c "."%char) &&
                  negb (Ascii.eqb c "e"%char || Ascii.eqb c "E"%char)
  end.

Lemma stops_inv (r : string) : stops r = true ->
  span_digits r = ("", r) /\ after "."%char r = None /\ scan_exp r = ("", r).
Proof.
  destruct r as [|c r]; [done|]. cbn. intros H.
  destruct (is_digit c); [done|]. destruct (Ascii.eqb c "."); [done|]. cbn in H.
  by destruct (_ || _).
Qed.

Lemma span_digits_app (t r d r1 : string) :
  stops r = true -> span_digits t = (d, r1) -> span_digits (t +:+ r) = (d, r1 +:+ r).
Proof.
  intros Hr. revert d r1. induction t as [|c t IH]; intros d r1.
  - intros [= <- <-]. rewrite str_app_nil_l. by apply stops_inv.
  - rewrite str_app_cons. cbn [span_digits].
    destruct (is_digit c); [|by intros [= <- <-]].
    destruct (span_digits t) as [d' r'] eqn:E. intros [= <- <-]. by rewrite (IH _ _ eq_refl).
Qed.

Lemma after_app (c d : ascii) (t r : string) :
  after c (String d t +:+ r) = (fun x => x +:+ r) <$> after c (String d t).
Proof. rewrite str_app_cons. cbn. by destruct (Ascii.eqb d c). Qed.

Lemma scan_sign_app (d : ascii) (t r sg t1 : string) :
  scan_sign (String d t) = (sg, t1) -> scan_sign (String d t +:+ r) = (sg, t1 +:+ r).
Proof.
  unfold scan_sign. rewrite after_app.
  destruct (after _ (String d t)); cbn; by intros [= <- <-].
Qed.

Lemma scan_int_app (t r i r1 : string) :
  stops r = true -> scan_int t = Some (i, r1) -> scan_int (t +:+ r) = Some (i, r1 +:+ r).
Proof.
  intros Hr. unfold scan_int. destruct t as [|c t]; [done|].
  destruct (scan_sign (String c t)) as [sg t1] eqn:Es. apply (scan_sign_app _ _ r) in Es as ->.
  destruct t1 as [|c1 t1]; [done|]. rewrite after_app.
  destruct (after _ (String c1 t1)) as [r'|]; cbn [fmap option_fmap option_map];
    [by intros [= <- <-]|].
  destruct (span_digits (String c1 t1)) as [d r'] eqn:Ed.
  rewrite (span_digits_app _ _ _ _ Hr Ed). destruct (truthy d); by intros [= <- <-].
Qed.

Lemma scan_frac_app (t r f r1 : string) :
  stops r = true -> scan_frac t = (f, r1) -> scan_frac (t +:+ r) = (f, r1 +:+ r).
Proof.
  intros Hr. unfold scan_frac. destruct t as [|c t].
  { cbn. intros [= <- <-]. rewrite !str_app_nil_l. by apply stops_inv in Hr as (_ & -> & _). }
  rewrite after_app. destruct (after _ (String c t)) as [t1|];
    cbn [fmap option_fmap option_map]; [|by intros [= <- <-]].
  destruct (span_digits t1) as [d r'] eqn:Ed. rewrite (span_digits_app _ _ _ _ Hr Ed).
  destruct (truthy d); by intros [= <- <-].
Qed.

Lemma scan_exp_app (t r x : string) :
  stops r = true -> scan_exp t = (x, "") -> scan_exp (t +:+ r) = (x, r).
Proof.
  intros Hr. destruct t as [|c t].
  { rewrite str_app_nil_l. intros [= <-]. by apply stops_inv in Hr as (_ & _ & ->). }
  rewrite str_app_cons. cbn [scan_exp]. destruct (_ || _); [|done].
  destruct t as [|c' t]; [done|].
  destruct (scan_exp_sign (String c' t)) as [sg t1] eqn:Es.
  assert (scan_exp_sign (String c' t +:+ r) = (sg, t1 +:+ r)) as ->.
  { unfold scan_exp_sign in *. rewrite after_app.
    destruct (after "+"%char (String c' t)); cbn [fmap option_fmap option_map];
      [by simplify_eq|by apply scan_sign_app]. }
  destruct (span_digits t1) as [d r'] eqn:Ed. rewrite (span_digits_app _ _ _ _ Hr Ed).
  destruct (truthy d); [|done]. by intros [= <- ->].
Qed.

Lemma scan_number_app (t r : string) (j : json) :
  stops r = true -> scan_number t = Scanned j "" -> scan_number (t +:+ r) = Scanned j r.
Proof.
  intros Hr. unfold scan_number. destruct (scan_int t) as [[i r0]|] eqn:Ei; [|done].
  rewrite (scan_int_app _ _ _ _ Hr Ei).
  destruct (scan_frac r0) as [f r1] eqn:Ef. rewrite (scan_frac_app _ _ _ _ Hr Ef).
  destruct (scan_exp r1) as [x r2] eqn:Ex. intros H.
  assert (r2 = "") as -> by (repeat case_match; by simplify_eq).
  rewrite (scan_exp_app _ _ _ Hr Ex). repeat case_match; by simplify_eq.
Qed.

(** A number starts with a digit or a minus sign followed by a digit. *)
Definition number_head (t : string) : bool :=
  match t with
  | String c t' =>
      is_digit c || (Ascii.eqb c "-"%char &&
        match t' with String d _ => is_digit d | EmptyString => false end)
  | EmptyString => false
  end.

Lemma scan_number_head (t r : string) (j : json) :
  scan_number t = Scanned j r -> number_head t = true.
Proof.
  unfold scan_number. destruct (scan_int t) as [[i r0]|] eqn:Ei; [intros _|done].
  unfold scan_int, scan_sign in Ei. destruct t as [|c t]; [done|]. cbn in Ei |- *.
  destruct (Ascii.eqb c "-").
  - cbn. apply orb_true_iff; right. destruct t as [|d t]; [done|]. cbn in Ei.
    destruct (Ascii.eqb_spec d "0"%char) as [->|]; [done|].
    by destruct (is_digit d).
  - cbn in Ei. destruct (Ascii.eqb_spec c "0"%char) as [->|]; [done|].
    by destruct (is_digit c).
Qed.

Lemma digit_other (c d : ascii) :
  is_digit c = true -> is_digit d = false -> Ascii.eqb d c = false /\ Ascii.eqb c d = false.
Proof.
  intros Hc Hd. split; apply Ascii.eqb_neq; intros ->; congruence.
Qed.

(** The decimal digits of a positive number have no leading zero. *)
Lemma nzhead_head (d : Decimal.uint) :
  match Decimal.nzhead d with Decimal.D0 _ => False | _ => True end.
Proof. by induction d. Qed.

Lemma to_uint_head (p : positive) :
  match Pos.to_uint p with Decimal.Nil | Decimal.D0 _ => False | _ => True end.
Proof.
  assert (Pos.to_uint p = Decimal.unorm (Pos.to_uint p)) as E.
  { rewrite <- DecimalPos.Unsigned.to_of, DecimalPos.Unsigned.of_to. done. }
  rewrite E. unfold Decimal.unorm. pose proof (nzhead_head (Pos.to_uint p)) as H.
  destruct (Decimal.nzhead _) eqn:Ez; try done.
  pose proof (DecimalPos.Unsigned.of_to p) as Ho. rewrite E in Ho.
  unfold Decimal.unorm in Ho. by rewrite Ez in Ho.
Qed.

Lemma span_digits_uint (d : Decimal.uint) :
  span_digits (NilEmpty.string_of_uint d) = (NilEmpty.string_of_uint d, "").
Proof. induction d; cbn; try done; by rewrite IHd. Qed.

(** [scan_int] takes the whole of a printed integer. *)
Lemma scan_int_py_str (z : Z) : scan_int (py_str z) = Some (py_str z, "").
Proof.
  unfold py_str, Z.to_int. destruct z as [|p|p]; [done| |];
    pose proof (to_uint_head p) as Hp; destruct (Pos.to_uint p) eqn:E; try done;
    unfold scan_int, scan_sign; cbn; by rewrite span_digits_uint.
Qed.

Definition int_ok (z : Z) : bool := int_digits (py_str z) <=? max_str_digits.

Lemma scan_number_py_str (z : Z) :
  int_ok z = true -> scan_number (py_str z) = Scanned (JInt z) "".
Proof.
  unfold int_ok. intros H. unfold scan_number. rewrite scan_int_py_str. cbn [scan_frac after scan_exp truthy orb].
  destruct (Z.ltb_spec max_str_digits (int_digits (py_str z))); [lia|].
  by rewrite py_int_str.
Qed.

(** ** The round trip *)

(** A float in the form [json.dumps] prints it. *)
Definition float_ok (r : string) : bool :=
  String.eqb r "NaN" || String.eqb r "Infinity" || String.eqb r "-Infinity" ||
  match scan_int r with
  | None => false
  | Some (i, r1) =>
      let '(f, r2) := scan_frac r1 in
      let '(x, r3) := scan_exp r2 in
      (truthy f || truthy x) && String.eqb r3 "" && String.eqb (float_repr (i +:+ f +:+ x)) r
  end.

(** A value Python can hold and print: strings of scalar values, integers
    within the digit limit, dicts without duplicate keys. *)
Fixpoint json_ok (j : json) : bool :=
  match j with
  | JNull | JBool _ => true
  | JInt z => int_ok z
  | JFloat r => float_ok r
  | JStr s => is_text s
  | JArr l => forallb json_ok l
  | JObj d =>
      forallb (fun kv => is_text kv.1 && json_ok kv.2) d && bool_decide (NoDup (map fst d))
  end.

(** Induction on a JSON value, with the hypothesis for every element. *)
Section JsonInd.
Variable P : json -> Prop.
Hypothesis P_null : P JNull.
Hypothesis P_bool : forall b, P (JBool b).
Hypothesis P_int : forall z, P (JInt z).
Hypothesis P_float : forall r, P (JFloat r).
Hypothesis P_str : forall s, P (JStr s).
Hypothesis P_arr : forall l, Forall P l -> P (JArr l).
Hypothesis P_obj : forall d, Forall (fun kv => P kv.2) d -> P (JObj d).

Fixpoint json_induction (j : json) : P j :=
  match j with
  | JNull => P_null
  | JBool b => P_bool b
  | JInt z => P_int z
  | JFloat r => P_float r
  | JStr s => P_str s
  | JArr l =>
      P_arr l ((fix go l : Forall P l :=
        match l with
        | [] => List.Forall_nil _
        | x :: l' => @List.Forall_cons _ _ x l' (json_induction x) (go l')
        end) l)
  | JObj d =>
      P_obj d ((fix go d : Forall (fun kv => P kv.2) d :=
        match d with
        | [] => List.Forall_nil _
        | kv :: d' => @List.Forall_cons _ _ kv d' (json_induction kv.2) (go d')
        end) d)
  end.
End JsonInd.

Lemma float_ok_scan (r : string) :
  float_ok r = true ->
  r = "NaN" \/ r = "Infinity" \/ r = "-Infinity" \/ scan_number r = Scanned (JFloat r) "".
Proof.
  unfold float_ok. intros [[[H|H]%orb_true_iff|H]%orb_true_iff|H]%orb_true_iff;
    [left|right; left|right; right; left|right; right; right];
    [by apply String.eqb_eq in H..|].
  unfold scan_number. destruct (scan_int r) as [[i r1]|]; [|done].
  destruct (scan_frac r1) as [f r2]. destruct (scan_exp r2) as [x r3].
  apply andb_true_iff in H as [[-> H3]%andb_true_iff H].
  apply String.eqb_eq in H3 as ->. apply String.eqb_eq in H. by rewrite H.
Qed.

(** The first character of a printed value starts a value. *)
Definition starter (c : ascii) : bool :=
  negb (is_ws c) && negb (Ascii.eqb c "]"%char) && negb (Ascii.eqb c "}"%char).

Lemma digit_starter (c : ascii) : is_digit c = true -> starter c = true.
Proof. destruct c as [[] [] [] [] [] [] [] []]; vm_compute; done. Qed.

Lemma number_starter (t : string) :
  number_head t = true -> exists c t', t = String c t' /\ starter c = true.
Proof.
  destruct t as [|c t]; [done|]. cbn. intros H. exists c, t. split; [done|].
  apply orb_true_iff in H as [H|[H _]%andb_true_iff]; [by apply digit_starter|].
  by apply Ascii.eqb_eq in H as ->.
Qed.

Lemma dumps_starter (j : json) (r : string) :
  json_ok j = true -> exists c t, dumps j +:+ r = String c t /\ starter c = true.
Proof.
  assert (forall s, (exists c t, s = String c t /\ starter c = true) ->
    exists c t, s +:+ r = String c t /\ starter c = true) as H.
  { intros s (c & t & -> & Hc). rewrite str_app_cons. by eexists _, _. }
  intros Hj. apply H. destruct j as [|[]|z|f|s|l|d]; cbn in *; try by eexists _, _.
  - apply number_starter. by eapply scan_number_head, scan_number_py_str.
  - apply float_ok_scan in Hj as [->|[->|[->|Hj]]]; [by eexists _, _..|].
    by apply number_starter; eapply scan_number_head.
Qed.

Lemma starter_clean (c : ascii) (t : string) :
  starter c = true -> skip_ws (String c t) = String c t /\
  after "]"%char (String c t) = None /\ after "}"%char (String c t) = None.
Proof.
  unfold starter. intros H. cbn. destruct (is_ws c); [done|].
  destruct (Ascii.eqb c "]"); [done|]. by destruct (Ascii.eqb c "}").
Qed.

Lemma dumps_clean (j : json) (r : string) :
  json_ok j = true -> skip_ws (dumps j +:+ r) = dumps j +:+ r /\
  after "]"%char (dumps j +:+ r) = None /\ after "}"%char (dumps j +:+ r) = None.
Proof. intros (c & t & -> & Hc)%(dumps_starter _ r). by apply starter_clean. Qed.

Ltac not_digit_eqs Hc :=
  repeat match goal with
  | |- context [Ascii.eqb ?c ?d] =>
      first [ rewrite (proj1 (digit_other _ c Hc eq_refl)) | rewrite (proj2 (digit_other _ d Hc eq_refl)) ]
  end.

Lemma scan_constant_number (t r : string) :
  number_head t = true -> scan_constant constants (t +:+ r) = None.
Proof.
  destruct t as [|c t]; [done|]. rewrite str_app_cons. cbn [number_head]. intros H.
  unfold constants. cbn [scan_constant drop_prefix].
  apply orb_true_iff in H as [Hc|[Hc H]%andb_true_iff]; [by not_digit_eqs Hc|].
  apply Ascii.eqb_eq in Hc as ->. cbn match. destruct t as [|d t]; [done|].
  rewrite str_app_cons. cbn [drop_prefix].
  by rewrite (proj1 (digit_other _ "I"%char H eq_refl)).
Qed.

Lemma scan_once_number (t r : string) (j : json) :
  stops r = true -> scan_number t = Scanned j "" -> scan_once 1 (t +:+ r) = Scanned j r.
Proof.
  intros Hr Ht. pose proof (scan_number_head _ _ _ Ht) as Hh.
  pose proof (scan_constant_number t r Hh) as Hc. pose proof (scan_number_app _ _ _ Hr Ht) as Hn.
  destruct t as [|c t]; [done|]. rewrite str_app_cons in *. rewrite scan_once_S. unfold once_body.
  rewrite Hc, Hn. cbn [number_head] in Hh.
  apply orb_true_iff in Hh as [H|[H _]%andb_true_iff]; [by not_digit_eqs H|].
  by apply Ascii.eqb_eq in H as ->.
Qed.

Definition reads (j : json) : Prop :=
  forall r, stops r = true -> exists n, scan_once n (dumps j +:+ r) = Scanned j r.

Lemma join_two (sep a b : string) (l : list string) (r : string) :
  join sep (a :: b :: l) +:+ r = a +:+ sep +:+ join sep (b :: l) +:+ r.
Proof. cbn [join]. by rewrite !str_app_assoc. Qed.

Lemma join_first (sep a : string) (l : list string) (r : string) :
  exists r', join sep (a :: l) +:+ r = a +:+ r'.
Proof. destruct l as [|b l]; [by exists r|]. rewrite join_two. by eexists. Qed.

Lemma skip_comma (s : string) : skip_ws s = s ->
  let t := skip_ws (", " +:+ s) in
  after "]"%char t = None /\ after "}"%char t = None /\
  exists t', after ","%char t = Some t' /\ skip_ws t' = s.
Proof. intros H. split_and!; [done..|]. by exists (" " +:+ s). Qed.

Lemma scan_items_dumps (x : json) (l : list json) (r : string) :
  forallb json_ok (x :: l) = true -> Forall (fun j => json_ok j = true -> reads j) (x :: l) ->
  exists n, scan_items n (join ", " (map dumps (x :: l)) +:+ String "]"%char r)
            = Scanned (x :: l) r.
Proof.
  revert x. induction l as [|y l IH]; intros x [Hx Hok]%andb_true_iff [Hr Hl]%Forall_cons.
  - destruct (Hr Hx (String "]"%char r) eq_refl) as [n Hn]. exists (S n).
    rewrite scan_items_S. unfold items_body. cbn [map join]. by rewrite Hn.
  - destruct (IH y Hok Hl) as [m Hm]. cbn [map] in *. rewrite join_two.
    destruct (join_first ", " (dumps y) (map dumps l) (String "]"%char r)) as [r' Er].
    rewrite Er in *. destruct (Hr Hx (", " +:+ dumps y +:+ r') eq_refl) as [n Hn].
    exists (S (n `max` m)). rewrite scan_items_S. unfold items_body.
    rewrite (approx_scanned _ _ _ _ (scan_once_more n (n `max` m) _ ltac:(lia)) Hn).
    cbn [scan_bind]. apply andb_true_iff in Hok as [Hy _].
    destruct (dumps_clean y r' Hy) as [Hw _].
    destruct (skip_comma _ Hw) as (-> & _ & t' & -> & ->).
    by rewrite (approx_scanned _ _ _ _ (scan_items_more m (n `max` m) _ ltac:(lia)) Hm).
Qed.

Definition dumps_pair (kv : string * json) : string := dumps_str kv.1 +:+ ": " +:+ dumps kv.2.

Lemma scan_pair (n : nat) (k : string) (v : json) (r : string) :
  is_text k = true -> json_ok v = true ->
  scan_pairs (S n) (dumps_pair (k, v) +:+ r) =
  scan_bind (scan_once n (dumps v +:+ r)) (fun v r3 =>
    match after "}"%char (skip_ws r3) with
    | Some r4 => Scanned [(k, v)] r4
    | None =>
        match after ","%char (skip_ws r3) with
        | Some r4 => scan_bind (scan_pairs n (skip_ws r4)) (fun l r5 => Scanned ((k, v) :: l) r5)
        | None => Malformed
        end
    end).
Proof.
  intros Hk Hv. unfold dumps_pair. cbn [fst snd]. rewrite !str_app_assoc.
  destruct (scanstring_dumps_str k (": " +:+ dumps v +:+ r) Hk) as (b & -> & Hb).
  rewrite scan_pairs_S. cbn [after]. change (Ascii.eqb quote quote) with true. cbn match.
  rewrite Hb. cbn [scan_bind].
  change (after ":"%char (skip_ws (": " +:+ dumps v +:+ r))) with (Some (" " +:+ dumps v +:+ r)).
  cbn match. unfold pair_value.
  change (skip_ws (" " +:+ dumps v +:+ r)) with (skip_ws (dumps v +:+ r)).
  destruct (dumps_clean v r Hv) as [-> _]. done.
Qed.

Lemma scan_pairs_dumps (x : string * json) (d : json_object) (r : string) :
  forallb (fun kv => is_text kv.1 && json_ok kv.2) (x :: d) = true ->
  Forall (fun kv => json_ok kv.2 = true -> reads kv.2) (x :: d) ->
  exists n, scan_pairs n (join ", " (map dumps_pair (x :: d)) +:+ String "}"%char r)
            = Scanned (x :: d) r.
Proof.
  revert x. induction d as [|y d IH];
    intros [k v] [[Hk Hv]%andb_true_iff Hok]%andb_true_iff [Hr Hl]%Forall_cons; cbn [fst snd] in *.
  - destruct (Hr Hv (String "}"%char r) eq_refl) as [n Hn]. exists (S n).
    cbn [map join]. rewrite scan_pair by done. by rewrite Hn.
  - destruct (IH y Hok Hl) as [m Hm]. cbn [map] in *. rewrite join_two.
    destruct (join_first ", " (dumps_pair y) (map dumps_pair d) (String "}"%char r)) as [r' Er].
    rewrite Er in *. destruct (Hr Hv (", " +:+ dumps_pair y +:+ r') eq_refl) as [n Hn].
    exists (S (n `max` m)). rewrite scan_pair by done.
    rewrite (approx_scanned _ _ _ _ (scan_once_more n (n `max` m) _ ltac:(lia)) Hn).
    cbn [scan_bind].
    destruct (skip_comma (dumps_pair y +:+ r') eq_refl) as (_ & -> & t' & -> & ->).
    by rewrite (approx_scanned _ _ _ _ (scan_pairs_more m (n `max` m) _ ltac:(lia)) Hm).
Qed.

(** ** Dicts without duplicate keys *)

Lemma dict_set_fresh (k : string) (v : json) (d : json_object) :
  k ∉ map fst d -> dict_set k v d = d ++ [(k, v)].
Proof.
  induction d as [|[k' v'] d IH]; cbn; [done|]. rewrite not_elem_of_cons. intros [Hk Hd].
  destruct (String.eqb_spec k k'); [done|]. by rewrite IH.
Qed.

Lemma dict_of_nodup (d : json_object) : NoDup (map fst d) -> dict_of d = d.
Proof.
  unfold dict_of. enough (forall acc, NoDup (map fst (acc ++ d)) ->
    fold_left (fun d kv => dict_set kv.1 kv.2 d) d acc = acc ++ d) as H by apply (H []).
  induction d as [|[k v] d IH]; intros acc Hnd; [by rewrite app_nil_r|]. cbn.
  rewrite dict_set_fresh.
  - rewrite IH; rewrite <- app_assoc; done.
  - rewrite map_app in Hnd. apply NoDup_app in Hnd as (_ & H & _). intros Hin.
    apply (H k Hin). by left.
Qed.

Lemma scan_dumps (j : json) : json_ok j = true -> reads j.
Proof.
  induction j as [|b|z|f|s|l Hl|d Hd] using json_induction; intros Hj r Hr; cbn [json_ok] in Hj.
  - by exists 1%nat.
  - by exists 1%nat; destruct b.
  - exists 1%nat. apply scan_once_number; [done|]. by apply scan_number_py_str.
  - exists 1%nat. apply float_ok_scan in Hj as [->|[->|[->|Hj]]]; [done..|].
    by apply scan_once_number.
  - exists 1%nat. cbn [dumps]. destruct (scanstring_dumps_str s r Hj) as (b & -> & Hb).
    rewrite scan_once_S. unfold once_body. change (Ascii.eqb quote quote) with true.
    cbn match. by rewrite Hb.
  - destruct l as [|x l]; [by exists 1%nat|].
    destruct (scan_items_dumps x l r Hj Hl) as [n Hn]. exists (S n). cbn [dumps].
    rewrite str_app_cons, str_app_assoc, scan_once_S. unfold once_body.
    change (Ascii.eqb "[" quote) with false. change (Ascii.eqb "[" "{") with false.
    change (Ascii.eqb "[" "[") with true. cbn match. change ("]" +:+ r) with (String "]"%char r).
    apply andb_true_iff in Hj as [Hx _]. cbn [map] in *.
    destruct (join_first ", " (dumps x) (map dumps l) (String "]"%char r)) as [r' Er].
    rewrite Er in *. destruct (dumps_clean x r' Hx) as (-> & -> & _). by rewrite Hn.
  - apply andb_true_iff in Hj as [Hj Hnd%bool_decide_eq_true].
    destruct d as [|x d]; [by exists 1%nat|].
    destruct (scan_pairs_dumps x d r Hj Hd) as [n Hn]. exists (S n). cbn [dumps].
    rewrite str_app_cons, str_app_assoc, scan_once_S. unfold once_body.
    change (Ascii.eqb "{" quote) with false. change (Ascii.eqb "{" "{") with true.
    cbn match. change ("}" +:+ r) with (String "}"%char r).
    change (map (fun kv => dumps_str kv.1 +:+ ": " +:+ dumps kv.2) (x :: d))
      with (map dumps_pair (x :: d)).
    cbn [map] in *.
    destruct (join_first ", " (dumps_pair x) (map dumps_pair d) (String "}"%char r)) as [r' Er].
    rewrite Er in *. change (skip_ws (dumps_pair x +:+ r')) with (dumps_pair x +:+ r').
    change (after "}"%char (dumps_pair x +:+ r')) with (@None string). cbn match.
    rewrite Hn. cbn [scan_bind]. by rewrite dict_of_nodup.
Qed.

(** [json.loads(json.dumps(j)) == j]. *)
Lemma loads_dumps (j : json) : json_ok j = true -> loads (dumps j) = Some j.
Proof.
  intros Hj. destruct (scan_dumps j Hj "" eq_refl) as [n Hn].
  rewrite str_app_nil_r in Hn. unfold loads, decode.
  destruct (dumps_clean j "" Hj) as [Hw _]. rewrite str_app_nil_r in Hw. rewrite Hw.
  by rewrite (scan_fuel_complete _ _ _ _ Hn).
Qed.

(** [loads] ends on every text: its fuel is never spent, and more fuel changes
    nothing. *)
Lemma loads_ends (s : string) :
  decode s <> Spent /\
  forall n, (scan_fuel (skip_ws s) <= n)%nat ->
    scan_once n (skip_ws s) = scan_once (scan_fuel (skip_ws s)) (skip_ws s).
Proof.
  pose proof (scan_fuel_enough (skip_ws s)) as Hf. split.
  - unfold decode. destruct (scan_once _ _) as [j r| |]; [|done|done]. cbn.
    by destruct (skip_ws r).
  - intros n Hn. destruct (scan_once_more _ _ (skip_ws s) Hn) as [E|E]; congruence.
Qed.
