(* ===== verification/FrameText.v ===== *)
(** * The text of the frames ([packages/protocol/frames.py])

    Every frame class of the protocol is a Pydantic model: [frame_object] is
    the object [model_dump_json] prints, its fields in the order of the class
    with the [type] default first, and [read_frame] is the validation of such
    an object against the classes, told apart by their [type]. *)
From Stdlib Require Import Ascii ZArith Lia.
From stdpp Require Import base strings list.
From S2P Require Import Prelude PyFloat Frames Json JsonLaws.

(** ** Seconds as a float

    The interval of the CONNECTED frame is a [float] of seconds, which the model
    keeps in milliseconds. *)
Definition pad3 (n : Z) : string :=
  if n <? 10 then "00" +:+ py_str n else if n <? 100 then "0" +:+ py_str n else py_str n.

Definition seconds_repr (ms : Z) : string :=
  float_repr (py_str (ms / 1000) +:+ "." +:+ pad3 (ms mod 1000)).

(** The value of a decimal fraction with at most three places, in thousandths. *)
Definition read_seconds (r : string) : option Z :=
  let '(i, rest) := span_digits r in
  match rest with
  | String "."%char f =>
      match span_digits f with
      | (d, EmptyString) =>
          if (String.length d <=? 3)%nat
          then Some (1000 * digits_value i + digits_value (d +:+ zeros (3 - String.length d)))
          else None
      | _ => None
      end
  | _ => None
  end.

Definition as_ms (j : json) : option Z :=
  match j with JFloat r => read_seconds r | JInt z => Some (1000 * z) | _ => None end.

(** ** Printing *)
Definition int_dict (l : list (string * Z)) : json := JObj (map (fun kv => (kv.1, JInt kv.2)) l).

Definition frame_fields (f : frame) : json_object :=
  match f with
  | ConnectFrame token sid =>
      [("token", JStr token);
       ("session_id", match sid with Some s => JStr s | None => JNull end)]
  | ConnectedFrame cid sid nid ms =>
      [("connection_id", JStr cid); ("session_id", JStr sid); ("node_id", JStr nid);
       ("heartbeat_interval_seconds", JFloat (seconds_repr ms))]
  | PingFrame t => [("server_time", JStr t)]
  | PongFrame => []
  | SubscribeFrame ch | SubscribedFrame ch | UnsubscribeFrame ch | UnsubscribedFrame ch =>
      [("channel", JStr ch)]
  | MessageF m =>
      [("message_id", JStr (mf_message_id m)); ("channel", JStr (mf_channel m));
       ("sequence", JInt (mf_sequence m)); ("timestamp", JStr (mf_timestamp m));
       ("payload", JObj (mf_payload m))]
  | AckFrame ch sq => [("channel", JStr ch); ("sequence", JInt sq)]
  | NackFrame ch mid reason =>
      [("channel", JStr ch); ("message_id", JStr mid); ("reason", JStr reason)]
  | ResumeFrame sid acks => [("session_id", JStr sid); ("last_ack_by_channel", int_dict acks)]
  | ResumedFrame sid replayed gaps =>
      [("session_id", JStr sid); ("replayed_by_channel", int_dict replayed);
       ("gaps", JArr (map JStr gaps))]
  | ErrorFrame code message => [("code", JStr code); ("message", JStr message)]
  | DisconnectFrame reason => [("reason", JStr reason)]
  end.

Definition frame_object (f : frame) : json_object :=
  ("type", JStr (frame_type_value (frame_type f))) :: frame_fields f.

(** ** Reading *)
Section Reading.
Context {Py : Pydantic}.

(** A [dict] and a [list[str]] field, with the empty default. *)
Definition dict_field (k : string) (raw : json_object) : option json_object :=
  match obj_get k raw with
  | None => Some []
  | Some (JObj d) => Some d
  | Some _ => None
  end.

Definition strings_field (k : string) (raw : json_object) : option (list string) :=
  match obj_get k raw with
  | None => Some []
  | Some (JArr l) => mapM as_str l
  | Some _ => None
  end.

(** [str | None = None] *)
Definition optional_field (k : string) (raw : json_object) : option (option string) :=
  match obj_get k raw with
  | None | Some JNull => Some None
  | Some v => Some <$> as_str v
  end.

Definition read_fields (t : FrameType) (raw : json_object) : option frame :=
  match t with
  | CONNECT => token ← str_field "token" raw; sid ← optional_field "session_id" raw;
               Some (ConnectFrame token sid)
  | CONNECTED => cid ← str_field "connection_id" raw; sid ← str_field "session_id" raw;
                 nid ← str_field "node_id" raw;
                 ms ← obj_get "heartbeat_interval_seconds" raw ≫= as_ms;
                 Some (ConnectedFrame cid sid nid ms)
  | PING => PingFrame <$> str_field "server_time" raw
  | PONG => Some PongFrame
  | SUBSCRIBE => SubscribeFrame <$> parse_subscribe raw
  | SUBSCRIBED => SubscribedFrame <$> str_field "channel" raw
  | UNSUBSCRIBE => UnsubscribeFrame <$> parse_unsubscribe raw
  | UNSUBSCRIBED => UnsubscribedFrame <$> str_field "channel" raw
  | MESSAGE => mid ← str_field "message_id" raw; ch ← str_field "channel" raw;
               sq ← int_field "sequence" raw; ts ← str_field "timestamp" raw;
               payload ← dict_field "payload" raw;
               Some (MessageF (mkMessageFrame mid ch sq ts payload))
  | ACK => '(ch, sq) ← parse_ack raw; Some (AckFrame ch sq)
  | NACK => ch ← str_field "channel" raw; mid ← str_field "message_id" raw;
            reason ← str_field "reason" raw; Some (NackFrame ch mid reason)
  | RESUME => '(sid, acks) ← parse_resume raw; Some (ResumeFrame sid acks)
  | RESUMED => sid ← str_field "session_id" raw;
               replayed ← dict_field "replayed_by_channel" raw ≫= int_items;
               gaps ← strings_field "gaps" raw; Some (ResumedFrame sid replayed gaps)
  | ERROR => code ← str_field "code" raw; message ← str_field "message" raw;
             Some (ErrorFrame code message)
  | DISCONNECT => DisconnectFrame <$> str_field "reason" raw
  end.

(** The frame type a [type] field names. *)
Definition frame_types : list FrameType :=
  [CONNECT; CONNECTED; PING; PONG; SUBSCRIBE; SUBSCRIBED; UNSUBSCRIBE; UNSUBSCRIBED; MESSAGE;
   ACK; NACK; RESUME; RESUMED; ERROR; DISCONNECT].

Definition type_named (s : string) : option FrameType :=
  List.find (fun t => String.eqb s (frame_type_value t)) frame_types.

Definition read_frame (raw : json_object) : option frame :=
  match obj_get "type" raw with
  | Some (JStr s) => t ← type_named s; read_fields t raw
  | _ => None
  end.

End Reading.

(** ** The round trip *)

(** Frames the protocol can carry: printable values, a valid channel where the
    class validates one, an interval that is a decimal of thousandths. *)
Definition frame_ok (f : frame) : bool :=
  json_ok (JObj (frame_object f)) &&
  match f with
  | SubscribeFrame ch => match validate_channel_name ch with inr _ => true | inl _ => false end
  | ConnectedFrame _ _ _ ms => bool_decide (read_seconds (seconds_repr ms) = Some ms)
  | _ => true
  end.

Section RoundTrip.
Context {Py : Pydantic}.
Hypothesis Hstr : forall s, as_str (JStr s) = Some s.
Hypothesis Hint : forall z, as_int (JInt z) = Some z.

Lemma int_items_dict (l : list (string * Z)) :
  int_items (map (fun kv => (kv.1, JInt kv.2)) l) = Some l.
Proof.
  induction l as [|[k z] l IH]; [done|]. cbn. rewrite Hint. cbn. rewrite IH. done.
Qed.

Lemma strings_map (l : list string) : mapM as_str (map JStr l) = Some l.
Proof. apply mapM_Some. induction l; constructor; auto. Qed.

Lemma read_frame_object (f : frame) : frame_ok f = true -> read_frame (frame_object f) = Some f.
Proof.
  intros [_ Hf]%andb_true_iff.
  assert (read_frame (frame_object f) = read_fields (frame_type f) (frame_object f)) as ->
    by by destruct f.
  destruct f; cbn; unfold str_field, int_field, optional_field, dict_field, strings_field,
    parse_subscribe, parse_unsubscribe, parse_ack, parse_resume; cbn;
    repeat first [rewrite Hstr | rewrite Hint | rewrite int_items_dict | rewrite strings_map | progress cbn];
    try done.
  - by destruct session_id; cbn; rewrite ?Hstr.
  - apply bool_decide_eq_true in Hf. by rewrite Hf.
  - destruct (validate_channel_name channel) as [|c] eqn:E; [done|].
    by apply validate_channel_name_ok in E as [-> _].
  - by destruct m.
Qed.

End RoundTrip.

(** ** [model_dump_json]

    Pydantic prints the object of the frame, and its coercions take a JSON
    string for a [str] and a JSON integer for an [int]. *)
Class FrameText {Jt : JsonText} {Py : Pydantic} : Prop := {
  dump_object : forall f, json_ok (JObj (frame_object f)) = true ->
    json_loads (dump f) = Some (JObj (frame_object f));
  str_of_JStr : forall s, as_str (JStr s) = Some s;
  int_of_JInt : forall z, as_int (JInt z) = Some z
}.

(** A model of Pydantic with the texts of Python's [json]. *)
Definition python_pydantic : Pydantic := {|
  as_str := fun j => match j with JStr s => Some s | _ => None end;
  as_int := fun j => match j with JInt z => Some z | _ => None end;
  dump := fun f => dumps (JObj (frame_object f))
|}.

Lemma python_frame_text : FrameText (Jt := python_json) (Py := python_pydantic).
Proof. split; [|done|done]. intros f. apply loads_dumps. Qed.

(** C20.  Round trip of the protocol: the text of a frame reads back, at the
    other end of the socket, as an object of exactly the fields of its class
    that validates as the same frame; so no two frames have one text, and what
    the handler parses of a client's SUBSCRIBE, ACK and RESUME is what the
    client meant. *)
Theorem frames_roundtrip {Jt : JsonText} {Py : Pydantic} {Ft : FrameText} (f : frame) :
  frame_ok f = true ->
  (exists raw, json_loads (dump f) = Some (JObj raw) /\ read_frame raw = Some f /\
     obj_get "type" raw = Some (JStr (frame_type_value (frame_type f))) /\
     match f with
     | SubscribeFrame ch => parse_subscribe raw = Some ch
     | UnsubscribeFrame ch => parse_unsubscribe raw = Some ch
     | AckFrame ch sq => parse_ack raw = Some (ch, sq)
     | ResumeFrame sid acks => parse_resume raw = Some (sid, acks)
     | _ => True
     end) /\
  forall g, frame_ok g = true -> dump g = dump f -> g = f.
Proof.
  assert (forall h, frame_ok h = true ->
    json_loads (dump h) = Some (JObj (frame_object h)) /\ read_frame (frame_object h) = Some h) as H.
  { intros h Hh. split; [|apply read_frame_object; [apply str_of_JStr|apply int_of_JInt|done]].
    apply andb_true_iff in Hh as [Hh _]. by apply dump_object. }
  intros Hf. destruct (H f Hf) as [Hl Hr]. split.
  - exists (frame_object f). split_and!; [done|done|by destruct f|].
    assert (read_frame (frame_object f) = read_fields (frame_type f) (frame_object f)) as E
      by by destruct f.
    rewrite E in Hr. destruct f; try done; cbn [read_fields frame_type] in Hr.
    + apply fmap_Some in Hr as (c & -> & [= ->]). done.
    + apply fmap_Some in Hr as (c & -> & [= ->]). done.
    + destruct (parse_ack _) as [[c n]|]; [|done]. by injection Hr as -> ->.
    + destruct (parse_resume _) as [[c n]|]; [|done]. by injection Hr as -> ->.
  - intros g Hg E. destruct (H g Hg) as [Hl' Hr']. rewrite E, Hl in Hl'.
    injection Hl' as Hl'. unfold frame_object in *. congruence.
Qed.

(** A message with a nested payload and text outside ASCII. *)
Definition sample_message : frame :=
  MessageF (mkMessageFrame "m-1" "t-1:chat" 7 "2026-01-01T00:00:00Z"
    [("text", JStr (utf8 [104; 233; 128512])); ("n", JArr [JInt 1; JNull; JBool true])]).

Lemma frames_roundtrip_witness :
  exists raw, loads (dumps (JObj (frame_object sample_message))) = Some (JObj raw) /\
    read_frame (Py := python_pydantic) raw = Some sample_message.
Proof.
  destruct (frames_roundtrip (Ft := python_frame_text) sample_message ltac:(vm_compute; reflexivity))
    as [(raw & H1 & H2 & _) _].
  exists raw. split; [exact H1|exact H2].
Defined.

Example connected_ok :
  frame_ok (ConnectedFrame "conn-1" "s-1" "relay-node-a" 15000) = true /\
  seconds_repr 15000 = "15.0".
Proof. by vm_compute. Qed.
