(* ===== verification/Logging.v ===== *)
(** * Structured logging ([packages/observability/logging.py])

    The formatter, the configuration of the root logger and [log_event].  The
    values of the fields are JSON values ([default=str] is not reached on
    them); field names are Python identifiers, so [str.lower] is the mapping of
    the ASCII letters. *)
From Stdlib Require Import Ascii ZArith Lia.
From stdpp Require Import base gmap strings list.
From S2P Require Import Prelude Frames PyFloat Json JsonLaws.

(** [_REDACT_KEYS]. *)
Definition _REDACT_KEYS : list string :=
  ["token"; "api_key"; "authorization"; "password"; "secret"; "payload"].

Definition lower_char (c : ascii) : ascii :=
  if (65 <=? ord c) && (ord c <=? 90) then chr (ord c + 32) else c.

(** [k.lower()]. *)
Fixpoint lower (s : string) : string :=
  match s with
  | EmptyString => ""
  | String c s' => String (lower_char c) (lower s')
  end.

Definition redacted (k : string) : bool := existsb (String.eqb (lower k)) _REDACT_KEYS.
Arguments redacted : simpl never.

Record LogRecord := mkRecord {
  created : Z;
  levelname : string;
  logger_name : string;
  message : string;
  fields : option json_object
}.

Definition base_fields (r : LogRecord) : json_object :=
  [("timestamp", JStr (utc_timestamp (created r))); ("level", JStr (levelname r));
   ("logger", JStr (logger_name r)); ("message", JStr (message r))].

(** [for k, v in extra.items(): if k.lower() in _REDACT_KEYS: continue; base[k] = v] *)
Fixpoint add_fields (extra base : json_object) : json_object :=
  match extra with
  | [] => base
  | (k, v) :: extra' =>
      if redacted k then add_fields extra' base
      else add_fields extra' (dict_set k v base)
  end.

(** The dict [format] builds, and its text. *)
Definition log_object (r : LogRecord) : json_object :=
  match fields r with
  | None | Some [] => base_fields r
  | Some extra => add_fields extra (base_fields r)
  end.

Definition format {Jt : JsonText} (r : LogRecord) : string :=
  json_dumps (JObj (log_object r)).

(** ** The root logger *)

(** The level and the handlers, each with the formatter above, and what they
    wrote on [sys.stdout]. *)
Record LogState := mkLogState {
  root_level : Z;
  handlers : nat;
  stdout : list string
}.

Definition DEBUG : Z := 10.
Definition INFO : Z := 20.
Definition WARNING : Z := 30.
Definition ERROR_LEVEL : Z := 40.

(** [logging.getLevelName]. *)
Definition level_name (level : Z) : string :=
  if level =? DEBUG then "DEBUG" else if level =? INFO then "INFO"
  else if level =? WARNING then "WARNING" else if level =? ERROR_LEVEL then "ERROR"
  else if level =? 50 then "CRITICAL" else "Level " +:+ py_str level.

(** [configure_logging(level)]: [root.handlers = [handler]]. *)
Definition configure_logging (level : Z) (s : LogState) : LogState :=
  mkLogState level 1 (stdout s).

Section Log.
Context {Jt : JsonText}.

(** [logger.log(level, event, extra={"fields": {"event": event, **fields}})],
    on a logger whose own level is not set: the root's level decides, and every
    handler writes the line. *)
Definition log_event (name : string) (level : Z) (event : string) (fields : json_object)
    (t : Z) (s : LogState) : LogState :=
  if level <? root_level s then s
  else
    let r := mkRecord t (level_name level) name event
               (Some (dict_of (("event", JStr event) :: fields))) in
    mkLogState (root_level s) (handlers s) (stdout s ++ repeat (format r) (handlers s)).

End Log.

(** ** Properties *)

Lemma obj_get_dict_set (k k' : string) (v : json) (d : json_object) :
  obj_get k' (dict_set k v d) = if String.eqb k' k then Some v else obj_get k' d.
Proof.
  induction d as [|[k0 v0] d IH]; cbn; [done|].
  destruct (String.eqb_spec k k0) as [<-|Hk]; cbn; [by destruct (String.eqb k' k)|].
  destruct (String.eqb_spec k' k0) as [->|]; [|done].
  by destruct (String.eqb_spec k0 k) as [->|].
Qed.

Lemma obj_get_add_fields (extra base : json_object) (k : string) :
  NoDup (map fst extra) ->
  obj_get k (add_fields extra base) =
  if redacted k then obj_get k base
  else match obj_get k extra with Some v => Some v | None => obj_get k base end.
Proof.
  revert base. induction extra as [|[k0 v0] extra IH]; intros base Hnd;
    [by cbn [add_fields obj_get]; destruct (redacted k)|].
  cbn [map fst] in Hnd. apply NoDup_cons in Hnd as [Hk0 Hnd]. cbn [add_fields obj_get].
  assert (obj_get k0 extra = None) as Hn.
  { clear -Hk0. induction extra as [|[k v] extra IH]; cbn in *; [done|].
    rewrite not_elem_of_cons in Hk0. destruct (String.eqb_spec k0 k); [tauto|]. tauto. }
  destruct (redacted k0) eqn:E0; rewrite IH by done; destruct (redacted k) eqn:E.
  - done.
  - destruct (String.eqb_spec k k0) as [->|]; [congruence|done].
  - rewrite obj_get_dict_set. destruct (String.eqb_spec k k0) as [->|]; [congruence|done].
  - rewrite obj_get_dict_set. destruct (String.eqb_spec k k0) as [->|]; [by rewrite Hn|done].
Qed.

(** A dict updated key by key keeps the properties [json_ok] asks for. *)
Definition object_ok (d : json_object) : bool := json_ok (JObj d).
Arguments object_ok : simpl never.

Lemma dict_set_keys (k k' : string) (v : json) (d : json_object) :
  k' ∈ map fst (dict_set k v d) <-> k' = k \/ k' ∈ map fst d.
Proof.
  induction d as [|[k0 v0] d IH]; cbn; [rewrite elem_of_cons; naive_solver|].
  destruct (String.eqb_spec k k0) as [->|]; cbn; rewrite !elem_of_cons; [naive_solver|].
  rewrite IH. tauto.
Qed.

Lemma dict_set_ok (k : string) (v : json) (d : json_object) :
  is_text k = true -> json_ok v = true -> object_ok d = true -> object_ok (dict_set k v d) = true.
Proof.
  intros Hk Hv. unfold object_ok. cbn [json_ok]. rewrite !andb_true_iff, !bool_decide_eq_true.
  intros [Hd Hnd]. split.
  - clear Hnd. induction d as [|[k0 v0] d IH]; cbn in *; [by rewrite Hk, Hv|].
    apply andb_true_iff in Hd as [H0 Hd]. destruct (String.eqb k k0); cbn.
    + by rewrite Hk, Hv.
    + rewrite H0. by apply IH.
  - clear Hd. induction d as [|[k0 v0] d IH]; cbn in *; [by constructor; [set_solver|constructor]|].
    apply NoDup_cons in Hnd as [H0 Hnd]. destruct (String.eqb_spec k k0) as [->|]; cbn.
    + by constructor.
    + constructor; [|by apply IH]. rewrite dict_set_keys. naive_solver.
Qed.

Lemma add_fields_ok (extra base : json_object) :
  forallb (fun kv => is_text kv.1 && json_ok kv.2) extra = true ->
  object_ok base = true -> object_ok (add_fields extra base) = true.
Proof.
  revert base. induction extra as [|[k v] extra IH]; intros base He Hb; cbn in *; [done|].
  apply andb_true_iff in He as [[Hk Hv]%andb_true_iff He].
  destruct (redacted k); apply IH; try done. by apply dict_set_ok.
Qed.

Lemma redacted_base (k : string) (r : LogRecord) :
  redacted k = true -> obj_get k (base_fields r) = None.
Proof.
  intros H. unfold base_fields, obj_get.
  repeat (match goal with |- context [String.eqb k ?n] =>
    destruct (String.eqb_spec k n) as [->|]; [discriminate H|] end). done.
Qed.

(** C37.  Redaction: once configured, an event at an enabled level writes one
    line on standard output, however often logging was configured; the line
    reads back as the JSON object [format] built, that object has no key that
    is secret in any letter case, it holds every other field with the value
    given and the event name, and an event below the level writes nothing. *)
Theorem log_event_redacts (name event : string) (level rl t : Z) (fs : json_object) (s : LogState)
    (n : nat) :
  object_ok (("event", JStr event) :: fs) = true ->
  is_text name = true -> is_text (level_name level) = true -> is_text (utc_timestamp t) = true ->
  let s1 := Nat.iter (S n) (configure_logging rl) s in
  let s2 := log_event (Jt := python_json) name level event fs t s1 in
  (level < rl -> s2 = s1) /\
  (rl <= level -> exists line obj,
     stdout s2 = stdout s ++ [line] /\ loads line = Some (JObj obj) /\
     (forall k, redacted k = true -> obj_get k obj = None) /\
     (forall k v, obj_get k (("event", JStr event) :: fs) = Some v -> redacted k = false ->
        obj_get k obj = Some v)).
Proof.
  intros Hok Hname Hlevel Ht s1 s2.
  assert (root_level s1 = rl /\ handlers s1 = 1%nat /\ stdout s1 = stdout s) as (Hr & Hh & Ho).
  { subst s1. cbn [Nat.iter]. split_and!; [done..|]. clear.
    induction n as [|n IH]; [done|]. cbn in *. exact IH. }
  unfold object_ok in Hok. pose proof Hok as Hok'. cbn [json_ok] in Hok'.
  apply andb_true_iff in Hok' as [Hfs Hnd%bool_decide_eq_true].
  subst s2. unfold log_event. rewrite Hr, Hh, Ho, (dict_of_nodup _ Hnd).
  destruct (Z.ltb_spec level rl); (split; [by intros ?; lia || done|]); [lia|].
  intros _. set (r := mkRecord _ _ _ _ _). exists (dumps (JObj (log_object r))), (log_object r).
  split; [done|].
  assert (object_ok (log_object r) = true) as Hlog.
  { apply add_fields_ok; [exact Hfs|]. unfold object_ok, base_fields. cbn [json_ok forallb fst snd].
    cbn [created levelname logger_name message r]. rewrite Hname, Hlevel, Ht.
    cbn [forallb] in Hfs. cbn [fst snd json_ok] in Hfs.
    apply andb_true_iff in Hfs as [[_ He]%andb_true_iff _]. by rewrite He. }
  split; [by apply loads_dumps|]. split; intros k.
  - intros Hk. unfold log_object, r. cbn [fields]. rewrite obj_get_add_fields by done.
    rewrite Hk. by apply redacted_base.
  - intros v Hv Hk. unfold log_object, r. cbn [fields]. rewrite obj_get_add_fields by done.
    by rewrite Hk, Hv.
Qed.

Definition quiet : LogState := mkLogState WARNING 0 [].

Lemma log_event_redacts_witness :
  let fs := [("node_id", JStr "n1"); ("Token", JStr "relay_x")] in
  exists line obj,
    stdout (log_event (Jt := python_json) "relay.gateway" INFO "gateway_started" fs 1000
              (configure_logging INFO quiet)) = [line] /\
    loads line = Some (JObj obj) /\ obj_get "Token" obj = None /\
    obj_get "node_id" obj = Some (JStr "n1").
Proof.
  destruct (log_event_redacts "relay.gateway" "gateway_started" INFO INFO 1000
              [("node_id", JStr "n1"); ("Token", JStr "relay_x")] quiet 0
              ltac:(vm_compute; reflexivity) ltac:(vm_compute; reflexivity)
              ltac:(vm_compute; reflexivity) ltac:(vm_compute; reflexivity)) as [_ H].
  destruct (H (Z.le_refl _)) as (line & obj & H1 & H2 & H3 & H4).
  exists line, obj. split; [exact H1|]. split; [exact H2|].
  split; [exact (H3 "Token" eq_refl)|exact (H4 "node_id" _ eq_refl eq_refl)].
Defined.
