(* ===== verification/Keys.v ===== *)
(** * Redis key shapes ([packages/redis/client.py], [RedisKeys])

    Every key the gateway uses, and the two presence keys that
    [apps/gateway/presence/tracker.py] builds itself. *)
From Stdlib Require Import Ascii ZArith Lia.
From stdpp Require Import base gmap strings list.
From S2P Require Import Prelude.

Module RedisKeys.
Definition connection (connection_id : string) : string :=
  "relay:connection:" +:+ connection_id.
Definition session (session_id : string) : string :=
  "relay:session:" +:+ session_id.
Definition session_ack (session_id channel : string) : string :=
  "relay:session:" +:+ session_id +:+ ":ack:" +:+ channel.
Definition channel_stream (channel : string) : string :=
  "relay:messages:" +:+ channel.
Definition channel_sequence (channel : string) : string :=
  "relay:sequence:" +:+ channel.
Definition node (node_id : string) : string := "relay:nodes:" +:+ node_id.
Definition presence (user_key : string) : string :=
  "relay:presence:" +:+ user_key.
Definition dedup (channel message_id : string) : string :=
  "relay:dedup:" +:+ channel +:+ ":" +:+ message_id.
Definition idempotency (tenant_id key : string) : string :=
  "relay:idempotency:" +:+ tenant_id +:+ ":" +:+ key.
Definition room_nodes (room : string) : string :=
  "relay:room:" +:+ room +:+ ":nodes".
Definition pubsub_channel (channel : string) : string :=
  "relay:pubsub:" +:+ channel.
Definition rate_limit (scope key : string) : string :=
  "relay:ratelimit:" +:+ scope +:+ ":" +:+ key.
End RedisKeys.

(** The presence tracker's own keys ([_key], [_state_key]). *)
Definition presence_key (tenant_id user_id : string) : string :=
  "relay:presence:" +:+ tenant_id +:+ ":" +:+ user_id.
Definition presence_state_key (tenant_id user_id : string) : string :=
  "relay:presence:" +:+ tenant_id +:+ ":" +:+ user_id +:+ ":state".

(** Keys of different families differ in their first characters. *)
Ltac key_neq :=
  unfold RedisKeys.connection, RedisKeys.session, RedisKeys.session_ack,
    RedisKeys.channel_stream, RedisKeys.channel_sequence, RedisKeys.node,
    RedisKeys.presence, RedisKeys.idempotency, RedisKeys.room_nodes,
    presence_key, presence_state_key;
  let H := fresh in intros H; cbv [String.append] in H; discriminate H.

Ltac key_inj H :=
  unfold RedisKeys.session_ack, RedisKeys.session, RedisKeys.channel_stream,
    RedisKeys.channel_sequence, RedisKeys.idempotency,
    presence_key, presence_state_key in H;
  apply str_app_inv_l in H.

Lemma stream_sequence_neq (c c' : string) :
  RedisKeys.channel_stream c <> RedisKeys.channel_sequence c'.
Proof. key_neq. Qed.

Lemma channel_sequence_inj (c c' : string) :
  RedisKeys.channel_sequence c = RedisKeys.channel_sequence c' -> c = c'.
Proof. intros H. by key_inj H. Qed.

Lemma channel_stream_inj (c c' : string) :
  RedisKeys.channel_stream c = RedisKeys.channel_stream c' -> c = c'.
Proof. intros H. by key_inj H. Qed.

Lemma session_ack_inj (s s' c c' : string) :
  no_colon s = true -> no_colon s' = true ->
  RedisKeys.session_ack s c = RedisKeys.session_ack s' c' -> s = s' /\ c = c'.
Proof.
  intros Hs Hs' H. key_inj H.
  destruct (colon_split s s' ("ack:" +:+ c) ("ack:" +:+ c') Hs Hs' H) as [-> H'].
  by apply str_app_inv_l in H'.
Qed.

Lemma no_colon_app (p a : string) : no_colon (p +:+ (":" +:+ a)) = false.
Proof. unfold no_colon. rewrite forall_chars_app, str_app_cons. cbn. apply andb_false_r. Qed.

Lemma session_not_ack (s s' c : string) :
  no_colon s = true -> RedisKeys.session s <> RedisKeys.session_ack s' c.
Proof.
  intros Hs H. key_inj H. subst s.
  pose proof (no_colon_app s' ("ack:" +:+ c)) as Hn.
  rewrite str_app_cons, str_app_nil_l in Hn. cbv [String.append] in Hn, Hs. congruence.
Qed.

Lemma presence_key_inj (t t' u u' : string) :
  no_colon t = true -> no_colon t' = true ->
  presence_key t u = presence_key t' u' -> t = t' /\ u = u'.
Proof. intros Ht Ht' H. key_inj H. by apply colon_split in H. Qed.

(** The key layout keeps sessions apart: a session's ack positions are
    stored under keys that determine the session and the channel, no session
    hash shares a key with an ack position, and a tenant's presence keys
    belong to that tenant only, as long as session and tenant ids (which the
    service draws as UUIDs) have no colon. *)
Theorem redis_keys_separate (s s' c c' t t' u u' : string) :
  no_colon s = true -> no_colon s' = true ->
  no_colon t = true -> no_colon t' = true ->
  (RedisKeys.session_ack s c = RedisKeys.session_ack s' c' -> s = s' /\ c = c') /\
  RedisKeys.session s <> RedisKeys.session_ack s' c /\
  (presence_key t u = presence_key t' u' -> t = t' /\ u = u') /\
  (presence_key t u = presence_state_key t' u' -> t = t' /\ u = u' +:+ ":state").
Proof.
  intros Hs Hs' Ht Ht'. split_and!.
  - by apply session_ack_inj.
  - by apply session_not_ack.
  - by apply presence_key_inj.
  - intros H. key_inj H. by apply colon_split in H.
Qed.

Lemma redis_keys_separate_witness :
  RedisKeys.session "6f1b" <> RedisKeys.session_ack "77aa" "t-1:chat".
Proof.
  destruct (redis_keys_separate "6f1b" "77aa" "t-1:chat" "t-1:chat" "1" "2" "a" "b")
    as (_ & H & _); [done..|exact H].
Defined.
