(* ===== verification/RedisApi.v ===== *)
(** * The Redis interface

    Redis is a service outside the repository, so it is a parameter: [Redis]
    gives the server's state, the execution of one command and two observers,
    and [RedisLaws] states the documented behaviour of each command the
    gateway sends.  [RefRedis] shows that the laws can hold together.

    [sees d t k] is what a read of key [k] at time [t] (milliseconds) would
    find in [d]: a key whose deadline has passed is not seen.  [plog d] is the
    history of [PUBLISH]ed messages. *)
From Stdlib Require Import ZArith Lia.
From stdpp Require Import base gmap strings list.
From S2P Require Import Prelude.

(** Stream entry ids are [<milliseconds>-<counter>]. *)
Definition stream_id : Type := Z * Z.
Definition stream_entry : Type := stream_id * list (string * string).

Inductive rval :=
| VStr (s : string)
| VHash (h : gmap string string)
| VSet (s : gset string)
| VStream (l : list stream_entry).

(** [ResponseError]s of the server. *)
Inductive rerr := WRONGTYPE | NOT_AN_INTEGER | SYNTAX_ERR.

Definition rreply (A : Type) : Type := rerr + A.

(** The commands the gateway sends.  [XADD] is always sent with an exact
    [MAXLEN], [XTRIM] always with an approximate [MINID], [XRANGE] always over
    the whole stream, [SCAN] always for a literal prefix, with the cursor of the
    previous call, and a pipeline is the [MULTI]/[EXEC] block of two commands. *)
Inductive rcmd : Type -> Type :=
| GET (k : string) : rcmd (option string)
| SET (k v : string) (ex : option Z) : rcmd unit
| DEL (ks : list string) : rcmd unit
| INCR (k : string) : rcmd Z
| HSET (k : string) (mapping : list (string * string)) : rcmd unit
| HGETALL (k : string) : rcmd (gmap string string)
| EXPIRE (k : string) (seconds : Z) : rcmd bool
| SADD (k m : string) : rcmd unit
| SREM (k m : string) : rcmd unit
| SCARD (k : string) : rcmd nat
| XADD (k : string) (fields : list (string * string)) (maxlen : nat) : rcmd stream_id
| XTRIM_MINID (k : string) (minid : Z) : rcmd unit
| XRANGE_ALL (k : string) : rcmd (list stream_entry)
| PUBLISH (topic msg : string) : rcmd unit
| SCAN (cursor : Z) (prefix : string) : rcmd (Z * list string)
| REDIS_PING : rcmd unit
| MULTI2 {A B : Type} (c1 : rcmd A) (c2 : rcmd B) : rcmd (A * B).

(** The keys a command may modify. *)
Fixpoint touched {A} (c : rcmd A) : list string :=
  match c with
  | GET _ | HGETALL _ | SCARD _ | XRANGE_ALL _ | PUBLISH _ _ | SCAN _ _ | REDIS_PING => []
  | SET k _ _ | INCR k | HSET k _ | EXPIRE k _ | SADD k _ | SREM k _
  | XADD k _ _ | XTRIM_MINID k _ => [k]
  | DEL ks => ks
  | MULTI2 c1 c2 => touched c1 ++ touched c2
  end.

(** The messages a command publishes. *)
Fixpoint published {A} (c : rcmd A) : list (string * string) :=
  match c with
  | PUBLISH topic msg => [(topic, msg)]
  | MULTI2 c1 c2 => published c1 ++ published c2
  | _ => []
  end.

Class Redis := {
  db : Type;
  rexec : forall {A}, rcmd A -> Z -> db -> rreply A * db;
  sees : db -> Z -> string -> option rval;
  plog : db -> list (string * string)
}.

(** ** Vocabulary of the laws *)
Section Vocabulary.
Context {Rd : Redis}.

(** Nothing observable changed, now or later. *)
Definition same (t : Z) (d d' : db) : Prop :=
  (forall t' k, t <= t' -> sees d' t' k = sees d t' k) /\ plog d' = plog d.

(** From [t] on, key [k] reads as [f] says and nothing else changed. *)
Definition changes (t : Z) (d d' : db) (k : string) (f : Z -> option rval) : Prop :=
  (forall t', t <= t' -> sees d' t' k = f t') /\
  (forall t' k', t <= t' -> k' <> k -> sees d' t' k' = sees d t' k') /\
  plog d' = plog d.

(** A value with a deadline [s] seconds after [t]. *)
Definition expiring (t s : Z) (v : rval) (t' : Z) : option rval :=
  if t' <? t + 1000 * s then Some v else None.

(** A value written in place: the key keeps the deadline it had, if any. *)
Definition keep_ttl (t : Z) (d : db) (k : string) (v : rval) (t' : Z) : option rval :=
  match sees d t k, sees d t' k with
  | Some _, None => None
  | _, _ => Some v
  end.

Definition as_hash (o : option rval) : option (gmap string string) :=
  match o with
  | None => Some ∅ | Some (VHash h) => Some h | Some _ => None
  end.
Definition as_set (o : option rval) : option (gset string) :=
  match o with
  | None => Some ∅ | Some (VSet s) => Some s | Some _ => None
  end.
Definition as_stream (o : option rval) : option (list stream_entry) :=
  match o with
  | None => Some [] | Some (VStream l) => Some l | Some _ => None
  end.
Definition as_counter (o : option rval) : option Z :=
  match o with
  | None => Some 0 | Some (VStr s) => py_int s | Some _ => None
  end.

Definition hash_update (h : gmap string string) (m : list (string * string)) :
    gmap string string :=
  foldl (fun h kv => <[kv.1 := kv.2]> h) h m.

(** The newest [n] entries of a stream: what an exact [MAXLEN n] leaves. *)
Definition keep_last {A} (n : nat) (l : list A) : list A :=
  drop (length l - n) l.

Definition combine_replies {A B} (r1 : rreply A) (r2 : rreply B) : rreply (A * B) :=
  match r1, r2 with
  | inl e, _ => inl e
  | inr _, inl e => inl e
  | inr a, inr b => inr (a, b)
  end.

(** The calls of an iteration with [SCAN] that starts at a cursor, with the time
    and the server state of each: [scan_open] of one that has not come back to
    cursor 0 and goes on at [c'], [scan_full] of one that has, with its pages. *)
Inductive scan_open (p : string) (c : Z) : list (Z * db) -> Z -> Prop :=
| open_start : scan_open p c [] c
| open_next l c1 c2 t d ks :
    scan_open p c l c1 -> (rexec (SCAN c1 p) t d).1 = inr (c2, ks) -> c2 <> 0 ->
    scan_open p c (l ++ [(t, d)]) c2.

Inductive scan_full (p : string) (c : Z) : list (Z * db) -> list (list string) -> Prop :=
| full_last t d ks :
    (rexec (SCAN c p) t d).1 = inr (0, ks) -> scan_full p c [(t, d)] [ks]
| full_next c' t d ks l pages :
    (rexec (SCAN c p) t d).1 = inr (c', ks) -> c' <> 0 -> scan_full p c' l pages ->
    scan_full p c ((t, d) :: l) (ks :: pages).

(** All calls are made from [t] on, to a server that nobody changes. *)
Definition unchanged (t : Z) (d : db) (l : list (Z * db)) : Prop :=
  Forall (fun td => t <= td.1 /\ same td.1 d td.2) l.

End Vocabulary.

(** Redis integers are 64-bit signed. *)
Definition int64_max : Z := 2 ^ 63 - 1.

(** ** The documented behaviour of each command *)
Class RedisLaws {Rd : Redis} : Prop := {
  (* time alone only makes keys disappear *)
  law_time : forall d t t' k v,
    t <= t' -> sees d t' k = Some v -> sees d t k = Some v;
  (* a command modifies no key but its own *)
  law_frame : forall A (c : rcmd A) t d k t',
    k ∉ touched c -> t <= t' -> sees (rexec c t d).2 t' k = sees d t' k;
  law_get : forall k t d r d', rexec (GET k) t d = (r, d') ->
    same t d d' /\
    r = match sees d t k with
        | None => inr None
        | Some (VStr s) => inr (Some s)
        | Some _ => inl WRONGTYPE
        end;
  law_set_ex : forall k v s t d r d', 0 < s ->
    rexec (SET k v (Some s)) t d = (r, d') ->
    r = inr tt /\ changes t d d' k (expiring t s (VStr v));
  law_set : forall k v t d r d', rexec (SET k v None) t d = (r, d') ->
    r = inr tt /\ changes t d d' k (fun _ => Some (VStr v));
  law_del : forall ks t d r d', rexec (DEL ks) t d = (r, d') ->
    r = inr tt /\ plog d' = plog d /\
    forall t' k, t <= t' ->
      sees d' t' k = if bool_decide (k ∈ ks) then None else sees d t' k;
  law_incr : forall k n t d r d', rexec (INCR k) t d = (r, d') ->
    as_counter (sees d t k) = Some n -> n < int64_max ->
    r = inr (n + 1) /\ changes t d d' k (keep_ttl t d k (VStr (py_str (n + 1))));
  law_incr_overflow : forall k n t d r d', rexec (INCR k) t d = (r, d') ->
    as_counter (sees d t k) = Some n -> int64_max <= n ->
    r = inl NOT_AN_INTEGER /\ same t d d';
  law_hset : forall k m h t d r d', rexec (HSET k m) t d = (r, d') ->
    as_hash (sees d t k) = Some h -> m <> [] ->
    r = inr tt /\ changes t d d' k (keep_ttl t d k (VHash (hash_update h m)));
  law_hgetall : forall k t d r d', rexec (HGETALL k) t d = (r, d') ->
    same t d d' /\
    r = match as_hash (sees d t k) with Some h => inr h | None => inl WRONGTYPE end;
  law_expire : forall k s t d r d', rexec (EXPIRE k s) t d = (r, d') ->
    r = inr (match sees d t k with Some _ => true | None => false end) /\
    changes t d d' k (fun t' => v ← sees d t k; expiring t s v t');
  law_sadd : forall k m x t d r d', rexec (SADD k m) t d = (r, d') ->
    as_set (sees d t k) = Some x ->
    r = inr tt /\ changes t d d' k (keep_ttl t d k (VSet ({[m]} ∪ x)));
  law_sadd_type : forall k m t d r d', rexec (SADD k m) t d = (r, d') ->
    as_set (sees d t k) = None -> r = inl WRONGTYPE /\ same t d d';
  (* a set that becomes empty is deleted *)
  law_srem : forall k m x t d r d', rexec (SREM k m) t d = (r, d') ->
    as_set (sees d t k) = Some x ->
    r = inr tt /\
    changes t d d' k (fun t' =>
      if bool_decide (x ∖ {[m]} = ∅) then None
      else keep_ttl t d k (VSet (x ∖ {[m]})) t');
  law_scard : forall k t d r d', rexec (SCARD k) t d = (r, d') ->
    same t d d' /\
    r = match as_set (sees d t k) with Some x => inr (size x) | None => inl WRONGTYPE end;
  (* the new id is larger than every id in the stream *)
  law_xadd : forall k fields n l t d r d',
    rexec (XADD k fields n) t d = (r, d') -> as_stream (sees d t k) = Some l ->
    exists id, r = inr id /\
      (forall e, e ∈ l -> e.1.1 < id.1 \/ (e.1.1 = id.1 /\ e.1.2 < id.2)) /\
      changes t d d' k
        (keep_ttl t d k (VStream (keep_last n (l ++ [(id, fields)]))));
  (* approximate trimming removes some of the oldest entries below the id *)
  law_xtrim : forall k m l t d r d', rexec (XTRIM_MINID k m) t d = (r, d') ->
    sees d t k = Some (VStream l) ->
    exists trimmed rest, l = trimmed ++ rest /\ r = inr tt /\
      (forall e, e ∈ trimmed -> e.1.1 < m) /\
      changes t d d' k (keep_ttl t d k (VStream rest));
  law_xtrim_missing : forall k m t d r d', rexec (XTRIM_MINID k m) t d = (r, d') ->
    sees d t k = None -> r = inr tt /\ same t d d';
  law_xrange : forall k t d r d', rexec (XRANGE_ALL k) t d = (r, d') ->
    same t d d' /\
    r = match as_stream (sees d t k) with Some l => inr l | None => inl WRONGTYPE end;
  law_publish : forall c m t d r d', rexec (PUBLISH c m) t d = (r, d') ->
    r = inr tt /\ plog d' = plog d ++ [(c, m)] /\
    forall t' k, t <= t' -> sees d' t' k = sees d t' k;
  (* a page of keys that match and are there *)
  law_scan : forall c p t d r d', rexec (SCAN c p) t d = (r, d') ->
    same t d d' /\
    exists c' ks, r = inr (c', ks) /\
      forall k, k ∈ ks -> startswith k p = true /\ is_Some (sees d t k);
  (* a full iteration returns every key that is there from its start to its end *)
  law_scan_full : forall p t d l pages k, scan_full p 0 l pages -> unchanged t d l ->
    startswith k p = true -> (forall u d', (u, d') ∈ l -> is_Some (sees d u k)) ->
    exists ks, ks ∈ pages /\ k ∈ ks;
  (* the iteration of a keyspace that does not grow comes to its end *)
  law_scan_ends : forall p t d, exists n, forall l c,
    scan_open p 0 l c -> unchanged t d l -> (length l < n)%nat;
  (* only PUBLISH adds to the history of messages *)
  law_log : forall A (c : rcmd A) t d, plog (rexec c t d).2 = plog d ++ published c;
  law_ping : forall t d r d', rexec REDIS_PING t d = (r, d') -> r = inr tt /\ same t d d';
  law_multi : forall A B (c1 : rcmd A) (c2 : rcmd B) t d,
    rexec (MULTI2 c1 c2) t d =
    (let '(r1, d1) := rexec c1 t d in
     let '(r2, d2) := rexec c2 t d1 in (combine_replies r1 r2, d2))
}.

(** ** Observational equality of server states

    [same t] is an equivalence, and every law transports along it. *)
Section Observation.
Context {Rd : Redis}.

#[export] Instance same_equivalence (t : Z) : Equivalence (same t).
Proof.
  split.
  - by split.
  - intros d d' [Hs Hp]. split; [|done]. intros. by rewrite Hs.
  - intros d d' d'' [Hs Hp] [Hs' Hp']. split; [|congruence].
    intros. by rewrite Hs', Hs.
Qed.

Lemma same_later (t u : Z) (d d' : db) : t <= u -> same t d d' -> same u d d'.
Proof. intros Htu [Hs Hp]. split; [|done]. intros. apply Hs. lia. Qed.

Lemma same_sees (t u : Z) (d d' : db) (k : string) :
  same t d d' -> t <= u -> sees d' u k = sees d u k.
Proof. intros [Hs _] ?. auto. Qed.

Lemma changes_at (t u : Z) (d d' : db) (k : string) (f : Z -> option rval) :
  changes t d d' k f -> t <= u -> sees d' u k = f u.
Proof. intros (H & _ & _). auto. Qed.

Lemma changes_frame (t u : Z) (d d' : db) (k k' : string) (f : Z -> option rval) :
  changes t d d' k f -> t <= u -> k' <> k -> sees d' u k' = sees d u k'.
Proof. intros (_ & H & _). auto. Qed.

Lemma changes_plog (t : Z) (d d' : db) (k : string) (f : Z -> option rval) :
  changes t d d' k f -> plog d' = plog d.
Proof. by intros (_ & _ & H). Qed.

Lemma expiring_before (t s : Z) (v : rval) (u : Z) :
  u < t + 1000 * s -> expiring t s v u = Some v.
Proof. unfold expiring. destruct (Z.ltb_spec u (t + 1000 * s)); [done|lia]. Qed.

Lemma expiring_after (t s : Z) (v : rval) (u : Z) :
  t + 1000 * s <= u -> expiring t s v u = None.
Proof. unfold expiring. destruct (Z.ltb_spec u (t + 1000 * s)); [lia|done]. Qed.

Lemma keep_ttl_now (t : Z) (d : db) (k : string) (v : rval) :
  keep_ttl t d k v t = Some v.
Proof. unfold keep_ttl. by destruct (sees d t k). Qed.

Lemma keep_ttl_fresh (t u : Z) (d : db) (k : string) (v : rval) :
  sees d t k = None -> keep_ttl t d k v u = Some v.
Proof. unfold keep_ttl. by intros ->. Qed.

Lemma sees_gone {Rl : RedisLaws} (d : db) (t u : Z) (k : string) :
  t <= u -> sees d t k = None -> sees d u k = None.
Proof.
  intros Htu H. destruct (sees d u k) as [v|] eqn:E; [|done].
  apply (law_time d t u k v Htu) in E. congruence.
Qed.

(** A key that reads the same at both ends of an interval reads so inside it. *)
Lemma sees_stable {Rl : RedisLaws} (d : db) (t u T : Z) (k : string) :
  sees d T k = sees d t k -> t <= u <= T -> sees d u k = sees d t k.
Proof.
  intros H [Htu HuT]. destruct (sees d t k) as [v|] eqn:E.
  - by apply (law_time d u T k v HuT).
  - by apply (sees_gone d t u k Htu).
Qed.

End Observation.

Create HintDb relay.
#[export] Hint Resolve Z.le_refl keep_ttl_now : relay.
