(* ===== verification/Async.v ===== *)
(** * Cooperative tasks

    A coroutine of the gateway is a [proc]: a tree of the events it performs,
    each with its continuation.  Events are the points the source suspends at
    ([await] on Redis, on a WebSocket, on a timer) and the synchronous reads of the
    clock, of [uuid4] and of the process state between them.

    [run] executes one coroutine alone; [pstep] and [run_sched] interleave a
    pool of them the way asyncio does: between two suspension points a task
    runs alone, at a suspension point any other task may run.  Every event has
    a number, and an [env] says what the outside world does at it: the time,
    the next [uuid4], the fate of a Redis request, whether a socket accepts a
    write. *)
From Stdlib Require Import ZArith Lia.
From stdpp Require Import base gmap strings list.
From S2P Require Import Prelude RedisApi.

(** The exceptions the modelled code raises or lets through. *)
Inductive exn :=
| SlowConsumerError (connection_id : string)
| RedisConnectionError
| RedisResponseError (e : rerr)
| ValidationError
| ValueError (text : string)
| AuthenticationError (text : string)
| HTTPException (status : Z) (detail : string)
| WebSocketDisconnect
| OtherError (text : string).

Inductive ev (S : Type) : Type -> Type :=
| ERedis {A : Type} (c : rcmd A) : ev S (exn + A)
| ENow : ev S Z
| EUuid : ev S string
| ELocal {A : Type} (f : S -> A * S) : ev S A
| ESend (ws : nat) (text : string) : ev S (exn + unit)
| EClose (ws : nat) (code : Z) : ev S (exn + unit)
| ESleep (ms : Z) : ev S unit.
Arguments ERedis {S A} c.
Arguments ENow {S}.
Arguments EUuid {S}.
Arguments ELocal {S A} f.
Arguments ESend {S} ws text.
Arguments EClose {S} ws code.
Arguments ESleep {S} ms.

(** Suspension points. *)
Definition is_await {S A} (e : ev S A) : bool :=
  match e with
  | ERedis _ | ESend _ _ | EClose _ _ | ESleep _ => true
  | ENow | EUuid | ELocal _ => false
  end.

Inductive proc (S A : Type) : Type :=
| Ret (a : A)
| Throw (e : exn)
| Call {B : Type} (e : ev S B) (k : B -> proc S A).
Arguments Ret {S A} a.
Arguments Throw {S A} e.
Arguments Call {S A B} e k.

Fixpoint bind {S A B} (p : proc S A) (f : A -> proc S B) : proc S B :=
  match p with
  | Ret a => f a
  | Throw e => Throw e
  | Call e k => Call e (fun b => bind (k b) f)
  end.

(** [try: p except: h], with [h] told the exception. *)
Fixpoint catch {S A} (p : proc S A) (h : exn -> proc S A) : proc S A :=
  match p with
  | Ret a => Ret a
  | Throw e => h e
  | Call e k => Call e (fun b => catch (k b) h)
  end.

Declare Scope proc_scope.
Delimit Scope proc_scope with proc.
Notation "'let!' x := p 'in' q" := (bind p (fun x => q))
  (at level 200, x binder, p at level 100, q at level 200, right associativity)
  : proc_scope.
Notation "p ;; q" := (bind p (fun _ => q))
  (at level 100, q at level 200, right associativity) : proc_scope.
Open Scope proc_scope.

Definition lift {S A} (r : exn + A) : proc S A :=
  match r with inl e => Throw e | inr a => Ret a end.

Definition redis {S A} (c : rcmd A) : proc S A := Call (ERedis c) lift.
Definition now {S} : proc S Z := Call ENow Ret.
Definition uuid4 {S} : proc S string := Call EUuid Ret.
Definition local {S A} (f : S -> A * S) : proc S A := Call (ELocal f) Ret.
Definition gets {S A} (f : S -> A) : proc S A := local (fun s => (f s, s)).
Definition modify {S} (f : S -> S) : proc S unit := local (fun s => (tt, f s)).
Definition send_text {S} (ws : nat) (text : string) : proc S unit :=
  Call (ESend ws text) lift.
Definition close {S} (ws : nat) (code : Z) : proc S unit :=
  Call (EClose ws code) lift.
(** [asyncio.sleep], or the wait for input: any other task may run meanwhile. *)
Definition sleep {S} (ms : Z) : proc S unit := Call (ESleep ms) Ret.

(** [for x in l: f(x)]. *)
Fixpoint for_each {S A} (l : list A) (f : A -> proc S unit) : proc S unit :=
  match l with
  | [] => Ret tt
  | a :: l' => f a ;; for_each l' f
  end.

(** ** The outside world *)

(** A request reaches the server once and its reply comes back, possibly after
    [n] more executions that the client's retry policy caused; or the client
    gives up, the server having executed the request [n] times. *)
Inductive netev := NetOk (n : nat) | NetErr (n : nat).

Record env := mkEnv {
  clock : nat -> Z;
  net : nat -> netev;
  uuid : nat -> string;
  ws_ok : nat -> bool
}.

Definition mono_clock (e : env) : Prop :=
  forall i j, (i <= j)%nat -> clock e i <= clock e j.

Definition reliable (e : env) : Prop := forall i, net e i = NetOk 0.

Inductive ws_event :=
| WsSent (ws : nat) (text : string)
| WsClosed (ws : nat) (code : Z).

Record world {Rd : Redis} (S : Type) := mkWorld {
  w_tick : nat;
  w_db : db;
  w_state : S;
  w_out : list ws_event
}.
Arguments mkWorld {_ S}.
Arguments w_tick {_ S}.
Arguments w_db {_ S}.
Arguments w_state {_ S}.
Arguments w_out {_ S}.

Section Run.
Context {Rd : Redis} {S : Type}.
Variable e : env.

Definition exec_once {A} (c : rcmd A) (t : Z) (d : db) : db := (rexec c t d).2.

Definition of_reply {A} (r : rreply A) : exn + A :=
  match r with inl x => inl (RedisResponseError x) | inr a => inr a end.

Definition request {A} (ne : netev) (c : rcmd A) (t : Z) (d : db) : (exn + A) * db :=
  match ne with
  | NetOk n => let '(r, d') := rexec c t (Nat.iter n (exec_once c t) d) in
               (of_reply r, d')
  | NetErr n => (inl RedisConnectionError, Nat.iter n (exec_once c t) d)
  end.

Definition do_ev {A} (x : ev S A) (w : world S) : A * world S :=
  let n := w_tick w in
  match x in ev _ A return A * world S with
  | ERedis c =>
      let '(r, d') := request (net e n) c (clock e n) (w_db w) in
      (r, mkWorld (1 + n) d' (w_state w) (w_out w))
  | ENow => (clock e n, mkWorld (1 + n) (w_db w) (w_state w) (w_out w))
  | EUuid => (uuid e n, mkWorld (1 + n) (w_db w) (w_state w) (w_out w))
  | ELocal f =>
      let '(a, s') := f (w_state w) in
      (a, mkWorld (1 + n) (w_db w) s' (w_out w))
  | ESend ws text =>
      if ws_ok e n
      then (inr tt, mkWorld (1 + n) (w_db w) (w_state w) (w_out w ++ [WsSent ws text]))
      else (inl WebSocketDisconnect, mkWorld (1 + n) (w_db w) (w_state w) (w_out w))
  | EClose ws code =>
      if ws_ok e n
      then (inr tt, mkWorld (1 + n) (w_db w) (w_state w) (w_out w ++ [WsClosed ws code]))
      else (inl WebSocketDisconnect, mkWorld (1 + n) (w_db w) (w_state w) (w_out w))
  | ESleep _ => (tt, mkWorld (1 + n) (w_db w) (w_state w) (w_out w))
  end.

(** A coroutine that runs without interference. *)
Fixpoint run {A} (p : proc S A) (w : world S) : (exn + A) * world S :=
  match p with
  | Ret a => (inr a, w)
  | Throw x => (inl x, w)
  | Call x k => let '(b, w') := do_ev x w in run (k b) w'
  end.

(** The synchronous code up to the next suspension point. *)
Fixpoint settle {A} (p : proc S A) (w : world S) : proc S A * world S :=
  match p with
  | Call x k =>
      if is_await x then (p, w)
      else let '(b, w') := do_ev x w in settle (k b) w'
  | _ => (p, w)
  end.

(** One turn of a task: the outside world answers the event it is suspended
    at, or the task runs to its next suspension point. *)
Definition turn {A} (p : proc S A) (w : world S) : proc S A * world S :=
  match p with
  | Call x k =>
      if is_await x then let '(b, w') := do_ev x w in (k b, w')
      else settle p w
  | _ => (p, w)
  end.

Definition pstep {A} (i : nat) (st : list (proc S A) * world S) :
    list (proc S A) * world S :=
  match st.1 !! i with
  | Some p => let '(p', w') := turn p st.2 in (<[i := p']> st.1, w')
  | None => st
  end.

(** Task [i] takes the next turn, for each [i] of the schedule. *)
Definition run_sched {A} (sched : list nat) (st : list (proc S A) * world S) :
    list (proc S A) * world S :=
  foldl (fun st i => pstep i st) st sched.

(** ** Laws of [run] *)
Lemma run_bind {A B} (p : proc S A) (f : A -> proc S B) (w : world S) :
  run (bind p f) w =
  let '(r, w') := run p w in
  match r with inl x => (inl x, w') | inr a => run (f a) w' end.
Proof.
  revert w. induction p as [a|x|C x k IH]; intros w; cbn; [done|done|].
  destruct (do_ev x w) as [b w']. apply IH.
Qed.

Lemma run_catch {A} (p : proc S A) (h : exn -> proc S A) (w : world S) :
  run (catch p h) w =
  let '(r, w') := run p w in
  match r with inl x => run (h x) w' | inr a => (inr a, w') end.
Proof.
  revert w. induction p as [a|x|C x k IH]; intros w; cbn; [done|done|].
  destruct (do_ev x w) as [b w']. apply IH.
Qed.

Lemma run_redis {A} (c : rcmd A) (w : world S) :
  net e (w_tick w) = NetOk 0 ->
  run (redis c) w =
  let '(r, d') := rexec c (clock e (w_tick w)) (w_db w) in
  (of_reply r, mkWorld (1 + w_tick w) d' (w_state w) (w_out w)).
Proof.
  intros H. unfold redis; cbn. rewrite H; cbn.
  destruct (rexec c _ _) as [[x|a] d']; done.
Qed.

Definition tick (w : world S) : world S :=
  mkWorld (1 + w_tick w) (w_db w) (w_state w) (w_out w).
Definition set_db (w : world S) (d : db) : world S :=
  mkWorld (1 + w_tick w) d (w_state w) (w_out w).

Lemma run_redis_bind {A B} (c : rcmd A) (f : A -> proc S B) (w : world S) :
  net e (w_tick w) = NetOk 0 ->
  run (bind (redis c) f) w =
  let '(r, d') := rexec c (clock e (w_tick w)) (w_db w) in
  match r with
  | inl x => (inl (RedisResponseError x), set_db w d')
  | inr a => run (f a) (set_db w d')
  end.
Proof.
  intros H. rewrite run_bind, run_redis by done.
  destruct (rexec c _ _) as [[x|a] d']; done.
Qed.

Lemma run_now_bind {B} (f : Z -> proc S B) (w : world S) :
  run (bind now f) w = run (f (clock e (w_tick w))) (tick w).
Proof. done. Qed.

Lemma run_uuid_bind {B} (f : string -> proc S B) (w : world S) :
  run (bind uuid4 f) w = run (f (uuid e (w_tick w))) (tick w).
Proof. done. Qed.

Lemma run_gets {A} (f : S -> A) (w : world S) :
  run (gets f) w = (inr (f (w_state w)), tick w).
Proof. done. Qed.

Lemma run_modify (f : S -> S) (w : world S) :
  run (modify f) w = (inr tt, mkWorld (1 + w_tick w) (w_db w) (f (w_state w)) (w_out w)).
Proof. done. Qed.

Lemma run_catch_ok {A} (p : proc S A) (h : exn -> proc S A) (w : world S) a w' :
  run p w = (inr a, w') -> run (catch p h) w = (inr a, w').
Proof. intros H. by rewrite run_catch, H. Qed.

End Run.

(** A [SET] with an expiry, run alone. *)
Lemma run_set_ex {Rd : Redis} {Rl : RedisLaws} {S} (e : env) (k v : string) (s : Z)
    (w : world S) :
  net e (w_tick w) = NetOk 0 -> 0 < s ->
  exists d', run e (redis (SET k v (Some s))) w = (inr tt, set_db w d') /\
    plog d' = plog (w_db w) /\
    forall u k', clock e (w_tick w) <= u ->
      sees d' u k' = if bool_decide (k' = k)
                     then expiring (clock e (w_tick w)) s (VStr v) u
                     else sees (w_db w) u k'.
Proof.
  intros Hnet Hs. rewrite run_redis by done.
  destruct (rexec _ _ _) as [r d'] eqn:E. apply law_set_ex in E as [-> Hch]; [|done].
  exists d'. split; [done|]. split; [by apply changes_plog in Hch|].
  intros u k' Hu. case_bool_decide as Hk.
  - subst k'. by apply (changes_at _ _ _ _ _ _ Hch).
  - by rewrite (changes_frame _ _ _ _ _ _ _ Hch).
Qed.

(** [run_step Hr] executes the next event of the goal's [run], [Hr] being
    [reliable e]; a Redis command leaves its reply equation in the context. *)
Ltac run_step Hr :=
  first
    [ rewrite run_now_bind
    | rewrite run_uuid_bind
    | rewrite run_redis_bind by apply Hr;
      match goal with
      | |- context [rexec ?c ?t ?d] =>
          let r := fresh "r" in let d' := fresh "d" in let E := fresh "E" in
          destruct (rexec c t d) as [r d'] eqn:E; cbn [w_db w_tick set_db tick] in E
      end ];
  cbn [w_db w_tick w_state w_out set_db tick].

Ltac clock_le Hm := cbn [w_tick set_db tick]; apply Hm; lia.
