(* ===== verification/Tasks.v ===== *)
(** * Invariants of the process state under every schedule

    A proof method for pools of the coroutines of [Async]: an invariant that
    every synchronous step of every task keeps holds in every interleaving. *)
From Stdlib Require Import ZArith Lia.
From stdpp Require Import base gmap strings list sets.
From S2P Require Import Prelude RedisApi Async.

(** What a task may write: on a socket, or as a message of Redis Pub/Sub. *)
Record writes := mkWrites {
  may_send : nat -> string -> Prop;
  may_publish : string -> Prop
}.

Definition publishes (Q : string -> Prop) {A} (c : rcmd A) : Prop :=
  Forall (fun m => Q m.2) (published c).

(** [safe I P p]: every piece of synchronous code of [p] keeps [I], and every
    text [p] writes to a socket or publishes is one that [P] allows, whatever the
    outside world and the other tasks did before.  A pool of such tasks keeps
    [I], and writes such texts only, under every schedule. *)
Fixpoint safe {S A} (I : S -> Prop) (P : writes) (p : proc S A) : Prop :=
  match p with
  | Ret _ | Throw _ => True
  | @Call _ _ B x k =>
      match x in ev _ B return (B -> Prop) -> Prop with
      | ELocal f => fun K => forall s, I s -> I (f s).2 /\ K (f s).1
      | ESend ws text => fun K => may_send P ws text /\ forall b, K b
      | ERedis c => fun K => publishes (may_publish P) c /\ forall b, K b
      | _ => fun K => forall b, K b
      end (fun b => safe I P (k b))
  end.

(** The invariant alone. *)
Definition anything : writes := mkWrites (fun _ _ => True) (fun _ => True).
Notation keeps I := (safe I anything).

Lemma publishes_anything {A} (c : rcmd A) : publishes (may_publish anything) c.
Proof. by apply Forall_forall. Qed.

(** The texts written so far. *)
Definition wrote (P : nat -> string -> Prop) (out : list ws_event) : Prop :=
  forall ws text, WsSent ws text ∈ out -> P ws text.

Section Safe.
Context {S : Type}.
Variable I : S -> Prop.
Variable P : writes.

Lemma keeps_bind {A B} (p : proc S A) (f : A -> proc S B) :
  safe I P p -> (forall a, safe I P (f a)) -> safe I P (bind p f).
Proof.
  intros Hp Hf. induction p as [a|x|C x k IH]; cbn in *; [apply Hf|done|].
  destruct x; cbn in *; try (intros b; apply IH; apply Hp).
  - destruct Hp. auto.
  - intros s Hs. destruct (Hp s Hs). auto.
  - destruct Hp. auto.
Qed.

Lemma keeps_catch {A} (p : proc S A) (h : exn -> proc S A) :
  safe I P p -> (forall x, safe I P (h x)) -> safe I P (catch p h).
Proof.
  intros Hp Hh. induction p as [a|x|C x k IH]; cbn in *; [done|apply Hh|].
  destruct x; cbn in *; try (intros b; apply IH; apply Hp).
  - destruct Hp. auto.
  - intros s Hs. destruct (Hp s Hs). auto.
  - destruct Hp. auto.
Qed.

Lemma keeps_for_each {A} (l : list A) (f : A -> proc S unit) :
  (forall a, a ∈ l -> safe I P (f a)) -> safe I P (for_each l f).
Proof.
  induction l as [|a l IH]; cbn; intros Hf; [done|].
  apply keeps_bind; [apply Hf; set_solver|]. intros _. apply IH. set_solver.
Qed.

Lemma keeps_lift {A} (r : exn + A) : safe I P (lift r).
Proof. by destruct r. Qed.

Lemma keeps_redis {A} (c : rcmd A) : publishes (may_publish P) c -> safe I P (redis c).
Proof. intros H. split; [done|]. intros b. apply keeps_lift. Qed.

(** A command that publishes nothing. *)
Lemma keeps_request {A} (c : rcmd A) : published c = [] -> safe I P (redis c).
Proof. intros H. apply keeps_redis. unfold publishes. rewrite H. constructor. Qed.

Lemma keeps_now : safe I P now.
Proof. done. Qed.

Lemma keeps_uuid4 : safe I P uuid4.
Proof. done. Qed.

Lemma keeps_sleep ms : safe I P (sleep ms).
Proof. done. Qed.

Lemma safe_send ws text : may_send P ws text -> safe I P (send_text ws text).
Proof. intros H. split; [done|]. intros b. apply keeps_lift. Qed.

Lemma keeps_close ws code : safe I P (close ws code).
Proof. intros b. apply keeps_lift. Qed.

Lemma keeps_gets {A} (f : S -> A) : safe I P (gets f).
Proof. done. Qed.

Lemma keeps_modify (f : S -> S) : (forall s, I s -> I (f s)) -> safe I P (modify f).
Proof. intros H s Hs. split; [by apply H|done]. Qed.

Lemma keeps_local {A} (f : S -> A * S) : (forall s, I s -> I (f s).2) -> safe I P (local f).
Proof. intros H s Hs. split; [by apply H|done]. Qed.

(** What is read satisfies what the invariant says of the state. *)
Lemma keeps_gets_bind {A B} (f : S -> A) (k : A -> proc S B) :
  (forall s, I s -> safe I P (k (f s))) -> safe I P (bind (gets f) k).
Proof. intros H s Hs. split; [done|by apply H]. Qed.

Context {Rd : Redis}.
Variable e : env.

(** A world in which [I] holds and only allowed texts were written. *)
Definition fine (w : world S) : Prop := I (w_state w) /\ wrote (may_send P) (w_out w).

Lemma wrote_sent (out : list ws_event) ws text :
  may_send P ws text -> wrote (may_send P) out -> wrote (may_send P) (out ++ [WsSent ws text]).
Proof. intros Ht H ws' t. rewrite elem_of_app, list_elem_of_singleton. intros [?|[= -> ->]]; eauto. Qed.

Lemma wrote_closed (out : list ws_event) ws code :
  wrote (may_send P) out -> wrote (may_send P) (out ++ [WsClosed ws code]).
Proof. intros H ws' t. rewrite elem_of_app, list_elem_of_singleton. intros [?|?]; [eauto|done]. Qed.

Lemma do_ev_safe {A B} (x : ev S B) (k : B -> proc S A) (w : world S) :
  safe I P (Call x k) -> fine w -> fine (do_ev e x w).2 /\ safe I P (k (do_ev e x w).1).
Proof.
  intros Hp [Hi Ho]. unfold fine. destruct x as [C c| | |C f|ws t|ws n|ms]; cbn in Hp |- *;
    try (split; [done|apply Hp]).
  - destruct (request _ _ _ _). split; [done|apply Hp].
  - destruct (Hp _ Hi) as [H1 H2]. by destruct (f (w_state w)).
  - destruct Hp as [Ht Hk]. destruct (ws_ok _ _); (split; [|apply Hk]); [|done].
    split; [done|by apply wrote_sent].
  - destruct (ws_ok _ _); (split; [|apply Hp]); [|done]. split; [done|by apply wrote_closed].
Qed.

Lemma settle_safe {A} (p : proc S A) : forall w,
  safe I P p -> fine w -> fine (settle e p w).2 /\ safe I P (settle e p w).1.
Proof.
  induction p as [a|x|C x k IH]; intros w Hp Hi; cbn; [done|done|].
  destruct (is_await x); [done|].
  destruct (do_ev_safe x k w Hp Hi) as [Hi' Hk]. destruct (do_ev e x w) as [b w'].
  by apply IH.
Qed.

Lemma turn_safe {A} (p : proc S A) (w : world S) :
  safe I P p -> fine w -> fine (turn e p w).2 /\ safe I P (turn e p w).1.
Proof.
  intros Hp Hi. destruct p as [a|x|C x k]; cbn; [done|done|].
  destruct (is_await x).
  - destruct (do_ev_safe x k w Hp Hi) as [Hi' Hk]. by destruct (do_ev e x w).
  - destruct (do_ev_safe x k w Hp Hi) as [Hi' Hk]. destruct (do_ev e x w) as [b w'].
    by apply settle_safe.
Qed.

Lemma run_sched_safe {A} (sched : list nat) : forall (st : list (proc S A) * world S),
  Forall (safe I P) st.1 -> fine st.2 ->
  Forall (safe I P) (run_sched e sched st).1 /\ fine (run_sched e sched st).2.
Proof.
  induction sched as [|i sched IH]; intros st Hp Hi; [done|].
  unfold run_sched. cbn. apply IH; unfold pstep; destruct (st.1 !! i) as [p|] eqn:E; try done.
  - destruct (turn_safe p st.2) as [_ Hk]; [by eapply Forall_lookup_1|done|].
    destruct (turn e p st.2) as [p' w']. cbn in *. by apply Forall_insert.
  - destruct (turn_safe p st.2) as [Hi' _]; [by eapply Forall_lookup_1|done|].
    by destruct (turn e p st.2).
Qed.

Lemma run_safe {A} (p : proc S A) : forall w,
  safe I P p -> fine w -> fine (run e p w).2.
Proof.
  induction p as [a|x|C x k IH]; intros w Hp Hi; cbn; [done|done|].
  destruct (do_ev_safe x k w Hp Hi) as [Hi' Hk]. destruct (do_ev e x w) as [b w'].
  by apply IH.
Qed.

(** *** The history of Pub/Sub *)

Definition logged (w : world S) : Prop := Forall (fun m => may_publish P m.2) (plog (w_db w)).

Context {Rl : RedisLaws}.

Lemma logged_exec {A} (c : rcmd A) (t : Z) (d : db) :
  publishes (may_publish P) c -> Forall (fun m => may_publish P m.2) (plog d) ->
  Forall (fun m => may_publish P m.2) (plog (exec_once c t d)).
Proof. intros Hc Hd. unfold exec_once. rewrite law_log. by apply Forall_app. Qed.

Lemma logged_request {A} (ne : netev) (c : rcmd A) (t : Z) (d : db) :
  publishes (may_publish P) c -> Forall (fun m => may_publish P m.2) (plog d) ->
  Forall (fun m => may_publish P m.2) (plog (request ne c t d).2).
Proof.
  intros Hc Hd. assert (forall n, Forall (fun m => may_publish P m.2)
    (plog (Nat.iter n (exec_once c t) d))) as Hn.
  { induction n as [|n IH]; [done|]. by apply logged_exec. }
  destruct ne as [n|n]; cbn; [|done].
  pose proof (logged_exec c t _ Hc (Hn n)) as H. unfold exec_once in H at 1.
  by destruct (rexec c t _).
Qed.

Lemma do_ev_logged {A B} (x : ev S B) (k : B -> proc S A) (w : world S) :
  safe I P (Call x k) -> logged w -> logged (do_ev e x w).2.
Proof.
  intros Hp Hl. unfold logged. destruct x as [C c| | |C f|ws t|ws n|ms]; cbn in Hp |- *; try done.
  - destruct Hp as [Hc _]. pose proof (logged_request (net e (w_tick w)) c (clock e (w_tick w)) _ Hc Hl) as H.
    by destruct (request _ _ _ _).
  - by destruct (f (w_state w)).
  - by destruct (ws_ok _ _).
  - by destruct (ws_ok _ _).
Qed.

Lemma settle_logged {A} (p : proc S A) : forall w,
  safe I P p -> fine w -> logged w -> logged (settle e p w).2.
Proof.
  induction p as [a|x|C x k IH]; intros w Hp Hi Hl; cbn; [done|done|].
  destruct (is_await x); [done|]. pose proof (do_ev_logged x k w Hp Hl) as Hl'.
  destruct (do_ev_safe x k w Hp Hi) as [Hi' Hk]. destruct (do_ev e x w) as [b w'].
  by apply IH.
Qed.

Lemma turn_logged {A} (p : proc S A) (w : world S) :
  safe I P p -> fine w -> logged w -> logged (turn e p w).2.
Proof.
  intros Hp Hi Hl. destruct p as [a|x|C x k]; cbn; [done|done|].
  pose proof (do_ev_logged x k w Hp Hl) as Hl'. destruct (do_ev_safe x k w Hp Hi) as [Hi' Hk].
  destruct (is_await x); destruct (do_ev e x w) as [b w']; [done|]. by apply settle_logged.
Qed.

Lemma run_sched_logged {A} (sched : list nat) : forall (st : list (proc S A) * world S),
  Forall (safe I P) st.1 -> fine st.2 -> logged st.2 -> logged (run_sched e sched st).2.
Proof.
  induction sched as [|i sched IH]; intros st Hp Hi Hl; [done|].
  unfold run_sched. cbn. unfold pstep. destruct (st.1 !! i) as [p|] eqn:E; [|by apply IH].
  assert (safe I P p) as Hpi by by eapply Forall_lookup_1.
  destruct (turn_safe p st.2 Hpi Hi) as [Hi' Hk]. pose proof (turn_logged p st.2 Hpi Hi Hl) as Hl'.
  destruct (turn e p st.2) as [p' w']. apply IH; [by apply Forall_insert|done|done].
Qed.

End Safe.

Section Keeps.
Context {Rd : Redis} {S : Type}.
Variable I : S -> Prop.
Variable e : env.

Lemma keeps_send ws text : keeps I (send_text ws text).
Proof. by apply safe_send. Qed.

Lemma fine_keeps (w : world S) : I (w_state w) -> fine I anything w.
Proof. by intros H. Qed.

Lemma run_sched_keeps {A} (sched : list nat) (st : list (proc S A) * world S) :
  Forall (keeps I) st.1 -> I (w_state st.2) ->
  Forall (keeps I) (run_sched e sched st).1 /\ I (w_state (run_sched e sched st).2).
Proof. intros Hp Hi. destruct (run_sched_safe I _ e sched st Hp (fine_keeps _ Hi)) as [? []]. done. Qed.

Lemma run_keeps {A} (p : proc S A) (w : world S) :
  keeps I p -> I (w_state w) -> I (w_state (run e p w).2).
Proof. intros Hp Hi. apply (run_safe I _ e p w Hp (fine_keeps _ Hi)). Qed.

End Keeps.

(** ** Ownership of a part of the state

    [view i s] is the part of the state that belongs to the task named [i]; the
    view of [None] says nothing.  [owned I view i v p Q X]: started with the view
    [v] of its part, [p] keeps [I] and the views of all other names, and ends with
    a view and a result of [Q], or a view and an exception of [X]. *)
Section Owned.
Context {S V : Type}.
Variable I : S -> Prop.
Variable view : option nat -> S -> V.

Fixpoint owned {A} (i : option nat) (v : V) (p : proc S A) (Q : V -> A -> Prop)
    (X : V -> exn -> Prop) : Prop :=
  match p with
  | Ret a => Q v a
  | Throw x => X v x
  | @Call _ _ B x k =>
      match x in ev _ B return (V -> B -> Prop) -> Prop with
      | ELocal f => fun K => forall s, I s -> view i s = v ->
          I (f s).2 /\ (forall j, j <> i -> view j (f s).2 = view j s) /\
          K (view i (f s).2) (f s).1
      | _ => fun K => forall b, K v b
      end (fun v' b => owned i v' (k b) Q X)
  end.

Lemma owned_bind {A B} i (p : proc S A) (f : A -> proc S B) Q Q' X : forall v,
  owned i v p Q X -> (forall v' a, Q v' a -> owned i v' (f a) Q' X) -> owned i v (bind p f) Q' X.
Proof.
  induction p as [a|x|C x k IH]; intros v Hp Hf; cbn in *; [by apply Hf|done|].
  destruct x; cbn in *; try (intros b; by apply IH).
  intros s Hs Hv. destruct (Hp s Hs Hv) as (H1 & H2 & H3). auto.
Qed.

Lemma owned_catch {A} i (p : proc S A) (h : exn -> proc S A) Q X X' : forall v,
  owned i v p Q X -> (forall v' x, X v' x -> owned i v' (h x) Q X') -> owned i v (catch p h) Q X'.
Proof.
  induction p as [a|x|C x k IH]; intros v Hp Hf; cbn in *; [done|by apply Hf|].
  destruct x; cbn in *; try (intros b; by apply IH).
  intros s Hs Hv. destruct (Hp s Hs Hv) as (H1 & H2 & H3). auto.
Qed.

Lemma owned_local {A} i v (f : S -> A * S) (Q : V -> A -> Prop) X :
  (forall s, I s -> view i s = v -> I (f s).2 /\ (forall j, j <> i -> view j (f s).2 = view j s) /\
     Q (view i (f s).2) (f s).1) ->
  owned i v (local f) Q X.
Proof. done. Qed.

(** Code that leaves what [I] and the views are about alone. *)
Fixpoint frames {F A} (field : S -> F) (p : proc S A) : Prop :=
  match p with
  | Ret _ | Throw _ => True
  | @Call _ _ B x k =>
      match x in ev _ B return (B -> Prop) -> Prop with
      | ELocal f => fun K => forall s, field (f s).2 = field s /\ K (f s).1
      | _ => fun K => forall b, K b
      end (fun b => frames field (k b))
  end.

Lemma owned_frames {F A} (field : S -> F) (p : proc S A) i v :
  (forall s s', field s' = field s -> (I s -> I s') /\ forall j, view j s' = view j s) ->
  frames field p -> owned i v p (fun v' _ => v' = v) (fun v' _ => v' = v).
Proof.
  intros Hf. induction p as [a|x|C x k IH]; intros Hp; cbn in *; [done|done|].
  destruct x; cbn in *; try (intros b; by apply IH).
  intros s Hs <-. destruct (Hp s) as [H1 H2]. destruct (Hf _ _ H1) as [H3 H4].
  split; [auto|]. split; [auto|]. rewrite H4. by apply IH.
Qed.

(** *** A pool, each task with the name of its part *)
Context {Rd : Redis}.
Variable e : env.
Hypothesis Hnone : forall s s', view None s = view None s'.

Lemma do_ev_owned {A B} i v (x : ev S B) (k : B -> proc S A) (w : world S) Q X :
  owned i v (Call x k) Q X -> I (w_state w) -> view i (w_state w) = v ->
  let w' := (do_ev e x w).2 in
  I (w_state w') /\ (forall j, j <> i -> view j (w_state w') = view j (w_state w)) /\
  owned i (view i (w_state w')) (k (do_ev e x w).1) Q X.
Proof.
  intros Hp Hi Hv. destruct x as [C c| | |C f|ws t|ws n|ms]; cbn in Hp |- *;
    try (split; [done|]; split; [done|]; rewrite Hv; apply Hp).
  - destruct (request _ _ _ _). cbn. rewrite Hv. auto.
  - destruct (Hp _ Hi Hv) as (H1 & H2 & H3). by destruct (f (w_state w)).
  - destruct (ws_ok _ _); cbn; rewrite Hv; auto.
  - destruct (ws_ok _ _); cbn; rewrite Hv; auto.
Qed.

Lemma settle_owned {A} (p : proc S A) i Q X : forall v w,
  owned i v p Q X -> I (w_state w) -> view i (w_state w) = v ->
  let w' := (settle e p w).2 in
  I (w_state w') /\ (forall j, j <> i -> view j (w_state w') = view j (w_state w)) /\
  owned i (view i (w_state w')) (settle e p w).1 Q X.
Proof.
  induction p as [a|x|C x k IH]; intros v w Hp Hi Hv; cbn [settle]; [by subst|by subst|].
  destruct (is_await x); [by subst|]. destruct (do_ev_owned i v x k w Q X Hp Hi Hv) as (H1 & H2 & H3).
  destruct (do_ev e x w) as [b w']. cbn in *.
  destruct (IH b _ w' H3 H1 eq_refl) as (H4 & H5 & H6). split; [done|]. split; [|done].
  intros j Hj. by rewrite H5, H2.
Qed.

Lemma turn_owned {A} (p : proc S A) i v w Q X :
  owned i v p Q X -> I (w_state w) -> view i (w_state w) = v ->
  let w' := (turn e p w).2 in
  I (w_state w') /\ (forall j, j <> i -> view j (w_state w') = view j (w_state w)) /\
  owned i (view i (w_state w')) (turn e p w).1 Q X.
Proof.
  intros Hp Hi Hv. destruct p as [a|x|C x k]; [by subst|by subst|]. cbn [turn].
  destruct (is_await x) eqn:Ex; [|by apply (settle_owned (Call x k) i Q X v)].
  destruct (do_ev_owned i v x k w Q X Hp Hi Hv) as (H1 & H2 & H3). by destruct (do_ev e x w).
Qed.

(** Every task owns its part, and no part has two owners.  A task that is over
    left its part as [Q] or [X] says. *)
Definition owners {A} Q X (names : list (option nat)) (ps : list (proc S A)) (s : S) : Prop :=
  forall j p, ps !! j = Some p -> exists i, names !! j = Some i /\ owned i (view i s) p Q X.

Definition distinct_names (names : list (option nat)) : Prop :=
  forall j j' i, names !! j = Some (Some i) -> names !! j' = Some (Some i) -> j = j'.

Lemma run_sched_owned {A} Q X names (sched : list nat) : distinct_names names ->
  forall st : list (proc S A) * world S,
  I (w_state st.2) -> owners Q X names st.1 (w_state st.2) ->
  let st' := run_sched e sched st in
  I (w_state st'.2) /\ owners Q X names st'.1 (w_state st'.2) /\
  forall i, i ∉ names -> view i (w_state st'.2) = view i (w_state st.2).
Proof.
  intros Hd. induction sched as [|n sched IH]; intros st Hi Ho; [done|].
  unfold run_sched. cbn. unfold pstep. destruct (st.1 !! n) as [p|] eqn:E; [|by apply IH].
  destruct (Ho n p E) as (i & Hn & Hp).
  destruct (turn_owned p i _ st.2 _ _ Hp Hi eq_refl) as (H1 & H2 & H3).
  destruct (turn e p st.2) as [p' w']. cbn in H1, H2, H3.
  destruct (IH (<[n:=p']> st.1, w')) as (H4 & H5 & H6); [done| |]; cbn in *.
  - intros j q Hj. destruct (decide (j = n)) as [->|Hne].
    + rewrite list_lookup_insert_eq in Hj by (by eapply lookup_lt_Some). injection Hj as <-. eauto.
    + rewrite list_lookup_insert_ne in Hj by done. destruct (Ho j q Hj) as (i' & Hn' & Hq).
      exists i'. split; [done|]. destruct (decide (i' = i)) as [->|Hi'].
      * destruct i as [i|]; [by destruct Hne; apply (Hd _ _ i)|]. by rewrite (Hnone _ (w_state st.2)).
      * by rewrite H2.
  - split; [done|]. split; [done|]. intros i' Hi'. rewrite H6 by done. apply H2. intros ->.
    by apply Hi', list_elem_of_lookup; exists n.
Qed.

End Owned.

Lemma run_sched_length {Rd : Redis} {S A} (e : env) (sched : list nat) :
  forall st : list (proc S A) * world S, length (run_sched e sched st).1 = length st.1.
Proof.
  induction sched as [|i sched IH]; intros st; [done|]. etrans; [apply (IH (pstep e i st))|].
  unfold pstep. destruct (st.1 !! i); [|done]. destruct (turn e _ _). apply length_insert.
Qed.

(** The names of tasks, when no two have the same one. *)
Lemma NoDup_distinct_names {T} (f : T -> option nat) (ts : list T) :
  NoDup (omap f ts) -> distinct_names (f <$> ts).
Proof.
  intros Hnd j j' i. rewrite !list_lookup_fmap.
  intros (t & Hj & Ht)%fmap_Some (t' & Hj' & Ht')%fmap_Some. symmetry in Ht, Ht'.
  revert j j' Hj Hj'. induction ts as [|u ts IH]; intros j j' Hj Hj'; [done|].
  assert (NoDup (omap f ts)) as Hnd' by (cbn in Hnd; destruct (f u); [by apply NoDup_cons in Hnd as []|done]).
  assert (forall k x, ts !! k = Some x -> f x = Some i -> f u <> Some i) as Hu.
  { intros k x Hk Hx Hu. cbn in Hnd. rewrite Hu in Hnd. apply NoDup_cons in Hnd as [Hn _].
    apply Hn, list_elem_of_omap. exists x. split; [by eapply list_elem_of_lookup_2|done]. }
  destruct j as [|j], j' as [|j']; cbn in *; simplify_eq; [done| | |].
  - by destruct (Hu _ _ Hj' Ht').
  - by destruct (Hu _ _ Hj Ht).
  - f_equal. by apply IH.
Qed.

Section Frames.
Context {S F : Type}.
Variable field : S -> F.

Lemma frames_bind {A B} (p : proc S A) (f : A -> proc S B) :
  frames field p -> (forall a, frames field (f a)) -> frames field (bind p f).
Proof.
  intros Hp Hf. induction p as [a|x|C x k IH]; cbn in *; [apply Hf|done|].
  destruct x; cbn in *; try (intros b; apply IH; apply Hp).
  intros s. destruct (Hp s). auto.
Qed.

Lemma frames_catch {A} (p : proc S A) (h : exn -> proc S A) :
  frames field p -> (forall x, frames field (h x)) -> frames field (catch p h).
Proof.
  intros Hp Hh. induction p as [a|x|C x k IH]; cbn in *; [done|apply Hh|].
  destruct x; cbn in *; try (intros b; apply IH; apply Hp).
  intros s. destruct (Hp s). auto.
Qed.

Lemma frames_lift {A} (r : exn + A) : frames field (lift r).
Proof. by destruct r. Qed.

Lemma frames_redis {A} (c : rcmd A) : frames field (redis c).
Proof. intros b. apply frames_lift. Qed.

Lemma frames_send ws text : frames field (send_text ws text).
Proof. intros b. apply frames_lift. Qed.

Lemma frames_close ws code : frames field (close ws code).
Proof. intros b. apply frames_lift. Qed.

Lemma frames_local {A} (f : S -> A * S) : (forall s, field (f s).2 = field s) -> frames field (local f).
Proof. intros H s. split; [apply H|done]. Qed.

Lemma frames_modify (f : S -> S) : (forall s, field (f s) = field s) -> frames field (modify f).
Proof. intros H s. split; [apply H|done]. Qed.

Lemma frames_for_each {A} (l : list A) (f : A -> proc S unit) :
  (forall a, frames field (f a)) -> frames field (for_each l f).
Proof. intros Hf. induction l as [|a l IH]; cbn; [done|]. apply frames_bind; auto. Qed.
End Frames.

Create HintDb frames.
#[export] Hint Resolve frames_lift frames_redis frames_send frames_close : frames.

(** Decomposes code that leaves a field alone; what remains are its writes. *)
Ltac frames_auto :=
  repeat first
    [ done
    | solve [auto with frames]
    | apply frames_modify; intros ?; done
    | apply frames_local; intros ?; by repeat case_match
    | apply frames_bind; [|intros ?]
    | apply frames_catch; [|intros ?]
    | apply frames_for_each; intros ?
    | case_match ].

#[export] Hint Resolve keeps_bind keeps_catch keeps_for_each keeps_lift keeps_now
  keeps_uuid4 keeps_sleep keeps_send keeps_close keeps_gets : relay.

#[export] Hint Extern 3 (safe _ _ (redis _)) => apply keeps_request; reflexivity : relay.

(** Decomposes the code of a task; what remains are its writes. *)
Ltac keeps_auto :=
  repeat first
    [ done
    | solve [auto with relay]
    | apply keeps_bind; [|intros ?]
    | case_match ].
