(* ===== verification/RefRedis.v ===== *)
(** * A reference server that satisfies [RedisLaws]

    Keys are a finite map to a value and an optional deadline.  It is used to
    show that the laws are consistent and to evaluate concrete runs. *)
From Stdlib Require Import ZArith Lia.
From stdpp Require Import base gmap strings list.
From S2P Require Import Prelude RedisApi Async.

Module Ref.

Record rdb := mkRdb {
  keys : gmap string (rval * option Z);
  log : list (string * string)
}.

Definition alive (t : Z) (e : rval * option Z) : bool :=
  match e.2 with None => true | Some x => t <? x end.

Definition look (d : rdb) (t : Z) (k : string) : option (rval * option Z) :=
  match keys d !! k with
  | Some e => if alive t e then Some e else None
  | None => None
  end.

Definition rsees (d : rdb) (t : Z) (k : string) : option rval := fst <$> look d t k.

Definition put (d : rdb) (k : string) (e : rval * option Z) : rdb :=
  mkRdb (<[k := e]> (keys d)) (log d).

Definition put_keep (t : Z) (d : rdb) (k : string) (v : rval) : rdb :=
  put d k (v, match look d t k with Some e => e.2 | None => None end).

Definition del1 (d : rdb) (k : string) : rdb := mkRdb (delete k (keys d)) (log d).

Definition max_ms (l : list stream_entry) : Z :=
  foldr (fun e m => Z.max e.1.1 m) 0 l.
Definition max_seq (l : list stream_entry) : Z :=
  foldr (fun e m => Z.max e.1.2 m) 0 l.
Definition next_id (t : Z) (l : list stream_entry) : stream_id :=
  if max_ms l <? t then (t, 0) else (max_ms l, 1 + max_seq l).

Fixpoint drop_below (m : Z) (l : list stream_entry) : list stream_entry :=
  match l with
  | [] => []
  | e :: l' => if e.1.1 <? m then drop_below m l' else l
  end.

Fixpoint ref_exec {A} (c : rcmd A) (t : Z) (d : rdb) : rreply A * rdb :=
  match c in rcmd A return rreply A * rdb with
  | GET k => (match rsees d t k with
              | None => inr None | Some (VStr s) => inr (Some s)
              | Some _ => inl WRONGTYPE end, d)
  | SET k v None => (inr tt, put d k (VStr v, None))
  | SET k v (Some s) =>
      if 0 <? s then (inr tt, put d k (VStr v, Some (t + 1000 * s)))
      else (inl SYNTAX_ERR, d)
  | DEL ks => (inr tt, foldl del1 d ks)
  | INCR k => match as_counter (rsees d t k) with
              | Some n => if n <? int64_max
                          then (inr (n + 1), put_keep t d k (VStr (py_str (n + 1))))
                          else (inl NOT_AN_INTEGER, d)
              | None => (inl NOT_AN_INTEGER, d)
              end
  | HSET k m => match as_hash (rsees d t k) with
                | Some h => (inr tt, put_keep t d k (VHash (hash_update h m)))
                | None => (inl WRONGTYPE, d)
                end
  | HGETALL k => (match as_hash (rsees d t k) with
                  | Some h => inr h | None => inl WRONGTYPE end, d)
  | EXPIRE k s => match look d t k with
                  | Some e => (inr true, put d k (e.1, Some (t + 1000 * s)))
                  | None => (inr false, del1 d k)
                  end
  | SADD k m => match as_set (rsees d t k) with
                | Some x => (inr tt, put_keep t d k (VSet ({[m]} ∪ x)))
                | None => (inl WRONGTYPE, d)
                end
  | SREM k m => match as_set (rsees d t k) with
                | Some x => (inr tt, if bool_decide (x ∖ {[m]} = ∅) then del1 d k
                                     else put_keep t d k (VSet (x ∖ {[m]})))
                | None => (inl WRONGTYPE, d)
                end
  | SCARD k => (match as_set (rsees d t k) with
                | Some x => inr (size x) | None => inl WRONGTYPE end, d)
  | XADD k fields n =>
      match as_stream (rsees d t k) with
      | Some l => let id := next_id t l in
                  (inr id, put_keep t d k (VStream (keep_last n (l ++ [(id, fields)]))))
      | None => (inl WRONGTYPE, d)
      end
  | XTRIM_MINID k m =>
      match rsees d t k with
      | Some (VStream l) => (inr tt, put_keep t d k (VStream (drop_below m l)))
      | Some _ => (inl WRONGTYPE, d)
      | None => (inr tt, d)
      end
  | XRANGE_ALL k => (match as_stream (rsees d t k) with
                     | Some l => inr l | None => inl WRONGTYPE end, d)
  | PUBLISH c m => (inr tt, mkRdb (keys d) (log d ++ [(c, m)]))
  | SCAN _ p => (inr (0, filter (fun k => startswith k p = true /\ is_Some (look d t k))
                      (elements (dom (keys d)))), d)
  | REDIS_PING => (inr tt, d)
  | MULTI2 c1 c2 =>
      let '(r1, d1) := ref_exec c1 t d in
      let '(r2, d2) := ref_exec c2 t d1 in (combine_replies r1 r2, d2)
  end.

#[export] Instance ref_redis : Redis := {
  db := rdb;
  rexec := @ref_exec;
  sees := rsees;
  plog := log
}.

Definition empty : rdb := mkRdb ∅ [].

Lemma rsees_put_eq (d : rdb) (k : string) (e : rval * option Z) (t : Z) :
  rsees (put d k e) t k = if alive t e then Some e.1 else None.
Proof. unfold rsees, look, put; cbn. rewrite lookup_insert_eq. by destruct (alive t e). Qed.

Lemma rsees_put_ne (d : rdb) (k k' : string) (e : rval * option Z) (t : Z) :
  k' <> k -> rsees (put d k e) t k' = rsees d t k'.
Proof. intros H. unfold rsees, look, put; cbn. by rewrite lookup_insert_ne by done. Qed.

Lemma rsees_del1 (d : rdb) (k k' : string) (t : Z) :
  rsees (del1 d k) t k' = if bool_decide (k' = k) then None else rsees d t k'.
Proof.
  unfold rsees, look, del1; cbn. case_bool_decide as H.
  - subst. by rewrite lookup_delete_eq.
  - by rewrite lookup_delete_ne.
Qed.

Lemma rsees_time (d : rdb) (t t' : Z) (k : string) (v : rval) :
  t <= t' -> rsees d t' k = Some v -> rsees d t k = Some v.
Proof.
  intros Htt'. unfold rsees, look. destruct (keys d !! k) as [[v0 [x|]]|]; [|done|done].
  unfold alive; cbn. destruct (Z.ltb_spec t' x), (Z.ltb_spec t x); [done|lia|done|done].
Qed.

Lemma changes_put_keep (t : Z) (d : rdb) (k : string) (v : rval) :
  changes t d (put_keep t d k v) k (keep_ttl t d k v).
Proof.
  split; [|split; [|done]].
  - intros t' Htt'. cbn. unfold put_keep. rewrite rsees_put_eq. cbn.
    unfold keep_ttl; cbn. unfold rsees, look.
    destruct (keys d !! k) as [[v0 [x|]]|]; cbn; [|done|done].
    unfold alive; cbn. destruct (Z.ltb_spec t x); cbn; [|done].
    by destruct (Z.ltb_spec t' x).
  - intros t' k' _ Hne. by apply rsees_put_ne.
Qed.

Lemma changes_put (t : Z) (d : rdb) (k : string) (e : rval * option Z) f :
  (forall t', t <= t' -> f t' = if alive t' e then Some e.1 else None) ->
  changes t d (put d k e) k f.
Proof.
  intros Hf. split; [|split; [|done]].
  - intros t' Htt'. cbn. by rewrite rsees_put_eq, Hf.
  - intros t' k' _ Hne. by apply rsees_put_ne.
Qed.

Lemma changes_del1 (t : Z) (d : rdb) (k : string) f :
  (forall t', t <= t' -> f t' = None) -> changes t d (del1 d k) k f.
Proof.
  intros Hf. split; [|split; [|done]].
  - intros t' Htt'. cbn. rewrite rsees_del1, bool_decide_true by done. by rewrite Hf.
  - intros t' k' _ Hne. cbn. by rewrite rsees_del1, bool_decide_false.
Qed.

Lemma rsees_foldl_del (ks : list string) (d : rdb) (t : Z) (k : string) :
  rsees (foldl del1 d ks) t k = if bool_decide (k ∈ ks) then None else rsees d t k.
Proof.
  revert d. induction ks as [|k' ks IH]; intros d; cbn; [done|].
  rewrite IH, rsees_del1. repeat case_bool_decide; set_solver.
Qed.

Lemma log_foldl_del (ks : list string) (d : rdb) : log (foldl del1 d ks) = log d.
Proof. revert d. induction ks as [|k ks IH]; intros d; cbn; [done|]. by rewrite IH. Qed.

Lemma max_ms_ge (l : list stream_entry) (e : stream_entry) :
  e ∈ l -> e.1.1 <= max_ms l.
Proof.
  induction l as [|x l IH]; [by intros ?%not_elem_of_nil|].
  intros [->|H]%elem_of_cons; [apply Z.le_max_l|].
  etrans; [by apply IH|apply Z.le_max_r].
Qed.

Lemma max_seq_ge (l : list stream_entry) (e : stream_entry) :
  e ∈ l -> e.1.2 <= max_seq l.
Proof.
  induction l as [|x l IH]; [by intros ?%not_elem_of_nil|].
  intros [->|H]%elem_of_cons; [apply Z.le_max_l|].
  etrans; [by apply IH|apply Z.le_max_r].
Qed.

Lemma next_id_larger (t : Z) (l : list stream_entry) (e : stream_entry) :
  e ∈ l -> e.1.1 < (next_id t l).1 \/
           (e.1.1 = (next_id t l).1 /\ e.1.2 < (next_id t l).2).
Proof.
  intros He. pose proof (max_ms_ge l e He). pose proof (max_seq_ge l e He).
  unfold next_id. destruct (Z.ltb_spec (max_ms l) t); cbn; lia.
Qed.

Lemma drop_below_split (m : Z) (l : list stream_entry) :
  exists trimmed, l = trimmed ++ drop_below m l /\
    forall e, e ∈ trimmed -> e.1.1 < m.
Proof.
  induction l as [|e l (tr & Hl & Htr)]; cbn; [by exists []; set_solver|].
  destruct (Z.ltb_spec e.1.1 m).
  - exists (e :: tr). split; [by rewrite Hl at 1|].
    intros e' [->|?]%elem_of_cons; auto.
  - exists []. split; [done|]. set_solver.
Qed.

Lemma ref_frame {A} (c : rcmd A) (t t' : Z) (d : rdb) (k : string) :
  k ∉ touched c -> rsees (ref_exec c t d).2 t' k = rsees d t' k.
Proof.
  revert d. induction c; intros d Hk; cbn in *; unfold put_keep;
    repeat (case_match; cbn; try done);
    rewrite ?rsees_foldl_del, ?rsees_del1, ?bool_decide_false by set_solver;
    rewrite ?rsees_put_ne by set_solver; try done.
  repeat match goal with
  | IH : forall d, _ -> rsees (ref_exec ?c t d).2 t' k = _, E : ref_exec ?c t ?d = _ |- _ =>
      specialize (IH d ltac:(set_solver)); rewrite E in IH; cbn in IH
  end. congruence.
Qed.

Lemma scan_keys (t : Z) (d : rdb) (p k : string) :
  k ∈ filter (fun k => startswith k p = true /\ is_Some (look d t k)) (elements (dom (keys d))) <->
  startswith k p = true /\ is_Some (rsees d t k).
Proof.
  rewrite list_elem_of_filter, elem_of_elements, elem_of_dom.
  unfold rsees, look. destruct (keys d !! k) as [e|]; [|naive_solver].
  destruct (alive t e); naive_solver.
Qed.

Lemma ref_log {A} (c : rcmd A) (t : Z) (d : rdb) :
  log (ref_exec c t d).2 = log d ++ published c.
Proof.
  revert d. induction c; intros d; cbn; unfold put_keep;
    repeat (case_match; cbn; rewrite ?app_nil_r; try done); rewrite ?app_nil_r, ?log_foldl_del; try done.
  repeat match goal with
  | IH : forall d, log (ref_exec ?c t d).2 = _, E : ref_exec ?c t ?d = _ |- _ =>
      specialize (IH d); rewrite E in IH; cbn in IH
  end. rewrite IHc2, IHc1. by rewrite app_assoc.
Qed.

Ltac ref_law := intros; cbn in *; simplify_eq; split; [done|]; done.

#[export] Instance ref_redis_laws : RedisLaws (Rd := ref_redis).
Proof.
  split; cbn.
  - apply rsees_time.
  - intros. by apply ref_frame.
  - ref_law.
  - intros k v s t d r d' Hs. destruct (Z.ltb_spec 0 s); [|lia].
    intros [= <- <-]. split; [done|]. by apply changes_put.
  - intros k v t d r d' [= <- <-]. split; [done|]. by apply changes_put.
  - intros ks t d r d' [= <- <-]. split; [done|]. split; [apply log_foldl_del|].
    intros. apply rsees_foldl_del.
  - intros k n t d r d' H Hn Hlt. rewrite Hn in H. destruct (Z.ltb_spec n int64_max); [|lia].
    simplify_eq. split; [done|]. apply changes_put_keep.
  - intros k n t d r d' H Hn Hle. rewrite Hn in H. destruct (Z.ltb_spec n int64_max); [lia|].
    by simplify_eq.
  - intros k m h t d r d' H Hh _. rewrite Hh in H. simplify_eq.
    split; [done|]. apply changes_put_keep.
  - ref_law.
  - intros k s t d r d' H. unfold rsees at 1. destruct (look d t k) as [e|] eqn:E;
      simplify_eq; (split; [done|]).
    + apply changes_put. intros t' _. unfold rsees. by rewrite E.
    + apply changes_del1. intros t' _. unfold rsees. by rewrite E.
  - intros k m x t d r d' H Hx. rewrite Hx in H. simplify_eq.
    split; [done|]. apply changes_put_keep.
  - intros k m t d r d' H Hx. rewrite Hx in H. simplify_eq. done.
  - intros k m x t d r d' H Hx. rewrite Hx in H. simplify_eq. split; [done|].
    case_bool_decide; [by apply changes_del1|apply changes_put_keep].
  - ref_law.
  - intros k fields n l t d r d' H Hl. rewrite Hl in H. simplify_eq.
    exists (next_id t l). split; [done|]. split; [apply next_id_larger|].
    apply changes_put_keep.
  - intros k m l t d r d' H Hl. rewrite Hl in H. simplify_eq.
    destruct (drop_below_split m l) as (tr & Hsplit & Htr).
    exists tr, (drop_below m l). split_and!; [done|done|done|apply changes_put_keep].
  - intros k m t d r d' H Hl. rewrite Hl in H. by simplify_eq.
  - ref_law.
  - intros c m t d r d' [= <- <-]. done.
  - intros c p t d r d' [= <- <-]. split; [done|]. eexists _, _; split; [done|].
    intros k. apply scan_keys.
  - intros p t d l pages k Hf Hu Hk Hs. inversion Hf as [u d' ks E|c' u d' ks l' pages' E Hc]; subst.
    + injection E as <-. eexists. split; [apply list_elem_of_here|]. apply scan_keys. split; [done|].
      apply Forall_inv in Hu as [Hu Hsame]. cbn in Hu, Hsame.
      pose proof (proj1 Hsame u k (Z.le_refl u)) as E. change (rsees d' u k = rsees d u k) in E. rewrite E.
      eapply Hs, list_elem_of_here.
    + injection E as <- _. done.
  - intros p t d. exists 1%nat. intros l c Ho _. destruct Ho as [|l c1 c2 u d' ks _ E Hc]; [cbn; lia|].
    injection E as <- _. done.
  - intros A c t d. apply ref_log.
  - ref_law.
  - done.
Qed.

End Ref.

(** The environment of the witnesses: no failures, one millisecond per event. *)
Definition calm : env := {|
  clock := fun n => Z.of_nat n;
  net := fun _ => NetOk 0;
  uuid := fun n => "uuid-" +:+ py_str (Z.of_nat n);
  ws_ok := fun _ => true
|}.

Lemma calm_reliable : reliable calm.
Proof. done. Qed.

Lemma calm_mono : mono_clock calm.
Proof. intros i j H. cbn. lia. Qed.

(** A world on the reference server. *)
Definition ref_world {S : Type} (n : nat) (d : Ref.rdb) (s : S) :
    @world Ref.ref_redis S :=
  @mkWorld Ref.ref_redis S n d s [].

#[global] Existing Instance Ref.ref_redis_laws.
