(* ===== verification/Scan.v ===== *)
(** * Iteration over the keys of the server
    ([async for key in r.scan_iter(match=prefix + "*")])

    redis-py's [scan_iter] asks for one page after another, from cursor 0 until
    the server returns cursor 0 again, and the body of the loop runs for the
    keys of a page before the next page is asked for.  The number of pages is
    the server's: [fuel] bounds it, and [run_scan_iter] shows that for every
    server there is a bound that is enough. *)
From Stdlib Require Import ZArith Lia.
From stdpp Require Import base gmap strings list.
From S2P Require Import Prelude RedisApi Async.

(** [body] is the loop's body on the keys of one page, with the values it
    appends to the result. *)
Fixpoint scan_iter {S A} (fuel : nat) (prefix : string) (cursor : Z)
    (body : list string -> proc S (list A)) : proc S (list A) :=
  match fuel with
  | O => Throw (OtherError "out of fuel")
  | Datatypes.S fuel' =>
      let! page := redis (SCAN cursor prefix) in
      let! xs := body page.2 in
      if page.1 =? 0 then Ret xs
      else
        let! ys := scan_iter fuel' prefix page.1 body in
        Ret (xs ++ ys)
  end.

Lemma elem_of_concat {A} (x : A) (xss : list (list A)) :
  x ∈ concat xss <-> exists xs, xs ∈ xss /\ x ∈ xs.
Proof. rewrite list_elem_of_In, in_concat. by setoid_rewrite list_elem_of_In. Qed.

Section Scan.
Context {Rd : Redis} {Rl : RedisLaws} {S A : Type}.
Variable e : env.
Hypothesis Hrel : reliable e.
Hypothesis Hmono : mono_clock e.
Variables (prefix : string) (t0 : Z) (d0 : db).

Notation at_ w := (clock e (w_tick w)).

(** Since [t0] nobody changed the server. *)
Definition still (w : world S) : Prop := t0 <= at_ w /\ same (at_ w) d0 (w_db w).

Variable body : list string -> proc S (list A).
(** What one page gives, between two times. *)
Variable R : list string -> Z -> Z -> list A -> Prop.
Hypothesis Hbody : forall ks w, still w -> (forall k, k ∈ ks -> startswith k prefix = true) ->
  exists xs w', run e (body ks) w = (inr xs, w') /\ still w' /\ (w_tick w <= w_tick w')%nat /\
    R ks (at_ w) (at_ w') xs.

(** What the pages of an iteration gave, between two times. *)
Definition gathered (t t' : Z) (pages : list (list string)) (xss : list (list A)) : Prop :=
  Forall2 (fun ks xs => exists u u', t <= u /\ u' <= t' /\ R ks u u' xs) pages xss.

Lemma gathered_wider t1 t t' t1' pages xss :
  t1 <= t -> t' <= t1' -> gathered t t' pages xss -> gathered t1 t1' pages xss.
Proof.
  intros H1 H2 Hg. eapply Forall2_impl; [exact Hg|]. intros ks xs (u & u' & ? & ? & ?).
  exists u, u'. split_and!; [lia|lia|done].
Qed.

Lemma still_set_db (w : world S) (d : db) :
  still w -> same (at_ w) (w_db w) d -> still (set_db w d).
Proof.
  intros [Ht Hs] Hd. assert (at_ w <= at_ (set_db w d)) by (apply Hmono; cbn; lia).
  split; [lia|]. apply (same_later (at_ w)); [done|]. etrans; [exact Hs|exact Hd].
Qed.

(** The calls of a full iteration, made up to [t']. *)
Definition calls_before (t' : Z) (l : list (Z * db)) : Prop := Forall (fun td => td.1 <= t') l.

(** The rest of an iteration that has made the calls [l] and is at cursor [c]. *)
Lemma run_pages (n : nat) :
  (forall l c, scan_open prefix 0 l c -> unchanged t0 d0 l -> (length l < n)%nat) ->
  forall fuel l c w, scan_open prefix 0 l c -> unchanged t0 d0 l -> still w ->
  (n <= fuel + length l)%nat ->
  exists xss w' pages l', run e (scan_iter fuel prefix c body) w = (inr (concat xss), w') /\
    still w' /\ (w_tick w <= w_tick w')%nat /\ gathered (at_ w) (at_ w') pages xss /\
    scan_full prefix c l' pages /\ unchanged t0 d0 l' /\ calls_before (at_ w') l' /\
    Forall (fun ks => forall k, k ∈ ks -> startswith k prefix = true) pages.
Proof.
  intros Hn fuel. induction fuel as [|fuel IH]; intros l c w Ho Hu Hw Hf.
  { specialize (Hn l c Ho Hu). cbn in Hf. lia. }
  cbn [scan_iter]. rewrite run_redis_bind by apply Hrel.
  destruct (rexec (SCAN c prefix) (at_ w) (w_db w)) as [r d] eqn:E.
  pose proof (law_scan _ _ _ _ _ _ E) as [Hsame (c' & ks & -> & Hks)].
  apply (f_equal fst) in E. cbn [fst] in E.
  assert (Forall (fun td => t0 <= td.1 /\ same td.1 d0 td.2) [(at_ w, w_db w)]) as Hcall
    by (constructor; [exact Hw|constructor]).
  destruct (Hbody ks (set_db w d)) as (xs & w1 & Hrun & Hw1 & Ht1 & HR);
    [by apply still_set_db|by intros k [? _]%Hks|].
  assert (at_ w <= at_ (set_db w d)) as Hle by (apply Hmono; cbn; lia).
  assert (at_ (set_db w d) <= at_ w1) as Hle1 by (by apply Hmono).
  rewrite run_bind. cbn [snd fst]. rewrite Hrun. destruct (Z.eqb_spec c' 0) as [->|Hc].
  - exists [xs], w1, [ks], [(at_ w, w_db w)]. cbn [concat]. rewrite app_nil_r.
    split; [done|]. split; [done|]. split; [cbn in Ht1; lia|]. split_and!.
    + constructor; [|constructor]. eexists _, _. split; [|split; [|exact HR]]; [done|lia].
    + by constructor.
    + done.
    + constructor; [cbn; lia|constructor].
    + constructor; [by intros k [? _]%Hks|constructor].
  - destruct (IH (l ++ [(at_ w, w_db w)]) c' w1) as (xss & w2 & pages & l' & Hr2 & Hw2 & Ht2 & Hg & Hfull & Hu' & Hb & Hp).
    + by eapply open_next.
    + apply Forall_app. by split.
    + done.
    + rewrite length_app. cbn [length]. lia.
    + assert (at_ w1 <= at_ w2) as Hle2 by (by apply Hmono).
      exists (xs :: xss), w2, (ks :: pages), ((at_ w, w_db w) :: l').
      rewrite run_bind, Hr2. cbn [concat]. split; [done|]. split; [done|].
      split; [cbn in Ht1; lia|]. split_and!.
      * constructor; [|by eapply gathered_wider; [| |exact Hg]; lia].
        eexists _, _. split; [|split; [|exact HR]]; [done|lia].
      * by econstructor.
      * by apply Forall_cons; split; [apply (Forall_inv Hcall)|].
      * constructor; [cbn; lia|done].
      * constructor; [by intros k [? _]%Hks|done].
Qed.

(** The whole iteration: every server has a number of pages that is enough.  Its
    pages hold keys with the prefix only, and every such key that is still there
    at the end. *)
Lemma run_scan_iter :
  exists n, forall fuel w, (n <= fuel)%nat -> still w ->
  exists xss w' pages, run e (scan_iter fuel prefix 0 body) w = (inr (concat xss), w') /\
    still w' /\ (w_tick w <= w_tick w')%nat /\ gathered (at_ w) (at_ w') pages xss /\
    (forall ks k, ks ∈ pages -> k ∈ ks -> startswith k prefix = true) /\
    (forall k, startswith k prefix = true -> is_Some (sees d0 (at_ w') k) ->
       exists ks, ks ∈ pages /\ k ∈ ks).
Proof.
  destruct (law_scan_ends prefix t0 d0) as [n Hn]. exists n. intros fuel w Hf Hw.
  destruct (run_pages n Hn fuel [] 0 w) as (xss & w' & pages & l & Hrun & Hw' & Ht & Hg & Hfull & Hu & Hb & Hp);
    [constructor|constructor|done|cbn; lia|].
  exists xss, w', pages. split_and!; try done.
  - intros ks k Hks Hk. by apply (proj1 (Forall_forall _ _) Hp ks).
  - intros k Hk [v Hv]. apply (law_scan_full prefix t0 d0 l pages k Hfull Hu Hk).
    intros u d Hin. apply (proj1 (Forall_forall _ _) Hb) in Hin. exists v.
    by eapply law_time.
Qed.

End Scan.
