(* ===== verification/Samples.v ===== *)
(** * Concrete parameters for evaluating the model

    A JSON codec for the payloads [{"n": z}] and for publish results, a Pydantic that prints an
    envelope as its sequence number, and a server state with one channel. *)
From Stdlib Require Import Ascii ZArith Lia QArith DecimalString.
From stdpp Require Import base gmap strings list.
From S2P Require Import Prelude Config Frames Keys RedisApi Async RefRedis.

Definition payload_n (z : Z) : json_object := [("n", JInt z)].

Definition sample_dumps (j : json) : string :=
  match j with
  | JObj [("n", JInt z)] => "n" +:+ py_str z
  | JObj [("message_id", JStr s); ("sequence", JInt z)] => "r" +:+ py_str z +:+ "," +:+ s
  | _ => "?"
  end.

(** The text before and after the first comma. *)
Fixpoint split_comma (s : string) : option (string * string) :=
  match s with
  | EmptyString => None
  | String c s' =>
      if Ascii.eqb c ","%char then Some ("", s')
      else '(a, b) ← split_comma s'; Some (String c a, b)
  end.

Definition sample_loads (s : string) : option json :=
  match s with
  | String "n"%char r => z ← py_int r; Some (JObj (payload_n z))
  | String "m"%char r => z ← py_int r; Some (JObj [("sequence", JInt z)])
  | String "r"%char r =>
      '(a, b) ← split_comma r; z ← py_int a;
      Some (JObj [("message_id", JStr b); ("sequence", JInt z)])
  | _ => None
  end.

Definition sample_json : JsonText := {|
  json_dumps := sample_dumps;
  json_loads := sample_loads
|}.

Definition sample_pydantic : Pydantic := {|
  as_str := fun j => match j with JStr s => Some s | _ => None end;
  as_int := fun j => match j with JInt z => Some z | _ => None end;
  dump := fun f => match f with
                   | MessageF m => "m" +:+ py_str (mf_sequence m)
                   | f => frame_type_value (frame_type f)
                   end
|}.

#[global] Existing Instance sample_json | 100.
#[global] Existing Instance sample_pydantic | 100.

Lemma sample_laws : PydanticLaws (Jt := sample_json) (Py := sample_pydantic).
Proof.
  split; [done|done|]. intros m. exists [("sequence", JInt (mf_sequence m))].
  split; [|done]. unfold json_loads, dump, sample_json, sample_pydantic, sample_loads.
  rewrite str_app_cons, str_app_nil_l. cbn. by rewrite py_int_str.
Qed.

Lemma payload_n_readable (z : Z) :
  sample_loads (sample_dumps (JObj (payload_n z))) = Some (JObj (payload_n z)).
Proof.
  unfold sample_dumps, sample_loads, payload_n. rewrite str_app_cons, str_app_nil_l. cbn.
  by rewrite py_int_str.
Qed.

Definition not_comma (c : ascii) : bool := negb (Ascii.eqb c ","%char).

Lemma split_comma_app (a b : string) :
  forall_chars not_comma a = true -> split_comma (a +:+ "," +:+ b) = Some (a, b).
Proof.
  induction a as [|c a IH]; cbn [forall_chars].
  - intros _. rewrite str_app_nil_l, str_app_cons, str_app_nil_l. done.
  - intros [Hc Ha]%andb_true_iff. rewrite str_app_cons. cbn [split_comma].
    unfold not_comma in Hc. destruct (Ascii.eqb c ","%char); [done|]. by rewrite (IH Ha).
Qed.

Lemma py_str_not_comma (z : Z) : forall_chars not_comma (py_str z) = true.
Proof. by apply forall_chars_py_str. Qed.

Lemma sample_result_readable (s : string) (z : Z) :
  let j := JObj [("message_id", JStr s); ("sequence", JInt z)] in
  sample_loads (sample_dumps j) = Some j.
Proof.
  unfold sample_dumps, sample_loads. rewrite str_app_cons, str_app_nil_l. cbn [mbind option_bind].
  rewrite split_comma_app by apply py_str_not_comma. cbn. by rewrite py_int_str.
Qed.

Definition sample_channel : string := "t-1:chat".

(** Three messages were numbered on the channel, and none is retained. *)
Definition sample_db : Ref.rdb := {|
  Ref.keys := {[ RedisKeys.channel_sequence sample_channel := (VStr "3", None) ]};
  Ref.log := []
|}.

(** A small gateway: a window of one message and a queue of two frames. *)
Definition tiny_settings : Settings := {|
  node_id := "n1";
  environment := "test";
  database_url := "";
  redis_url := "";
  heartbeat_interval_ms := 15000;
  heartbeat_timeout_ms := 10000;
  session_resume_window_seconds := 300;
  message_retention_seconds := 300;
  channel_buffer_max_messages := 3;
  channel_buffer_max_bytes := 5000000;
  connection_queue_max_messages := 2;
  connection_queue_max_bytes := 100;
  connection_queue_high_watermark_ratio := 4 # 5;
  max_inflight_messages := 1;
  ack_timeout_ms := 10000;
  max_retry_attempts := 3;
  retry_base_delay_ms := 250;
  max_connections_per_tenant := 2;
  max_connections_per_api_key := 1000;
  max_handshakes_in_flight := 2;
  max_message_size_bytes := 10;
  presence_ttl_seconds := 30;
  node_ttl_seconds := 15;
  node_heartbeat_interval_ms := 5000;
  dedup_window_seconds := 300;
  idempotency_ttl_seconds := 600
|}.
