(* ===== verification/Handshake.v ===== *)
(** * Admission to the handshake ([websocket/handler.py], [_handshake_semaphore])

    [handle_connection] runs the handshake inside
    [async with _handshake_semaphore], an [asyncio.Semaphore] created with
    [max_handshakes_in_flight].  This file models the semaphore as asyncio
    implements it (a counter and a FIFO of futures; a release gives its slot to
    the first waiter); [Handler.in_semaphore] uses it, and [Admission] shows what
    it means for the handshakes. *)
From Stdlib Require Import ZArith Lia.
From stdpp Require Import base gmap list sets.
From S2P Require Import Prelude Config.

(** The semaphore, its waiters (a task, and whether its future is done) and the
    tasks inside the [async with] block. *)
Record Semaphore := mkSemaphore {
  _value : nat;
  _waiters : list (nat * bool);
  inside : gset nat
}.

(** [asyncio.Semaphore(settings.max_handshakes_in_flight)]. *)
Definition _handshake_semaphore (settings : Settings) : Semaphore :=
  mkSemaphore (Z.to_nat (max_handshakes_in_flight settings)) [] ∅.

Definition locked (s : Semaphore) : bool :=
  match _value s, _waiters s with O, _ => true | _, [] => false | _, _ => true end.

(** The first waiter whose future is not done, marked as done. *)
Fixpoint wake_first (l : list (nat * bool)) : option (list (nat * bool)) :=
  match l with
  | [] => None
  | (i, false) :: l' => Some ((i, true) :: l')
  | (i, true) :: l' => l'' ← wake_first l'; Some ((i, true) :: l'')
  end.

(** [_wake_up_next]: a waiter is given one of the free slots. *)
Definition _wake_up_next (s : Semaphore) : option Semaphore :=
  l ← wake_first (_waiters s); Some (mkSemaphore (_value s - 1) l (inside s)).

(** [while self._value > 0: if not self._wake_up_next(): break]; every turn uses
    up one slot, so [_value] turns are enough. *)
Fixpoint wake_while (fuel : nat) (s : Semaphore) : Semaphore :=
  match fuel with
  | O => s
  | S fuel' =>
      match _value s, _wake_up_next s with
      | S _, Some s' => wake_while fuel' s'
      | _, _ => s
      end
  end.

Definition wake_all (s : Semaphore) : Semaphore := wake_while (_value s) s.

Definition remove_waiter (i : nat) (l : list (nat * bool)) : list (nat * bool) :=
  filter (fun w => w.1 <> i) l.

(** *** What a connection task does *)

(** [__aenter__] up to its first suspension: the task gets in or queues. *)
Definition arrive (i : nat) (s : Semaphore) : Semaphore :=
  if locked s then mkSemaphore (_value s) (_waiters s ++ [(i, false)]) (inside s)
  else mkSemaphore (_value s - 1) (_waiters s) ({[i]} ∪ inside s).

(** A waiter whose future is done runs on, into the block. *)
Definition resume (i : nat) (s : Semaphore) : Semaphore :=
  wake_all (mkSemaphore (_value s) (remove_waiter i (_waiters s)) ({[i]} ∪ inside s)).

(** A waiter is cancelled: a slot it was given goes back. *)
Definition cancel (i : nat) (done : bool) (s : Semaphore) : Semaphore :=
  wake_all (mkSemaphore (if done then S (_value s) else _value s)
              (remove_waiter i (_waiters s)) (inside s)).

(** [__aexit__], by the normal way or by an exception: [release]. *)
Definition leave (i : nat) (s : Semaphore) : Semaphore :=
  let s' := mkSemaphore (S (_value s)) (_waiters s) (inside s ∖ {[i]}) in
  default s' (_wake_up_next s').

(** ** Invariant *)

Definition woken (l : list (nat * bool)) : nat := length (filter (fun w => w.2 = true) l).

Record sem_inv (n : nat) (s : Semaphore) : Prop := {
  sem_slots : (_value s + size (inside s) + woken (_waiters s))%nat = n;
  sem_no_lost_wakeup : forall i, (i, false) ∈ _waiters s -> _value s = O \/ (0 < woken (_waiters s))%nat;
  sem_nodup : NoDup (_waiters s).*1;
  sem_disjoint : forall i, i ∈ inside s -> i ∉ (_waiters s).*1
}.

Lemma woken_cons i b l : woken ((i, b) :: l) = ((if b then 1 else 0) + woken l)%nat.
Proof. unfold woken. rewrite filter_cons. destruct b; case_decide; cbn in *; done. Qed.

Lemma woken_app l k : woken (l ++ k) = (woken l + woken k)%nat.
Proof. unfold woken. by rewrite filter_app, length_app. Qed.

Lemma wake_first_Some l l' :
  wake_first l = Some l' -> l'.*1 = l.*1 /\ woken l' = S (woken l).
Proof.
  revert l'. induction l as [|[i []] l IH]; intros l'; cbn; [done| |].
  - destruct (wake_first l) as [l1|]; [|done]. intros [= <-].
    destruct (IH l1 eq_refl) as [H1 H2]. rewrite !woken_cons, H2. cbn [fmap list_fmap fst]. by rewrite H1.
  - intros [= <-]. by rewrite !woken_cons.
Qed.

Lemma wake_first_None l : wake_first l = None <-> forall i, (i, false) ∉ l.
Proof.
  induction l as [|[i []] l IH]; cbn.
  - split; [|done]. intros _ i []%not_elem_of_nil.
  - destruct (wake_first l) as [l1|]; cbn.
    + split; [done|]. intros H. assert (Some l1 = None) as ?; [|done]. apply IH.
      intros j Hj. apply (H j). by right.
    + split; [|done]. intros _ j [?|Hj]%elem_of_cons; [done|]. by apply (proj1 IH eq_refl j).
  - split; [done|]. intros H. by destruct (H i); left.
Qed.

(** The parts of the invariant that waking does not touch. *)
Definition sem_base (n : nat) (s : Semaphore) : Prop :=
  (_value s + size (inside s) + woken (_waiters s))%nat = n /\
  NoDup (_waiters s).*1 /\ (forall i, i ∈ inside s -> i ∉ (_waiters s).*1).

Lemma wake_next_base n s s' :
  (0 < _value s)%nat -> _wake_up_next s = Some s' -> sem_base n s ->
  sem_base n s' /\ _value s = S (_value s').
Proof.
  unfold _wake_up_next. intros Hv H (H1 & H2 & H3).
  destruct (wake_first (_waiters s)) as [l|] eqn:E; [|done]. injection H as <-.
  destruct (wake_first_Some _ _ E) as [Hl Hw]. unfold sem_base. cbn [_value _waiters inside]. rewrite Hl, Hw.
  split_and!; [lia|done|done|lia].
Qed.

Lemma wake_while_inv fuel : forall n s,
  (_value s <= fuel)%nat -> sem_base n s -> sem_inv n (wake_while fuel s).
Proof.
  induction fuel as [|fuel IH]; intros n s Hf Hs; cbn.
  - destruct Hs as (H1 & H2 & H3). split; [done| |done..]. intros i _. left. lia.
  - destruct (_value s) as [|v] eqn:Ev.
    { destruct Hs as (H1 & H2 & H3). split; [done|by left|done..]. }
    destruct (_wake_up_next s) as [s'|] eqn:Ew.
    + destruct (wake_next_base n s s') as [Hs' Hv]; [lia|done..|]. apply IH; [lia|done].
    + unfold _wake_up_next in Ew. destruct (wake_first (_waiters s)) as [l|] eqn:E; [done|].
      pose proof (proj1 (wake_first_None _) E) as Hn. destruct Hs as (H1 & H2 & H3).
      split; [done| |done..]. intros i Hi. by destruct (Hn i).
Qed.

Lemma wake_all_inv n s : sem_base n s -> sem_inv n (wake_all s).
Proof. by apply wake_while_inv. Qed.

Lemma remove_waiter_names i j l :
  j ∈ (remove_waiter i l).*1 <-> j ∈ l.*1 /\ j <> i.
Proof.
  unfold remove_waiter. rewrite !list_elem_of_fmap. setoid_rewrite list_elem_of_filter. naive_solver.
Qed.

Lemma remove_waiter_spec (i : nat) (b : bool) (l : list (nat * bool)) :
  NoDup l.*1 -> (i, b) ∈ l ->
  woken l = ((if b then 1 else 0) + woken (remove_waiter i l))%nat /\
  NoDup (remove_waiter i l).*1 /\
  (forall j, j ∈ (remove_waiter i l).*1 <-> j ∈ l.*1 /\ j <> i).
Proof.
  intros Hnd Hin. split; [|split].
  - induction l as [|[j c] l IH]; [by apply not_elem_of_nil in Hin|]. cbn in Hnd.
    apply NoDup_cons in Hnd as [Hj Hnd]. unfold remove_waiter. rewrite filter_cons. cbn [fst].
    apply elem_of_cons in Hin as [[= <- <-]|Hin].
    + rewrite decide_False by (intros H; by apply H). rewrite woken_cons. f_equal. f_equal.
      symmetry. apply filter_all. intros [k d] Hk E. cbn in E. subst k. apply Hj.
      apply list_elem_of_fmap. by exists (i, d).
    + rewrite decide_True.
      * rewrite !woken_cons. fold (remove_waiter i l). rewrite (IH Hnd Hin). lia.
      * cbn. intros ->. apply Hj. apply list_elem_of_fmap. by exists (i, b).
  - clear Hin. induction l as [|[j c] l IH]; [constructor|]. cbn in Hnd.
    apply NoDup_cons in Hnd as [Hj Hnd]. unfold remove_waiter. rewrite filter_cons.
    case_decide; [|by apply IH]. cbn. constructor; [|by apply IH].
    intros (w & -> & Hw)%list_elem_of_fmap. apply list_elem_of_filter in Hw as [_ Hw].
    apply Hj, list_elem_of_fmap. eauto.
  - intros j. apply remove_waiter_names.
Qed.

Lemma arrive_inv n i s :
  i ∉ inside s -> i ∉ (_waiters s).*1 -> sem_inv n s -> sem_inv n (arrive i s).
Proof.
  intros Hi Hw [H1 H2 H3 H4]. unfold arrive. destruct (locked s) eqn:El.
  - split; cbn [_value _waiters inside].
    + rewrite woken_app, woken_cons. cbn [woken filter length]. unfold woken at 2. cbn. lia.
    + intros j _. rewrite woken_app. unfold locked in El.
      destruct (_value s) as [|v] eqn:Ev; [by left|]. right.
      destruct (_waiters s) as [|[k b] l] eqn:Ew; [done|]. rewrite woken_cons.
      destruct b; [lia|]. destruct (H2 k) as [?|Hk]; [by left|lia|].
      rewrite woken_cons in Hk. lia.
    + rewrite fmap_app. apply NoDup_app. split_and!; [done| |apply NoDup_singleton].
      intros x Hx ->%list_elem_of_singleton. done.
    + intros x Hx. rewrite fmap_app, elem_of_app. cbn. rewrite list_elem_of_singleton.
      intros [?| ->]; [by eapply H4|done].
  - unfold locked in El. destruct (_value s) as [|v] eqn:Ev; [done|].
    destruct (_waiters s) as [|w l] eqn:Ew; [|done]. split; cbn [_value _waiters inside].
    + rewrite size_union, size_singleton by set_solver. cbn in H1 |- *. lia.
    + intros j []%not_elem_of_nil.
    + constructor.
    + intros x _ []%not_elem_of_nil.
Qed.

Lemma resume_inv n i s : (i, true) ∈ _waiters s -> sem_inv n s -> sem_inv n (resume i s).
Proof.
  intros Hw [H1 H2 H3 H4]. apply wake_all_inv.
  destruct (remove_waiter_spec i true _ H3 Hw) as (R1 & R2 & R3).
  assert (i ∉ inside s) as Hi.
  { intros Hi. apply (H4 i Hi). apply list_elem_of_fmap. by exists (i, true). }
  split_and!; cbn [_value _waiters inside].
  - rewrite size_union, size_singleton by set_solver. lia.
  - done.
  - intros x Hx Hx'%R3. destruct Hx' as [Hx' Hne].
    apply elem_of_union in Hx as [->%elem_of_singleton|Hx]; [done|]. by apply (H4 x).
Qed.

Lemma cancel_inv n i b s : (i, b) ∈ _waiters s -> sem_inv n s -> sem_inv n (cancel i b s).
Proof.
  intros Hw [H1 H2 H3 H4]. apply wake_all_inv.
  destruct (remove_waiter_spec i b _ H3 Hw) as (R1 & R2 & R3).
  split_and!; cbn [_value _waiters inside]; [destruct b; lia|done|].
  intros x Hx [Hx' _]%R3. by apply (H4 x).
Qed.

Lemma leave_inv n i s : i ∈ inside s -> sem_inv n s -> sem_inv n (leave i s).
Proof.
  intros Hi [H1 H2 H3 H4]. unfold leave, _wake_up_next. cbn [_value _waiters inside].
  assert (size (inside s) = S (size (inside s ∖ {[i]}))) as Hs.
  { rewrite (union_difference_singleton_L i (inside s) Hi) at 1.
    by rewrite size_union, size_singleton by set_solver. }
  destruct (wake_first (_waiters s)) as [l|] eqn:E; cbn [mbind option_bind from_option id].
  - destruct (wake_first_Some _ _ E) as [Hl Hw].
    split; cbn [_value _waiters inside]; rewrite ?Hl, ?Hw; [lia| |done|].
    + intros j _. right. lia.
    + intros x Hx. apply H4. set_solver.
  - pose proof (proj1 (wake_first_None _) E) as Hn.
    split; cbn [_value _waiters inside]; [lia| |done|].
    + intros j Hj. by destruct (Hn j).
    + intros x Hx. apply H4. set_solver.
Qed.

Lemma sem_initial settings :
  sem_inv (Z.to_nat (max_handshakes_in_flight settings)) (_handshake_semaphore settings).
Proof.
  split; cbn; [unfold woken; cbn; rewrite size_empty; lia| |constructor|];
    intros i; [intros []%not_elem_of_nil|set_solver].
Qed.

(** No wake-up is lost: while a task waits, either a task that has been given a
    slot is ready to run, or every slot is taken. *)
Lemma sem_progress n s i :
  sem_inv n s -> (i, false) ∈ _waiters s ->
  (exists j, (j, true) ∈ _waiters s) \/ size (inside s) = n.
Proof.
  intros [H1 H2 H3 H4] Hi. destruct (decide (woken (_waiters s) = O)) as [Hw|Hw].
  - right. destruct (H2 i Hi) as [Hv|?]; lia.
  - left. unfold woken in Hw. destruct (filter _ (_waiters s)) as [|[j b] l] eqn:E; [done|].
    assert ((j, b) ∈ filter (fun w => w.2 = true) (_waiters s)) as [Hb Hj]%list_elem_of_filter.
    { rewrite E. by left. }
    cbn in Hb. subst b. by exists j.
Qed.

(** ** What the operations do to the other tasks *)

Lemma wake_while_names fuel : forall s,
  inside (wake_while fuel s) = inside s /\ (_waiters (wake_while fuel s)).*1 = (_waiters s).*1.
Proof.
  induction fuel as [|fuel IH]; intros s; cbn; [done|].
  destruct (_value s); [done|]. unfold _wake_up_next.
  destruct (wake_first (_waiters s)) as [l|] eqn:E; cbn; [|done].
  destruct (IH (mkSemaphore (_value s - 1) l (inside s))) as [-> ->]. cbn. split; [done|].
  by destruct (wake_first_Some _ _ E).
Qed.

Lemma leave_names i s :
  inside (leave i s) = inside s ∖ {[i]} /\ (_waiters (leave i s)).*1 = (_waiters s).*1.
Proof.
  unfold leave, _wake_up_next. cbn [_waiters inside].
  destruct (wake_first (_waiters s)) as [l|] eqn:E; cbn; [|done].
  split; [done|]. by destruct (wake_first_Some _ _ E).
Qed.
