(* ===== verification/Auth.v ===== *)
(** * API keys, authentication and channel authorisation
    ([packages/security/api_keys.py], [apps/gateway/protocol/auth.py])

    SHA-256 ([hashlib]) and the random tokens of [secrets] are parameters, and
    so is the SQL query of [authenticate_token], which Postgres answers. *)
From Stdlib Require Import Ascii ZArith Lia.
From stdpp Require Import base gmap strings list.
From S2P Require Import Prelude Async.

Definition KEY_PREFIX_LENGTH : nat := 8.

(** [hashlib.sha256(text.encode("utf-8")).hexdigest()]. *)
Class Sha256 := { sha256_hex : string -> string }.

Section ApiKeys.
Context {Sh : Sha256}.

Definition hash_api_key (plaintext : string) : string := sha256_hex plaintext.

(** [token] is what [secrets.token_urlsafe(32)] returned. *)
Definition generate_api_key (token : string) : string * string * string :=
  let plaintext := "relay_" +:+ token in
  let prefix := py_take (KEY_PREFIX_LENGTH + 6) plaintext in
  let key_hash := hash_api_key plaintext in
  (plaintext, prefix, key_hash).

(** [secrets.compare_digest] is equality, in constant time. *)
Definition verify_api_key (plaintext key_hash : string) : bool :=
  String.eqb (hash_api_key plaintext) key_hash.

End ApiKeys.

(** ** Tables of the control plane the query reads

    Times are milliseconds.  The relationships of the ORM are the foreign keys. *)
Record Tenant := mkTenant {
  tenant_id : string; tenant_name : string; tenant_status : string;
  tenant_created_at : Z; tenant_updated_at : Z
}.
Record ApiKey := mkApiKey {
  apikey_id : string; apikey_tenant_id : string; apikey_prefix : string;
  apikey_hash : string; apikey_status : string;
  apikey_created_at : Z; apikey_expires_at : option Z
}.

Record AuthContext := mkAuthContext {
  auth_tenant_id : string; auth_api_key_id : string
}.

(** The rows of the joined query of [authenticate_token]. *)
Definition active_row (h : string) (k : ApiKey) (t : Tenant) : Prop :=
  apikey_tenant_id k = tenant_id t /\ apikey_hash k = h /\
  apikey_status k = "active" /\ tenant_status t = "active".

(** The database session: [first_active_row db h] is [result.first()]. *)
Class AuthDb := {
  tables : Type;
  keys_of : tables -> list ApiKey;
  tenants_of : tables -> list Tenant;
  first_active_row : tables -> string -> option (ApiKey * Tenant)
}.

Class AuthDbLaws {Ad : AuthDb} : Prop := {
  (* a row returned by the query satisfies its joins and conditions *)
  law_row_sound : forall db h k t, first_active_row db h = Some (k, t) ->
    k ∈ keys_of db /\ t ∈ tenants_of db /\ active_row h k t;
  (* first() is None only on an empty result *)
  law_row_complete : forall db h k t, first_active_row db h = None ->
    k ∈ keys_of db -> t ∈ tenants_of db -> ~ active_row h k t
}.

Section Authenticate.
Context {Sh : Sha256} {Ad : AuthDb}.

Definition authenticate_token (db : tables) (token : string) : exn + AuthContext :=
  if negb (truthy token) then inl (AuthenticationError "missing token")
  else
    let key_hash := hash_api_key token in
    match first_active_row db key_hash with
    | None => inl (AuthenticationError "invalid or revoked API key")
    | Some (api_key, tenant) =>
        inr (mkAuthContext (tenant_id tenant) (apikey_id api_key))
    end.

End Authenticate.

Definition channel_belongs_to_tenant (channel tenant_id : string) : bool :=
  startswith channel ("t-" +:+ tenant_id +:+ ":").

Definition namespaced_channel (tenant_id logical_name : string) : string :=
  "t-" +:+ tenant_id +:+ ":" +:+ logical_name.

(** ** Properties *)

Lemma channel_belongs_iff (channel tid : string) :
  channel_belongs_to_tenant channel tid = true <->
  exists name, channel = namespaced_channel tid name.
Proof.
  unfold channel_belongs_to_tenant, namespaced_channel. rewrite startswith_spec.
  split; intros [r ->]; exists r; by rewrite !str_app_assoc.
Qed.

Lemma namespaced_channel_inj (t t' n n' : string) :
  no_colon t = true -> no_colon t' = true ->
  namespaced_channel t n = namespaced_channel t' n' -> t = t' /\ n = n'.
Proof. intros Ht Ht' H. apply str_app_inv_l in H. by apply colon_split in H. Qed.

(** Tenant isolation: a channel belongs to a tenant exactly when it is the
    tenant's namespaced form of some logical name, and to no other tenant,
    tenant ids having no colon. *)
Theorem tenant_namespaces_disjoint (channel t t' : string) :
  no_colon t = true -> no_colon t' = true ->
  channel_belongs_to_tenant channel t = true ->
  (exists name, channel = namespaced_channel t name) /\
  (channel_belongs_to_tenant channel t' = true <-> t' = t).
Proof.
  intros Ht Ht' Hb. split; [by apply channel_belongs_iff|].
  split; [|by intros ->].
  apply channel_belongs_iff in Hb as [n ->].
  intros [n' H]%channel_belongs_iff. by apply namespaced_channel_inj in H as [-> _].
Qed.

Lemma tenant_namespaces_disjoint_witness :
  channel_belongs_to_tenant "t-1:room" "1" = true /\
  (channel_belongs_to_tenant "t-1:room" "2" = true <-> "2" = "1").
Proof.
  split; [reflexivity|].
  apply (tenant_namespaces_disjoint "t-1:room" "1" "2"); reflexivity.
Defined.

(** [authenticate_token] succeeds exactly when the token is non-empty and
    some active key of an active tenant has its hash, and the context it
    returns names such a key and its tenant; every other token is refused with
    [AuthenticationError]. *)
Theorem authenticate_token_spec {Sh : Sha256} {Ad : AuthDb} {Al : AuthDbLaws}
    (db : tables) (token : string) :
  match authenticate_token db token with
  | inr ctx => token <> "" /\ exists k t, k ∈ keys_of db /\ t ∈ tenants_of db /\
      active_row (hash_api_key token) k t /\
      verify_api_key token (apikey_hash k) = true /\
      auth_tenant_id ctx = tenant_id t /\ auth_api_key_id ctx = apikey_id k /\
      apikey_tenant_id k = auth_tenant_id ctx
  | inl (AuthenticationError _) =>
      token = "" \/ forall k t, k ∈ keys_of db -> t ∈ tenants_of db ->
        ~ active_row (hash_api_key token) k t
  | inl _ => False
  end.
Proof.
  unfold authenticate_token. destruct token as [|c s]; [by left|]. cbn [truthy negb].
  destruct (first_active_row db _) as [[k t]|] eqn:E.
  - split; [done|]. apply law_row_sound in E as (Hk & Ht & Ha).
    pose proof Ha as (Hj & Hh & _). exists k, t.
    split_and!; [done|done|done| |done|done|done].
    unfold verify_api_key. rewrite Hh. apply String.eqb_refl.
  - right. intros k t. by apply law_row_complete.
Qed.

(** ** A concrete database

    Two lists and the query as a search through them; a hash that marks its
    argument. *)
Definition marked_hash : Sha256 := {| sha256_hex := fun s => "sha:" +:+ s |}.

Definition matches (h : string) (kt : ApiKey * Tenant) : bool :=
  String.eqb (apikey_tenant_id kt.1) (tenant_id kt.2) && String.eqb (apikey_hash kt.1) h &&
  String.eqb (apikey_status kt.1) "active" && String.eqb (tenant_status kt.2) "active".

Definition list_authdb : AuthDb := {|
  tables := list ApiKey * list Tenant;
  keys_of := fst;
  tenants_of := snd;
  first_active_row := fun db h =>
    head (filter (fun kt => matches h kt = true)
            (k ← db.1; t ← db.2; [(k, t)]))
|}.

Lemma matches_active h k t : matches h (k, t) = true <-> active_row h k t.
Proof.
  unfold matches, active_row. cbn. rewrite !andb_true_iff, !String.eqb_eq. tauto.
Qed.

Lemma list_rows (db : list ApiKey * list Tenant) h k t :
  (k, t) ∈ filter (fun kt => matches h kt = true) (k ← db.1; t ← db.2; [(k, t)]) <->
  active_row h k t /\ k ∈ db.1 /\ t ∈ db.2.
Proof.
  rewrite list_elem_of_filter, matches_active, list_elem_of_bind.
  setoid_rewrite list_elem_of_bind. setoid_rewrite list_elem_of_singleton. naive_solver.
Qed.

Lemma list_authdb_laws : AuthDbLaws (Ad := list_authdb).
Proof.
  split.
  - intros db h k t H. unfold first_active_row in H. cbn in H.
    apply head_Some_elem_of, list_rows in H as (H1 & H2 & H3). done.
  - intros db h k t H Hk Ht Ha. unfold first_active_row in H. cbn in H.
    assert ((k, t) ∈ filter (fun kt => matches h kt = true) (k ← db.1; t ← db.2; [(k, t)])) as Hin
      by by apply list_rows.
    apply head_None in H. rewrite H in Hin. by apply not_elem_of_nil in Hin.
Qed.

(** One tenant with an active and a revoked key. *)
Definition sample_tables : list ApiKey * list Tenant :=
  ([mkApiKey "k1" "1" "relay_a" "sha:relay_a" "active" 0 None;
    mkApiKey "k2" "1" "relay_b" "sha:relay_b" "revoked" 0 None],
   [mkTenant "1" "acme" "active" 0 0]).

Lemma authenticate_token_spec_witness :
  authenticate_token (Sh := marked_hash) (Ad := list_authdb) sample_tables "relay_a"
    = inr (mkAuthContext "1" "k1") /\
  exists k, k ∈ keys_of (AuthDb := list_authdb) sample_tables /\ apikey_id k = "k1".
Proof.
  split; [reflexivity|].
  pose proof (authenticate_token_spec (Sh := marked_hash) (Al := list_authdb_laws)
                sample_tables "relay_a") as H.
  destruct H as (_ & k & t & Hk & _ & _ & _ & _ & Hid & _). exists k. split; [exact Hk|].
  symmetry. exact Hid.
Defined.
