(* ===== verification/Hash.v ===== *)
(** * SHA-256

    [hashlib.sha256(text.encode("utf-8")).hexdigest()], the hash under which API
    keys are stored, after FIPS 180-4.  Words are integers modulo 2^32. *)
From Stdlib Require Import Ascii ZArith Lia.
From stdpp Require Import base strings list.
From S2P Require Import Prelude PyFloat Frames Json Async Auth.

Module Sha.

Definition word (z : Z) : Z := z mod 2 ^ 32.
Definition add (x y : Z) : Z := word (x + y).
Definition rotr (n x : Z) : Z := Z.lor (Z.shiftr x n) (word (Z.shiftl x (32 - n))).
Definition not32 (x : Z) : Z := Z.lxor x (2 ^ 32 - 1).

Definition ch (x y z : Z) : Z := Z.lxor (Z.land x y) (Z.land (not32 x) z).
Definition maj (x y z : Z) : Z :=
  Z.lxor (Z.lxor (Z.land x y) (Z.land x z)) (Z.land y z).
Definition xor3 (x y z : Z) : Z := Z.lxor (Z.lxor x y) z.
Definition big_sigma0 (x : Z) : Z := xor3 (rotr 2 x) (rotr 13 x) (rotr 22 x).
Definition big_sigma1 (x : Z) : Z := xor3 (rotr 6 x) (rotr 11 x) (rotr 25 x).
Definition sigma0 (x : Z) : Z := xor3 (rotr 7 x) (rotr 18 x) (Z.shiftr x 3).
Definition sigma1 (x : Z) : Z := xor3 (rotr 17 x) (rotr 19 x) (Z.shiftr x 10).

(** *** The constants, from their definition

    The round constants are the first 32 bits of the fractional parts of the
    cube roots of the first 64 primes, the initial state those of the square
    roots of the first 8. *)
Definition is_prime (n : Z) : bool :=
  forallb (fun d => negb (n mod d =? 0)) (seqZ 2 (n - 2)).

Definition primes : list Z := List.filter is_prime (seqZ 2 310).

(** The largest [r] with [r^3 <= n], from its bits [b-1], ..., [0]. *)
Fixpoint cube_root (b : nat) (n r : Z) : Z :=
  match b with
  | O => r
  | S b' => let r' := r + 2 ^ Z.of_nat b' in
            cube_root b' n (if r' * r' * r' <=? n then r' else r)
  end.

Definition K : list Z :=
  Eval vm_compute in map (fun p => word (cube_root 36 (p * 2 ^ 96) 0)) (take 64 primes).

Definition H0 : list Z :=
  Eval vm_compute in map (fun p => word (Z.sqrt (p * 2 ^ 64))) (take 8 primes).

(** The bytes of a string, and the big-endian bytes of a number. *)
Fixpoint bytes (s : string) : list Z :=
  match s with EmptyString => [] | String c s' => ord c :: bytes s' end.

Fixpoint be_bytes (n : nat) (z : Z) : list Z :=
  match n with O => [] | S n' => be_bytes n' (z / 256) ++ [z mod 256] end.

(** A one bit, zeros up to 8 bytes before the end of a block, the bit length. *)
Definition padded (msg : list Z) : list Z :=
  let l := Z.of_nat (length msg) in
  msg ++ [128] ++ repeat 0 (Z.to_nat ((55 - l) mod 64)) ++ be_bytes 8 (8 * l).

Fixpoint words (l : list Z) : list Z :=
  match l with
  | a :: b :: c :: d :: l' => (((a * 256 + b) * 256 + c) * 256 + d) :: words l'
  | _ => []
  end.

(** The message schedule, newest word first. *)
Fixpoint schedule (n : nat) (ws : list Z) : list Z :=
  match n with
  | O => ws
  | S n' =>
      let at_ i := nth i ws 0 in
      schedule n' (add (add (sigma1 (at_ 1%nat)) (at_ 6%nat)) (add (sigma0 (at_ 14%nat)) (at_ 15%nat)) :: ws)
  end.

Definition round (h : list Z) (kw : Z * Z) : list Z :=
  match h with
  | [a; b; c; d; e; f; g; hh] =>
      let t1 := add (add (add hh (big_sigma1 e)) (add (ch e f g) kw.1)) kw.2 in
      let t2 := add (big_sigma0 a) (maj a b c) in
      [add t1 t2; a; b; c; add d t1; e; f; g]
  | _ => h
  end.

Definition compress (h block : list Z) : list Z :=
  let w := rev (schedule 48 (rev block)) in
  zip_with add h (fold_left round (zip K w) h).

Fixpoint digest (fuel : nat) (h ws : list Z) : list Z :=
  match fuel with
  | O => h
  | S fuel' => digest fuel' (compress h (take 16 ws)) (drop 16 ws)
  end.

Definition hex_byte (z : Z) : string :=
  String (hex_digit (z / 16)) (String (hex_digit (z mod 16)) "").

Definition hex (l : list Z) : string := concat_str (map hex_byte l).

Definition sha256 (s : string) : string :=
  let ws := words (padded (bytes s)) in
  hex (flat_map (be_bytes 4) (digest (length ws / 16) H0 ws)).

End Sha.

(** The hash function of [hashlib], as the parameter of the key functions. *)
Definition python_sha256 : Sha256 := {| sha256_hex := Sha.sha256 |}.

Example sha256_empty :
  Sha.sha256 "" = "e3b0c44298fc1c149afbf4c8996fb92427ae41e4649b934ca495991b7852b855".
Proof. vm_compute. done. Qed.

Example sha256_abc :
  Sha.sha256 "abc" = "ba7816bf8f01cfea414140de5dae2223b00361a396177a9cb410ff61f20015ad".
Proof. vm_compute. done. Qed.

Example sha256_two_blocks :
  Sha.sha256 "relay_0123456789012345678901234567890123456789012345678901234567" =
  "5334fea4fffd02f6a7f597d9b5b8543f679e045751a56ed5c775103ae6077eba".
Proof. vm_compute. done. Qed.

(** ** The length of a digest *)

Lemma be_bytes_length (n : nat) (z : Z) : length (Sha.be_bytes n z) = n.
Proof. revert z. induction n; intros z; cbn; [done|]. rewrite length_app, IHn. cbn. lia. Qed.

Lemma round_length (h : list Z) kw : length h = 8%nat -> length (Sha.round h kw) = 8%nat.
Proof. intros H. by do 9 (destruct h as [|? h]; try done). Qed.

Lemma rounds_length (kws : list (Z * Z)) (h : list Z) :
  length h = 8%nat -> length (fold_left Sha.round kws h) = 8%nat.
Proof.
  revert h. induction kws as [|kw kws IH]; intros h Hh; cbn [fold_left]; [done|].
  by apply IH, round_length.
Qed.

Lemma digest_length (n : nat) (h ws : list Z) :
  length h = 8%nat -> length (Sha.digest n h ws) = 8%nat.
Proof.
  revert h ws. induction n as [|n IH]; intros h ws Hh; cbn; [done|].
  apply IH. unfold Sha.compress. by rewrite length_zip_with, rounds_length, Hh.
Qed.

Lemma hex_length (l : list Z) : String.length (Sha.hex l) = (2 * length l)%nat.
Proof.
  unfold Sha.hex. induction l as [|z l IH]; [done|]. cbn [map concat_str length].
  unfold Sha.hex_byte at 1. rewrite !str_app_cons, str_app_nil_l. cbn. rewrite IH. lia.
Qed.

(** A key hash fills the [String(64)] column exactly. *)
Lemma sha256_length (s : string) : String.length (Sha.sha256 s) = 64%nat.
Proof.
  unfold Sha.sha256. rewrite hex_length.
  pose proof (digest_length (length (Sha.words (Sha.padded (Sha.bytes s))) / 16) Sha.H0
                (Sha.words (Sha.padded (Sha.bytes s))) eq_refl) as Hd.
  generalize dependent (Sha.digest (length (Sha.words (Sha.padded (Sha.bytes s))) / 16) Sha.H0
                (Sha.words (Sha.padded (Sha.bytes s)))). intros h Hd.
  do 9 (destruct h as [|? h]; try done).
Qed.

(** A digest has hexadecimal digits only. *)
Lemma be_bytes_range (n : nat) (w z : Z) : z ∈ Sha.be_bytes n w -> 0 <= z < 256.
Proof.
  revert w. induction n as [|n IH]; intros w; cbn; [by intros []%not_elem_of_nil|].
  rewrite elem_of_app, list_elem_of_singleton. intros [H| ->]; [by apply IH in H|].
  apply Z.mod_pos_bound. lia.
Qed.

Lemma hex_chars (f : Ascii.ascii -> bool) (l : list Z) :
  (forall z, 0 <= z < 16 -> f (hex_digit z) = true) -> (forall z, z ∈ l -> 0 <= z < 256) ->
  forall_chars f (Sha.hex l) = true.
Proof.
  intros Hf. unfold Sha.hex. induction l as [|z l IH]; [done|]. intros Hl.
  cbn [map concat_str]. rewrite forall_chars_app, IH by (intros; apply Hl; by right).
  assert (0 <= z < 256) by (apply Hl; by left). cbn.
  rewrite !Hf; [done|apply Z.mod_pos_bound; lia|].
  split; [apply Z.div_pos; lia|apply Z.div_lt_upper_bound; lia].
Qed.

Lemma sha256_chars (f : Ascii.ascii -> bool) (s : string) :
  (forall z, 0 <= z < 16 -> f (hex_digit z) = true) -> forall_chars f (Sha.sha256 s) = true.
Proof.
  intros Hf. apply hex_chars; [done|]. intros z Hz.
  apply list_elem_of_In, in_flat_map in Hz as (w & _ & Hz).
  by eapply be_bytes_range, list_elem_of_In.
Qed.
