(* ===== verification/Database.v ===== *)
(** * The control plane's database ([packages/database/models.py],
    [packages/database/engine.py])

    The tables beside those of [Auth], and the session through which the code
    reads and writes them.  SQLAlchemy and Postgres are outside the repository:
    [SqlDb] is what the code uses of them and [SqlLaws] their documented
    behaviour, statement by statement.  That the tables stay consistent
    ([schema_ok]) is proved from the laws. *)
From Stdlib Require Import Ascii ZArith Lia.
From stdpp Require Import base gmap strings list sets.
From S2P Require Import Prelude Async Auth.

Record Channel := mkChannel {
  channel_id : string; channel_tenant_id : string; channel_name : string;
  ordering_enabled : bool; delivery_mode : string; retention_seconds : Z;
  max_message_size : Z; channel_created_at : Z
}.

Record Room := mkRoom {
  room_id : string; room_tenant_id : string; room_name : string; room_created_at : Z
}.

(** Written by no endpoint of the repository. *)
Record SessionRecord := mkSessionRecord {
  srec_id : string; srec_tenant_id : string; srec_created_at : Z;
  srec_last_seen : Z; srec_expires_at : Z; srec_status : string
}.

(** ** The rows the code builds, with the column defaults

    [uid] is what [uuid.uuid4] gave, [t] and [t'] the readings of [_now]. *)
Definition new_tenant (uid name : string) (t t' : Z) : Tenant :=
  mkTenant uid name "active" t t'.
Definition new_api_key (uid tenant prefix hash : string) (t : Z) : ApiKey :=
  mkApiKey uid tenant prefix hash "active" t None.
Definition new_channel (uid tenant name : string) (ordering : bool) (retention t : Z) : Channel :=
  mkChannel uid tenant name ordering "AT_LEAST_ONCE" retention 1000000 t.
Definition new_room (uid tenant name : string) (t : Z) : Room := mkRoom uid tenant name t.

Definition with_status (s : string) (k : ApiKey) : ApiKey :=
  mkApiKey (apikey_id k) (apikey_tenant_id k) (apikey_prefix k) (apikey_hash k) s
    (apikey_created_at k) (apikey_expires_at k).

Inductive row :=
| RTenant (t : Tenant)
| RApiKey (k : ApiKey)
| RChannel (c : Channel)
| RRoom (r : Room).

(** [String(n)]: at most [n] characters, none of them NUL. *)
Definition no_nul (s : string) : bool :=
  forall_chars (fun c => negb (Ascii.eqb c Ascii.zero)) s.
Definition fits (n : nat) (s : string) : bool := (py_len s <=? n)%nat && no_nul s.

Class SqlDb {Ad : AuthDb} := {
  channels_of : tables -> list Channel;
  rooms_of : tables -> list Room;
  (* the canonical form of the text of a UUID, [None] when it is none *)
  uuid_text : string -> option string;
  (* INSERT and COMMIT *)
  sql_insert : row -> tables -> exn + tables;
  (* UPDATE api_keys SET status WHERE id, and COMMIT *)
  sql_set_key_status : string -> string -> tables -> exn + tables
}.

Section Schema.
Context {Ad : AuthDb} {Sq : SqlDb}.

(** The constraints of the schema on an inserted row: a fresh primary key, the
    unique hash, the foreign key, the width of the columns and the characters of a text. *)
Definition admits (db : tables) (r : row) : Prop :=
  match r with
  | RTenant t =>
      (forall t', t' ∈ tenants_of db -> tenant_id t' <> tenant_id t) /\
      fits 255 (tenant_name t) = true
  | RApiKey k =>
      (forall k', k' ∈ keys_of db -> apikey_id k' <> apikey_id k /\ apikey_hash k' <> apikey_hash k) /\
      (exists t, t ∈ tenants_of db /\ tenant_id t = apikey_tenant_id k) /\
      fits 32 (apikey_prefix k) = true /\ fits 64 (apikey_hash k) = true
  | RChannel c =>
      (forall c', c' ∈ channels_of db -> channel_id c' <> channel_id c) /\
      (exists t, t ∈ tenants_of db /\ tenant_id t = channel_tenant_id c) /\
      fits 200 (channel_name c) = true /\
      - 2 ^ 31 <= retention_seconds c < 2 ^ 31
  | RRoom x =>
      (forall x', x' ∈ rooms_of db -> room_id x' <> room_id x) /\
      (exists t, t ∈ tenants_of db /\ tenant_id t = room_tenant_id x) /\
      fits 200 (room_name x) = true
  end.

(** [db'] holds the rows of [db] and [r]. *)
Definition inserted (db db' : tables) (r : row) : Prop :=
  (forall t, t ∈ tenants_of db' <-> t ∈ tenants_of db \/ r = RTenant t) /\
  (forall k, k ∈ keys_of db' <-> k ∈ keys_of db \/ r = RApiKey k) /\
  (forall c, c ∈ channels_of db' <-> c ∈ channels_of db \/ r = RChannel c) /\
  (forall x, x ∈ rooms_of db' <-> x ∈ rooms_of db \/ r = RRoom x).

(** [db'] holds the rows of [db], the key [i] with the status [s]. *)
Definition restatused (db db' : tables) (i s : string) : Prop :=
  (forall t, t ∈ tenants_of db' <-> t ∈ tenants_of db) /\
  (forall k, k ∈ keys_of db' <->
     exists k0, k0 ∈ keys_of db /\ k = if String.eqb (apikey_id k0) i then with_status s k0 else k0) /\
  (forall c, c ∈ channels_of db' <-> c ∈ channels_of db) /\
  (forall x, x ∈ rooms_of db' <-> x ∈ rooms_of db).

Class SqlLaws : Prop := {
  law_sql_auth :: AuthDbLaws;
  (* a statement that violates a constraint fails, every other one succeeds *)
  law_insert : forall r db db', sql_insert r db = inr db' -> admits db r /\ inserted db db' r;
  law_insert_ok : forall r db, admits db r -> exists db', sql_insert r db = inr db';
  law_status : forall i s db, fits 32 s = true ->
    exists db', sql_set_key_status i s db = inr db' /\ restatused db db' i s;
  (* the form a UUID is stored in is canonical *)
  law_uuid : forall a b, uuid_text a = Some b -> uuid_text b = Some b
}.

(** ** Consistency of the tables *)

(** Primary keys and hashes are unique, and every row has its tenant. *)
Record schema_ok (db : tables) : Prop := {
  ok_tenant_pk : forall t t', t ∈ tenants_of db -> t' ∈ tenants_of db ->
    tenant_id t = tenant_id t' -> t = t';
  ok_key_pk : forall k k', k ∈ keys_of db -> k' ∈ keys_of db -> apikey_id k = apikey_id k' -> k = k';
  ok_key_hash : forall k k', k ∈ keys_of db -> k' ∈ keys_of db ->
    apikey_hash k = apikey_hash k' -> k = k';
  ok_key_tenant : forall k, k ∈ keys_of db ->
    exists t, t ∈ tenants_of db /\ tenant_id t = apikey_tenant_id k;
  ok_channel_tenant : forall c, c ∈ channels_of db ->
    exists t, t ∈ tenants_of db /\ tenant_id t = channel_tenant_id c;
  ok_room_tenant : forall x, x ∈ rooms_of db ->
    exists t, t ∈ tenants_of db /\ tenant_id t = room_tenant_id x
}.

Lemma inserted_schema (db db' : tables) (r : row) :
  schema_ok db -> admits db r -> inserted db db' r -> schema_ok db'.
Proof.
  intros [H1 H2 H3 H4 H5 H6] Ha (Ht & Hk & Hc & Hx).
  assert (forall i, (exists t, t ∈ tenants_of db /\ tenant_id t = i) ->
    exists t, t ∈ tenants_of db' /\ tenant_id t = i) as Hmore.
  { intros i (t & Hin & <-). exists t. rewrite Ht. auto. }
  split.
  - intros t t' [H|H]%Ht [H'|H']%Ht; subst; cbn in *; [by apply H1|naive_solver..].
  - intros k k' [H|H]%Hk [H'|H']%Hk; subst; cbn in *; [by apply H2|naive_solver..].
  - intros k k' [H|H]%Hk [H'|H']%Hk; subst; cbn in *; [by apply H3|naive_solver..].
  - intros k [H|H]%Hk; apply Hmore; subst; cbn in *; [by apply H4|naive_solver].
  - intros c [H|H]%Hc; apply Hmore; subst; cbn in *; [by apply H5|naive_solver].
  - intros x [H|H]%Hx; apply Hmore; subst; cbn in *; [by apply H6|naive_solver].
Qed.

(** A row with its status changed keeps the columns the constraints are on. *)
Lemma restatused_key (k0 k : ApiKey) (i s : string) :
  k = (if String.eqb (apikey_id k0) i then with_status s k0 else k0) ->
  apikey_id k = apikey_id k0 /\ apikey_hash k = apikey_hash k0 /\
  apikey_tenant_id k = apikey_tenant_id k0.
Proof. intros ->. by destruct (String.eqb _ _). Qed.

Lemma restatused_schema (db db' : tables) (i s : string) :
  schema_ok db -> restatused db db' i s -> schema_ok db'.
Proof.
  intros [H1 H2 H3 H4 H5 H6] (Ht & Hk & Hc & Hx).
  split.
  - intros t t' Hin%Ht Hin'%Ht. by apply H1.
  - intros k k' (k0 & Hin & Ek)%Hk (k0' & Hin' & Ek')%Hk Hid.
    pose proof (restatused_key _ _ _ _ Ek) as (Hi & _). pose proof (restatused_key _ _ _ _ Ek') as (Hi' & _).
    assert (k0 = k0') as <- by (apply H2; congruence). congruence.
  - intros k k' (k0 & Hin & Ek)%Hk (k0' & Hin' & Ek')%Hk Hh.
    pose proof (restatused_key _ _ _ _ Ek) as (_ & Hi & _).
    pose proof (restatused_key _ _ _ _ Ek') as (_ & Hi' & _).
    assert (k0 = k0') as <- by (apply H3; congruence). congruence.
  - intros k (k0 & Hin & Ek)%Hk. pose proof (restatused_key _ _ _ _ Ek) as (_ & _ & ->).
    destruct (H4 _ Hin) as (t & ? & ?). exists t. by rewrite Ht.
  - intros c Hin%Hc. destruct (H5 _ Hin) as (t & ? & ?). exists t. by rewrite Ht.
  - intros x Hin%Hx. destruct (H6 _ Hin) as (t & ? & ?). exists t. by rewrite Ht.
Qed.

End Schema.
Arguments SqlLaws {Ad Sq}.

(** ** Sessions

    A request runs its statements in one session ([get_db]).  [link] is what
    happens to a statement: it is executed and answered; it does not reach the
    server; or it is executed and the answer is lost. *)
Inductive link := Up | Down | Lost.

Definition OperationalError : exn := OtherError "OperationalError".

Section Session.
Context {Ad : AuthDb} {Sq : SqlDb}.

(** The statements of a request are numbered. *)
Record session := mkSession { statements : nat; rows : tables }.

Definition Db (A : Type) : Type := (nat -> link) -> session -> (exn + A) * session.

Definition db_ret {A} (a : A) : Db A := fun _ s => (inr a, s).
Definition db_throw {A} (x : exn) : Db A := fun _ s => (inl x, s).
Definition db_bind {A B} (p : Db A) (f : A -> Db B) : Db B := fun lk s =>
  match p lk s with
  | (inl x, s') => (inl x, s')
  | (inr a, s') => f a lk s'
  end.

Definition next (s : session) (db : tables) : session := mkSession (S (statements s)) db.

(** A query. *)
Definition db_read {A} (f : tables -> exn + A) : Db A := fun lk s =>
  match lk (statements s) with
  | Up => (f (rows s), next s (rows s))
  | Down | Lost => (inl OperationalError, next s (rows s))
  end.

(** A write and its commit; a failed transaction is rolled back. *)
Definition db_write (f : tables -> exn + tables) : Db unit := fun lk s =>
  match lk (statements s), f (rows s) with
  | Up, inr db' => (inr tt, next s db')
  | Up, inl x => (inl x, next s (rows s))
  | Down, _ => (inl OperationalError, next s (rows s))
  | Lost, inr db' => (inl OperationalError, next s db')
  | Lost, inl x => (inl OperationalError, next s (rows s))
  end.

(** [db.get(Model, id)] on the rows [l]. *)
Definition sql_get {R} (l : tables -> list R) (pk : R -> string) (i : string) :
    Db (option R) :=
  db_read (fun db =>
    match uuid_text i with
    | None => inl (OtherError "DBAPIError")
    | Some u => inr (head (filter (fun r => pk r = u) (l db)))
    end).

(** [db.refresh(obj)]: reads the row of the object again. *)
Definition refresh {R} (l : tables -> list R) (pk : R -> string) (i : string) : Db R :=
  db_read (fun db =>
    match head (filter (fun r => pk r = i) (l db)) with
    | Some r => inr r
    | None => inl (OtherError "InvalidRequestError")
    end).

End Session.
Notation "'do!' x := p 'in' q" := (db_bind p (fun x => q))
  (at level 200, x binder, p at level 100, q at level 200, right associativity).
