(* ===== verification/Sessions.v ===== *)
(** * Sessions and ack positions ([apps/gateway/sessions/manager.py])

    A session is a Redis hash with a TTL of the resume window; the ack
    position of each channel is a string key of its own.  The time stamps the
    source writes as floats are written in milliseconds. *)
From Stdlib Require Import ZArith Lia.
From stdpp Require Import base gmap strings list.
From S2P Require Import Prelude Config Keys RedisApi Async RefRedis.

Section Sessions.
Context {S : Type}.
Variable settings : Settings.

Definition create_session (tenant_id node_id : string) : proc S string :=
  let! session_id := uuid4 in
  let key := RedisKeys.session session_id in
  let! now := now in
  redis (HSET key [("tenant_id", tenant_id); ("current_node", node_id);
                   ("created_at", py_str now); ("last_seen", py_str now)]) ;;
  redis (EXPIRE key (session_resume_window_seconds settings)) ;;
  Ret session_id.

Definition touch_session (session_id node_id : string) : proc S unit :=
  let key := RedisKeys.session session_id in
  let! now := now in
  redis (HSET key [("last_seen", py_str now); ("current_node", node_id)]) ;;
  redis (EXPIRE key (session_resume_window_seconds settings)) ;;
  Ret tt.

(** [data or None]: an empty dict is [None]. *)
Definition get_session (session_id : string) : proc S (option (gmap string string)) :=
  let key := RedisKeys.session session_id in
  let! data := redis (HGETALL key) in
  Ret (if bool_decide (data = ∅) then None else Some data).

(** [int(x)] on a stored value; it raises on a text that is no integer. *)
Definition to_int (x : string) : proc S Z :=
  match py_int x with
  | Some n => Ret n
  | None => Throw (ValueError "invalid literal for int()")
  end.

Definition record_ack (session_id channel : string) (sequence : Z) : proc S unit :=
  let key := RedisKeys.session_ack session_id channel in
  let! current := redis (GET key) in
  let store := redis (SET key (py_str sequence)
                        (Some (session_resume_window_seconds settings))) in
  match current with
  | None => store
  | Some c => let! n := to_int c in
              if n <? sequence then store else Ret tt
  end.

Definition get_ack (session_id channel : string) : proc S Z :=
  let! val := redis (GET (RedisKeys.session_ack session_id channel)) in
  match val with Some v => to_int v | None => Ret 0 end.

End Sessions.

(** ** Behaviour of the operations *)
Section SessionFacts.
Context {Rd : Redis} {Rl : RedisLaws} {S : Type}.
Variable settings : Settings.
Variable e : env.
Hypothesis Hrel : reliable e.
Hypothesis Hmono : mono_clock e.
Hypothesis Hwin : 0 < session_resume_window_seconds settings.

(** What [record_ack] decides to do with the position it read. *)
Definition ack_stores (old : option rval) (n sequence : Z) : bool :=
  match old with None => true | Some _ => n <? sequence end.

Lemma record_ack_run (w : world S) (sid ch : string) (sequence n : Z) :
  as_counter (sees (w_db w) (clock e (w_tick w)) (RedisKeys.session_ack sid ch)) = Some n ->
  exists w', run e (record_ack settings sid ch sequence) w = (inr tt, w') /\
    (w_tick w < w_tick w' <= 2 + w_tick w)%nat /\
    forall u k, clock e (1 + w_tick w) <= u ->
      sees (w_db w') u k =
      if bool_decide (k = RedisKeys.session_ack sid ch) &&
         ack_stores (sees (w_db w) (clock e (w_tick w)) (RedisKeys.session_ack sid ch))
           n sequence
      then expiring (clock e (1 + w_tick w)) (session_resume_window_seconds settings)
             (VStr (py_str sequence)) u
      else sees (w_db w) u k.
Proof.
  set (key := RedisKeys.session_ack sid ch). set (t0 := clock e (w_tick w)).
  assert (Ht01 : t0 <= clock e (1 + w_tick w)) by (apply Hmono; lia).
  intros Hn. unfold record_ack. fold key. run_step Hrel.
  apply law_get in E as [Hsame ->]. fold t0 in Hsame |- *.
  destruct (run_set_ex e key (py_str sequence) _ (set_db w d) (Hrel _) Hwin)
    as (d2 & Hrun & _ & Hsees). cbn in Hrun, Hsees.
  assert (Hd : forall u k, clock e (1 + w_tick w) <= u -> sees d u k = sees (w_db w) u k).
  { intros u k Hu. apply (same_sees t0); [done|lia]. }
  destruct (sees (w_db w) t0 key) as [[s| | |]|] eqn:Es; try discriminate Hn;
    cbn [ack_stores]; [|].
  - cbn in Hn. unfold to_int. rewrite Hn. cbn [bind]. destruct (n <? sequence).
    + eexists; split; [exact Hrun|]. split; [cbn; lia|]. intros u k Hu.
      cbn. rewrite Hsees, andb_true_r by done. case_bool_decide; auto.
    + eexists; split; [done|]. split; [cbn; lia|]. intros u k Hu.
      rewrite andb_false_r. cbn. auto.
  - eexists; split; [exact Hrun|]. split; [cbn; lia|]. intros u k Hu.
    cbn. rewrite Hsees, andb_true_r by done. case_bool_decide; auto.
Qed.

(** A client's acknowledgements on one channel, in the order they arrive. *)
Definition record_acks (sid ch : string) (l : list Z) : proc S unit :=
  for_each l (record_ack settings sid ch).

Lemma record_acks_run (l : list Z) (w : world S) (sid ch : string) (n T : Z) :
  let key := RedisKeys.session_ack sid ch in
  sees (w_db w) T key = sees (w_db w) (clock e (w_tick w)) key ->
  as_counter (sees (w_db w) T key) = Some n ->
  (forall q, q ∈ l -> 0 <= q) ->
  clock e (w_tick w + 2 * length l) <= T ->
  T < clock e (w_tick w) + 1000 * session_resume_window_seconds settings ->
  exists w', run e (record_acks sid ch l) w = (inr tt, w') /\
    (w_tick w <= w_tick w' <= w_tick w + 2 * length l)%nat /\
    forall u, clock e (w_tick w') <= u <= T ->
      as_counter (sees (w_db w') u key) = Some (foldl Z.max n l).
Proof.
  cbn zeta. set (key := RedisKeys.session_ack sid ch).
  revert w n. induction l as [|q l IH]; intros w n Hsee Hn Hpos HT Hwindow; cbn [length] in *.
  { eexists; split; [done|]. split; [lia|]. intros u Hu. rewrite Hsee in Hn.
    by rewrite (sees_stable _ _ u T key Hsee Hu). }
  rewrite Hsee in Hn. set (t0 := clock e (w_tick w)) in *.
  destruct (record_ack_run w sid ch q n Hn) as (w1 & Hrun & Htick & Hsees).
  fold key t0 in Hsees.
  assert (Ht01 : t0 <= clock e (1 + w_tick w)) by (apply Hmono; lia).
  assert (Ht1T : clock e (1 + w_tick w) <= clock e (w_tick w1)) by (apply Hmono; lia).
  assert (HwT : clock e (w_tick w1) <= T).
  { etrans; [|exact HT]. apply Hmono. lia. }
  assert (Hwin1 : T < clock e (1 + w_tick w)
                      + 1000 * session_resume_window_seconds settings) by lia.
  destruct (IH w1 (Z.max n q)) as (w2 & Hrun2 & Htick2 & Hfinal).
  - rewrite !Hsees by lia. rewrite bool_decide_true by done; cbn [andb].
    destruct (ack_stores _ _ _) eqn:Est; [by rewrite !expiring_before by lia|].
    destruct (sees (w_db w) T key) as [v|] eqn:EsT; [|by rewrite <- Hsee in Est].
    symmetry. by apply (law_time _ _ T).
  - rewrite Hsees, bool_decide_true by (done || lia); cbn [andb].
    destruct (ack_stores _ _ _) eqn:Est.
    + rewrite expiring_before by lia. cbn. rewrite py_int_str. f_equal.
      destruct (sees (w_db w) t0 key) as [v|]; cbn in Est; [lia|].
      cbn in Hn. specialize (Hpos q ltac:(set_solver)). simplify_eq. lia.
    + rewrite Hsee, Hn. f_equal. destruct (sees (w_db w) t0 key); cbn in Est; [lia|done].
  - intros. apply Hpos. set_solver.
  - etrans; [|exact HT]. apply Hmono. lia.
  - lia.
  - exists w2. split; [|split; [lia|done]].
    unfold record_acks; cbn [for_each]. rewrite run_bind, Hrun. exact Hrun2.
Qed.

(** [HSET key m] then [EXPIRE key s]: unless the key's old deadline passes
    between the two, the key reads as the updated hash until [s] seconds after
    the second command. *)
Lemma hset_expire_run {A} (key : string) (m : list (string * string)) (s : Z) (a : A)
    (w : world S) (h : gmap string string) :
  let t1 := clock e (w_tick w) in let t2 := clock e (1 + w_tick w) in
  m <> [] -> as_hash (sees (w_db w) t1 key) = Some h ->
  (sees (w_db w) t1 key = None \/ is_Some (sees (w_db w) t2 key)) ->
  exists d', run e (redis (HSET key m) ;; redis (EXPIRE key s) ;; Ret a) w
             = (inr a, mkWorld (2 + w_tick w) d' (w_state w) (w_out w)) /\
    forall u k, t2 <= u ->
      sees d' u k = if bool_decide (k = key)
                    then expiring t2 s (VHash (hash_update h m)) u
                    else sees (w_db w) u k.
Proof.
  intros t1 t2 Hm Hh Hlive. assert (t1 <= t2) by (apply Hmono; lia).
  run_step Hrel. apply (law_hset _ _ h) in E as [-> Hch]; [|done..]. fold t1 in Hch.
  run_step Hrel. apply law_expire in E as [-> Hch2]. fold t2 in Hch2.
  eexists; split; [done|]. intros u k Hu. case_bool_decide as Hk.
  - subst k. rewrite (changes_at _ _ _ _ _ _ Hch2) by done.
    rewrite (changes_at _ _ _ _ _ _ Hch) by done. unfold keep_ttl.
    destruct Hlive as [->|[v ->]]; [done|]. by destruct (sees (w_db w) t1 key).
  - rewrite (changes_frame _ _ _ _ _ _ _ Hch2), (changes_frame _ _ _ _ _ _ _ Hch)
      by (done || lia). done.
Qed.

Lemma get_session_run (w : world S) (sid : string) (h : gmap string string) :
  as_hash (sees (w_db w) (clock e (w_tick w)) (RedisKeys.session sid)) = Some h ->
  exists w', run e (get_session sid) w
             = (inr (if bool_decide (h = ∅) then None else Some h), w').
Proof.
  intros Hh. unfold get_session. run_step Hrel.
  apply law_hgetall in E as [_ ->]. rewrite Hh. by eexists.
Qed.

Definition new_session_hash (tenant_id node_id : string) (t : Z) : gmap string string :=
  hash_update ∅ [("tenant_id", tenant_id); ("current_node", node_id);
                 ("created_at", py_str t); ("last_seen", py_str t)].

Lemma new_session_hash_tenant (tid nid : string) (t : Z) :
  new_session_hash tid nid t !! "tenant_id" = Some tid.
Proof. unfold new_session_hash, hash_update; cbn. by simplify_map_eq. Qed.

Lemma new_session_hash_nonempty (tid nid : string) (t : Z) :
  new_session_hash tid nid t <> ∅.
Proof.
  intros H. pose proof (new_session_hash_tenant tid nid t) as H'.
  rewrite H in H'. by rewrite lookup_empty in H'.
Qed.

Lemma create_session_run (w : world S) (tid nid : string) :
  let sid := uuid e (w_tick w) in let key := RedisKeys.session sid in
  sees (w_db w) (clock e (2 + w_tick w)) key = None ->
  exists d', run e (create_session settings tid nid) w
             = (inr sid, mkWorld (4 + w_tick w) d' (w_state w) (w_out w)) /\
    forall u k, clock e (3 + w_tick w) <= u ->
      sees d' u k =
      if bool_decide (k = key)
      then expiring (clock e (3 + w_tick w)) (session_resume_window_seconds settings)
             (VHash (new_session_hash tid nid (clock e (1 + w_tick w)))) u
      else sees (w_db w) u k.
Proof.
  intros sid key Hfresh. unfold create_session. do 2 run_step Hrel. fold sid key.
  apply (hset_expire_run key _ _ sid (tick (tick w)) ∅); [done| |by left].
  exact (f_equal as_hash Hfresh).
Qed.

End SessionFacts.

(** A created session can be found by its id for the resume window and no
    longer: from the moment [create_session] returns until the window after its
    [EXPIRE] has passed, [get_session] returns the session's hash with the
    tenant it was created for; from then on it returns [None]. *)
Theorem session_lifetime {Rd : Redis} {Rl : RedisLaws} {S : Type}
    (settings : Settings) (e : env) (w : world S) (tid nid : string) :
  reliable e -> mono_clock e ->
  sees (w_db w) (clock e (2 + w_tick w)) (RedisKeys.session (uuid e (w_tick w))) = None ->
  exists w1, run e (create_session settings tid nid) w = (inr (uuid e (w_tick w)), w1) /\
    w_tick w1 = (4 + w_tick w)%nat /\
    forall w2 : world S, w_db w2 = w_db w1 -> (w_tick w1 <= w_tick w2)%nat ->
    let deadline := clock e (3 + w_tick w)
                    + 1000 * session_resume_window_seconds settings in
    exists r w3, run e (get_session (uuid e (w_tick w))) w2 = (inr r, w3) /\
      if clock e (w_tick w2) <? deadline
      then exists h, r = Some h /\ h !! "tenant_id" = Some tid
      else r = None.
Proof.
  intros Hrel Hmono Hfresh.
  destruct (create_session_run settings e Hrel Hmono w tid nid Hfresh) as (d & Hrun & Hs).
  eexists; split; [exact Hrun|]. split; [done|]. cbn. intros w2 Hdb Ht.
  specialize (Hs (clock e (w_tick w2)) (RedisKeys.session (uuid e (w_tick w)))
                 ltac:(apply Hmono; lia)).
  rewrite bool_decide_true in Hs by done. unfold expiring in Hs. rewrite <- Hdb in Hs.
  set (h := new_session_hash tid nid _) in Hs.
  destruct (_ <? _) in *.
  - destruct (get_session_run e Hrel w2 (uuid e (w_tick w)) h) as (w3 & Hg);
      [by rewrite Hs|].
    rewrite bool_decide_false in Hg by apply new_session_hash_nonempty.
    do 2 eexists; split; [exact Hg|]. exists h. split; [done|].
    apply new_session_hash_tenant.
  - destruct (get_session_run e Hrel w2 (uuid e (w_tick w)) ∅) as (w3 & Hg);
      [by rewrite Hs|].
    rewrite bool_decide_true in Hg by done. by do 2 eexists.
Qed.

Lemma session_lifetime_witness :
  exists w1, run calm (create_session default_settings "t1" "node-a")
    (ref_world 0 Ref.empty tt) = (inr "uuid-0", w1) /\
  exists r w3, run calm (get_session "uuid-0") (ref_world 3000 (w_db w1) tt) = (inr r, w3) /\
    exists h, r = Some h /\ h !! "tenant_id" = Some "t1".
Proof.
  destruct (session_lifetime default_settings calm (ref_world 0 Ref.empty tt) "t1" "node-a"
              calm_reliable calm_mono eq_refl) as (w1 & H1 & Ht & H2).
  exists w1. split; [exact H1|].
  assert (H3 : (w_tick w1 <= 3000)%nat) by (rewrite Ht; cbn; lia).
  exact (H2 (ref_world 3000 (w_db w1) tt) eq_refl H3).
Defined.

(** Acknowledgements are cumulative: whatever the order in which a
    session's acks on a channel arrive (late and duplicate ones included), the
    position [get_ack] then returns is the largest acknowledged sequence, and
    never less than the position before, as long as no stored position expires
    on the way. *)
Theorem ack_position_is_max {Rd : Redis} {Rl : RedisLaws} {S : Type}
    (settings : Settings) (e : env) (w : world S) (sid ch : string) (l : list Z) (n T : Z) :
  let key := RedisKeys.session_ack sid ch in
  reliable e -> mono_clock e -> 0 < session_resume_window_seconds settings ->
  sees (w_db w) T key = sees (w_db w) (clock e (w_tick w)) key ->
  as_counter (sees (w_db w) T key) = Some n ->
  (forall q, q ∈ l -> 0 <= q) ->
  clock e (w_tick w + 2 * length l) <= T ->
  T < clock e (w_tick w) + 1000 * session_resume_window_seconds settings ->
  exists w', run e (record_acks settings sid ch l ;; get_ack sid ch) w
             = (inr (foldl Z.max n l), w').
Proof.
  intros key Hrel Hmono Hwin Hsee Hn Hpos HT Hwindow.
  destruct (record_acks_run settings e Hrel Hmono Hwin l w sid ch n T)
    as (w' & Hrun & Htick & Hfinal); [done..|].
  rewrite run_bind, Hrun. unfold get_ack. run_step Hrel.
  apply law_get in E as [_ ->].
  assert (clock e (w_tick w') <= T) by (etrans; [|exact HT]; apply Hmono; lia).
  specialize (Hfinal (clock e (w_tick w')) ltac:(lia)). fold key in Hfinal |- *.
  destruct (sees (w_db w') _ key) as [[s| | |]|]; try discriminate Hfinal; cbn in Hfinal.
  - unfold to_int. rewrite Hfinal. by eexists.
  - injection Hfinal as <-. by eexists.
Qed.

Lemma ack_position_is_max_witness :
  exists w', run calm (record_acks default_settings "s1" "chat" [100; 150; 120] ;;
                       get_ack "s1" "chat") (ref_world 0 Ref.empty tt) = (inr 150, w').
Proof.
  apply (ack_position_is_max default_settings calm (ref_world 0 Ref.empty tt)
           "s1" "chat" [100; 150; 120] 0 1000).
  - apply calm_reliable.
  - apply calm_mono.
  - done.
  - reflexivity.
  - reflexivity.
  - intros q. rewrite !elem_of_cons. intros [->|[->|[->|[]%not_elem_of_nil]]]; lia.
  - done.
  - done.
Defined.
