(* ===== verification/Publisher.v ===== *)
(** * Sequence allocation, recovery buffer and publication
    ([packages/redis/client.py]: [allocate_sequence],
    [append_to_channel_buffer]; [apps/gateway/fanout/publisher.py]:
    [publish_message])

    The abstract view of a channel is the last sequence number given out and
    the messages its recovery buffer retains; [publish_refines] shows that a
    publication appends to that view. *)
From Stdlib Require Import ZArith Lia.
From stdpp Require Import base gmap strings list sorting.
From S2P Require Import Prelude Config Frames Keys RedisApi Async RefRedis.

Record PublishResult := mkPublishResult {
  pr_message_id : string;
  pr_sequence : Z
}.

Section Publish.
Context {Jt : JsonText} {Py : Pydantic} {S : Type}.
Variable settings : Settings.

Definition allocate_sequence (channel : string) : proc S Z :=
  redis (INCR (RedisKeys.channel_sequence channel)).

(** The fields of a stream entry. *)
Definition entry_fields (message_id : string) (sequence : Z) (payload : json)
    (created_at : Z) : list (string * string) :=
  [("message_id", message_id); ("sequence", py_str sequence);
   ("payload", json_dumps payload); ("created_at", py_str created_at)].

Definition append_to_channel_buffer (channel message_id : string) (sequence : Z)
    (payload : json_object) : proc S unit :=
  let stream_key := RedisKeys.channel_stream channel in
  let! created_at := now in
  redis (XADD stream_key (entry_fields message_id sequence (JObj payload) created_at)
           (Z.to_nat (channel_buffer_max_messages settings))) ;;
  let! now := now in
  let min_id := now - message_retention_seconds settings * 1000 in
  redis (XTRIM_MINID stream_key min_id).

Definition publish_message (channel : string) (payload : json_object) :
    proc S PublishResult :=
  let! message_id := uuid4 in
  let! sequence := allocate_sequence channel in
  append_to_channel_buffer channel message_id sequence payload ;;
  let! t := now in
  let frame := MessageF {| mf_message_id := message_id; mf_channel := channel;
                           mf_sequence := sequence; mf_timestamp := utc_timestamp t;
                           mf_payload := payload |} in
  let envelope := dump frame in
  redis (PUBLISH (RedisKeys.pubsub_channel channel) envelope) ;;
  Ret {| pr_message_id := message_id; pr_sequence := sequence |}.

End Publish.

(** ** The abstract channel *)

(** A retained message, as [replay_channel] parses it. *)
Record Buffered := mkBuffered {
  b_message_id : string;
  b_sequence : Z;
  b_payload : json;
  b_created_at : Z
}.

Record channel_view := mkView {
  cv_last : Z;                 (* the last sequence number given out *)
  cv_retained : list Buffered  (* oldest first *)
}.

(** The retained messages carry consecutive numbers ending at the last one. *)
Definition contiguous (cv : channel_view) : Prop :=
  forall i b, cv_retained cv !! i = Some b ->
    b_sequence b = cv_last cv - Z.of_nat (length (cv_retained cv)) + 1 + Z.of_nat i.

(** Publication on the abstract channel: the message gets the next number and
    is appended; the bound and the age limit may evict the oldest ones. *)
Definition publishes (max : nat) (cv : channel_view) (b : Buffered)
    (cv' : channel_view) : Prop :=
  b_sequence b = cv_last cv + 1 /\ cv_last cv' = cv_last cv + 1 /\
  exists k, cv_retained cv' = drop k (keep_last max (cv_retained cv ++ [b])).

Section Represents.
Context {Rd : Redis} {Jt : JsonText}.

Definition buffered_fields (b : Buffered) : list (string * string) :=
  entry_fields (b_message_id b) (b_sequence b) (b_payload b) (b_created_at b).

(** From [t] on, key [k] has no deadline and reads as it does now. *)
Definition persistent (d : db) (t : Z) (k : string) : Prop :=
  forall u, t <= u -> sees d u k = sees d t k.

(** From [t] on, Redis holds the abstract channel [cv]. *)
Definition represents (d : db) (t : Z) (channel : string) (cv : channel_view) : Prop :=
  persistent d t (RedisKeys.channel_sequence channel) /\
  as_counter (sees d t (RedisKeys.channel_sequence channel)) = Some (cv_last cv) /\
  persistent d t (RedisKeys.channel_stream channel) /\
  exists es, as_stream (sees d t (RedisKeys.channel_stream channel)) = Some es /\
    Forall2 (fun (x : stream_entry) b => x.2 = buffered_fields b) es (cv_retained cv).

End Represents.

(** ** Abstract facts *)

Lemma keep_last_length {A} (n : nat) (l : list A) : (length (keep_last n l) <= n)%nat.
Proof. unfold keep_last. rewrite length_drop. lia. Qed.

Lemma keep_last_map {A B} (f : A -> B) (n : nat) (l : list A) :
  map f (keep_last n l) = keep_last n (map f l).
Proof. unfold keep_last. by rewrite length_map, <- fmap_drop. Qed.

Lemma contiguous_drop (k : nat) (last : Z) (l : list Buffered) :
  contiguous (mkView last l) -> contiguous (mkView last (drop k l)).
Proof.
  intros H i b Hi. cbn in *. rewrite lookup_drop in Hi. pose proof (H _ _ Hi) as Hb.
  cbn in Hb. apply lookup_lt_Some in Hi. rewrite length_drop. lia.
Qed.

Lemma contiguous_snoc (last : Z) (l : list Buffered) (b : Buffered) :
  contiguous (mkView last l) -> b_sequence b = last + 1 ->
  contiguous (mkView (last + 1) (l ++ [b])).
Proof.
  intros H Hb i x Hi. cbn in *. rewrite length_app. cbn.
  apply lookup_app_Some in Hi as [Hi|[Hle Hi]].
  - rewrite (H _ _ Hi). cbn. lia.
  - apply list_lookup_singleton_Some in Hi as [Hi <-]. lia.
Qed.

(** Publication keeps the retained numbers consecutive, whatever is evicted. *)
Lemma publishes_contiguous (max : nat) (cv cv' : channel_view) (b : Buffered) :
  contiguous cv -> publishes max cv b cv' -> contiguous cv'.
Proof.
  destruct cv as [last l], cv' as [last' l']. intros Hc (Hb & Hl & k & Hr). cbn in *.
  subst last' l'. unfold keep_last. rewrite drop_drop.
  by apply contiguous_drop, contiguous_snoc.
Qed.

Lemma publishes_bounded (max : nat) (cv cv' : channel_view) (b : Buffered) :
  publishes max cv b cv' -> (length (cv_retained cv') <= max)%nat.
Proof.
  intros (_ & _ & k & ->). rewrite length_drop.
  pose proof (keep_last_length max (cv_retained cv ++ [b])). lia.
Qed.

Lemma Forall2_keep_last {A B} (P : A -> B -> Prop) (n : nat) (l : list A) (k : list B) :
  Forall2 P l k -> Forall2 P (keep_last n l) (keep_last n k).
Proof.
  intros H. unfold keep_last. rewrite (Forall2_length _ _ _ H). by apply Forall2_drop.
Qed.

(** ** Refinement *)
Section PublishRun.
Context {Rd : Redis} {Rl : RedisLaws} {Jt : JsonText} {Py : Pydantic} {S : Type}.
Variable settings : Settings.
Variable e : env.
Hypothesis Hrel : reliable e.
Hypothesis Hmono : mono_clock e.

Lemma persistent_later (d : db) (t u : Z) (k : string) :
  t <= u -> persistent d t k -> persistent d u k.
Proof. intros Htu H v Hv. rewrite (H v), (H u) by lia. done. Qed.

Lemma changes_persistent (t : Z) (d d' : db) (k : string) (v : rval) :
  changes t d d' k (keep_ttl t d k v) -> persistent d t k ->
  persistent d' t k /\ sees d' t k = Some v.
Proof.
  intros Hch Hp. rewrite (changes_at _ _ _ _ _ _ Hch), keep_ttl_now by lia.
  split; [|done]. intros u Hu. rewrite !(changes_at _ _ _ _ _ _ Hch) by lia.
  unfold keep_ttl. rewrite (Hp u Hu). by destruct (sees d t k).
Qed.

Lemma unchanged_persistent (t : Z) (d d' : db) (k : string) :
  (forall u, t <= u -> sees d' u k = sees d u k) -> persistent d t k ->
  persistent d' t k /\ sees d' t k = sees d t k.
Proof.
  intros H Hp. split; [|by apply H]. intros u Hu. by rewrite !H, Hp by lia.
Qed.

Lemma represents_later (d : db) (t u : Z) (ch : string) (cv : channel_view) :
  t <= u -> represents d t ch cv -> represents d u ch cv.
Proof.
  intros Htu (Hp & Hc & Hp' & es & Hs & Hf). split_and!.
  - by eapply persistent_later.
  - by rewrite Hp.
  - by eapply persistent_later.
  - exists es. by rewrite Hp'.
Qed.

Lemma represents_same (d d' : db) (t : Z) (ch : string) (cv : channel_view) :
  (forall u k, t <= u -> sees d' u k = sees d u k) ->
  represents d t ch cv -> represents d' t ch cv.
Proof.
  intros H (Hp & Hc & Hp' & es & Hs & Hf).
  destruct (unchanged_persistent t d d' (RedisKeys.channel_sequence ch)) as [? E1]; [auto..|].
  destruct (unchanged_persistent t d d' (RedisKeys.channel_stream ch)) as [? E2]; [auto..|].
  unfold represents. rewrite E1, E2. eauto 10.
Qed.

(** The channel depends on its two keys only. *)
Lemma represents_frame (d d' : db) (t : Z) (ch : string) (cv : channel_view) :
  represents d t ch cv ->
  (forall k u, k = RedisKeys.channel_sequence ch \/ k = RedisKeys.channel_stream ch -> t <= u ->
     sees d' u k = sees d u k) ->
  represents d' t ch cv.
Proof.
  intros (Hp & Hc & Hp' & es & Hs & Hf) H. unfold represents, persistent in *. split_and!.
  - intros u Hu. rewrite !H by (auto; lia). by apply Hp.
  - rewrite H by (auto; lia). done.
  - intros u Hu. rewrite !H by (auto; lia). by apply Hp'.
  - exists es. rewrite H by (auto; lia). done.
Qed.

(** Only the two keys of the channel change. *)
Definition elsewhere (ch : string) (t : Z) (d d' : db) : Prop :=
  forall k u, k <> RedisKeys.channel_sequence ch -> k <> RedisKeys.channel_stream ch -> t <= u ->
    sees d' u k = sees d u k.

Lemma elsewhere_trans (ch : string) (t t' : Z) (d1 d2 d3 : db) :
  t <= t' -> elsewhere ch t d1 d2 -> elsewhere ch t' d2 d3 -> elsewhere ch t' d1 d3.
Proof. intros Ht H1 H2 k u Hk Hk' Hu. rewrite H2, H1; (done || lia). Qed.

Lemma elsewhere_changes (ch k : string) (t : Z) (d d' : db) f :
  changes t d d' k f -> k = RedisKeys.channel_sequence ch \/ k = RedisKeys.channel_stream ch ->
  elsewhere ch t d d'.
Proof.
  intros Hch Hk k' u H1 H2 Hu. apply (changes_frame _ _ _ _ _ _ _ Hch Hu).
  by destruct Hk as [-> | ->].
Qed.

Lemma elsewhere_same (ch : string) (t : Z) (d d' : db) :
  (forall u k, t <= u -> sees d' u k = sees d u k) -> elsewhere ch t d d'.
Proof. intros H k u _ _ Hu. auto. Qed.

Lemma incr_step (d d' : db) (t : Z) (ch : string) (cv : channel_view) r :
  rexec (INCR (RedisKeys.channel_sequence ch)) t d = (r, d') ->
  represents d t ch cv -> cv_last cv < int64_max ->
  r = inr (cv_last cv + 1) /\ plog d' = plog d /\ elsewhere ch t d d' /\
  represents d' t ch (mkView (cv_last cv + 1) (cv_retained cv)).
Proof.
  intros E (Hp & Hc & Hp' & es & Hs & Hf) Hmax.
  apply (law_incr _ (cv_last cv)) in E as [-> Hch]; [|done..].
  split; [done|]. split; [by apply changes_plog in Hch|].
  split; [by eapply elsewhere_changes; [|left]|].
  destruct (changes_persistent _ _ _ _ _ Hch Hp) as [Hp1 Hs1].
  destruct (unchanged_persistent t d d' (RedisKeys.channel_stream ch)) as [Hp2 Hs2]; [|done|].
  { intros u Hu. apply (changes_frame _ _ _ _ _ _ _ Hch Hu), stream_sequence_neq. }
  unfold represents. rewrite Hs1, Hs2. cbn. rewrite py_int_str. eauto 10.
Qed.

Lemma xadd_step (d d' : db) (t : Z) (ch : string) (cv : channel_view) (b : Buffered)
    (n : nat) r :
  rexec (XADD (RedisKeys.channel_stream ch) (buffered_fields b) n) t d = (r, d') ->
  represents d t ch cv ->
  (exists id, r = inr id) /\ plog d' = plog d /\ elsewhere ch t d d' /\
  represents d' t ch (mkView (cv_last cv) (keep_last n (cv_retained cv ++ [b]))).
Proof.
  intros E (Hp & Hc & Hp' & es & Hs & Hf).
  apply (law_xadd _ _ _ es) in E as (id & -> & _ & Hch); [|done].
  split; [by eexists|]. split; [by apply changes_plog in Hch|].
  split; [by eapply elsewhere_changes; [|right]|].
  destruct (changes_persistent _ _ _ _ _ Hch Hp') as [Hp1 Hs1].
  destruct (unchanged_persistent t d d' (RedisKeys.channel_sequence ch)) as [Hp2 Hs2]; [|done|].
  { intros u Hu. apply (changes_frame _ _ _ _ _ _ _ Hch Hu). symmetry.
    apply stream_sequence_neq. }
  unfold represents. rewrite Hs1, Hs2. split_and!; [done..|]. eexists; split; [done|].
  cbn. apply Forall2_keep_last, Forall2_app; [done|]. by repeat constructor.
Qed.

Lemma xtrim_step (d d' : db) (t : Z) (ch : string) (cv : channel_view) (m : Z) r :
  rexec (XTRIM_MINID (RedisKeys.channel_stream ch) m) t d = (r, d') ->
  represents d t ch cv ->
  r = inr tt /\ plog d' = plog d /\ elsewhere ch t d d' /\
  exists k, represents d' t ch (mkView (cv_last cv) (drop k (cv_retained cv))).
Proof.
  intros E (Hp & Hc & Hp' & es & Hs & Hf).
  destruct (sees d t (RedisKeys.channel_stream ch)) as [[| | |l]|] eqn:Es;
    try discriminate Hs; simplify_eq/=.
  - apply (law_xtrim _ _ es) in E as (tr & rest & -> & -> & _ & Hch); [|done].
    split; [done|]. split; [by apply changes_plog in Hch|].
    split; [by eapply elsewhere_changes; [|right]|].
    destruct (changes_persistent _ _ _ _ _ Hch Hp') as [Hp1 Hs1].
    destruct (unchanged_persistent t d d' (RedisKeys.channel_sequence ch)) as [Hp2 Hs2];
      [|done|].
    { intros u Hu. apply (changes_frame _ _ _ _ _ _ _ Hch Hu). symmetry.
      apply stream_sequence_neq. }
    exists (length tr). unfold represents. rewrite Hs1, Hs2. split_and!; [done..|].
    eexists; split; [done|]. cbn.
    by apply (Forall2_drop _ (tr ++ rest) _ (length tr)) in Hf; rewrite drop_app_length in Hf.
  - apply law_xtrim_missing in E as [-> [Hsame Hlog]]; [|done].
    split; [done|]. split; [done|]. split; [by apply elsewhere_same; auto|].
    exists 0%nat. rewrite drop_0.
    apply (represents_same d); [auto|]. unfold represents. rewrite Es. eauto 10.
Qed.

Lemma publish_run_frame (w : world S) (ch : string) (payload : json_object) (cv : channel_view) :
  let n := w_tick w in
  let mid := uuid e n in
  let b := mkBuffered mid (cv_last cv + 1) (JObj payload) (clock e (2 + n)) in
  represents (w_db w) (clock e (1 + n)) ch cv -> cv_last cv < int64_max ->
  exists d' cv', run e (publish_message settings ch payload) w
      = (inr (mkPublishResult mid (cv_last cv + 1)),
         mkWorld (8 + n) d' (w_state w) (w_out w)) /\
    publishes (Z.to_nat (channel_buffer_max_messages settings)) cv b cv' /\
    represents d' (clock e (7 + n)) ch cv' /\
    plog d' = plog (w_db w) ++ [(RedisKeys.pubsub_channel ch,
      dump (MessageF (mkMessageFrame mid ch (cv_last cv + 1)
                        (utc_timestamp (clock e (6 + n))) payload)))] /\
    elsewhere ch (clock e (7 + n)) (w_db w) d'.
Proof.
  intros n mid b Hrep Hmax.
  assert (Hle : forall i j : nat, (i <= j)%nat -> clock e (i + n) <= clock e (j + n)).
  { intros i j Hij. apply Hmono. lia. }
  unfold publish_message, allocate_sequence, append_to_channel_buffer.
  run_step Hrel. run_step Hrel.
  destruct (incr_step _ _ _ _ cv _ E Hrep Hmax) as (-> & Hlog1 & He1 & Hrep1).
  rewrite run_bind. run_step Hrel. run_step Hrel.
  destruct (xadd_step _ _ _ _ _ b _ _ E0
    (represents_later _ _ _ _ _ (Hle 1%nat 3%nat ltac:(lia)) Hrep1))
    as ([id ->] & Hlog2 & He2 & Hrep2).
  run_step Hrel. rewrite run_redis by apply Hrel. cbn [w_tick w_db tick set_db].
  destruct (rexec _ _ d0) as [r2 d2] eqn:E2.
  destruct (xtrim_step _ _ _ _ _ _ _ E2
    (represents_later _ _ _ _ _ (Hle 3%nat 5%nat ltac:(lia)) Hrep2))
    as (-> & Hlog3 & He3 & k & Hrep3).
  cbn [of_reply]. run_step Hrel. run_step Hrel.
  apply law_publish in E1 as (-> & Hlog4 & Hsame).
  eexists _, (mkView (cv_last cv + 1) (drop k (keep_last
    (Z.to_nat (channel_buffer_max_messages settings)) (cv_retained cv ++ [b])))).
  split; [done|]. split; [split; [done|split; [done|by exists k]]|].
  split; [|split; [by rewrite Hlog4, Hlog3, Hlog2, Hlog1|]].
  - apply (represents_same d2); [done|].
    apply (represents_later _ _ _ _ _ (Hle 5%nat 7%nat ltac:(lia)) Hrep3).
  - pose proof (elsewhere_trans _ _ _ _ _ _ (Hle 1%nat 3%nat ltac:(lia)) He1 He2) as He.
    pose proof (elsewhere_trans _ _ _ _ _ _ (Hle 3%nat 5%nat ltac:(lia)) He He3) as He'.
    eapply elsewhere_trans; [apply (Hle 5%nat 7%nat); lia|exact He'|by apply elsewhere_same].
Qed.

Lemma publish_run (w : world S) (ch : string) (payload : json_object) (cv : channel_view) :
  let n := w_tick w in
  let mid := uuid e n in
  let b := mkBuffered mid (cv_last cv + 1) (JObj payload) (clock e (2 + n)) in
  represents (w_db w) (clock e (1 + n)) ch cv -> cv_last cv < int64_max ->
  exists d' cv', run e (publish_message settings ch payload) w
      = (inr (mkPublishResult mid (cv_last cv + 1)),
         mkWorld (8 + n) d' (w_state w) (w_out w)) /\
    publishes (Z.to_nat (channel_buffer_max_messages settings)) cv b cv' /\
    represents d' (clock e (7 + n)) ch cv' /\
    plog d' = plog (w_db w) ++ [(RedisKeys.pubsub_channel ch,
      dump (MessageF (mkMessageFrame mid ch (cv_last cv + 1)
                        (utc_timestamp (clock e (6 + n))) payload)))].
Proof.
  intros n mid b Hrep Hmax.
  destruct (publish_run_frame w ch payload cv Hrep Hmax) as (d' & cv' & H1 & H2 & H3 & H4 & _).
  by exists d', cv'.
Qed.

End PublishRun.
