(* ===== verification/Replay.v ===== *)
(** * Replay of a channel's recovery buffer ([apps/gateway/recovery/replay.py])

    [replay_channel] reads the whole stream, parses and sorts it, and splits it
    at the client's last acknowledged sequence. *)
From Stdlib Require Import ZArith Lia.
From stdpp Require Import base gmap strings list sorting.
From S2P Require Import Prelude Config Frames Keys RedisApi Async RefRedis Samples Publisher.

Record ReplayResult := mkReplayResult {
  rr_messages : list Buffered;
  rr_gap : bool
}.

(** [fields[k]] of the dict redis-py builds from the field pairs. *)
Fixpoint field (k : string) (fields : list (string * string)) : option string :=
  match fields with
  | [] => None
  | (k', v) :: l =>
      match field k l with
      | Some v' => Some v'
      | None => if String.eqb k k' then Some v else None
      end
  end.

(** [list.sort] is stable: insertion from the right, before the first larger key. *)
Fixpoint insert_by_sequence (m : Buffered) (l : list Buffered) : list Buffered :=
  match l with
  | [] => [m]
  | x :: l' => if b_sequence m <=? b_sequence x then m :: l
               else x :: insert_by_sequence m l'
  end.
Definition sort_by_sequence (l : list Buffered) : list Buffered :=
  foldr insert_by_sequence [] l.

Section Replay.
Context {Jt : JsonText} {S : Type}.

(** One entry; [None] when a field is missing or does not parse. *)
Definition parse_entry (entry : stream_entry) : option Buffered :=
  let fields := entry.2 in
  message_id ← field "message_id" fields;
  sequence ← field "sequence" fields ≫= py_int;
  payload ← field "payload" fields ≫= json_loads;
  created_at ← field "created_at" fields ≫= py_int;
  Some (mkBuffered message_id sequence payload created_at).

Definition parse_entries (entries : list stream_entry) : proc S (list Buffered) :=
  match mapM parse_entry entries with
  | Some l => Ret l
  | None => Throw (OtherError "malformed stream entry")
  end.

Definition replay_channel (channel : string) (last_ack_sequence : Z) :
    proc S ReplayResult :=
  let stream_key := RedisKeys.channel_stream channel in
  let! entries := redis (XRANGE_ALL stream_key) in
  match entries with
  | [] => Ret {| rr_messages := []; rr_gap := false |}
  | _ =>
    let! parsed := parse_entries entries in
    let parsed := sort_by_sequence parsed in
    let oldest_available :=
      match parsed with [] => 0 | m :: _ => b_sequence m end in
    let gap := (last_ack_sequence + 1 <? oldest_available) &&
               negb (last_ack_sequence =? 0) in
    let to_replay := filter (fun m => last_ack_sequence < b_sequence m) parsed in
    Ret {| rr_messages := to_replay; rr_gap := gap |}
  end.

End Replay.

(** ** Sorting *)
Definition le_seq (a b : Buffered) : Prop := b_sequence a <= b_sequence b.

Lemma insert_by_sequence_perm (m : Buffered) (l : list Buffered) :
  Permutation (insert_by_sequence m l) (m :: l).
Proof.
  induction l as [|x l IH]; cbn; [done|]. case_match; [done|].
  rewrite IH. constructor.
Qed.

Lemma sort_by_sequence_perm (l : list Buffered) : Permutation (sort_by_sequence l) l.
Proof.
  unfold sort_by_sequence. induction l as [|m l IH]; cbn; [done|].
  by rewrite insert_by_sequence_perm, IH.
Qed.

Lemma insert_by_sequence_sorted (m : Buffered) (l : list Buffered) :
  Sorted le_seq l -> Sorted le_seq (insert_by_sequence m l).
Proof.
  induction 1 as [|x l Hs IH Hhd]; cbn; [by repeat constructor|].
  destruct (Z.leb_spec (b_sequence m) (b_sequence x)).
  - by repeat constructor.
  - constructor; [done|]. destruct l as [|y l]; cbn; [constructor; unfold le_seq; lia|].
    apply HdRel_inv in Hhd. case_match; constructor; unfold le_seq in *; lia.
Qed.

Lemma sort_by_sequence_sorted (l : list Buffered) : Sorted le_seq (sort_by_sequence l).
Proof.
  unfold sort_by_sequence. induction l; cbn; [constructor|].
  by apply insert_by_sequence_sorted.
Qed.

Lemma insert_by_sequence_head (m : Buffered) (l : list Buffered) :
  (forall x, x ∈ l -> b_sequence m <= b_sequence x) -> insert_by_sequence m l = m :: l.
Proof.
  destruct l as [|x l]; cbn; [done|]. intros H. specialize (H x ltac:(set_solver)).
  destruct (Z.leb_spec (b_sequence m) (b_sequence x)); [done|lia].
Qed.

(** A buffer filled in order is left as it is. *)
Lemma sort_by_sequence_id (l : list Buffered) :
  StronglySorted le_seq l -> sort_by_sequence l = l.
Proof.
  unfold sort_by_sequence. induction 1 as [|m l Hs IH Hall]; cbn; [done|].
  rewrite IH. apply insert_by_sequence_head. by apply Forall_forall.
Qed.

(** ** Selecting what to replay *)

(** The result [replay_channel] computes from the parsed buffer. *)
Definition replay_result (last : Z) (l : list Buffered) : ReplayResult :=
  match sort_by_sequence l with
  | [] => mkReplayResult [] false
  | m :: l' => mkReplayResult (filter (fun m => last < b_sequence m) (m :: l'))
                 ((last + 1 <? b_sequence m) && negb (last =? 0))
  end.

Lemma sort_by_sequence_nil_iff (l : list Buffered) : sort_by_sequence l = [] <-> l = [].
Proof.
  split; [|by intros ->]. intros H. pose proof (sort_by_sequence_perm l) as Hp.
  rewrite H in Hp. by apply Permutation_nil_l in Hp.
Qed.

Lemma contiguous_StronglySorted (cv : channel_view) :
  contiguous cv -> StronglySorted le_seq (cv_retained cv).
Proof.
  destruct cv as [last l]. cbn. induction l as [|b l IH]; intros Hc; constructor.
  - apply IH. exact (contiguous_drop 1 last (b :: l) Hc).
  - apply Forall_forall. intros x [i Hi]%list_elem_of_lookup.
    pose proof (Hc 0%nat b eq_refl) as Hb. pose proof (Hc (Datatypes.S i) x Hi) as Hx.
    unfold le_seq. lia.
Qed.

Lemma StronglySorted_select {A} (R : A -> A -> Prop) (P : A -> Prop)
    {Pd : forall x, Decision (P x)} (l : list A) :
  StronglySorted R l -> StronglySorted R (filter P l).
Proof.
  induction 1 as [|x l Hs IH Hall]; [constructor|].
  rewrite filter_cons. case_decide; [|done]. constructor; [done|].
  rewrite Forall_forall in Hall |- *. intros y Hy%list_elem_of_filter. apply Hall. naive_solver.
Qed.

(** What is newer than [last] in a contiguous buffer that reaches back to
    [last + 1] are all the numbers from there to the newest. *)
Lemma contiguous_newer (cv : channel_view) (last : Z) :
  contiguous cv ->
  cv_last cv - Z.of_nat (length (cv_retained cv)) <= last <= cv_last cv ->
  map b_sequence (filter (fun m => last < b_sequence m) (cv_retained cv))
  = seqZ (last + 1) (cv_last cv - last).
Proof.
  destruct cv as [n l]. cbn. intros Hc [Hlo Hhi].
  set (k := Z.to_nat (last - (n - Z.of_nat (length l)))).
  assert (Hk : (k <= length l)%nat) by lia.
  rewrite <- (take_drop k l), filter_app.
  rewrite filter_none, filter_all.
  - apply list_eq. intros i.
    change (map b_sequence ([] ++ drop k l)) with (b_sequence <$> drop k l).
    rewrite list_lookup_fmap, lookup_drop.
    destruct (l !! (k + i)%nat) as [b|] eqn:Hb.
    + cbn. pose proof (Hc _ _ Hb) as Hs. cbn in Hs. apply lookup_lt_Some in Hb.
      symmetry. apply lookup_seqZ. lia.
    + apply lookup_ge_None in Hb. cbn. symmetry. apply lookup_seqZ_ge. lia.
  - intros x [i Hi]%list_elem_of_lookup. rewrite lookup_drop in Hi.
    pose proof (Hc _ _ Hi) as Hs. cbn in Hs. lia.
  - intros x [i Hi]%list_elem_of_lookup. apply lookup_take_Some in Hi as [Hi ?].
    pose proof (Hc _ _ Hi) as Hs. cbn in Hs. lia.
Qed.

Lemma replay_result_complete (cv : channel_view) (last : Z) :
  contiguous cv -> 0 < last <= cv_last cv -> cv_retained cv <> [] ->
  rr_gap (replay_result last (cv_retained cv)) = false ->
  map b_sequence (rr_messages (replay_result last (cv_retained cv)))
  = seqZ (last + 1) (cv_last cv - last).
Proof.
  intros Hc Hlast Hne Hgap. unfold replay_result in *.
  rewrite sort_by_sequence_id in * by by apply contiguous_StronglySorted.
  destruct (cv_retained cv) as [|m l] eqn:E; [done|]. cbn [rr_gap rr_messages] in *.
  rewrite <- E. apply contiguous_newer; [done|]. split; [|lia].
  assert (H0 : cv_retained cv !! 0%nat = Some m) by by rewrite E.
  pose proof (Hc 0%nat m H0) as Hm. rewrite andb_false_iff, negb_false_iff in Hgap. lia.
Qed.

Section ReplayRun.
Context {Rd : Redis} {Rl : RedisLaws} {Jt : JsonText} {Py : Pydantic} {S : Type}.
Variable settings : Settings.
Variable e : env.
Hypothesis Hrel : reliable e.
Hypothesis Hmono : mono_clock e.

(** The payload survives [json.dumps] and [json.loads]. *)
Definition readable (b : Buffered) : Prop :=
  json_loads (json_dumps (b_payload b)) = Some (b_payload b).

Lemma parse_entry_fields (x : stream_entry) (b : Buffered) :
  x.2 = buffered_fields b -> readable b -> parse_entry x = Some b.
Proof.
  intros Hx Hb. unfold parse_entry. rewrite Hx. unfold buffered_fields, entry_fields. cbn.
  rewrite !py_int_str, Hb. by destruct b.
Qed.

Lemma parse_all (es : list stream_entry) (l : list Buffered) :
  Forall2 (fun (x : stream_entry) b => x.2 = buffered_fields b) es l -> Forall readable l ->
  mapM parse_entry es = Some l.
Proof.
  intros Hf Hr. apply mapM_Some. induction Hf as [|x b es l Hx Hf IH]; [constructor|].
  apply Forall_cons in Hr as [Hb Hr]. constructor; [by apply parse_entry_fields|auto].
Qed.

Lemma replay_run (w : world S) (ch : string) (last : Z) (cv : channel_view) :
  represents (w_db w) (clock e (w_tick w)) ch cv -> Forall readable (cv_retained cv) ->
  exists d', run e (replay_channel ch last) w
    = (inr (replay_result last (cv_retained cv)), set_db w d') /\
    same (clock e (w_tick w)) (w_db w) d'.
Proof.
  intros (_ & _ & _ & es & Hs & Hf) Hr. unfold replay_channel. run_step Hrel.
  apply law_xrange in E as [Hsame ->]. rewrite Hs. exists d. split; [|done].
  unfold replay_result. destruct es as [|x es].
  { apply Forall2_nil_inv_l in Hf as ->. done. }
  unfold parse_entries. rewrite (parse_all _ _ Hf Hr). cbn [bind run].
  destruct (sort_by_sequence (cv_retained cv)) as [|m l] eqn:E; [|done].
  rewrite (proj1 (sort_by_sequence_nil_iff _) E) in Hf. inversion Hf.
Qed.

(** Messages published one after the other. *)
Definition publish_all (ch : string) (ps : list json_object) : proc S unit :=
  for_each ps (fun p => publish_message settings ch p ;; Ret tt).

(** The messages of [ps] with consecutive numbers after [n]. *)
Definition numbered (n : Z) (ps : list json_object) (bs : list Buffered) : Prop :=
  map b_payload bs = map JObj ps /\
  forall i b, bs !! i = Some b -> b_sequence b = n + 1 + Z.of_nat i.

Lemma numbered_cons (n : Z) (p : json_object) (ps : list json_object) (b : Buffered)
    (bs : list Buffered) :
  b_payload b = JObj p -> b_sequence b = n + 1 -> numbered (n + 1) ps bs ->
  numbered n (p :: ps) (b :: bs).
Proof.
  intros Hp Hs [Hps Hnum]. split; [cbn; congruence|].
  intros [|i] x Hx; cbn in Hx; [simplify_eq; lia|]. rewrite (Hnum i x Hx). lia.
Qed.

Lemma drop_app_suffix {A} (k : nat) (l l' : list A) :
  exists j, drop k l ++ l' = drop j (l ++ l').
Proof.
  exists (k `min` length l)%nat. rewrite drop_app.
  replace (k `min` length l - length l)%nat with 0%nat by lia. rewrite drop_0. f_equal.
  destruct (Nat.min_spec k (length l)) as [[_ ->]|[Hle ->]]; [done|].
  by rewrite !drop_ge by lia.
Qed.

(** After the publications the buffer is a suffix of what it held before,
    followed by the new messages. *)
Lemma publish_all_run (ps : list json_object) (w : world S) (ch : string)
    (cv : channel_view) :
  represents (w_db w) (clock e (w_tick w)) ch cv -> contiguous cv ->
  cv_last cv + Z.of_nat (length ps) <= int64_max ->
  exists w' cv' bs k, run e (publish_all ch ps) w = (inr tt, w') /\
    represents (w_db w') (clock e (w_tick w')) ch cv' /\ contiguous cv' /\
    cv_last cv' = cv_last cv + Z.of_nat (length ps) /\
    numbered (cv_last cv) ps bs /\ cv_retained cv' = drop k (cv_retained cv ++ bs).
Proof.
  revert w cv. induction ps as [|p ps IH]; intros w cv Hrep Hc Hmax; cbn [length] in Hmax.
  { exists w, cv, [], 0%nat. rewrite app_nil_r, drop_0. split_and!; try done. cbn. lia. }
  assert (Ht : forall i j : nat, (i <= j)%nat ->
    clock e (i + w_tick w) <= clock e (j + w_tick w)) by (intros; apply Hmono; lia).
  destruct (publish_run settings e Hrel Hmono w ch p cv) as (d1 & cv1 & Hrun & Hpub & Hrep1 & _);
    [apply (represents_later _ _ _ _ _ (Ht 0%nat 1%nat ltac:(lia)) Hrep)|lia|].
  set (b := mkBuffered _ _ _ _) in Hpub. pose proof Hpub as (Hb & Hlast & k1 & Hret).
  destruct (IH (mkWorld (8 + w_tick w) d1 (w_state w) (w_out w)) cv1)
    as (w' & cv' & bs & k & Hrun' & Hrep' & Hc' & Hlast' & Hnum & Hret').
  - apply (represents_later _ _ _ _ _ (Ht 7%nat 8%nat ltac:(lia)) Hrep1).
  - by eapply publishes_contiguous.
  - lia.
  - unfold keep_last in Hret. rewrite drop_drop in Hret. rewrite Hret in Hret'.
    destruct (drop_app_suffix (length (cv_retained cv ++ [b])
      - Z.to_nat (channel_buffer_max_messages settings) + k1) (cv_retained cv ++ [b]) bs)
      as [j Hj].
    rewrite Hj, <- app_assoc, drop_drop in Hret'. cbn [app] in Hret'.
    exists w', cv', (b :: bs), (j + k)%nat. split_and!; try done.
    + unfold publish_all; cbn [for_each]. rewrite run_bind, run_bind, Hrun. exact Hrun'.
    + cbn [length]. lia.
    + apply numbered_cons; [done|done|]. by rewrite <- Hlast.
Qed.

End ReplayRun.

Lemma newer_than_old_buffer (cv : channel_view) (ps : list json_object)
    (bs : list Buffered) (k : nat) :
  contiguous cv -> numbered (cv_last cv) ps bs ->
  filter (fun m => cv_last cv < b_sequence m) (drop k (cv_retained cv ++ bs))
  = drop (k - length (cv_retained cv)) bs.
Proof.
  intros Hc [_ Hnum]. rewrite drop_app, filter_app. rewrite filter_none, filter_all; [done|..].
  - intros x [i Hi]%list_elem_of_lookup. rewrite lookup_drop in Hi.
    rewrite (Hnum _ _ Hi). lia.
  - intros x [i Hi]%list_elem_of_lookup. rewrite lookup_drop in Hi.
    rewrite (Hc _ _ Hi). apply lookup_lt_Some in Hi. lia.
Qed.

(** ** Properties *)

(** C5.  Publication refines the abstract channel: run alone, [publish_message]
    returns the next sequence number of the channel, leaves the recovery buffer
    holding the message after the ones it retained (of which the oldest may be
    evicted, never more than [channel_buffer_max_messages] stay, and the numbers
    stay consecutive), and publishes exactly one envelope, carrying that number,
    on the channel's topic. *)
Theorem publish_refines {Rd : Redis} {Rl : RedisLaws} {Jt : JsonText} {Py : Pydantic}
    {S : Type} (settings : Settings) (e : env) (w : world S) (ch : string)
    (payload : json_object) (cv : channel_view) :
  reliable e -> mono_clock e ->
  represents (w_db w) (clock e (w_tick w)) ch cv -> contiguous cv ->
  cv_last cv < int64_max ->
  exists w' cv' b ts,
    run e (publish_message settings ch payload) w
      = (inr (mkPublishResult (uuid e (w_tick w)) (cv_last cv + 1)), w') /\
    b_message_id b = uuid e (w_tick w) /\ b_payload b = JObj payload /\
    publishes (Z.to_nat (channel_buffer_max_messages settings)) cv b cv' /\
    contiguous cv' /\
    (length (cv_retained cv') <= Z.to_nat (channel_buffer_max_messages settings))%nat /\
    represents (w_db w') (clock e (w_tick w')) ch cv' /\
    plog (w_db w') = plog (w_db w) ++ [(RedisKeys.pubsub_channel ch,
      dump (MessageF (mkMessageFrame (uuid e (w_tick w)) ch (cv_last cv + 1) ts payload)))].
Proof.
  intros Hrel Hmono Hrep Hc Hmax.
  assert (Ht : forall i j : nat, (i <= j)%nat ->
    clock e (i + w_tick w) <= clock e (j + w_tick w)) by (intros; apply Hmono; lia).
  destruct (publish_run settings e Hrel Hmono w ch payload cv)
    as (d & cv' & Hrun & Hpub & Hrep' & Hlog);
    [apply (represents_later _ _ _ _ _ (Ht 0%nat 1%nat ltac:(lia)) Hrep)|done|].
  eexists _, cv', _, _. split; [exact Hrun|]. split; [|split; [|split; [exact Hpub|]]];
    [done|done|]. split; [by eapply publishes_contiguous|].
  split; [by eapply publishes_bounded|]. split; [|exact Hlog].
  apply (represents_later _ _ _ _ _ (Ht 7%nat 8%nat ltac:(lia)) Hrep').
Qed.

(** C30.  [replay_channel] returns, in ascending order of sequence, exactly the
    retained messages after the client's position, and reports a gap exactly
    when the position is not 0 and the message after it is older than every
    retained one; on an empty buffer it returns nothing and no gap. *)
Theorem replay_channel_exact {Rd : Redis} {Rl : RedisLaws} {Jt : JsonText}
    {S : Type} (e : env) (w : world S) (ch : string) (last : Z) (cv : channel_view) :
  reliable e -> mono_clock e ->
  represents (w_db w) (clock e (w_tick w)) ch cv -> Forall readable (cv_retained cv) ->
  exists rr w', run e (replay_channel ch last) w = (inr rr, w') /\
    same (clock e (w_tick w)) (w_db w) (w_db w') /\
    Sorted le_seq (rr_messages rr) /\
    Permutation (rr_messages rr)
      (filter (fun m => last < b_sequence m) (cv_retained cv)) /\
    (rr_gap rr = true <->
       last <> 0 /\ cv_retained cv <> [] /\
       forall m, m ∈ cv_retained cv -> last + 1 < b_sequence m).
Proof.
  intros Hrel Hmono Hrep Hr.
  destruct (replay_run e Hrel w ch last cv Hrep Hr) as (d & Hrun & Hsame).
  eexists _, _. split; [exact Hrun|]. split; [exact Hsame|].
  unfold replay_result. pose proof (sort_by_sequence_perm (cv_retained cv)) as Hp.
  pose proof (sort_by_sequence_sorted (cv_retained cv)) as Hs.
  destruct (sort_by_sequence (cv_retained cv)) as [|m l] eqn:E; cbn [rr_messages rr_gap].
  - apply (proj1 (sort_by_sequence_nil_iff _)) in E. rewrite E.
    split; [constructor|]. split; [done|]. naive_solver.
  - assert (Hss : StronglySorted le_seq (m :: l)).
    { apply Sorted_StronglySorted; [intros a b c; unfold le_seq; lia|done]. }
    split; [by apply StronglySorted_Sorted, StronglySorted_select|].
    split; [by rewrite Hp|].
    rewrite andb_true_iff, negb_true_iff, Z.ltb_lt, Z.eqb_neq.
    apply StronglySorted_inv in Hss as [_ Hall]. rewrite Forall_forall in Hall. split.
    + intros [Hlt Hz]. split; [done|]. split; [intros Hnil; rewrite Hnil in Hp;
        by apply Permutation_nil_r in Hp|].
      intros x Hx. rewrite <- Hp in Hx. apply elem_of_cons in Hx as [->|Hx]; [done|].
      specialize (Hall x Hx). unfold le_seq in Hall. lia.
    + intros (Hz & _ & Hall'). split; [|done]. apply Hall'. rewrite <- Hp. set_solver.
Qed.

(** No silent loss for a client that has acknowledged something: when the
    buffer holds consecutive numbers up to the last one given out and
    [replay_channel] reports no gap on a non-empty buffer, the replayed
    sequences are all the numbers after the client's position, none missing,
    none twice. *)
Theorem no_gap_no_loss {Rd : Redis} {Rl : RedisLaws} {Jt : JsonText}
    {S : Type} (e : env) (w : world S) (ch : string) (last : Z) (cv : channel_view) :
  reliable e -> mono_clock e ->
  represents (w_db w) (clock e (w_tick w)) ch cv -> Forall readable (cv_retained cv) ->
  contiguous cv -> 0 < last <= cv_last cv -> cv_retained cv <> [] ->
  exists rr w', run e (replay_channel ch last) w = (inr rr, w') /\
    (rr_gap rr = false ->
     map b_sequence (rr_messages rr) = seqZ (last + 1) (cv_last cv - last)).
Proof.
  intros Hrel Hmono Hrep Hr Hc Hlast Hne.
  destruct (replay_run e Hrel w ch last cv Hrep Hr) as (d & Hrun & _).
  eexists _, _. split; [exact Hrun|]. by apply replay_result_complete.
Qed.

(** Resume delivers what was missed: a client that had acknowledged
    everything up to the channel's current number (not 0) and then missed the
    messages [ps] gets, if its resume reports no gap and replays anything,
    exactly those messages, in the order they were published, with their
    sequence numbers. *)
Theorem resume_replays_missed {Rd : Redis} {Rl : RedisLaws} {Jt : JsonText}
    {Py : Pydantic} {S : Type} (settings : Settings) (e : env) (w : world S) (ch : string)
    (ps : list json_object) (cv : channel_view) :
  reliable e -> mono_clock e ->
  represents (w_db w) (clock e (w_tick w)) ch cv -> contiguous cv ->
  Forall readable (cv_retained cv) ->
  (forall p, p ∈ ps -> json_loads (json_dumps (JObj p)) = Some (JObj p)) ->
  0 < cv_last cv -> cv_last cv + Z.of_nat (length ps) <= int64_max ->
  exists rr w',
    run e (publish_all settings ch ps ;; replay_channel ch (cv_last cv)) w = (inr rr, w') /\
    (rr_gap rr = false -> rr_messages rr <> [] ->
     map b_payload (rr_messages rr) = map JObj ps /\
     map b_sequence (rr_messages rr) = seqZ (cv_last cv + 1) (Z.of_nat (length ps))).
Proof.
  intros Hrel Hmono Hrep Hc Hr Hps Hpos Hmax.
  destruct (publish_all_run settings e Hrel Hmono ps w ch cv Hrep Hc Hmax)
    as (w1 & cv' & bs & k & Hrun & Hrep' & Hc' & Hlast & Hnum & Hret).
  assert (Hr' : Forall readable (cv_retained cv')).
  { rewrite Hret. apply Forall_drop, Forall_app. split; [done|].
    apply Forall_forall. intros b Hb.
    assert (Hin : b_payload b ∈ map JObj ps).
    { destruct Hnum as [<- _]. by apply list_elem_of_fmap_2. }
    apply list_elem_of_fmap in Hin as (p & Hp & Hin). unfold readable. rewrite Hp. auto. }
  destruct (replay_run e Hrel w1 ch (cv_last cv) cv' Hrep' Hr') as (d & Hrun' & _).
  eexists _, _. split; [rewrite run_bind, Hrun; exact Hrun'|]. intros Hgap Hne.
  assert (Hret0 : cv_retained cv' <> []).
  { intros H0. apply Hne. unfold replay_result. by rewrite H0. }
  pose proof (replay_result_complete cv' (cv_last cv) Hc' ltac:(lia) Hret0 Hgap) as Hseq.
  replace (cv_last cv' - cv_last cv) with (Z.of_nat (length ps)) in Hseq by lia.
  split; [|exact Hseq].
  assert (Hm : rr_messages (replay_result (cv_last cv) (cv_retained cv'))
               = drop (k - length (cv_retained cv)) bs).
  { unfold replay_result. rewrite sort_by_sequence_id by by apply contiguous_StronglySorted.
    destruct (cv_retained cv') as [|m l] eqn:E; [done|]. cbn [rr_messages].
    rewrite Hret. by eapply newer_than_old_buffer. }
  rewrite Hm in Hseq |- *. destruct Hnum as [Hpay _].
  apply (f_equal length) in Hseq. apply (f_equal length) in Hpay as Hlen.
  rewrite length_map, length_drop, length_seqZ in Hseq. rewrite !length_map in Hlen.
  destruct (decide (length bs = 0%nat)) as [H0|H0].
  - apply nil_length_inv in H0. subst bs. by rewrite drop_nil.
  - replace (k - length (cv_retained cv))%nat with 0%nat by lia. by rewrite drop_0.
Qed.

(** What the gap report does not cover: for a client at position 0, and
    on a channel whose buffer has been emptied, [replay_channel] reports no gap
    however many messages the channel has given numbers to and lost. *)
Theorem gap_not_reported {Rd : Redis} {Rl : RedisLaws} {Jt : JsonText}
    {S : Type} (e : env) (w : world S) (ch : string) (last : Z) (cv : channel_view) :
  reliable e ->
  represents (w_db w) (clock e (w_tick w)) ch cv -> Forall readable (cv_retained cv) ->
  last = 0 \/ cv_retained cv = [] ->
  exists rr w', run e (replay_channel ch last) w = (inr rr, w') /\ rr_gap rr = false /\
    (cv_retained cv = [] -> rr_messages rr = []).
Proof.
  intros Hrel Hrep Hr Hcase.
  destruct (replay_run e Hrel w ch last cv Hrep Hr) as (d & Hrun & _).
  eexists _, _. split; [exact Hrun|]. unfold replay_result.
  destruct Hcase as [->|Hnil]; [|by rewrite Hnil].
  destruct (sort_by_sequence (cv_retained cv)) as [|m l] eqn:E; [done|].
  cbn [rr_gap]. rewrite andb_false_r. split; [done|]. intros H. by rewrite H in E.
Qed.

(** ** Witnesses *)

Lemma sample_represents (t : Z) :
  represents (Rd := Ref.ref_redis) (Jt := sample_json) sample_db t sample_channel (mkView 3 []).
Proof.
  split; [done|]. split; [done|]. split; [done|]. exists []. split; [done|constructor].
Qed.

Lemma empty_contiguous (n : Z) : contiguous (mkView n []).
Proof. by intros i b Hb. Qed.

Lemma publish_refines_witness :
  exists w' cv' b ts,
    run calm (publish_message default_settings sample_channel (payload_n 7))
      (ref_world 0 sample_db tt) = (inr (mkPublishResult "uuid-0" 4), w') /\
    b_message_id b = "uuid-0" /\ b_payload b = JObj (payload_n 7) /\
    publishes 1000 (mkView 3 []) b cv' /\ contiguous cv' /\
    (length (cv_retained cv') <= 1000)%nat /\
    represents (w_db w') (clock calm (w_tick w')) sample_channel cv' /\
    plog (w_db w') = [(RedisKeys.pubsub_channel sample_channel,
      dump (MessageF (mkMessageFrame "uuid-0" sample_channel 4 ts (payload_n 7))))].
Proof.
  exact (publish_refines default_settings calm (ref_world 0 sample_db tt) sample_channel
           (payload_n 7) (mkView 3 []) calm_reliable calm_mono (sample_represents 0)
           (empty_contiguous 3) eq_refl).
Defined.

(** Two retained messages, numbers 4 and 5. *)
Definition sample_buffer : list Buffered :=
  [mkBuffered "m4" 4 (JObj (payload_n 40)) 0; mkBuffered "m5" 5 (JObj (payload_n 50)) 0].

Definition sample_db2 : Ref.rdb := {|
  Ref.keys := {[
    RedisKeys.channel_sequence sample_channel := (VStr "5", None);
    RedisKeys.channel_stream sample_channel :=
      (VStream [((0, 0), buffered_fields (mkBuffered "m4" 4 (JObj (payload_n 40)) 0));
                ((0, 1), buffered_fields (mkBuffered "m5" 5 (JObj (payload_n 50)) 0))], None)
  ]};
  Ref.log := []
|}.

Lemma sample_represents2 (t : Z) :
  represents (Rd := Ref.ref_redis) sample_db2 t sample_channel (mkView 5 sample_buffer).
Proof.
  split; [done|]. split; [done|]. split; [done|].
  eexists. split; [reflexivity|]. by repeat constructor.
Qed.

Lemma sample_buffer_readable : Forall readable sample_buffer.
Proof. by repeat constructor. Qed.

Lemma sample_buffer_contiguous : contiguous (mkView 5 sample_buffer).
Proof. intros [|[|i]] b Hb; cbn in *; by simplify_eq. Qed.

Lemma replay_channel_exact_witness :
  exists rr w', run calm (replay_channel sample_channel 2) (ref_world 0 sample_db2 tt)
                = (inr rr, w') /\ rr_gap rr = true.
Proof.
  destruct (replay_channel_exact calm (ref_world 0 sample_db2 tt) sample_channel 2
    (mkView 5 sample_buffer) calm_reliable calm_mono (sample_represents2 0)
    sample_buffer_readable) as (rr & w' & Hrun & _ & _ & _ & Hgap).
  exists rr, w'. split; [exact Hrun|]. apply Hgap. split; [done|]. split; [done|].
  intros m Hm. unfold sample_buffer in Hm; cbn in Hm. rewrite !elem_of_cons in Hm.
  destruct Hm as [->|[->|[]%not_elem_of_nil]]; done.
Defined.

Lemma no_gap_no_loss_witness :
  exists rr w', run calm (replay_channel sample_channel 3) (ref_world 0 sample_db2 tt)
                = (inr rr, w') /\
    (rr_gap rr = false -> map b_sequence (rr_messages rr) = [4; 5]).
Proof.
  exact (no_gap_no_loss calm (ref_world 0 sample_db2 tt) sample_channel 3
    (mkView 5 sample_buffer) calm_reliable calm_mono (sample_represents2 0)
    sample_buffer_readable sample_buffer_contiguous
    ltac:(split; done) ltac:(done)).
Defined.

Lemma resume_replays_missed_witness :
  exists rr w',
    run calm (publish_all default_settings sample_channel [payload_n 7; payload_n 8] ;;
              replay_channel sample_channel 3) (ref_world 0 sample_db tt) = (inr rr, w') /\
    (rr_gap rr = false -> rr_messages rr <> [] ->
     map b_payload (rr_messages rr) = [JObj (payload_n 7); JObj (payload_n 8)] /\
     map b_sequence (rr_messages rr) = [4; 5]).
Proof.
  refine (resume_replays_missed default_settings calm (ref_world 0 sample_db tt)
    sample_channel [payload_n 7; payload_n 8] (mkView 3 []) calm_reliable calm_mono
    (sample_represents 0) (empty_contiguous 3) _ _ _ _); [constructor| |done|done].
  intros p Hp. rewrite !elem_of_cons in Hp.
  destruct Hp as [->|[->|[]%not_elem_of_nil]]; apply payload_n_readable.
Defined.

Lemma gap_not_reported_witness :
  exists rr w', run calm (replay_channel sample_channel 1) (ref_world 0 sample_db tt)
                = (inr rr, w') /\ rr_gap rr = false /\
                (cv_retained (mkView 3 []) = [] -> rr_messages rr = []).
Proof.
  refine (gap_not_reported calm (ref_world 0 sample_db tt) sample_channel 1
    (mkView 3 []) calm_reliable (sample_represents 0) _ _); [constructor|by right].
Defined.
