(* ===== verification/Connection.v ===== *)
(** * One connection: outbound queue, in-flight window, sender
    ([apps/gateway/connections/manager.py], [Connection])

    The queue is an unbounded [asyncio.Queue], so [put] never suspends and
    [enqueue] is a function of the connection.  The sender task [run_sender] is
    a state machine with one control point per suspension point
    ([sender_step]); [conn_step] interleaves it with the other tasks that use
    the connection. *)
From Stdlib Require Import ZArith Lia QArith.
From stdpp Require Import base gmap strings list.
From S2P Require Import Prelude Config RedisApi Async.
#[local] Open Scope Z_scope.

Inductive ConnectionState := HANDSHAKING | ACTIVE | DRAINING | DEAD.
#[export] Instance ConnectionState_eq_dec : EqDecision ConnectionState.
Proof. solve_decision. Defined.

Inductive Priority := HIGH | NORMAL | LOW.
#[export] Instance Priority_eq_dec : EqDecision Priority.
Proof. solve_decision. Defined.

Record QueuedMessage := mkQueued {
  q_payload : string;
  q_size_bytes : Z;
  q_priority : Priority;
  q_channel : option string;
  q_sequence : option Z
}.

Record Connection := mkConnection {
  connection_id : string;
  session_id : string;
  c_tenant_id : string;
  websocket : nat;
  state : ConnectionState;
  created_at : Z;
  last_pong_at : Z;
  subscriptions : gset string;
  user_id : option string;
  queue : list QueuedMessage;
  _queue_bytes : Z;
  inflight : list (string * Z);
  window_event : bool;
  messages_dropped : nat
}.

(** [Connection(...)]: the defaults of the dataclass; [__post_init__] sets the
    window event. *)
Definition new_connection (cid sid tid : string) (ws : nat) (st : ConnectionState)
    (now : Z) : Connection := {|
  connection_id := cid; session_id := sid; c_tenant_id := tid; websocket := ws;
  state := st; created_at := now; last_pong_at := now; subscriptions := ∅;
  user_id := None; queue := []; _queue_bytes := 0; inflight := [];
  window_event := true; messages_dropped := 0
|}.

(** ** Field updates *)
Definition set_state (st : ConnectionState) (c : Connection) : Connection :=
  mkConnection (connection_id c) (session_id c) (c_tenant_id c) (websocket c) st
    (created_at c) (last_pong_at c) (subscriptions c) (user_id c) (queue c)
    (_queue_bytes c) (inflight c) (window_event c) (messages_dropped c).
Definition set_last_pong (t : Z) (c : Connection) : Connection :=
  mkConnection (connection_id c) (session_id c) (c_tenant_id c) (websocket c) (state c)
    (created_at c) t (subscriptions c) (user_id c) (queue c)
    (_queue_bytes c) (inflight c) (window_event c) (messages_dropped c).
Definition set_subscriptions (s : gset string) (c : Connection) : Connection :=
  mkConnection (connection_id c) (session_id c) (c_tenant_id c) (websocket c) (state c)
    (created_at c) (last_pong_at c) s (user_id c) (queue c)
    (_queue_bytes c) (inflight c) (window_event c) (messages_dropped c).
Definition set_user_id (u : option string) (c : Connection) : Connection :=
  mkConnection (connection_id c) (session_id c) (c_tenant_id c) (websocket c) (state c)
    (created_at c) (last_pong_at c) (subscriptions c) u (queue c)
    (_queue_bytes c) (inflight c) (window_event c) (messages_dropped c).
Definition set_queue (q : list QueuedMessage) (bytes : Z) (c : Connection) : Connection :=
  mkConnection (connection_id c) (session_id c) (c_tenant_id c) (websocket c) (state c)
    (created_at c) (last_pong_at c) (subscriptions c) (user_id c) q
    bytes (inflight c) (window_event c) (messages_dropped c).
Definition set_inflight (l : list (string * Z)) (ev : bool) (c : Connection) : Connection :=
  mkConnection (connection_id c) (session_id c) (c_tenant_id c) (websocket c) (state c)
    (created_at c) (last_pong_at c) (subscriptions c) (user_id c) (queue c)
    (_queue_bytes c) l ev (messages_dropped c).
Definition set_dropped (n : nat) (c : Connection) : Connection :=
  mkConnection (connection_id c) (session_id c) (c_tenant_id c) (websocket c) (state c)
    (created_at c) (last_pong_at c) (subscriptions c) (user_id c) (queue c)
    (_queue_bytes c) (inflight c) (window_event c) n.

(** ** Introspection *)
Definition queue_depth (c : Connection) : Z := Z.of_nat (length (queue c)).
Definition queue_bytes (c : Connection) : Z := _queue_bytes c.
Definition inflight_count (c : Connection) : Z := Z.of_nat (length (inflight c)).

Section Ops.
Variable settings : Settings.

Definition high_watermark_reached (c : Connection) : bool :=
  let limit := (inject_Z (connection_queue_max_messages settings)
                * connection_queue_high_watermark_ratio settings)%Q in
  Qle_bool limit (inject_Z (queue_depth c)).

(** [enqueue]: the exception, or the connection afterwards. *)
Definition enqueue (payload : string) (priority : Priority) (channel : option string)
    (sequence : option Z) (c : Connection) : exn + Connection :=
  let size := utf8_len payload in
  let over_limit :=
    (connection_queue_max_messages settings <=? queue_depth c) ||
    (connection_queue_max_bytes settings <? _queue_bytes c + size) in
  let put := set_queue (queue c ++ [mkQueued payload size priority channel sequence])
               (_queue_bytes c + size) c in
  if over_limit then
    match priority with
    | LOW => inr (set_dropped (1 + messages_dropped c) c)
    | HIGH => inr put
    | NORMAL => inl (SlowConsumerError (connection_id c))
    end
  else inr put.

(** [on_ack]: the number of released messages, and the connection afterwards. *)
Definition on_ack (channel : string) (sequence : Z) (c : Connection) : Z * Connection :=
  let before := inflight_count c in
  let kept := filter (fun p => ~ (p.1 = channel /\ p.2 <= sequence)) (inflight c) in
  let released := before - Z.of_nat (length kept) in
  let event := if Z.of_nat (length kept) <? max_inflight_messages settings
               then true else window_event c in
  (released, set_inflight kept event c).

(** ** The sender task

    [Top] is the head of the loop, [Getting] waits in [queue.get()], [Window]
    is about to test the window, [Asleep] waits for the window event,
    [Sending] waits in [send_text], [Done] has returned. *)
Inductive sender_pc :=
| Top
| Getting
| Window (item : QueuedMessage)
| Asleep (item : QueuedMessage)
| Sending (item : QueuedMessage)
| Done.

Definition running (c : Connection) : bool :=
  match state c with ACTIVE | DRAINING => true | HANDSHAKING | DEAD => false end.

(** One step of the sender, with the message written to the socket if any;
    [None] when it waits.  [ok] tells whether [send_text] succeeds. *)
Definition sender_step (ok : bool) (c : Connection) (pc : sender_pc) :
    option (Connection * sender_pc * option QueuedMessage) :=
  match pc with
  | Top => Some (c, if running c then Getting else Done, None)
  | Getting =>
      match queue c with
      | [] => None
      | item :: q =>
          let c' := set_queue q (_queue_bytes c - q_size_bytes item) c in
          Some (c', if decide (q_priority item = NORMAL) then Window item
                    else Sending item, None)
      end
  | Window item =>
      if max_inflight_messages settings <=? inflight_count c
      then Some (set_inflight (inflight c) false c, Asleep item, None)
      else if negb (running c) then Some (c, Done, None)
      else match q_channel item, q_sequence item with
           | Some ch, Some sq =>
               Some (set_inflight (inflight c ++ [(ch, sq)]) (window_event c) c,
                     Sending item, None)
           | _, _ => Some (c, Sending item, None)
           end
  | Asleep item => if window_event c then Some (c, Window item, None) else None
  | Sending item =>
      if ok then Some (c, Top, Some item) else Some (set_state DEAD c, Done, None)
  | Done => None
  end.

(** ** Interleaving

    What happens to a connection, in any order: frames are enqueued by fanout,
    replay and heartbeat, acks arrive, the sender runs or is cancelled, and
    other code changes fields the queue and the window do not use. *)
Inductive action :=
| AEnqueue (m : QueuedMessage)
| ADrop
| AAck (released : Z)
| ASent (m : QueuedMessage)
| ASilent.

Definition of_sent (o : option QueuedMessage) : action :=
  match o with Some m => ASent m | None => ASilent end.

Definition same_flow (c c' : Connection) : Prop :=
  queue c' = queue c /\ _queue_bytes c' = _queue_bytes c /\
  inflight c' = inflight c /\ window_event c' = window_event c /\
  connection_id c' = connection_id c.

Inductive conn_step : Connection * sender_pc -> action -> Connection * sender_pc -> Prop :=
| step_enqueue payload pr ch sq c c' pc :
    enqueue payload pr ch sq c = inr c' -> messages_dropped c' = messages_dropped c ->
    conn_step (c, pc) (AEnqueue (mkQueued payload (utf8_len payload) pr ch sq)) (c', pc)
| step_drop payload pr ch sq c c' pc :
    enqueue payload pr ch sq c = inr c' -> messages_dropped c' <> messages_dropped c ->
    conn_step (c, pc) ADrop (c', pc)
| step_ack ch sq c pc :
    conn_step (c, pc) (AAck (on_ack ch sq c).1) ((on_ack ch sq c).2, pc)
| step_sender ok c pc c' pc' out :
    sender_step ok c pc = Some (c', pc', out) ->
    conn_step (c, pc) (of_sent out) (c', pc')
| step_cancel c pc : conn_step (c, pc) ASilent (c, Done)
| step_other c c' pc : same_flow c c' -> conn_step (c, pc) ASilent (c', pc).

(** Reachable from a fresh connection by the actions [tr], oldest first. *)
Inductive reach : list action -> Connection * sender_pc -> Prop :=
| reach_new cid sid tid ws st now :
    reach [] (new_connection cid sid tid ws st now, Top)
| reach_step tr s a s' : reach tr s -> conn_step s a s' -> reach (tr ++ [a]) s'.

End Ops.
