(* ===== verification/Flow.v ===== *)
(** * Flow control of a connection: invariants and refinement

    Invariants of every reachable state of [Connection.conn_step], by rule
    induction; the refinement of the sender to a FIFO channel; progress and
    stalling of the sender. *)
From Stdlib Require Import ZArith Lia QArith.
From stdpp Require Import base gmap strings list.
From S2P Require Import Prelude Config Frames RedisApi Async RefRedis Samples Connection.
#[local] Open Scope Z_scope.

Definition sizes (l : list QueuedMessage) : Z :=
  foldr (fun m n => q_size_bytes m + n) 0 l.

(** The queued frames that are subject to the bounds. *)
Definition bounded_part (l : list QueuedMessage) : list QueuedMessage :=
  filter (fun m => q_priority m <> HIGH) l.

(** A message that occupies the window: normal, with channel and sequence. *)
Definition sequenced (m : QueuedMessage) : bool :=
  match q_priority m, q_channel m, q_sequence m with
  | NORMAL, Some _, Some _ => true
  | _, _, _ => false
  end.

(** ** What a trace of actions says *)
Definition accepted (tr : list action) : list QueuedMessage :=
  omap (fun a => match a with AEnqueue m => Some m | _ => None end) tr.
Definition sent (tr : list action) : list QueuedMessage :=
  omap (fun a => match a with ASent m => Some m | _ => None end) tr.
Definition released (tr : list action) : Z :=
  foldr (fun a n => match a with AAck k => k | _ => 0 end + n) 0 tr.
Definition sequenced_sent (tr : list action) : Z :=
  Z.of_nat (length (filter (fun m => sequenced m = true) (sent tr))).

(** The message the sender holds. *)
Definition held (pc : sender_pc) : list QueuedMessage :=
  match pc with
  | Window m | Asleep m | Sending m => [m]
  | Top | Getting | Done => []
  end.
Definition pending (pc : sender_pc) : Z :=
  match pc with Sending m => if sequenced m then 1 else 0 | _ => 0 end.

Lemma sizes_cons (m : QueuedMessage) (l : list QueuedMessage) :
  sizes (m :: l) = q_size_bytes m + sizes l.
Proof. done. Qed.

Lemma bounded_part_cons (m : QueuedMessage) (l : list QueuedMessage) :
  bounded_part (m :: l) =
  if decide (q_priority m <> HIGH) then m :: bounded_part l else bounded_part l.
Proof. unfold bounded_part. rewrite filter_cons. by repeat case_decide. Qed.

Lemma sizes_app (l k : list QueuedMessage) : sizes (l ++ k) = sizes l + sizes k.
Proof. unfold sizes. induction l as [|m l IH]; cbn; lia. Qed.

Lemma bounded_part_app (l k : list QueuedMessage) :
  bounded_part (l ++ k) = bounded_part l ++ bounded_part k.
Proof. apply filter_app. Qed.

Lemma bounded_part_length (l : list QueuedMessage) :
  (length (bounded_part l) <= length l)%nat.
Proof. apply length_filter. Qed.

Definition sized (m : QueuedMessage) : Prop := q_size_bytes m = utf8_len (q_payload m).

Lemma bounded_part_sizes (l : list QueuedMessage) :
  Forall sized l -> 0 <= sizes (bounded_part l) <= sizes l.
Proof.
  induction 1 as [|m l Hm _ IH]; [done|]. pose proof (utf8_len_nonneg (q_payload m)).
  unfold sized in Hm. rewrite bounded_part_cons, sizes_cons.
  case_decide; rewrite ?sizes_cons; lia.
Qed.

Section Invariants.
Variable settings : Settings.

Notation max_msgs := (connection_queue_max_messages settings).
Notation max_bytes := (connection_queue_max_bytes settings).
Notation max_inflight := (max_inflight_messages settings).

(** The connection's bookkeeping. *)
Record flow_inv (c : Connection) : Prop := {
  inv_sized : Forall sized (queue c);
  inv_bytes : _queue_bytes c = sizes (queue c);
  inv_count_bound : Z.of_nat (length (bounded_part (queue c))) <= Z.max 0 max_msgs;
  inv_byte_bound : sizes (bounded_part (queue c)) <= Z.max 0 max_bytes;
  inv_window : inflight_count c <= Z.max 0 max_inflight;
  inv_event : window_event c = false -> max_inflight <= inflight_count c
}.

(** [enqueue] on every branch that returns. *)
Lemma enqueue_inr payload pr ch sq (c c' : Connection) :
  enqueue settings payload pr ch sq c = inr c' ->
  (c' = set_queue (queue c ++ [mkQueued payload (utf8_len payload) pr ch sq])
          (_queue_bytes c + utf8_len payload) c /\
   (pr = HIGH \/ queue_depth c < max_msgs /\ _queue_bytes c + utf8_len payload <= max_bytes)) \/
  (pr = LOW /\ c' = set_dropped (1 + messages_dropped c) c).
Proof.
  unfold enqueue. intros H. destruct (_ || _) eqn:Ho.
  - destruct pr; simplify_eq; auto.
  - simplify_eq. left. split; [done|]. right. apply orb_false_iff in Ho. lia.
Qed.

Lemma on_ack_kept ch sq (c : Connection) :
  inflight_count (on_ack settings ch sq c).2 + (on_ack settings ch sq c).1
  = inflight_count c /\ 0 <= (on_ack settings ch sq c).1.
Proof.
  unfold on_ack, inflight_count. cbn.
  pose proof (length_filter (fun p => ~ (p.1 = ch /\ p.2 <= sq)) (inflight c)). lia.
Qed.

Lemma flow_inv_same (c c' : Connection) : same_flow c c' -> flow_inv c -> flow_inv c'.
Proof.
  intros (Hq & Hb & Hi & He & _) []. split; unfold inflight_count in *;
    rewrite ?Hq, ?Hb, ?Hi, ?He; auto.
Qed.

Lemma flow_inv_put (c : Connection) (m : QueuedMessage) :
  sized m -> (q_priority m = HIGH \/ queue_depth c < max_msgs /\
              _queue_bytes c + q_size_bytes m <= max_bytes) ->
  flow_inv c -> flow_inv (set_queue (queue c ++ [m]) (_queue_bytes c + q_size_bytes m) c).
Proof.
  intros Hm Hroom [Hs Hb Hc Hbb Hw He]. split; cbn; [| | | |exact Hw|exact He].
  - apply Forall_app. by repeat constructor.
  - rewrite sizes_app, Hb, sizes_cons. cbn. lia.
  - rewrite bounded_part_app, length_app, bounded_part_cons.
    case_decide; cbn; [|lia]. pose proof (bounded_part_length (queue c)).
    unfold queue_depth in Hroom. destruct Hroom; [done|]. lia.
  - rewrite bounded_part_app, sizes_app, bounded_part_cons.
    case_decide; cbn; [|lia]. pose proof (bounded_part_sizes _ Hs).
    destruct Hroom; [done|]. lia.
Qed.

Lemma flow_inv_get (c : Connection) (m : QueuedMessage) (q : list QueuedMessage) :
  queue c = m :: q -> flow_inv c -> flow_inv (set_queue q (_queue_bytes c - q_size_bytes m) c).
Proof.
  intros Hq [Hs Hb Hc Hbb Hw He]. rewrite Hq in *. apply Forall_cons in Hs as [Hm Hs].
  pose proof (utf8_len_nonneg (q_payload m)). unfold sized in Hm.
  rewrite bounded_part_cons in Hc, Hbb. rewrite sizes_cons in Hb.
  split; cbn -[sizes bounded_part]; [done|lia| | |exact Hw|exact He].
  - case_decide; cbn in Hc; lia.
  - case_decide; rewrite ?sizes_cons in Hbb; lia.
Qed.

Lemma flow_inv_window (c : Connection) (l : list (string * Z)) (ev : bool) :
  Z.of_nat (length l) <= Z.max 0 max_inflight ->
  (ev = false -> max_inflight <= Z.of_nat (length l)) ->
  flow_inv c -> flow_inv (set_inflight l ev c).
Proof. intros Hl Hev []. by split. Qed.

Lemma flow_inv_sender ok (c c' : Connection) pc pc' out :
  sender_step settings ok c pc = Some (c', pc', out) -> flow_inv c -> flow_inv c'.
Proof.
  intros H Hinv. destruct pc as [| |m|m|m|]; cbn in H.
  - by simplify_eq.
  - destruct (queue c) as [|m q] eqn:Hq; simplify_eq. by apply flow_inv_get.
  - destruct (Z.leb_spec max_inflight (inflight_count c)).
    + simplify_eq. apply flow_inv_window; [apply Hinv|done|done].
    + destruct (negb _); [by simplify_eq|].
      destruct (q_channel m) as [ch|], (q_sequence m) as [sq|]; simplify_eq; try done.
      unfold inflight_count in *. apply flow_inv_window; rewrite ?length_app; cbn; [lia| |done].
      intros Hev. pose proof (inv_event c Hinv Hev). unfold inflight_count in *. lia.
  - destruct (window_event c); by simplify_eq.
  - destruct ok; simplify_eq; [done|]. by apply (flow_inv_same c).
  - done.
Qed.

Lemma flow_inv_step s a s' :
  conn_step settings s a s' -> flow_inv s.1 -> flow_inv s'.1.
Proof.
  destruct 1 as [payload pr ch sq c c' pc He _|payload pr ch sq c c' pc He _|ch sq c pc
                |ok c pc c' pc' out Hs|c pc|c c' pc Hs]; cbn; intros Hinv.
  - apply enqueue_inr in He as [[-> Hroom]|[_ ->]]; [by apply (flow_inv_put c (mkQueued _ _ _ _ _))|].
    by apply (flow_inv_same c).
  - apply enqueue_inr in He as [[-> Hroom]|[_ ->]]; [by apply (flow_inv_put c (mkQueued _ _ _ _ _))|].
    by apply (flow_inv_same c).
  - pose proof (on_ack_kept ch sq c) as Hk. pose proof (inv_window c Hinv).
    unfold on_ack, inflight_count in *. cbn in *. apply flow_inv_window; [lia| |done].
    case_match eqn:Hlt; [done|]. lia.
  - by apply (flow_inv_sender _ _ _ _ _ _ Hs).
  - done.
  - by apply (flow_inv_same c).
Qed.

Lemma flow_inv_new cid sid tid ws st now : flow_inv (new_connection cid sid tid ws st now).
Proof. split; cbn; try done; unfold inflight_count; cbn; lia. Qed.

Lemma reach_flow_inv tr s : reach settings tr s -> flow_inv s.1.
Proof.
  induction 1 as [|tr s a s' _ IH Hstep]; [apply flow_inv_new|].
  by apply (flow_inv_step _ _ _ Hstep).
Qed.

End Invariants.

(** ** The sender as a FIFO channel *)
Section Fifo.
Variable settings : Settings.

(** Accepted messages are the sent ones, then at most one the sender holds (or
    dropped when it stopped), then the queued ones. *)
Definition fifo (tr : list action) (c : Connection) (pc : sender_pc) : Prop :=
  exists mid, accepted tr = sent tr ++ mid ++ queue c /\ (length mid <= 1)%nat /\
    (pc <> Done -> mid = held pc).

Lemma accepted_snoc tr a :
  accepted (tr ++ [a]) = accepted tr ++ match a with AEnqueue m => [m] | _ => [] end.
Proof. unfold accepted. rewrite omap_app. by destruct a. Qed.

Lemma sent_snoc tr a :
  sent (tr ++ [a]) = sent tr ++ match a with ASent m => [m] | _ => [] end.
Proof. unfold sent. rewrite omap_app. by destruct a. Qed.

Lemma released_snoc tr a :
  released (tr ++ [a]) = released tr + match a with AAck k => k | _ => 0 end.
Proof. unfold released. induction tr as [|b tr IH]; cbn; [lia|]. rewrite IH. lia. Qed.

Lemma sequenced_sent_snoc tr a :
  sequenced_sent (tr ++ [a]) =
  sequenced_sent tr + match a with ASent m => if sequenced m then 1 else 0 | _ => 0 end.
Proof.
  unfold sequenced_sent. rewrite sent_snoc, filter_app, length_app.
  destruct a as [m| |k|m|]; cbn; try lia. case_decide as Hm; cbn.
  - rewrite Hm. lia.
  - destruct (sequenced m); [done|lia].
Qed.

Lemma fifo_sender ok tr (c c' : Connection) pc pc' out :
  sender_step settings ok c pc = Some (c', pc', out) -> fifo tr c pc ->
  fifo (tr ++ [of_sent out]) c' pc'.
Proof.
  intros H (mid & Ha & Hl & Hm). unfold fifo. rewrite accepted_snoc, sent_snoc, Ha.
  destruct pc as [| |m|m|m|]; cbn in H; try (rewrite (Hm ltac:(done)) in *; clear Hm).
  - simplify_eq. exists []. cbn. rewrite !app_nil_r. split_and!; [done|lia|]. by destruct (running _).
  - destruct (queue c) as [|m q]; simplify_eq. exists [m]. cbn. rewrite !app_nil_r.
    split_and!; [done|lia|]. intros _. by case_decide.
  - exists [m]. repeat case_match; simplify_eq; cbn; rewrite !app_nil_r; split_and!; done || lia.
  - exists [m]. case_match; simplify_eq; cbn; rewrite !app_nil_r; split_and!; done || lia.
  - destruct ok; simplify_eq; cbn; rewrite !app_nil_r.
    + exists []. cbn. split_and!; [by rewrite <- app_assoc|lia|done].
    + exists [m]. split_and!; [done|cbn; lia|done].
  - done.
Qed.

Lemma fifo_step tr s a s' :
  conn_step settings s a s' -> fifo tr s.1 s.2 -> fifo (tr ++ [a]) s'.1 s'.2.
Proof.
  destruct 1 as [payload pr ch sq c c' pc He Hd|payload pr ch sq c c' pc He Hd|ch sq c pc
                |ok c pc c' pc' out Hs|c pc|c c' pc Hs]; cbn [fst snd]; intros Hf;
    [| | |by eapply fifo_sender| |];
    destruct Hf as (mid & Ha & Hl & Hm); unfold fifo; rewrite accepted_snoc, sent_snoc, Ha.
  - apply enqueue_inr in He as [[-> _]|[_ ->]]; [|cbn in Hd; lia].
    exists mid. cbn. rewrite app_nil_r, <- !app_assoc. done.
  - apply enqueue_inr in He as [[-> _]|[_ ->]]; [done|].
    exists mid. cbn. by rewrite !app_nil_r.
  - exists mid. cbn. by rewrite !app_nil_r.
  - exists mid. cbn. by rewrite !app_nil_r.
  - destruct Hs as (Hq & _). exists mid. cbn. by rewrite !app_nil_r, Hq.
Qed.

Lemma reach_fifo tr s : reach settings tr s -> fifo tr s.1 s.2.
Proof.
  induction 1 as [|tr s a s' _ IH Hstep]; [|by apply (fifo_step _ _ _ _ Hstep)].
  exists []. cbn. split_and!; [done|lia|done].
Qed.

(** ** Counting what occupies the window *)
Definition window_account (tr : list action) (c : Connection) (pc : sender_pc) : Prop :=
  sequenced_sent tr + pending pc <= inflight_count c + released tr.

Lemma pending_le (pc : sender_pc) : 0 <= pending pc.
Proof. destruct pc as [| | | |m|]; cbn; try lia. destruct (sequenced m); lia. Qed.

Lemma account_sender ok tr (c c' : Connection) pc pc' out :
  sender_step settings ok c pc = Some (c', pc', out) -> window_account tr c pc ->
  window_account (tr ++ [of_sent out]) c' pc'.
Proof.
  unfold window_account. rewrite sequenced_sent_snoc, released_snoc. intros H Hacc.
  destruct pc as [| |m|m|m|]; cbn in H.
  - simplify_eq. destruct (running _); cbn in *; lia.
  - destruct (queue c) as [|m q]; simplify_eq. cbn in *. unfold inflight_count in *. cbn.
    case_decide as Hn; cbn; [lia|]. unfold sequenced. destruct (q_priority m); [lia|done|lia].
  - destruct (_ <=? _); [simplify_eq; unfold inflight_count in *; cbn in *; lia|].
    destruct (negb _); [simplify_eq; cbn in *; lia|].
    destruct (q_channel m) as [ch|] eqn:Hch, (q_sequence m) as [sq|] eqn:Hsq;
      simplify_eq; cbn in *; unfold sequenced, inflight_count in *; cbn;
      destruct (q_priority m); rewrite ?Hch, ?Hsq, ?length_app; cbn; lia.
  - destruct (window_event c); simplify_eq. cbn in *. lia.
  - destruct ok; simplify_eq; cbn in *; unfold inflight_count in *; cbn; [lia|].
    destruct (sequenced m); lia.
  - done.
Qed.

Lemma account_step tr s a s' :
  conn_step settings s a s' -> window_account tr s.1 s.2 ->
  window_account (tr ++ [a]) s'.1 s'.2.
Proof.
  destruct 1 as [payload pr ch sq c c' pc He Hd|payload pr ch sq c c' pc He Hd|ch sq c pc
                |ok c pc c' pc' out Hs|c pc|c c' pc Hs]; cbn [fst snd]; intros Hacc;
    [| | |by eapply account_sender| |];
    unfold window_account in *; rewrite sequenced_sent_snoc, released_snoc.
  - apply enqueue_inr in He as [[-> _]|[_ ->]]; unfold inflight_count in *; cbn in *; lia.
  - apply enqueue_inr in He as [[-> _]|[_ ->]]; unfold inflight_count in *; cbn in *; lia.
  - pose proof (on_ack_kept settings ch sq c). lia.
  - pose proof (pending_le pc). cbn. lia.
  - destruct Hs as (_ & _ & Hi & _). unfold inflight_count in *. rewrite Hi. lia.
Qed.

Lemma reach_account tr s : reach settings tr s -> window_account tr s.1 s.2.
Proof.
  induction 1 as [|tr s a s' _ IH Hstep]; [done|]. by apply (account_step _ _ _ _ Hstep).
Qed.

End Fifo.

(** ** Progress and stalling of the sender *)
Section Progress.
Variable settings : Settings.

Notation max_inflight := (max_inflight_messages settings).

(** The sender on its own for at most [n] steps, every write accepted by the
    socket: the final state and what was written. *)
Fixpoint sender_run (n : nat) (c : Connection) (pc : sender_pc) :
    Connection * sender_pc * list QueuedMessage :=
  match n with
  | O => (c, pc, [])
  | S n =>
      match sender_step settings true c pc with
      | None => (c, pc, [])
      | Some (c', pc', out) =>
          let '(c'', pc'', outs) := sender_run n c' pc' in
          (c'', pc'', match out with Some m => m :: outs | None => outs end)
      end
  end.

(** Queued messages that go through the window. *)
Definition normals (l : list QueuedMessage) : Z :=
  Z.of_nat (length (filter (fun m => q_priority m = NORMAL) l)).

Lemma normals_cons (m : QueuedMessage) (l : list QueuedMessage) :
  normals (m :: l) = (if decide (q_priority m = NORMAL) then 1 else 0) + normals l.
Proof. unfold normals. rewrite filter_cons. case_decide; cbn; lia. Qed.

(** One turn of the sender's loop, when the window has room. *)
Lemma sender_turn (c : Connection) (m : QueuedMessage) (q : list QueuedMessage) (n : nat) :
  queue c = m :: q -> running c = true ->
  (q_priority m = NORMAL -> inflight_count c < max_inflight) ->
  exists c' k,
    sender_run (4 + n) c Top =
      (let '(c'', pc'', outs) := sender_run (k + n) c' Top in (c'', pc'', m :: outs)) /\
    queue c' = q /\ running c' = true /\
    inflight_count c' <= inflight_count c + (if decide (q_priority m = NORMAL) then 1 else 0).
Proof.
  intros Hq Hr Hroom.
  cbn [sender_run Nat.add sender_step]. rewrite Hr. cbn [sender_step]. rewrite Hq.
  case_decide as Hn; cbn [sender_step].
  - unfold inflight_count in Hroom |- *. unfold running in Hr |- *. cbn. specialize (Hroom Hn).
    rewrite (proj2 (Z.leb_gt _ _)) by lia. rewrite Hr. cbn.
    destruct (q_channel m) as [ch|], (q_sequence m) as [sq|];
      [exists (set_inflight (inflight c ++ [(ch, sq)]) (window_event c)
                 (set_queue q (_queue_bytes c - q_size_bytes m) c)), 0%nat
      |exists (set_queue q (_queue_bytes c - q_size_bytes m) c), 0%nat ..]; cbn;
      destruct (sender_run n _ Top) as [[c'' pc''] outs]; rewrite ?length_app; cbn;
      split_and!; done || lia.
  - exists (set_queue q (_queue_bytes c - q_size_bytes m) c), 1%nat.
    unfold inflight_count. cbn [Nat.add].
    destruct (sender_run (S n) _ Top) as [[c'' pc''] outs] eqn:Hrun.
    cbn [sender_run sender_step] in Hrun |- *. rewrite Hrun. cbn. split_and!; done || lia.
Qed.

(** Nothing more happens once the queue is empty. *)
Lemma sender_idle (c : Connection) (n : nat) :
  queue c = [] -> running c = true -> (1 <= n)%nat ->
  sender_run n c Top = (c, Getting, []).
Proof.
  intros Hq Hr Hn. destruct n as [|n]; [lia|]. cbn. rewrite Hr.
  destruct n as [|n]; cbn; [done|]. by rewrite Hq.
Qed.

Lemma sender_drains_gen (q : list QueuedMessage) : forall (c : Connection) (n : nat),
  queue c = q -> running c = true -> inflight_count c + normals q <= max_inflight ->
  (4 * length q + 1 <= n)%nat ->
  exists c', sender_run n c Top = (c', Getting, q) /\ queue c' = [] /\ running c' = true.
Proof.
  induction q as [|m q IH]; intros c n Hq Hr Hroom Hn.
  - exists c. split_and!; [|done..]. apply sender_idle; [done..|]. lia.
  - rewrite normals_cons in Hroom. cbn [length] in Hn.
    assert (0 <= normals q) by (unfold normals; lia).
    destruct (sender_turn c m q (n - 4) Hq Hr) as (c' & k & Hrun & Hq' & Hr' & Hi').
    { intros Hp. rewrite decide_True in Hroom by done. lia. }
    replace n with (4 + (n - 4))%nat by lia. rewrite Hrun.
    destruct (IH c' (k + (n - 4))%nat Hq' Hr') as (c'' & -> & Hq'' & Hr''); [lia..|].
    by exists c''.
Qed.

(** Several steps of any tasks, with their actions in order. *)
Inductive steps : Connection * sender_pc -> list action -> Connection * sender_pc -> Prop :=
| steps_nil s : steps s [] s
| steps_cons s a s' tr s'' :
    conn_step settings s a s' -> steps s' tr s'' -> steps s (a :: tr) s''.

(** The sender is held at a full window. *)
Definition stuck (s : Connection * sender_pc) : Prop :=
  max_inflight <= inflight_count s.1 /\
  match s.2 with Window _ | Asleep _ | Done => True | _ => False end.

Lemma stuck_step s a s' :
  conn_step settings s a s' -> stuck s -> released [a] = 0 -> stuck s' /\ sent [a] = [].
Proof.
  intros Hstep [Hfull Hpc].
  destruct Hstep as [payload pr ch sq c c' pc He Hd|payload pr ch sq c c' pc He Hd|ch sq c pc
                |ok c pc c' pc' out Hs|c pc|c c' pc Hs]; cbn [fst snd] in *; intros Hrel.
  - apply enqueue_inr in He as [[-> _]|[_ ->]]; done.
  - apply enqueue_inr in He as [[-> _]|[_ ->]]; done.
  - pose proof (on_ack_kept settings ch sq c) as [Hk _]. unfold released in Hrel.
    cbn [foldr] in Hrel. split; [|done]. split; cbn [fst snd]; [lia|done].
  - destruct pc as [| |m|m|m|]; try done; cbn in Hs.
    + rewrite (proj2 (Z.leb_le _ _)) in Hs by done. by simplify_eq.
    + destruct (window_event c); by simplify_eq.
  - done.
  - destruct Hs as (_ & _ & Hi & _). unfold stuck, inflight_count in *. cbn. by rewrite Hi.
Qed.

Lemma released_step_nonneg s a s' : conn_step settings s a s' -> 0 <= released [a].
Proof.
  destruct 1 as [ | |ch sq c pc|ok c pc c' pc' [m|] Hs| |]; unfold released;
    cbn [foldr of_sent]; try lia.
  pose proof (on_ack_kept settings ch sq c). lia.
Qed.

Lemma released_cons a tr : released (a :: tr) = released [a] + released tr.
Proof. unfold released. cbn. lia. Qed.

Lemma sent_cons a tr : sent (a :: tr) = sent [a] ++ sent tr.
Proof. by destruct a. Qed.

Lemma released_nonneg s tr s' : steps s tr s' -> 0 <= released tr.
Proof.
  induction 1 as [|s a s' tr s'' Hstep _ IH]; [done|].
  rewrite released_cons. pose proof (released_step_nonneg _ _ _ Hstep). lia.
Qed.

Lemma stuck_steps s tr s' :
  steps s tr s' -> stuck s -> released tr = 0 -> stuck s' /\ sent tr = [].
Proof.
  induction 1 as [|s a s' tr s'' Hstep Hsteps IH]; intros Hst Hrel; [done|].
  rewrite released_cons in Hrel. rewrite sent_cons.
  pose proof (released_step_nonneg _ _ _ Hstep). pose proof (released_nonneg _ _ _ Hsteps).
  destruct (stuck_step _ _ _ Hstep Hst) as [Hst' ->]; [lia|]. apply IH; [done|lia].
Qed.

End Progress.

(** ** Running a script of moves

    [play] executes [conn_step] for a list of moves, so that concrete traces
    are computed rather than written. *)
Inductive move :=
| MEnqueue (payload : string) (pr : Priority) (ch : option string) (sq : option Z)
| MAck (ch : string) (sq : Z)
| MSender.

Section Play.
Variable settings : Settings.

Definition play_move (mv : move) (s : Connection * sender_pc) :
    option (action * (Connection * sender_pc)) :=
  let '(c, pc) := s in
  match mv with
  | MEnqueue p pr ch sq =>
      match enqueue settings p pr ch sq c with
      | inr c' => Some (if decide (messages_dropped c' = messages_dropped c)
                        then AEnqueue (mkQueued p (utf8_len p) pr ch sq) else ADrop, (c', pc))
      | inl _ => None
      end
  | MAck ch sq => Some (AAck (on_ack settings ch sq c).1, ((on_ack settings ch sq c).2, pc))
  | MSender =>
      '(c', pc', out) ← sender_step settings true c pc; Some (of_sent out, (c', pc'))
  end.

Fixpoint play (l : list move) (s : Connection * sender_pc) :
    option (list action * (Connection * sender_pc)) :=
  match l with
  | [] => Some ([], s)
  | mv :: l =>
      '(a, s') ← play_move mv s; '(tr, s'') ← play l s'; Some (a :: tr, s'')
  end.

Lemma play_move_step mv s a s' : play_move mv s = Some (a, s') -> conn_step settings s a s'.
Proof.
  destruct s as [c pc], mv as [p pr ch sq|ch sq|]; cbn; intros H.
  - destruct (enqueue _ _ _ _ _ _) as [x|c'] eqn:He; simplify_eq.
    case_decide; by econstructor.
  - simplify_eq. constructor.
  - destruct (sender_step _ _ _ _) as [[[c' pc'] out]|] eqn:Hs; simplify_eq/=. by econstructor.
Qed.

Lemma play_steps l : forall s tr s', play l s = Some (tr, s') -> steps settings s tr s'.
Proof.
  induction l as [|mv l IH]; intros s tr s' H; cbn in H; [simplify_eq; constructor|].
  destruct (play_move mv s) as [[a s1]|] eqn:Hm; simplify_eq/=.
  destruct (play l s1) as [[tr' s2]|] eqn:Hp; simplify_eq/=.
  econstructor; [by apply (play_move_step mv)|by apply IH].
Qed.

Lemma reach_steps tr s tr' s' :
  reach settings tr s -> steps settings s tr' s' -> reach settings (tr ++ tr') s'.
Proof.
  intros Hr Hs. revert tr Hr. induction Hs as [|s a s1 tr' s2 Hstep _ IH]; intros tr Hr.
  - by rewrite app_nil_r.
  - replace (tr ++ a :: tr') with ((tr ++ [a]) ++ tr') by by rewrite <- app_assoc.
    apply IH. by apply (reach_step _ _ s).
Qed.

End Play.

(** *** The window is full, and a PING is queued behind a message *)
Definition sample_connection : Connection := new_connection "c-1" "s-1" "t-1" 0 ACTIVE 0.

Definition enq (n : Z) : move :=
  MEnqueue (py_str n) NORMAL (Some "t-1:chat") (Some n).
Definition msg (n : Z) : QueuedMessage :=
  mkQueued (py_str n) (utf8_len (py_str n)) NORMAL (Some "t-1:chat") (Some n).
Definition ping : move := MEnqueue "PING" HIGH None None.

(** Message 1 sent and unacknowledged, the sender asleep with message 2. *)
Definition stalled_moves : list move :=
  [enq 1; MSender; MSender; MSender; MSender; enq 2; MSender; MSender; MSender].
Definition stalled_trace : list action :=
  [AEnqueue (msg 1); ASilent; ASilent; ASilent; ASent (msg 1);
   AEnqueue (msg 2); ASilent; ASilent; ASilent].
Definition stalled_connection : Connection :=
  set_inflight [("t-1:chat", 1)] false sample_connection.

Lemma stalled_reach : reach tiny_settings stalled_trace (stalled_connection, Asleep (msg 2)).
Proof.
  apply (reach_steps _ [] (sample_connection, Top) stalled_trace); [apply reach_new|].
  by apply (play_steps _ stalled_moves).
Qed.

(** ** Claims *)

(** C8.  In every state a connection can reach, at most [max_inflight_messages]
    messages are delivered and unacknowledged, and no wake-up is lost: when the
    sender sleeps on the window event although the window has room, the event
    is set, so the sender can take its next step. *)
Theorem window_bounded_and_live (settings : Settings) tr c pc :
  reach settings tr (c, pc) ->
  inflight_count c <= Z.max 0 (max_inflight_messages settings) /\
  forall item, pc = Asleep item -> inflight_count c < max_inflight_messages settings ->
    forall ok, sender_step settings ok c pc = Some (c, Window item, None).
Proof.
  intros Hr. pose proof (reach_flow_inv _ _ _ Hr) as Hinv. cbn in Hinv.
  split; [apply Hinv|]. intros item -> Hroom ok. cbn.
  destruct (window_event c) eqn:He; [done|]. apply (inv_event _ _ Hinv) in He. lia.
Qed.

Lemma window_bounded_and_live_witness :
  reach tiny_settings stalled_trace (stalled_connection, Asleep (msg 2)) /\
  inflight_count stalled_connection <= 1.
Proof.
  split; [exact stalled_reach|].
  exact (proj1 (window_bounded_and_live tiny_settings _ _ _ stalled_reach)).
Defined.

(** C31.  In every reachable state the byte counter of the queue is exactly the
    number of UTF-8 bytes queued, and the droppable part of the queue (every
    frame that is not a control frame) stays within the configured number of
    messages and bytes. *)
Theorem queue_bounded (settings : Settings) tr c pc :
  reach settings tr (c, pc) ->
  queue_bytes c = sizes (queue c) /\
  Forall (fun m => q_size_bytes m = utf8_len (q_payload m)) (queue c) /\
  Z.of_nat (length (bounded_part (queue c)))
    <= Z.max 0 (connection_queue_max_messages settings) /\
  sizes (bounded_part (queue c)) <= Z.max 0 (connection_queue_max_bytes settings).
Proof. intros Hr. apply reach_flow_inv in Hr. cbn in Hr. destruct Hr. by split_and!. Qed.

Lemma queue_bounded_witness : queue_bytes stalled_connection = 0.
Proof.
  exact (proj1 (queue_bounded tiny_settings _ _ _ stalled_reach)).
Defined.

(** C9.  The queue and the sender refine a FIFO channel: in every interleaving
    the messages accepted by [enqueue] are, in order, the ones written to the
    socket, then the one the sender holds, then the ones still queued; only a
    sender that has stopped loses a message, and at most the one it held. *)
Theorem sender_refines_fifo (settings : Settings) tr c pc :
  reach settings tr (c, pc) ->
  exists mid,
    accepted tr = sent tr ++ mid ++ queue c /\ (length mid <= 1)%nat /\
    (pc <> Done -> mid = held pc).
Proof. intros Hr. exact (reach_fifo _ _ _ Hr). Qed.

Lemma sender_refines_fifo_witness :
  exists mid, accepted stalled_trace = [msg 1] ++ mid /\ mid = [msg 2].
Proof.
  destruct (sender_refines_fifo tiny_settings _ _ _ stalled_reach) as (mid & Ha & _ & Hm).
  exists mid. rewrite Ha, (Hm ltac:(done)). done.
Defined.

(** ACK-based flow control: whatever the interleaving, the sequenced
    messages written to the socket never exceed the window plus the messages
    the client's acknowledgements released. *)
Theorem delivery_limited_by_acks (settings : Settings) tr c pc :
  reach settings tr (c, pc) ->
  sequenced_sent tr <= Z.max 0 (max_inflight_messages settings) + released tr.
Proof.
  intros Hr. pose proof (reach_account _ _ _ Hr) as Ha. pose proof (pending_le pc).
  pose proof (inv_window _ _ (reach_flow_inv _ _ _ Hr)). unfold window_account in Ha.
  cbn in *. lia.
Qed.

Lemma delivery_limited_by_acks_witness : sequenced_sent stalled_trace <= 1.
Proof. exact (delivery_limited_by_acks tiny_settings _ _ _ stalled_reach). Defined.

(** C29.  Progress: when the window has room for the normal messages queued,
    the sender on its own writes the whole queue to the socket, in order, in at
    most four steps a message, and then waits for the next one. *)
Theorem sender_drains (settings : Settings) (c : Connection) :
  running c = true ->
  inflight_count c + normals (queue c) <= max_inflight_messages settings ->
  exists c', sender_run settings (4 * length (queue c) + 1) c Top = (c', Getting, queue c) /\
    queue c' = [] /\ running c' = true.
Proof.
  intros Hr Hroom. by apply sender_drains_gen.
Qed.

Lemma sender_drains_witness :
  exists c', sender_run default_settings 9 (set_queue [msg 1; msg 2] 2 sample_connection) Top
             = (c', Getting, [msg 1; msg 2]) /\ queue c' = [] /\ running c' = true.
Proof.
  apply (sender_drains default_settings (set_queue [msg 1; msg 2] 2 sample_connection));
    [reflexivity|vm_compute; discriminate].
Defined.

(** C38.  Head-of-line blocking: while the sender is held at a full window,
    nothing is written to the socket before an acknowledgement releases a
    message, whatever is enqueued meanwhile.  This includes control frames:
    a PING accepted behind the held message is not sent. *)
Theorem full_window_blocks_all_frames (settings : Settings) s tr s' :
  max_inflight_messages settings <= inflight_count s.1 ->
  (exists item, s.2 = Window item \/ s.2 = Asleep item) ->
  steps settings s tr s' -> released tr = 0 ->
  sent tr = [] /\ max_inflight_messages settings <= inflight_count s'.1.
Proof.
  intros Hfull (item & Hpc) Hsteps Hrel.
  destruct (stuck_steps settings s tr s' Hsteps) as [[Hf _] Hs]; [|done|done].
  split; [done|]. by destruct Hpc as [-> | ->].
Qed.

Lemma full_window_blocks_all_frames_witness :
  sent [AEnqueue (mkQueued "PING" 4 HIGH None None); AAck 0] = [] /\
  1 <= inflight_count (set_queue [mkQueued "PING" 4 HIGH None None] 4 stalled_connection).
Proof.
  apply (full_window_blocks_all_frames tiny_settings (stalled_connection, Asleep (msg 2))
           [AEnqueue (mkQueued "PING" 4 HIGH None None); AAck 0]
           (set_queue [mkQueued "PING" 4 HIGH None None] 4 stalled_connection, Asleep (msg 2))).
  - discriminate.
  - exists (msg 2). by right.
  - by apply (play_steps _ [ping; MAck "t-2:x" 9]).
  - reflexivity.
Defined.

(** [on_ack] is cumulative and exact: it releases the in-flight messages of
    the channel up to the sequence, keeps the others in their order, returns
    how many it released, reopens the window when there is room, and a repeated
    or older acknowledgement releases nothing. *)
Theorem on_ack_cumulative (settings : Settings) ch sq (c : Connection) :
  let '(n, c') := on_ack settings ch sq c in
  inflight c' `sublist_of` inflight c /\
  (forall ch' sq', (ch', sq') ∈ inflight c' <->
     (ch', sq') ∈ inflight c /\ ~ (ch' = ch /\ sq' <= sq)) /\
  inflight_count c = inflight_count c' + n /\
  (inflight_count c' < max_inflight_messages settings -> window_event c' = true) /\
  (forall sq', sq' <= sq -> (on_ack settings ch sq' c').1 = 0 /\
                            inflight (on_ack settings ch sq' c').2 = inflight c').
Proof.
  pose proof (on_ack_kept settings ch sq c) as [Hk _].
  destruct (on_ack settings ch sq c) as [n c'] eqn:E.
  unfold on_ack in E. simplify_eq/=. split_and!.
  - apply sublist_filter.
  - intros ch' sq'. rewrite list_elem_of_filter. cbn. tauto.
  - unfold inflight_count in *. cbn in *. lia.
  - unfold inflight_count. cbn. intros Hlt. by rewrite (proj2 (Z.ltb_lt _ _)).
  - intros sq' Hle. unfold inflight_count. cbn.
    rewrite list_filter_filter_r.
    + split; [lia|done].
    + intros p Hp [Hc Hs]. apply Hp. split; [done|lia].
Qed.

(** [enqueue] on every branch: below both limits every frame is appended
    and counted; over a limit a control frame is appended all the same, an
    ephemeral frame is dropped and counted as dropped, and a message raises
    [SlowConsumerError] with the connection's id. *)
Theorem enqueue_branches (settings : Settings) payload pr ch sq (c : Connection) :
  let item := mkQueued payload (utf8_len payload) pr ch sq in
  let room := queue_depth c < connection_queue_max_messages settings /\
              queue_bytes c + utf8_len payload <= connection_queue_max_bytes settings in
  (room \/ pr = HIGH ->
    enqueue settings payload pr ch sq c
      = inr (set_queue (queue c ++ [item]) (queue_bytes c + utf8_len payload) c)) /\
  (~ room -> pr = LOW ->
    enqueue settings payload pr ch sq c = inr (set_dropped (1 + messages_dropped c) c)) /\
  (~ room -> pr = NORMAL ->
    enqueue settings payload pr ch sq c = inl (SlowConsumerError (connection_id c))).
Proof.
  unfold enqueue, queue_bytes. cbn.
  destruct (_ || _) eqn:Ho; [apply orb_true_iff in Ho|apply orb_false_iff in Ho];
    split_and!; intros; destruct pr; try done; exfalso; try lia;
    naive_solver lia.
Qed.
