(* ===== verification/Registry.v ===== *)
(** * The process-local registry of connections
    ([apps/gateway/connections/manager.py], [ConnectionRegistry])

    Connections are mutable objects shared by the registry, the handler of the
    socket, the heartbeat and the fanout, so they live in a heap and the
    registry holds references.  The index dictionaries keep their entries when
    the sets in them become empty, as the source does. *)
From Stdlib Require Import ZArith Lia.
From stdpp Require Import base gmap strings list sets fin_map_dom.
From S2P Require Import Prelude Config RedisApi Async Connection.

(** A reference to a [Connection] object. *)
Notation loc := nat.
Notation index := (gmap string (gset string)).

Record ConnectionRegistry := mkRegistry {
  _by_id : gmap string loc;
  _by_session : index;
  _by_tenant : index;
  _by_channel : index
}.

Record Store := mkStore {
  heap : gmap loc Connection;
  registry : ConnectionRegistry
}.

Definition empty_store : Store := mkStore ∅ (mkRegistry ∅ ∅ ∅ ∅).

(** ** Dictionaries of sets *)

(** [d.get(k, set())] *)
Definition members (m : index) (k : string) : gset string := default ∅ (m !! k).
(** [d.setdefault(k, set()).add(x)] *)
Definition setdefault_add (m : index) (k x : string) : index :=
  <[k := {[x]} ∪ members m k]> m.
(** [d.get(k, set()).discard(x)] *)
Definition get_discard (m : index) (k x : string) : index :=
  match m !! k with
  | Some s => <[k := s ∖ {[x]}]> m
  | None => m
  end.

(** ** Operations *)

Definition by_id (s : Store) : gmap string loc := _by_id (registry s).

(** The object the registry has for an id. *)
Definition conn_of (s : Store) (cid : string) : option Connection :=
  l ← by_id s !! cid; heap s !! l.

(** An assignment to a field of an object. *)
Definition update_conn (l : loc) (f : Connection -> Connection) (s : Store) : Store :=
  mkStore (alter f l (heap s)) (registry s).

(** [registry.add(conn)], where [conn] is the object at [l]. *)
Definition add (l : loc) (s : Store) : Store :=
  match heap s !! l with
  | None => s
  | Some conn =>
      let r := registry s in
      mkStore (heap s)
        (mkRegistry (<[connection_id conn := l]> (_by_id r))
           (setdefault_add (_by_session r) (session_id conn) (connection_id conn))
           (setdefault_add (_by_tenant r) (c_tenant_id conn) (connection_id conn))
           (_by_channel r))
  end.

(** [Connection(...)] allocates a new object. *)
Definition fresh_loc (s : Store) : loc := fresh (dom (heap s) : gset loc).
Definition alloc (conn : Connection) (s : Store) : loc * Store :=
  (fresh_loc s, mkStore (<[fresh_loc s := conn]> (heap s)) (registry s)).

Definition remove (cid : string) (s : Store) : option loc * Store :=
  let r := registry s in
  match _by_id r !! cid with
  | None => (None, s)
  | Some l =>
      match heap s !! l with
      | None => (None, s)
      | Some conn =>
          (Some l,
           mkStore (heap s)
             (mkRegistry (base.delete cid (_by_id r))
                (get_discard (_by_session r) (session_id conn) cid)
                (get_discard (_by_tenant r) (c_tenant_id conn) cid)
                (foldr (fun ch m => get_discard m ch cid) (_by_channel r)
                   (elements (subscriptions conn)))))
      end
  end.

Definition get (cid : string) (s : Store) : option loc := by_id s !! cid.

Definition subscribe (cid channel : string) (s : Store) : Store :=
  match by_id s !! cid with
  | None => s
  | Some l =>
      let r := registry s in
      mkStore (alter (fun c => set_subscriptions ({[channel]} ∪ subscriptions c) c) l (heap s))
        (mkRegistry (_by_id r) (_by_session r) (_by_tenant r)
           (setdefault_add (_by_channel r) channel cid))
  end.

Definition unsubscribe (cid channel : string) (s : Store) : Store :=
  let r := registry s in
  let h := match by_id s !! cid with
           | Some l => alter (fun c => set_subscriptions (subscriptions c ∖ {[channel]}) c) l (heap s)
           | None => heap s
           end in
  mkStore h (mkRegistry (_by_id r) (_by_session r) (_by_tenant r)
               (get_discard (_by_channel r) channel cid)).

(** The connections of a set of ids; the order of a Python set is not
    specified, and the model takes the one of [elements]. *)
Definition present (s : Store) (ids : gset string) : list loc :=
  omap (fun cid => by_id s !! cid) (elements ids).

Definition local_subscribers (channel : string) (s : Store) : list loc :=
  present s (members (_by_channel (registry s)) channel).
Definition session_connections (sid : string) (s : Store) : list loc :=
  present s (members (_by_session (registry s)) sid).
Definition tenant_connection_count (tid : string) (s : Store) : Z :=
  Z.of_nat (size (members (_by_tenant (registry s)) tid)).
Definition active_count (s : Store) : Z := Z.of_nat (size (by_id s)).
Definition all_connections (s : Store) : list loc := (map_to_list (by_id s)).*2.

(** ** Lemmas on the dictionaries *)
Lemma members_insert m k v k' :
  members (<[k := v]> m) k' = if decide (k = k') then v else members m k'.
Proof.
  unfold members. destruct (decide (k = k')) as [->|].
  - by rewrite lookup_insert_eq.
  - by rewrite lookup_insert_ne.
Qed.

Lemma elem_setdefault_add m k x k' y :
  y ∈ members (setdefault_add m k x) k' <-> (k = k' /\ y = x) \/ y ∈ members m k'.
Proof.
  unfold setdefault_add. rewrite members_insert. destruct (decide (k = k')) as [->|]; set_solver.
Qed.

Lemma elem_get_discard m k x k' y :
  y ∈ members (get_discard m k x) k' <-> y ∈ members m k' /\ ~ (k = k' /\ y = x).
Proof.
  unfold get_discard. destruct (m !! k) as [v|] eqn:E.
  - rewrite members_insert. destruct (decide (k = k')) as [->|]; [|set_solver].
    assert (members m k' = v) as -> by (unfold members; by rewrite E). set_solver.
  - split; [|tauto]. intros Hy. split; [done|]. intros [-> ->].
    unfold members in Hy. rewrite E in Hy. set_solver.
Qed.

Lemma elem_discard_all (l : list string) x : forall m k' y,
  y ∈ members (foldr (fun ch m => get_discard m ch x) m l) k' <->
  y ∈ members m k' /\ ~ (k' ∈ l /\ y = x).
Proof.
  induction l as [|ch l IH]; intros m k' y; cbn; [set_solver|].
  rewrite elem_get_discard, IH. set_solver.
Qed.

(** The index entries a dictionary has are never removed. *)
Lemma dom_get_discard m k x : dom (get_discard m k x) = dom m.
Proof.
  unfold get_discard. destruct (m !! k) as [v|] eqn:E; [|done].
  rewrite dom_insert_L. apply elem_of_dom_2 in E. set_solver.
Qed.

(** ** The invariant *)

(** The indexes hold exactly what the objects say. *)
Record wf (s : Store) : Prop := {
  wf_id : forall cid l, by_id s !! cid = Some l ->
    exists c, heap s !! l = Some c /\ connection_id c = cid;
  wf_session : forall sid cid, cid ∈ members (_by_session (registry s)) sid <->
    exists c, conn_of s cid = Some c /\ session_id c = sid;
  wf_tenant : forall tid cid, cid ∈ members (_by_tenant (registry s)) tid <->
    exists c, conn_of s cid = Some c /\ c_tenant_id c = tid;
  wf_channel : forall ch cid, cid ∈ members (_by_channel (registry s)) ch <->
    exists c, conn_of s cid = Some c /\ ch ∈ subscriptions c
}.

Lemma conn_of_Some s cid c :
  conn_of s cid = Some c <-> exists l, by_id s !! cid = Some l /\ heap s !! l = Some c.
Proof. unfold conn_of. by rewrite bind_Some. Qed.

(** Two registered ids never share an object. *)
Lemma wf_id_inj s cid cid' l :
  wf s -> by_id s !! cid = Some l -> by_id s !! cid' = Some l -> cid = cid'.
Proof.
  intros Hwf H H'. apply (wf_id s Hwf) in H as (c & Hc & <-).
  apply (wf_id s Hwf) in H' as (c' & Hc' & <-). by simplify_eq.
Qed.

(** *** Updates that the indexes do not see *)
Definition unindexed (f : Connection -> Connection) : Prop :=
  forall c, connection_id (f c) = connection_id c /\ session_id (f c) = session_id c /\
            c_tenant_id (f c) = c_tenant_id c /\ subscriptions (f c) = subscriptions c.

Lemma conn_of_update l f s cid c :
  conn_of (update_conn l f s) cid = Some c <->
  exists l' c', by_id s !! cid = Some l' /\ heap s !! l' = Some c' /\
    c = if decide (l = l') then f c' else c'.
Proof.
  rewrite conn_of_Some. unfold update_conn, by_id. cbn.
  split.
  - intros (l' & Hl & Hc). exists l'. destruct (decide (l = l')) as [->|Hne].
    + rewrite lookup_alter_eq in Hc. apply fmap_Some in Hc as (c' & ? & ->). eauto.
    + rewrite lookup_alter_ne in Hc by done. eauto.
  - intros (l' & c' & Hl & Hc & ->). exists l'. split; [done|].
    destruct (decide (l = l')) as [->|Hne].
    + rewrite lookup_alter_eq. by rewrite Hc.
    + by rewrite lookup_alter_ne.
Qed.

(** A property of the object that [f] keeps is kept by the update. *)
Lemma conn_of_update_prop (P : Connection -> Prop) l f s cid :
  (forall c, P (f c) <-> P c) ->
  (exists c, conn_of (update_conn l f s) cid = Some c /\ P c) <->
  (exists c, conn_of s cid = Some c /\ P c).
Proof.
  intros HP. setoid_rewrite conn_of_update. setoid_rewrite conn_of_Some. split.
  - intros (c & (l' & c' & Hl & Hc & ->) & Hp). exists c'. split; [eauto|].
    case_decide; [by apply HP|done].
  - intros (c & (l' & Hl & Hc) & Hp). eexists. split; [eauto 10|].
    case_decide; [by apply HP|done].
Qed.

Lemma wf_update l f s : unindexed f -> wf s -> wf (update_conn l f s).
Proof.
  intros Hf Hwf. split.
  - intros cid l' Hl. destruct (wf_id s Hwf cid l' Hl) as (c & Hc & Hcid). cbn.
    destruct (decide (l = l')) as [->|Hne].
    + rewrite lookup_alter_eq, Hc. cbn. exists (f c). split; [done|].
      by rewrite (proj1 (Hf c)).
    + rewrite lookup_alter_ne by done. eauto.
  - intros sid cid. cbn. rewrite (wf_session s Hwf), conn_of_update_prop; [done|].
    intros c. by destruct (Hf c) as (_ & -> & _).
  - intros tid cid. cbn. rewrite (wf_tenant s Hwf), conn_of_update_prop; [done|].
    intros c. by destruct (Hf c) as (_ & _ & -> & _).
  - intros ch cid. cbn. rewrite (wf_channel s Hwf), conn_of_update_prop; [done|].
    intros c. by destruct (Hf c) as (_ & _ & _ & ->).
Qed.

(** *** Allocation and registration of a new connection *)
Lemma fresh_loc_None s : heap s !! fresh_loc s = None.
Proof.
  apply (not_elem_of_dom (D := gset loc)). unfold fresh_loc. exact (is_fresh (dom (heap s) : gset loc)).
Qed.

Lemma heap_alloc conn s l c :
  heap s !! l = Some c -> heap (alloc conn s).2 !! l = Some c.
Proof.
  intros Hl. cbn. rewrite lookup_insert_ne; [done|]. intros <-.
  by rewrite fresh_loc_None in Hl.
Qed.

Lemma wf_alloc conn s : wf s -> wf (alloc conn s).2.
Proof.
  intros Hwf. assert (forall cid, conn_of (alloc conn s).2 cid = conn_of s cid) as Hco.
  { intros cid. unfold conn_of, alloc, by_id. cbn.
    destruct (_by_id (registry s) !! cid) as [l|] eqn:Hl; [|done]. cbn.
    destruct (wf_id s Hwf cid l Hl) as (c & Hc & _).
    rewrite Hc. by apply heap_alloc. }
  split.
  - intros cid l Hl. destruct (wf_id s Hwf cid l Hl) as (c & Hc & Hcid). exists c.
    split; [|done]. by apply heap_alloc.
  - intros sid cid. setoid_rewrite Hco. apply Hwf.
  - intros tid cid. setoid_rewrite Hco. apply Hwf.
  - intros ch cid. setoid_rewrite Hco. apply Hwf.
Qed.

Lemma conn_of_add l conn s cid :
  heap s !! l = Some conn ->
  conn_of (add l s) cid = if decide (cid = connection_id conn) then Some conn else conn_of s cid.
Proof.
  intros Hl. unfold conn_of, add, by_id. rewrite Hl. cbn.
  destruct (decide (cid = connection_id conn)) as [->|Hne].
  - rewrite lookup_insert_eq. cbn. done.
  - by rewrite lookup_insert_ne.
Qed.

Lemma wf_add l conn s :
  heap s !! l = Some conn -> by_id s !! connection_id conn = None ->
  subscriptions conn = ∅ -> wf s -> wf (add l s).
Proof.
  intros Hl Hfresh Hsub Hwf.
  assert (conn_of s (connection_id conn) = None) as Hnone
    by (unfold conn_of; by rewrite Hfresh).
  split.
  - intros cid l'. unfold add, by_id. rewrite Hl. cbn.
    rewrite lookup_insert_Some. intros [[<- <-]|[_ H]]; [eauto|by apply Hwf].
  - intros sid cid. rewrite (conn_of_add l conn) by done. unfold add. rewrite Hl. cbn.
    rewrite elem_setdefault_add, (wf_session s Hwf). case_decide; naive_solver congruence.
  - intros tid cid. rewrite (conn_of_add l conn) by done. unfold add. rewrite Hl. cbn.
    rewrite elem_setdefault_add, (wf_tenant s Hwf). case_decide; naive_solver congruence.
  - intros ch cid. rewrite (conn_of_add l conn) by done. unfold add. rewrite Hl. cbn.
    rewrite (wf_channel s Hwf). case_decide; [|done]. subst.
    split; intros (c & ? & Hc); simplify_eq. by rewrite Hsub in Hc.
Qed.

(** *** Removal *)
Lemma remove_unknown cid s : by_id s !! cid = None -> remove cid s = (None, s).
Proof. unfold remove, by_id. by intros ->. Qed.

Lemma conn_of_remove cid s cid' :
  wf s ->
  conn_of (remove cid s).2 cid' = if decide (cid' = cid) then None else conn_of s cid'.
Proof.
  intros Hwf. unfold remove, conn_of, by_id.
  destruct (_by_id (registry s) !! cid) as [l|] eqn:Hl.
  - destruct (wf_id s Hwf cid l Hl) as (c & -> & _). cbn.
    destruct (decide (cid' = cid)) as [->|Hne].
    + by rewrite lookup_delete_eq.
    + by rewrite lookup_delete_ne.
  - cbn. case_decide; [subst; by rewrite Hl|done].
Qed.

Lemma wf_remove cid s : wf s -> wf (remove cid s).2.
Proof.
  intros Hwf. destruct (by_id s !! cid) as [l|] eqn:Hl; [|by rewrite remove_unknown].
  destruct (wf_id s Hwf cid l Hl) as (c & Hc & Hcid).
  assert (conn_of s cid = Some c) as Hco by (apply conn_of_Some; eauto).
  pose proof (conn_of_remove cid s) as Hrem. unfold remove in *. unfold by_id in Hl.
  rewrite Hl, Hc in *. split.
  - intros cid' l'. unfold by_id. cbn. rewrite lookup_delete_Some. intros [_ H].
    by apply Hwf.
  - intros sid cid'. rewrite Hrem by done. cbn.
    rewrite elem_get_discard, (wf_session s Hwf). case_decide; naive_solver.
  - intros tid cid'. rewrite Hrem by done. cbn.
    rewrite elem_get_discard, (wf_tenant s Hwf). case_decide; naive_solver.
  - intros ch cid'. rewrite Hrem by done. cbn.
    rewrite elem_discard_all, (wf_channel s Hwf). setoid_rewrite elem_of_elements.
    case_decide; naive_solver.
Qed.

(** *** Subscription *)
Lemma conn_of_alter s cid cid' l f r :
  wf s -> by_id s !! cid = Some l -> _by_id r = by_id s ->
  conn_of (mkStore (alter f l (heap s)) r) cid' =
  if decide (cid' = cid) then f <$> conn_of s cid else conn_of s cid'.
Proof.
  intros Hwf Hl Hr. unfold conn_of, by_id in *. cbn. rewrite Hr.
  destruct (decide (cid' = cid)) as [->|Hne].
  - rewrite Hl. cbn. by rewrite lookup_alter_eq.
  - destruct (_by_id (registry s) !! cid') as [l'|] eqn:Hl'; [|done]. cbn.
    apply lookup_alter_ne. intros <-. by apply Hne, (wf_id_inj s cid' cid l).
Qed.

Lemma wf_resubscribe s cid l f r :
  wf s -> by_id s !! cid = Some l ->
  (forall c, connection_id (f c) = connection_id c /\ session_id (f c) = session_id c /\
             c_tenant_id (f c) = c_tenant_id c) ->
  _by_id r = by_id s -> _by_session r = _by_session (registry s) ->
  _by_tenant r = _by_tenant (registry s) ->
  (forall ch cid', cid' ∈ members (_by_channel r) ch <->
     if decide (cid' = cid) then exists c, conn_of s cid = Some c /\ ch ∈ subscriptions (f c)
     else cid' ∈ members (_by_channel (registry s)) ch) ->
  wf (mkStore (alter f l (heap s)) r).
Proof.
  intros Hwf Hl Hf Hri Hrs Hrt Hrc. destruct (wf_id s Hwf cid l Hl) as (c & Hc & Hcid).
  assert (conn_of s cid = Some c) as Hco by (apply conn_of_Some; eauto).
  split.
  - intros cid' l'. unfold by_id at 1. cbn. rewrite Hri. intros H.
    destruct (wf_id s Hwf cid' l' H) as (c' & Hc' & Hcid').
    destruct (decide (l = l')) as [->|Hne].
    + rewrite lookup_alter_eq, Hc'. cbn. exists (f c'). split; [done|].
      by rewrite (proj1 (Hf c')).
    + rewrite lookup_alter_ne by done. eauto.
  - intros sid cid'. rewrite (conn_of_alter _ cid) by done. cbn. rewrite Hrs, (wf_session s Hwf).
    case_decide; [subst cid'|done]. rewrite Hco. cbn. destruct (Hf c) as (_ & Hs & _).
    naive_solver congruence.
  - intros tid cid'. rewrite (conn_of_alter _ cid) by done. cbn. rewrite Hrt, (wf_tenant s Hwf).
    case_decide; [subst cid'|done]. rewrite Hco. cbn. destruct (Hf c) as (_ & _ & Ht).
    naive_solver congruence.
  - intros ch cid'. rewrite (conn_of_alter _ cid) by done. cbn. rewrite Hrc.
    case_decide; [|by rewrite (wf_channel s Hwf)]. rewrite Hco. cbn. naive_solver.
Qed.

Lemma wf_subscribe cid ch s : wf s -> wf (subscribe cid ch s).
Proof.
  intros Hwf. unfold subscribe. destruct (by_id s !! cid) as [l|] eqn:Hl; [|done].
  apply (wf_resubscribe s cid l); try done. intros ch' cid'. cbn.
  rewrite elem_setdefault_add.
  destruct (wf_id s Hwf cid l Hl) as (c & Hc & Hcid).
  assert (conn_of s cid = Some c) as Hco by (apply conn_of_Some; eauto).
  case_decide; [subst cid'|naive_solver].
  rewrite (wf_channel s Hwf). setoid_rewrite Hco. set_solver.
Qed.

Lemma wf_unsubscribe cid ch s : wf s -> wf (unsubscribe cid ch s).
Proof.
  intros Hwf. unfold unsubscribe. destruct (by_id s !! cid) as [l|] eqn:Hl.
  - apply (wf_resubscribe s cid l); try done. intros ch' cid'. cbn.
    rewrite elem_get_discard.
    destruct (wf_id s Hwf cid l Hl) as (c & Hc & Hcid).
    assert (conn_of s cid = Some c) as Hco by (apply conn_of_Some; eauto).
    case_decide; [subst cid'|naive_solver].
    rewrite (wf_channel s Hwf). setoid_rewrite Hco. set_solver.
  - assert (forall cid' c, conn_of s cid' = Some c -> cid' <> cid) as Hne.
    { intros cid' c H ->. unfold conn_of in H. by rewrite Hl in H. }
    destruct Hwf as [Hi Hs Ht Hc]. split; try done.
    intros ch' cid'. cbn. rewrite elem_get_discard, Hc. unfold conn_of, by_id in *. cbn.
    naive_solver.
Qed.

(** ** The life of the registry *)

(** What the gateway does to the store: a connection is created and
    registered under a new id, removed, subscribed, unsubscribed; other fields
    of connections change. *)
Inductive registry_step : Store -> Store -> Prop :=
| rs_connect conn s :
    by_id s !! connection_id conn = None -> subscriptions conn = ∅ ->
    registry_step s (add (alloc conn s).1 (alloc conn s).2)
| rs_remove cid s : registry_step s (remove cid s).2
| rs_subscribe cid ch s : registry_step s (subscribe cid ch s)
| rs_unsubscribe cid ch s : registry_step s (unsubscribe cid ch s)
| rs_update l f s : unindexed f -> registry_step s (update_conn l f s).

Lemma wf_empty : wf empty_store.
Proof. split; cbn; set_solver. Qed.

Lemma wf_step s s' : registry_step s s' -> wf s -> wf s'.
Proof.
  destruct 1 as [conn s Hf Hs|cid s|cid ch s|cid ch s|l f s Hf]; intros Hwf;
    auto using wf_remove, wf_subscribe, wf_unsubscribe, wf_update.
  apply (wf_add _ conn); [cbn; by rewrite lookup_insert_eq|done|done|by apply wf_alloc].
Qed.

Lemma wf_reachable s : rtc registry_step empty_store s -> wf s.
Proof. apply (rtc_ind_r wf); eauto using wf_empty, wf_step. Qed.

Lemma elem_present s ids l :
  l ∈ present s ids <-> exists cid, cid ∈ ids /\ by_id s !! cid = Some l.
Proof.
  unfold present. rewrite list_elem_of_omap. by setoid_rewrite elem_of_elements.
Qed.

Lemma NoDup_present s ids : wf s -> NoDup (present s ids).
Proof.
  intros Hwf. unfold present. pose proof (NoDup_elements ids) as Hnd. revert Hnd.
  generalize (elements ids) as l. induction l as [|cid l IH]; intros Hnd; cbn; [constructor|].
  apply NoDup_cons in Hnd as [Hni Hnd].
  destruct (by_id s !! cid) as [x|] eqn:Hx; [|by apply IH].
  constructor; [|by apply IH]. rewrite list_elem_of_omap. intros (cid' & Hin & Hx').
  by rewrite (wf_id_inj s cid cid' x) in Hni.
Qed.

(** ** The reference: a scan of all connections *)
Definition scan (f : Connection -> bool) (s : Store) : list loc :=
  filter (fun l => from_option f false (heap s !! l) = true) (all_connections s).

Lemma elem_all_connections s l : l ∈ all_connections s <-> exists cid, by_id s !! cid = Some l.
Proof.
  unfold all_connections. rewrite list_elem_of_fmap. split.
  - intros ([cid l'] & -> & H). apply elem_of_map_to_list in H. eauto.
  - intros [cid H]. exists (cid, l). by rewrite elem_of_map_to_list.
Qed.

Lemma NoDup_all_connections s : wf s -> NoDup (all_connections s).
Proof.
  intros Hwf. unfold all_connections. apply NoDup_fmap_2_strong; [|apply NoDup_map_to_list].
  intros [cid l] [cid' l'] H H' E. cbn in E. subst l'. f_equal.
  apply elem_of_map_to_list in H, H'. by apply (wf_id_inj s cid cid' l).
Qed.

(** An index whose sets are those of a predicate answers like the scan. *)
Lemma present_scan s ids (f : Connection -> bool) :
  wf s -> (forall cid, cid ∈ ids <-> exists c, conn_of s cid = Some c /\ f c = true) ->
  present s ids ≡ₚ scan f s.
Proof.
  intros Hwf Hids. apply NoDup_Permutation; [by apply NoDup_present|
    by apply NoDup_filter, NoDup_all_connections|].
  intros l. unfold scan. rewrite elem_present, list_elem_of_filter, elem_all_connections.
  setoid_rewrite Hids. setoid_rewrite conn_of_Some. split.
  - intros (cid & (c & (l' & Hl & Hc) & Hf) & Hl'). assert (l' = l) as -> by congruence.
    rewrite Hc. eauto.
  - intros (Hf & cid & Hl). destruct (wf_id s Hwf cid l Hl) as (c & Hc & _).
    rewrite Hc in Hf. exists cid. eauto 8.
Qed.

(** Every id of a set that the registry has counts once. *)
Lemma length_present s ids :
  (forall cid, cid ∈ ids -> is_Some (by_id s !! cid)) -> length (present s ids) = size ids.
Proof.
  intros H. unfold present, size, set_size. cbn.
  assert (forall cid, cid ∈ elements ids -> is_Some (by_id s !! cid)) as He
    by (intros cid; rewrite elem_of_elements; apply H).
  revert He. generalize (elements ids) as l. induction l as [|cid l IH]; intros He; [done|].
  cbn. destruct (He cid ltac:(by left)) as [x ->]. cbn. f_equal. apply IH. intros ??. apply He. by right.
Qed.

(** ** Claims *)

(** C12.  The indexes are equivalent to a search through all connections: after
    any history of connects, removals, subscriptions and unsubscriptions,
    [local_subscribers] and [session_connections] return exactly the
    connections a scan of the registry finds, each once, and
    [tenant_connection_count], which the tenant limit is checked against, is
    the number a scan counts. *)
Theorem indexes_equal_scan s :
  rtc registry_step empty_store s ->
  (forall ch, local_subscribers ch s ≡ₚ scan (fun c => bool_decide (ch ∈ subscriptions c)) s) /\
  (forall sid, session_connections sid s ≡ₚ scan (fun c => String.eqb (session_id c) sid) s) /\
  (forall tid, tenant_connection_count tid s =
     Z.of_nat (length (scan (fun c => String.eqb (c_tenant_id c) tid) s))) /\
  NoDup (all_connections s).
Proof.
  intros Hr. apply wf_reachable in Hr as Hwf. split_and!.
  - intros ch. apply present_scan; [done|]. intros cid. rewrite (wf_channel s Hwf).
    by setoid_rewrite bool_decide_eq_true.
  - intros sid. apply present_scan; [done|]. intros cid. rewrite (wf_session s Hwf).
    by setoid_rewrite String.eqb_eq.
  - intros tid. unfold tenant_connection_count. f_equal.
    rewrite <- (present_scan s (members (_by_tenant (registry s)) tid)); [|done|].
    + symmetry. apply length_present. intros cid. rewrite (wf_tenant s Hwf).
      setoid_rewrite conn_of_Some. intros (c & (l & Hl & _) & _). eauto.
    + intros cid. rewrite (wf_tenant s Hwf). by setoid_rewrite String.eqb_eq.
  - by apply NoDup_all_connections.
Qed.

(** A removed connection is forgotten: it is found by no lookup, and by
    no index of subscribers, sessions or tenants. *)
Theorem remove_forgets s cid :
  rtc registry_step empty_store s ->
  let s' := (remove cid s).2 in
  get cid s' = None /\
  (forall ch, cid ∉ members (_by_channel (registry s')) ch) /\
  (forall sid, cid ∉ members (_by_session (registry s')) sid) /\
  (forall tid, cid ∉ members (_by_tenant (registry s')) tid).
Proof.
  intros Hr s'. apply wf_reachable in Hr as Hwf. pose proof (wf_remove cid s Hwf) as Hwf'.
  assert (conn_of s' cid = None) as Hnone.
  { unfold s'. rewrite conn_of_remove by done. by rewrite decide_True. }
  fold s' in Hwf'. split_and!.
  - destruct (get cid s') as [l|] eqn:Hl; [|done].
    destruct (wf_id s' Hwf' cid l Hl) as (c & Hc & _).
    assert (conn_of s' cid = Some c) by (apply conn_of_Some; eauto). congruence.
  - intros ch Hin. apply (wf_channel s' Hwf') in Hin as (c & Hc & _). congruence.
  - intros sid Hin. apply (wf_session s' Hwf') in Hin as (c & Hc & _). congruence.
  - intros tid Hin. apply (wf_tenant s' Hwf') in Hin as (c & Hc & _). congruence.
Qed.

(** *** A store with two connections of one tenant, one of them subscribed *)
Definition conn_a : Connection := new_connection "c-a" "s-a" "t-1" 0 ACTIVE 0.
Definition conn_b : Connection := new_connection "c-b" "s-b" "t-1" 1 ACTIVE 0.
Definition store_a : Store := add (alloc conn_a empty_store).1 (alloc conn_a empty_store).2.
Definition store_ab : Store := add (alloc conn_b store_a).1 (alloc conn_b store_a).2.
Definition store_sub : Store := subscribe "c-a" "t-1:chat" store_ab.

Lemma store_sub_reachable : rtc registry_step empty_store store_sub.
Proof.
  apply (rtc_l _ _ store_a); [by apply rs_connect|].
  apply (rtc_l _ _ store_ab); [by apply rs_connect|].
  apply rtc_once, rs_subscribe.
Qed.

Lemma indexes_equal_scan_witness :
  local_subscribers "t-1:chat" store_sub ≡ₚ [0%nat] /\ tenant_connection_count "t-1" store_sub = 2.
Proof.
  destruct (indexes_equal_scan store_sub store_sub_reachable) as (H & _ & Ht & _).
  rewrite H, Ht. by vm_compute.
Defined.

Lemma remove_forgets_witness : get "c-a" (remove "c-a" store_sub).2 = None.
Proof. exact (proj1 (remove_forgets store_sub "c-a" store_sub_reachable)). Defined.
