(* ===== verification/State.v ===== *)
(** * The state of a gateway process

    The module-level objects of the gateway: the connection heap and registry
    ([connections/manager.py]), the subscription manager with its listener
    tasks ([rooms/subscriptions.py]), the background terminations fanout has
    started ([fanout/publisher.py]), [METRICS] ([observability/metrics.py]) and
    the flags of the application ([main.py]), the handshake semaphore
    ([websocket/handler.py]) and the task of the node registrar
    ([nodes/registration.py]). *)
From Stdlib Require Import ZArith Lia.
From stdpp Require Import base gmap strings list sets.
From S2P Require Import Prelude Config RedisApi Async Handshake Connection Registry.

(** A [run_pubsub_listener] task with its stop event, as the subscription
    manager sees it. *)
Record ListenerTask := mkListener {
  lt_channel : string;
  lt_stop : bool;
  lt_cancelled : bool;
  lt_done : bool
}.

Record ChannelSubscriptionManager := mkManager {
  _listeners : gmap string nat;
  _local_subscriber_counts : gmap string Z
}.

Record Gateway := mkGateway {
  store : Store;
  manager : ChannelSubscriptionManager;
  listener_tasks : gmap nat ListenerTask;
  terminating : list loc;
  METRICS : gmap string Z;
  draining : bool;
  node_status : string;
  handshake_semaphore : Semaphore;
  (* a history variable: the sockets whose handshake is in progress *)
  handshaking : gset nat;
  (* the [_task] of the registrar: not started, running or cancelled *)
  registrar_task : option bool
}.

Definition initial_gateway : Gateway :=
  mkGateway empty_store (mkManager ∅ ∅) ∅ [] ∅ false "active"
    (_handshake_semaphore default_settings) ∅ None.

(** ** Field updates *)
Definition with_store (f : Store -> Store) (g : Gateway) : Gateway :=
  mkGateway (f (store g)) (manager g) (listener_tasks g) (terminating g) (METRICS g)
    (draining g) (node_status g) (handshake_semaphore g) (handshaking g) (registrar_task g).
Definition with_manager (f : ChannelSubscriptionManager -> ChannelSubscriptionManager)
    (g : Gateway) : Gateway :=
  mkGateway (store g) (f (manager g)) (listener_tasks g) (terminating g) (METRICS g)
    (draining g) (node_status g) (handshake_semaphore g) (handshaking g) (registrar_task g).
Definition with_tasks (f : gmap nat ListenerTask -> gmap nat ListenerTask)
    (g : Gateway) : Gateway :=
  mkGateway (store g) (manager g) (f (listener_tasks g)) (terminating g) (METRICS g)
    (draining g) (node_status g) (handshake_semaphore g) (handshaking g) (registrar_task g).
Definition spawn_termination (l : loc) (g : Gateway) : Gateway :=
  mkGateway (store g) (manager g) (listener_tasks g) (terminating g ++ [l]) (METRICS g)
    (draining g) (node_status g) (handshake_semaphore g) (handshaking g) (registrar_task g).
(** [METRICS[name] = n] and [METRICS[name] += n]. *)
Definition metric_set (name : string) (n : Z) (g : Gateway) : Gateway :=
  mkGateway (store g) (manager g) (listener_tasks g) (terminating g) (<[name := n]> (METRICS g))
    (draining g) (node_status g) (handshake_semaphore g) (handshaking g) (registrar_task g).
Definition metric_add (name : string) (n : Z) (g : Gateway) : Gateway :=
  metric_set name (default 0 (METRICS g !! name) + n) g.
Definition set_draining (b : bool) (g : Gateway) : Gateway :=
  mkGateway (store g) (manager g) (listener_tasks g) (terminating g) (METRICS g)
    b (node_status g) (handshake_semaphore g) (handshaking g) (registrar_task g).
Definition set_node_status (s : string) (g : Gateway) : Gateway :=
  mkGateway (store g) (manager g) (listener_tasks g) (terminating g) (METRICS g)
    (draining g) s (handshake_semaphore g) (handshaking g) (registrar_task g).
Definition with_semaphore (f : Semaphore -> Semaphore) (g : Gateway) : Gateway :=
  mkGateway (store g) (manager g) (listener_tasks g) (terminating g) (METRICS g)
    (draining g) (node_status g) (f (handshake_semaphore g)) (handshaking g) (registrar_task g).
Definition with_handshaking (f : gset nat -> gset nat) (g : Gateway) : Gateway :=
  mkGateway (store g) (manager g) (listener_tasks g) (terminating g) (METRICS g)
    (draining g) (node_status g) (handshake_semaphore g) (f (handshaking g)) (registrar_task g).
Definition set_registrar_task (b : option bool) (g : Gateway) : Gateway :=
  mkGateway (store g) (manager g) (listener_tasks g) (terminating g) (METRICS g)
    (draining g) (node_status g) (handshake_semaphore g) (handshaking g) b.

(** The object at a reference, and an assignment to its fields. *)
Definition conn_at (l : loc) (g : Gateway) : option Connection := heap (store g) !! l.
Definition update_at (l : loc) (f : Connection -> Connection) : Gateway -> Gateway :=
  with_store (update_conn l f).
