(* ===== verification/Clients.v ===== *)
(** * The objects a process shares
    ([packages/redis/client.py], [rooms/subscriptions.py])

    Module-level variables that are created on first use: the Redis client and
    the subscription manager.  Clients are references; the heap says which of
    them are still open.  What a client does with its options belongs to
    redis-py; its retries are the repeated executions of [Async.request]. *)
From Stdlib Require Import ZArith Lia.
From stdpp Require Import base gmap strings list sets.
From S2P Require Import Prelude Config RedisApi Async Connection Registry State.

(** The arguments of [redis.from_url]; times in milliseconds. *)
Record RedisOptions := mkOptions {
  opt_url : string;
  decode_responses : bool;
  health_check_interval_ms : Z;
  socket_connect_timeout_ms : Z;
  socket_keepalive : bool;
  backoff_base_ms : Z;
  backoff_cap_ms : Z;
  retries : nat;
  retry_on_error : list string
}.

Definition redis_options (settings : Settings) : RedisOptions :=
  mkOptions (redis_url settings) true 10000 2000 true 50 1000 3 ["ConnectionError"; "TimeoutError"].

Record Globals := mkGlobals {
  _pool : option nat;
  clients : gmap nat (RedisOptions * bool);  (* is it open? *)
  (* the manager with the node id it was made with *)
  subscription_manager : option (string * ChannelSubscriptionManager)
}.

Definition initial_globals : Globals := mkGlobals None ∅ None.

Definition get_redis (settings : Settings) (p : Globals) : nat * Globals :=
  match _pool p with
  | Some c => (c, p)
  | None =>
      let c := fresh (dom (clients p) : gset nat) in
      (c, mkGlobals (Some c) (<[c := (redis_options settings, true)]> (clients p))
            (subscription_manager p))
  end.

(** [closing] is how [_pool.aclose()] ends: by an exception, or normally. *)
Definition close_redis (closing : option exn) (p : Globals) : (exn + unit) * Globals :=
  match _pool p with
  | None => (inr tt, p)
  | Some c =>
      match closing with
      | Some x => (inl x, p)
      | None => (inr tt, mkGlobals None (alter (fun o => (o.1, false)) c (clients p))
                           (subscription_manager p))
      end
  end.

Definition get_subscription_manager (settings : Settings) (p : Globals) :
    (string * ChannelSubscriptionManager) * Globals :=
  match subscription_manager p with
  | Some m => (m, p)
  | None =>
      let m := (node_id settings, mkManager ∅ ∅) in
      (m, mkGlobals (_pool p) (clients p) (Some m))
  end.

Section Shared.
Variable settings : Settings.

Inductive globals_step : Globals -> Globals -> Prop :=
| gl_get p : globals_step p (get_redis settings p).2
| gl_close closing p : globals_step p (close_redis closing p).2
| gl_manager p : globals_step p (get_subscription_manager settings p).2.

(** The open clients are the pooled one, if there is one. *)
Definition pooled (p : Globals) : Prop :=
  forall c o, clients p !! c = Some (o, true) <-> _pool p = Some c /\ o = redis_options settings.

Lemma pooled_step (p p' : Globals) : globals_step p p' -> pooled p -> pooled p'.
Proof.
  intros Hs Hp. destruct Hs as [p|closing p|p].
  - unfold get_redis. destruct (_pool p) as [c0|] eqn:E; [done|]. intros c o. cbn.
    rewrite lookup_insert_Some, (Hp c o), E. split; [naive_solver|].
    intros [[= <-] ->]. by left.
  - unfold close_redis. destruct (_pool p) as [c0|] eqn:E; [|done]. destruct closing; [done|].
    intros c o. cbn.
    rewrite lookup_alter. destruct (decide (c0 = c)) as [<-|Hne].
    + rewrite fmap_Some. naive_solver.
    + rewrite (Hp c o), E. naive_solver.
  - unfold get_subscription_manager. by destruct (subscription_manager p).
Qed.

Lemma pooled_initial : pooled initial_globals.
Proof. intros c o. cbn. rewrite lookup_empty. naive_solver. Qed.

(** Whatever was called before, [get_redis] returns the one open client, and
    returns it again; after [close_redis] none is open, unless [aclose] raises,
    which goes on to the caller and leaves everything as it was; the manager
    stays. *)
Lemma one_client (p : Globals) :
  rtc globals_step initial_globals p ->
  let '(c, p') := get_redis settings p in
  (forall c' o, clients p' !! c' = Some (o, true) <-> c' = c /\ o = redis_options settings) /\
  get_redis settings p' = (c, p') /\
  (forall c' o, clients (close_redis None p').2 !! c' <> Some (o, true)) /\
  (forall x, close_redis (Some x) p' = (inl x, p')) /\
  (get_subscription_manager settings (get_subscription_manager settings p).2).1 =
    (get_subscription_manager settings p).1.
Proof.
  intros Hr. assert (pooled p) as Hp.
  { revert p Hr. apply (rtc_ind_r pooled); [apply pooled_initial|eauto using pooled_step]. }
  pose proof (pooled_step _ _ (gl_get p) Hp) as Hp1.
  assert (_pool (get_redis settings p).2 = Some (get_redis settings p).1) as Hpool
    by (unfold get_redis; by destruct (_pool p) eqn:?).
  pose proof (pooled_step _ _ (gl_close None (get_redis settings p).2) Hp1) as Hp2.
  destruct (get_redis settings p) as [c p']. cbn in *. split_and!.
  - intros c' o. rewrite (Hp1 c' o), Hpool. naive_solver.
  - unfold get_redis. by rewrite Hpool.
  - intros c' o H. apply Hp2 in H as [H _]. unfold close_redis in H. by rewrite Hpool in H.
  - intros x. unfold close_redis. by rewrite Hpool.
  - unfold get_subscription_manager. destruct (subscription_manager p) eqn:E; cbn; by rewrite ?E.
Qed.

End Shared.
