(* ===== verification/Rooms.v ===== *)
(** * Channel subscriptions of a node
    ([apps/gateway/rooms/subscriptions.py], [ChannelSubscriptionManager])

    One listener task per channel with local subscribers, kept alive by a
    reference count.  The count is taken before the first suspension point of
    [on_local_subscribe] and the listener is started after the last one. *)
From Stdlib Require Import ZArith Lia.
From stdpp Require Import base gmap strings list sets.
From S2P Require Import Prelude Config Keys RedisApi Async Tasks RefRedis Samples Connection Registry State.

(** ** The synchronous parts *)

Definition count_of (channel : string) (g : Gateway) : Z :=
  default 0 (_local_subscriber_counts (manager g) !! channel).

Definition set_count (channel : string) (n : Z) (g : Gateway) : Gateway :=
  with_manager (fun m => mkManager (_listeners m)
    (<[channel := n]> (_local_subscriber_counts m))) g.

(** [existing is None or existing[0].done()] *)
Definition needs_listener (channel : string) (g : Gateway) : bool :=
  match _listeners (manager g) !! channel with
  | None => true
  | Some t => match listener_tasks g !! t with
              | Some task => lt_done task
              | None => true
              end
  end.

(** [create_task(run_pubsub_listener(r, channel, stop_event))] *)
Definition start_listener (channel : string) (g : Gateway) : Gateway :=
  let t := fresh (dom (listener_tasks g) : gset nat) in
  with_manager (fun m => mkManager (<[channel := t]> (_listeners m)) (_local_subscriber_counts m))
    (with_tasks (<[t := mkListener channel false false false]>) g).

Definition ensure_listener (channel : string) (g : Gateway) : Gateway :=
  if needs_listener channel g then start_listener channel g else g.

(** [stop_event.set(); task.cancel()] *)
Definition stop_task (t : ListenerTask) : ListenerTask :=
  mkListener (lt_channel t) true true (lt_done t).

(** [if channel in self._listeners: ...] *)
Definition stop_listener (channel : string) (g : Gateway) : Gateway :=
  match _listeners (manager g) !! channel with
  | None => g
  | Some t =>
      with_manager (fun m => mkManager (base.delete channel (_listeners m)) (_local_subscriber_counts m))
        (with_tasks (alter stop_task t) g)
  end.

(** The part of [on_local_unsubscribe] before its suspension point; the result
    tells whether the node leaves the channel. *)
Definition release_channel (channel : string) (g : Gateway) : bool * Gateway :=
  let count := count_of channel g - 1 in
  if count <=? 0 then
    (true, stop_listener channel
             (with_manager (fun m => mkManager (_listeners m)
                (base.delete channel (_local_subscriber_counts m))) g))
  else (false, set_count channel count g).

Section Ops.
Variable settings : Settings.

Definition on_local_subscribe (channel : string) : proc Gateway unit :=
  modify (fun g => set_count channel (count_of channel g + 1) g) ;;
  redis (SADD (RedisKeys.room_nodes channel) (node_id settings)) ;;
  redis (EXPIRE (RedisKeys.room_nodes channel) (node_ttl_seconds settings * 3)) ;;
  modify (ensure_listener channel).

Definition on_local_unsubscribe (channel : string) : proc Gateway unit :=
  let! last := local (release_channel channel) in
  if last then redis (SREM (RedisKeys.room_nodes channel) (node_id settings)) else Ret tt.

Definition shutdown : proc Gateway unit :=
  modify (fun g =>
    let stopped := foldr (alter stop_task) (listener_tasks g)
                     (map_to_list (_listeners (manager g))).*2 in
    with_manager (fun m => mkManager ∅ (_local_subscriber_counts m))
      (with_tasks (fun _ => stopped) g)).

End Ops.

(** ** Listeners *)

(** The listener of a channel is running and nobody told it to stop. *)
Definition live_listener (g : Gateway) (channel : string) : Prop :=
  exists t task, _listeners (manager g) !! channel = Some t /\
    listener_tasks g !! t = Some task /\
    lt_channel task = channel /\ lt_stop task = false /\
    lt_cancelled task = false /\ lt_done task = false.

(** The manager's bookkeeping: the listeners it knows are live, no task serves
    two channels, and the counts it keeps are positive. *)
Record manager_wf (g : Gateway) : Prop := {
  mwf_live : forall ch, is_Some (_listeners (manager g) !! ch) -> live_listener g ch;
  mwf_count : forall ch n, _local_subscriber_counts (manager g) !! ch = Some n -> 0 < n
}.

Lemma count_of_set ch ch' n g :
  count_of ch' (set_count ch n g) = if decide (ch = ch') then n else count_of ch' g.
Proof.
  unfold count_of. cbn. destruct (decide (ch = ch')) as [->|].
  - by rewrite lookup_insert_eq.
  - by rewrite lookup_insert_ne.
Qed.

Lemma count_nonneg g ch : manager_wf g -> 0 <= count_of ch g.
Proof.
  intros Hwf. unfold count_of. destruct (_ !! ch) as [n|] eqn:E; cbn; [|lia].
  apply (mwf_count g Hwf) in E. lia.
Qed.

Lemma live_set_count ch n g ch' : live_listener (set_count ch n g) ch' <-> live_listener g ch'.
Proof. done. Qed.

Lemma manager_wf_count ch g :
  manager_wf g -> manager_wf (set_count ch (count_of ch g + 1) g).
Proof.
  intros Hwf. pose proof (count_nonneg g ch Hwf). destruct Hwf as [Hl Hc]. split; cbn.
  - exact Hl.
  - intros ch' n. rewrite lookup_insert_Some. intros [[_ <-]|[_ H']]; [lia|eauto].
Qed.

(** A new task leaves the others alone. *)
Lemma live_start ch g ch' :
  live_listener (start_listener ch g) ch' <-> ch' = ch \/ (ch' <> ch /\ live_listener g ch').
Proof.
  unfold live_listener, start_listener. cbn.
  set (t := fresh (dom (listener_tasks g) : gset nat)).
  assert (listener_tasks g !! t = None) as Hfresh
    by (apply (not_elem_of_dom (D := gset nat)); exact (is_fresh (dom (listener_tasks g) : gset nat))).
  split.
  - intros (t' & task & Hl & Ht & Hrest). destruct (decide (ch' = ch)) as [|Hne]; [by left|].
    right. split; [done|]. rewrite lookup_insert_ne in Hl by done.
    rewrite lookup_insert in Ht. case_decide as Heq.
    + destruct Hrest as [Hch _]. simplify_eq/=.
    + eauto 10.
  - intros [->|[Hne (t' & task & Hl & Ht & Hrest)]].
    + exists t. rewrite !lookup_insert_eq. eauto 10.
    + exists t', task. rewrite lookup_insert_ne by done. split; [done|].
      rewrite lookup_insert_ne; [done|]. intros <-. by rewrite Hfresh in Ht.
Qed.

Lemma manager_wf_start ch g :
  manager_wf g -> manager_wf (start_listener ch g).
Proof.
  intros [Hl Hc]. split.
  - intros ch'. cbn. rewrite lookup_insert. intros H. apply live_start.
    destruct (decide (ch' = ch)); [by left|right]. rewrite decide_False in H by done. auto.
  - exact Hc.
Qed.

Lemma needs_listener_false ch g :
  manager_wf g -> needs_listener ch g = false <-> live_listener g ch.
Proof.
  intros Hwf. unfold needs_listener. split.
  - intros H. apply Hwf. by destruct (_ !! ch).
  - intros (t & task & -> & -> & _ & _ & _ & ->). done.
Qed.

Lemma manager_wf_ensure ch g : manager_wf g -> manager_wf (ensure_listener ch g).
Proof.
  intros Hwf. unfold ensure_listener. destruct (needs_listener ch g); [|done].
  by apply manager_wf_start.
Qed.

Lemma live_ensure ch g ch' :
  manager_wf g -> live_listener (ensure_listener ch g) ch' <-> ch' = ch \/ live_listener g ch'.
Proof.
  intros Hwf. unfold ensure_listener. destruct (needs_listener ch g) eqn:E.
  - rewrite live_start. destruct (decide (ch' = ch)); tauto.
  - apply needs_listener_false in E; [|done]. split; [by right|]. by intros [->|].
Qed.

Lemma count_ensure ch g ch' : count_of ch' (ensure_listener ch g) = count_of ch' g.
Proof. unfold ensure_listener. by destruct (needs_listener ch g). Qed.

(** *** Release *)
Lemma live_stop ch g ch' :
  manager_wf g -> live_listener (stop_listener ch g) ch' <-> ch' <> ch /\ live_listener g ch'.
Proof.
  intros Hwf. unfold stop_listener. destruct (_listeners (manager g) !! ch) as [t|] eqn:E.
  - destruct (mwf_live g Hwf ch (ex_intro _ t E)) as (t0 & task0 & E0 & Ht0 & Hch0 & _).
    rewrite E in E0. simplify_eq. unfold live_listener. cbn. split.
    + intros (t' & task & Hl & Ht & Hc & Hs & Hrest). apply lookup_delete_Some in Hl as [Hne Hl].
      split; [done|]. rewrite lookup_alter in Ht. case_decide as Htt.
      * subst. rewrite Ht0 in Ht. simplify_eq/=.
      * eauto 10.
    + intros (Hne & t' & task & Hl & Ht & Hc & Hrest). exists t', task.
      rewrite lookup_delete_ne by done. split; [done|]. rewrite lookup_alter_ne; [by split|].
      intros <-. rewrite Ht0 in Ht. simplify_eq.
  - split; [|by intros [_ H]]. intros H. split; [|done]. intros ->.
    destruct H as (t & _ & Hl & _). congruence.
Qed.

Lemma manager_wf_stop ch g : manager_wf g -> manager_wf (stop_listener ch g).
Proof.
  intros Hwf. split.
  - intros ch' Hs. apply live_stop; [done|]. unfold stop_listener in Hs.
    destruct (_listeners (manager g) !! ch) as [t|] eqn:E.
    + cbn in Hs. destruct Hs as [x Hs]. apply lookup_delete_Some in Hs as [Hne Hs].
      split; [done|]. apply Hwf. eauto.
    + split; [|by apply Hwf]. intros ->. rewrite E in Hs. by destruct Hs.
  - unfold stop_listener. destruct (_listeners (manager g) !! ch); apply Hwf.
Qed.

Lemma count_stop ch g ch' : count_of ch' (stop_listener ch g) = count_of ch' g.
Proof. unfold stop_listener. by destruct (_listeners (manager g) !! ch). Qed.

Lemma manager_wf_release ch g : manager_wf g -> manager_wf (release_channel ch g).2.
Proof.
  intros Hwf. unfold release_channel. destruct (Z.leb_spec (count_of ch g - 1) 0); cbn.
  - apply manager_wf_stop. destruct Hwf as [Hl Hc]. split; cbn; [exact Hl|].
    intros ch' n. rewrite lookup_delete_Some. intros [_ Hn]. eauto.
  - destruct Hwf as [Hl Hc]. split; cbn; [exact Hl|].
    intros ch' n. rewrite lookup_insert_Some. intros [[_ <-]|[_ H']]; [lia|eauto].
Qed.

Lemma count_release ch g ch' :
  manager_wf g ->
  count_of ch' (release_channel ch g).2 =
  if decide (ch = ch') then Z.max 0 (count_of ch g - 1) else count_of ch' g.
Proof.
  intros Hwf. unfold release_channel. destruct (Z.leb_spec (count_of ch g - 1) 0); cbn [snd].
  - rewrite count_stop. unfold count_of. cbn. rewrite lookup_delete. case_decide; [|done].
    unfold count_of in *. cbn. lia.
  - rewrite count_of_set. case_decide; [lia|done].
Qed.

Lemma live_release ch g ch' :
  manager_wf g ->
  live_listener (release_channel ch g).2 ch' <->
  live_listener g ch' /\ ~ (ch' = ch /\ count_of ch g <= 1).
Proof.
  intros Hwf. unfold release_channel. destruct (Z.leb_spec (count_of ch g - 1) 0) as [H|H]; cbn [snd].
  - rewrite live_stop; [|by split; [apply Hwf|]; cbn; intros ch0 n; rewrite lookup_delete_Some;
      intros [_ Hn]; apply Hwf in Hn].
    change (live_listener (with_manager _ g) ch') with (live_listener g ch').
    split; [intros []|intros [? Hn]]; split; try done; [tauto|]. intros ->. apply Hn. split; [done|lia].
  - rewrite live_set_count. split; [|tauto]. intros. split; [done|]. intros [_ ?]. lia.
Qed.

(** ** Refinement to a reference count *)
Inductive room_op := Subscribe (channel : string) | Unsubscribe (channel : string).

Definition room_call (settings : Settings) (o : room_op) : proc Gateway unit :=
  match o with
  | Subscribe ch => on_local_subscribe settings ch
  | Unsubscribe ch => on_local_unsubscribe settings ch
  end.

(** The specification: a counter per channel, never below zero. *)
Definition ref_counts : Type := string -> nat.
Definition ref_op (o : room_op) (a : ref_counts) : ref_counts :=
  match o with
  | Subscribe ch => fun ch' => if decide (ch = ch') then S (a ch') else a ch'
  | Unsubscribe ch => fun ch' => if decide (ch = ch') then pred (a ch') else a ch'
  end.

(** A gateway implements the counters: equal counts, and a live listener for
    exactly the channels with a positive count. *)
Definition implements (g : Gateway) (a : ref_counts) : Prop :=
  manager_wf g /\
  forall ch, count_of ch g = Z.of_nat (a ch) /\ (live_listener g ch <-> (0 < a ch)%nat).

Lemma implements_subscribe ch g a :
  implements g a ->
  implements (ensure_listener ch (set_count ch (count_of ch g + 1) g)) (ref_op (Subscribe ch) a).
Proof.
  intros [Hwf Ha]. pose proof (manager_wf_count ch g Hwf) as Hwf'.
  split; [by apply manager_wf_ensure|]. intros ch'. destruct (Ha ch') as [Hc Hl].
  rewrite count_ensure, count_of_set, live_ensure by done. rewrite live_set_count, Hl. cbn.
  case_decide; [subst; split; [lia|]|split; [done|]].
  - split; [lia|by left].
  - split; [by intros [->|]|by right].
Qed.

Lemma implements_unsubscribe ch g a :
  implements g a -> implements (release_channel ch g).2 (ref_op (Unsubscribe ch) a).
Proof.
  intros [Hwf Ha]. split; [by apply manager_wf_release|].
  intros ch'. destruct (Ha ch') as [Hc Hl]. destruct (Ha ch) as [Hc0 _].
  rewrite count_release, live_release, Hl by done. cbn. case_decide as Heq.
  - subst. split; [lia|]. split; [intros [H1 H2]|intros H].
    + destruct (decide (a ch' <= 1)%nat); [exfalso; apply H2; split; [done|lia]|lia].
    + split; [lia|]. intros [_ H']. lia.
  - split; [done|]. split; [tauto|]. intros. split; [done|]. by intros [-> _].
Qed.

(** *** Running the operations *)
Section Run.
Context {Rd : Redis} {Rl : RedisLaws}.
Variable settings : Settings.
Variable e : env.
Hypothesis Hrel : reliable e.
Hypothesis Hmono : mono_clock e.

(** The keys of the rooms hold sets, from [t] on. *)
Definition room_sets (d : db) (t : Z) : Prop :=
  forall ch u, t <= u -> is_Some (as_set (sees d u (RedisKeys.room_nodes ch))).

Lemma room_sets_later d t u : t <= u -> room_sets d t -> room_sets d u.
Proof. intros Htu H ch v Hv. apply H. lia. Qed.

(** A command that leaves a set, or nothing, under a key of a room. *)
Lemma room_sets_changes d d' t k f :
  changes t d d' k f -> (forall u, t <= u -> is_Some (as_set (f u))) ->
  room_sets d t -> room_sets d' t.
Proof.
  intros Hch Hf H ch u Hu. destruct (decide (RedisKeys.room_nodes ch = k)) as [<-|Hne].
  - rewrite (changes_at _ _ _ _ _ _ Hch) by done. by apply Hf.
  - rewrite (changes_frame _ _ _ _ _ _ _ Hch) by done. by apply H.
Qed.

Lemma as_set_keep_ttl d t k x u : is_Some (as_set (keep_ttl t d k (VSet x) u)).
Proof. unfold keep_ttl. repeat case_match; eauto. Qed.

Notation at_ w := (clock e (w_tick w)).

Lemma run_on_local_subscribe (ch : string) (w : world Gateway) :
  room_sets (w_db w) (at_ w) ->
  exists w', run e (on_local_subscribe settings ch) w = (inr tt, w') /\
    w_state w' = ensure_listener ch (set_count ch (count_of ch (w_state w) + 1) (w_state w)) /\
    (w_tick w <= w_tick w')%nat /\ room_sets (w_db w') (at_ w') /\ w_out w' = w_out w /\
    plog (w_db w') = plog (w_db w) /\
    (forall k u, k <> RedisKeys.room_nodes ch -> at_ w' <= u ->
       sees (w_db w') u k = sees (w_db w) u k).
Proof.
  intros Hs. unfold on_local_subscribe, modify. rewrite run_bind. cbn [run local do_ev].
  apply (room_sets_later _ _ (clock e (1 + w_tick w))) in Hs; [|apply Hmono; lia].
  destruct (Hs ch _ ltac:(reflexivity)) as [x Hx]. run_step Hrel.
  apply (law_sadd _ _ x) in E as [-> Hch]; [|done].
  apply (room_sets_changes _ _ _ _ _ Hch) in Hs; [|eauto using as_set_keep_ttl].
  run_step Hrel. apply law_expire in E as [-> Hch'].
  apply (room_sets_later _ _ (clock e (1 + (1 + w_tick w)))) in Hs; [|apply Hmono; lia].
  apply (room_sets_changes _ _ _ _ _ Hch') in Hs.
  2:{ intros u Hu. destruct (Hs ch _ ltac:(reflexivity)) as [y Hy].
      destruct (sees d _ _) as [v|]; cbn; [|eauto].
      unfold expiring. by case_match; eauto. }
  eexists. split; [reflexivity|]. cbn. split_and!; [done|lia| |done| |].
  - eapply room_sets_later, Hs. apply Hmono; lia.
  - by rewrite (changes_plog _ _ _ _ _ Hch'), (changes_plog _ _ _ _ _ Hch).
  - intros k u Hk Hu. pose proof (Hmono (1 + w_tick w)%nat (4 + w_tick w)%nat ltac:(lia)).
    pose proof (Hmono (2 + w_tick w)%nat (4 + w_tick w)%nat ltac:(lia)). cbn in *.
    rewrite (changes_frame _ _ _ _ _ _ _ Hch'), (changes_frame _ _ _ _ _ _ _ Hch); [done|lia|done|lia|done].
Qed.

Lemma run_on_local_unsubscribe (ch : string) (w : world Gateway) :
  room_sets (w_db w) (at_ w) ->
  exists w', run e (on_local_unsubscribe settings ch) w = (inr tt, w') /\
    w_state w' = (release_channel ch (w_state w)).2 /\
    (w_tick w <= w_tick w')%nat /\ room_sets (w_db w') (at_ w') /\ w_out w' = w_out w /\
    forall u k, at_ w' <= u -> (forall ch', k <> RedisKeys.room_nodes ch') ->
      sees (w_db w') u k = sees (w_db w) u k.
Proof.
  intros Hs. unfold on_local_unsubscribe. rewrite run_bind. cbn [run local do_ev].
  destruct (release_channel ch (w_state w)) as [last g'] eqn:Hr. cbn.
  apply (room_sets_later _ _ (clock e (1 + w_tick w))) in Hs; [|apply Hmono; lia].
  destruct last.
  - destruct (Hs ch _ ltac:(reflexivity)) as [x Hx].
    rewrite run_redis by apply Hrel. cbn. destruct (rexec _ _ _) as [r d'] eqn:E.
    apply (law_srem _ _ x) in E as [-> Hch]; [|done].
    eexists. split; [reflexivity|]. cbn. split_and!; [done|lia| |done|].
    + apply (room_sets_later _ (clock e (1 + w_tick w))); [apply Hmono; lia|].
      eapply room_sets_changes; [done| |done].
      intros u Hu. case_bool_decide; [by eexists|apply as_set_keep_ttl].
    + intros u k Hu Hk. apply (changes_frame _ _ _ _ _ _ _ Hch); [|done].
      etransitivity; [|exact Hu]. apply Hmono. lia.
  - cbn. eexists. split; [reflexivity|]. cbn. split_and!; [done|lia|done|done|done].
Qed.

Lemma run_room_calls (ops : list room_op) : forall (w : world Gateway) (a : ref_counts),
  room_sets (w_db w) (at_ w) -> implements (w_state w) a ->
  exists w', run e (for_each ops (room_call settings)) w = (inr tt, w') /\
    implements (w_state w') (foldl (fun a o => ref_op o a) a ops).
Proof.
  induction ops as [|o ops IH]; intros w a Hs Ha; [by exists w|].
  cbn [for_each]. destruct o as [ch|ch]; cbn [room_call]; rewrite run_bind.
  - destruct (run_on_local_subscribe ch w Hs) as (w1 & -> & Hst & _ & Hs1 & _).
    apply IH; [done|]. rewrite Hst. by apply implements_subscribe.
  - destruct (run_on_local_unsubscribe ch w Hs) as (w1 & -> & Hst & _ & Hs1 & _).
    apply IH; [done|]. rewrite Hst. by apply implements_unsubscribe.
Qed.

End Run.

Lemma implements_initial : implements initial_gateway (fun _ => 0%nat).
Proof.
  split; [split|]; cbn.
  - intros ch [x Hx]. set_solver.
  - intros ch n Hn. set_solver.
  - intros ch. split; [done|]. split; [|lia]. intros (t & _ & Ht & _). set_solver.
Qed.

(** Every synchronous step of the subscription manager keeps its bookkeeping,
    so it holds in every interleaving. *)
Lemma keeps_subscribe settings ch : keeps manager_wf (on_local_subscribe settings ch).
Proof.
  unfold on_local_subscribe. apply keeps_bind; [|intros _]; [|apply keeps_bind; [|intros _]];
    [|auto with relay|apply keeps_bind; [auto with relay|intros _]];
    apply keeps_modify; eauto using manager_wf_count, manager_wf_ensure.
Qed.

Lemma keeps_unsubscribe settings ch : keeps manager_wf (on_local_unsubscribe settings ch).
Proof.
  unfold on_local_unsubscribe. apply keeps_bind.
  - apply keeps_local. eauto using manager_wf_release.
  - intros []; [auto with relay|done].
Qed.

(** ** Claims *)

(** C14.  The subscription manager implements a reference count: after any
    sequence of local subscriptions and unsubscriptions the stored counts are
    the specified ones, and exactly the channels with a positive count have a
    running listener. *)
Theorem rooms_implement_refcount {Rd : Redis} {Rl : RedisLaws} (settings : Settings) (e : env)
    (ops : list room_op) (d : db) :
  reliable e -> mono_clock e -> room_sets d (clock e 0) ->
  exists w', run e (for_each ops (room_call settings)) (mkWorld 0 d initial_gateway [])
               = (inr tt, w') /\
    forall ch, let n := foldl (fun a o => ref_op o a) (fun _ => 0%nat) ops ch in
      count_of ch (w_state w') = Z.of_nat n /\
      (live_listener (w_state w') ch <-> (0 < n)%nat).
Proof.
  intros Hrel Hmono Hs.
  destruct (run_room_calls settings e Hrel Hmono ops (mkWorld 0 d initial_gateway [])
              (fun _ => 0%nat) Hs implements_initial) as (w' & Hrun & _ & Ha). eauto.
Qed.

Lemma rooms_implement_refcount_witness :
  exists w', run calm (for_each [Subscribe "t-1:chat"; Subscribe "t-1:chat"; Unsubscribe "t-1:chat"]
                    (room_call default_settings))
               (ref_world 0 Ref.empty initial_gateway) = (inr tt, w') /\
    live_listener (w_state w') "t-1:chat".
Proof.
  destruct (rooms_implement_refcount (Rd := Ref.ref_redis) default_settings calm
    [Subscribe "t-1:chat"; Subscribe "t-1:chat"; Unsubscribe "t-1:chat"] Ref.empty
    calm_reliable calm_mono) as (w' & Hrun & Hw).
  - intros ch u _. by eexists.
  - exists w'. split; [exact Hrun|]. apply (Hw "t-1:chat"). vm_compute. lia.
Defined.

(** Whatever the interleaving of subscriptions and unsubscriptions of any
    connections, and whatever Redis does to their requests, every listener the
    manager knows is running and has not been told to stop. *)
Theorem listeners_stay_live {Rd : Redis} (settings : Settings) (e : env) (sched : list nat)
    (ops : list room_op) (d : db) (ch : string) :
  let w' := (run_sched e sched
               (room_call settings <$> ops, mkWorld 0 d initial_gateway [])).2 in
  is_Some (_listeners (manager (w_state w')) !! ch) -> live_listener (w_state w') ch.
Proof.
  intros w' Hch. apply mwf_live; [|done].
  apply (run_sched_keeps manager_wf e sched (_, mkWorld 0 d initial_gateway [])); cbn.
  - apply Forall_fmap, Forall_true. intros [ch'|ch']; [apply keeps_subscribe|apply keeps_unsubscribe].
  - apply implements_initial.
Qed.

Lemma listeners_stay_live_witness :
  live_listener (w_state (run_sched calm [0; 1; 0; 1; 0; 1; 0; 1]%nat
    (room_call default_settings <$> [Subscribe "t-1:chat"; Subscribe "t-2:chat"],
     ref_world 0 Ref.empty initial_gateway)).2) "t-1:chat".
Proof.
  apply (listeners_stay_live (Rd := Ref.ref_redis) default_settings calm
           [0; 1; 0; 1; 0; 1; 0; 1]%nat [Subscribe "t-1:chat"; Subscribe "t-2:chat"]).
  eexists. vm_compute. reflexivity.
Defined.
