(* ===== verification/Fanout.v ===== *)
(** * Local delivery and the Pub/Sub listener
    ([apps/gateway/fanout/publisher.py]: [deliver_local],
    [terminate_slow_consumer], [run_pubsub_listener])

    [enqueue] does not suspend, so [deliver_local] is one synchronous piece of
    code.  The listener is a state machine with one control point per
    suspension point, driven by what Redis and the other tasks do. *)
From Stdlib Require Import ZArith Lia.
From stdpp Require Import base gmap strings list sets.
From S2P Require Import Prelude Config Frames Keys RedisApi Async Tasks RefRedis Samples Connection Registry State Rooms.

Section Deliver.
Context {Jt : JsonText} {Py : Pydantic}.
Variable settings : Settings.

(** One iteration of the loop: the disconnected ids and the fanout size so
    far, and the gateway. *)
Definition deliver_to (channel envelope_json : string) (sequence : option Z)
    (acc : list string * Z * Gateway) (l : loc) : list string * Z * Gateway :=
  let '(disconnected, fanout_size, g) := acc in
  match conn_at l g with
  | None => acc
  | Some conn =>
      if decide (state conn <> ACTIVE) then acc
      else match enqueue settings envelope_json NORMAL (Some channel) sequence conn with
           | inr conn' =>
               (disconnected, fanout_size + 1,
                metric_add "relay_messages_delivered_total" 1 (update_at l (fun _ => conn') g))
           | inl _ =>
               (disconnected ++ [connection_id conn], fanout_size + 1, spawn_termination l g)
           end
  end.

Definition deliver_local (channel envelope_json : string) (sequence : option Z)
    (g : Gateway) : list string * Gateway :=
  let '(disconnected, fanout_size, g') :=
    foldl (deliver_to channel envelope_json sequence) ([], 0, g)
      (local_subscribers channel (store g)) in
  (disconnected, metric_set "relay_fanout_size" fanout_size g').

(** The out-of-band task for the connection at [l], whose socket is [ws]. *)
Definition terminate_slow_consumer (l : loc) (ws : nat) : proc Gateway unit :=
  modify (fun g => metric_add "relay_disconnects_total" 1
                     (metric_add "relay_slow_consumers_total" 1 (update_at l (set_state DEAD) g))) ;;
  catch (send_text ws (dump (DisconnectFrame ErrorCode.SLOW_CONSUMER))) (fun _ => Ret tt) ;;
  catch (close ws 4409) (fun _ => Ret tt).

(** [json.loads(data).get("sequence")], [None] when that raises.  The number is an
    integer in every envelope of [publish_message]; a text from elsewhere in which
    it is another JSON value, which the code would pass on, is taken to have none. *)
Definition envelope_sequence (data : string) : option Z :=
  match json_loads data with
  | Some (JObj o) => match obj_get "sequence" o with Some (JInt z) => Some z | _ => None end
  | _ => None
  end.

(** ** The listener *)
Inductive listener_pc :=
| LTop          (* about to test the stop event *)
| LSubscribing  (* in [pubsub.subscribe] *)
| LListening    (* in [pubsub.listen] *)
| LClosing      (* in [pubsub.aclose], on the way out of the [try] *)
| LSleeping     (* in [asyncio.sleep(backoff)] *)
| LEnded.

Record listener := mkListenerState {
  l_pc : listener_pc;
  l_backoff : Z  (* milliseconds *)
}.

(** What a suspended listener is resumed with. *)
Inductive listener_input :=
| LGo                       (* nothing to wait for *)
| LSubscribed
| LMessage (data : string)  (* an item of type "message" *)
| LOther                    (* an item of another type *)
| LFailed                   (* an exception, or the end of the iteration *)
| LClosed
| LWoken.

Definition listener_step (channel : string) (stop_event : bool) (i : listener_input)
    (s : listener) (g : Gateway) : option (listener * Gateway) :=
  let goto pc := Some (mkListenerState pc (l_backoff s), g) in
  match l_pc s, i with
  | LTop, LGo => goto (if stop_event then LEnded else LSubscribing)
  | LSubscribing, LSubscribed => Some (mkListenerState LListening 250, g)
  | LSubscribing, LFailed => goto LClosing
  | LListening, LMessage data =>
      if stop_event then goto LClosing
      else Some (s, (deliver_local channel data (envelope_sequence data) g).2)
  | LListening, LOther => if stop_event then goto LClosing else Some (s, g)
  | LListening, LFailed => goto LClosing
  | LClosing, LClosed => goto (if stop_event then LEnded else LSleeping)
  | LSleeping, LWoken => Some (mkListenerState LTop (Z.min (l_backoff s * 2) 5000), g)
  | _, _ => None
  end.

Definition run_pubsub_listener_init : listener := mkListenerState LTop 250.

(** A run of the listener: the inputs it is resumed with. *)
Fixpoint listener_run (channel : string) (stop_event : bool) (inputs : list listener_input)
    (s : listener) (g : Gateway) : option (listener * Gateway) :=
  match inputs with
  | [] => Some (s, g)
  | i :: rest =>
      '(s', g') ← listener_step channel stop_event i s g;
      listener_run channel stop_event rest s' g'
  end.

End Deliver.

(** ** Exactness of delivery *)
Section DeliverProofs.
Variable settings : Settings.
Variables (channel envelope : string) (sequence : option Z).

Notation enq c := (enqueue settings envelope NORMAL (Some channel) sequence c).

(** What delivery does to one subscribed connection. *)
Definition after_delivery (c : Connection) : Connection :=
  if decide (state c = ACTIVE) then
    match enq c with inr c' => c' | inl _ => c end
  else c.

(** The connection is active and its queue is full. *)
Definition overflows (c : Connection) : bool :=
  bool_decide (state c = ACTIVE) && match enq c with inl _ => true | inr _ => false end.

Definition overflowing (g : Gateway) (ls : list loc) : list loc :=
  filter (fun l => from_option overflows false (conn_at l g) = true) ls.

Definition ids_of (g : Gateway) (ls : list loc) : list string :=
  omap (fun l => connection_id <$> conn_at l g) ls.

(** What an iteration may change. *)
Definition frame_ok (g g' : Gateway) : Prop :=
  registry (store g') = registry (store g) /\ manager g' = manager g /\
  listener_tasks g' = listener_tasks g /\ draining g' = draining g /\
  node_status g' = node_status g /\ handshake_semaphore g' = handshake_semaphore g /\
  handshaking g' = handshaking g /\ registrar_task g' = registrar_task g.

Lemma overflowing_one g l :
  overflowing g [l] = if from_option overflows false (conn_at l g) then [l] else [].
Proof.
  unfold overflowing. rewrite filter_cons, filter_nil.
  destruct (from_option _ _ _); by case_decide.
Qed.

Lemma deliver_to_spec ds n g l :
  let '(ds', n', g') := deliver_to settings channel envelope sequence (ds, n, g) l in
  frame_ok g g' /\
  (forall l', conn_at l' g' = if decide (l' = l) then after_delivery <$> conn_at l g
                              else conn_at l' g) /\
  terminating g' = terminating g ++ overflowing g [l] /\
  ds' = ds ++ ids_of g (overflowing g [l]).
Proof.
  rewrite overflowing_one. unfold deliver_to, after_delivery, overflows, ids_of.
  destruct (conn_at l g) as [c|] eqn:Hc; cbn [from_option].
  2:{ cbn. rewrite !app_nil_r. split_and!; try done. intros l'. by case_decide; subst. }
  destruct (decide (state c <> ACTIVE)) as [Hs|Hs].
  - rewrite bool_decide_false by done. cbn. rewrite !app_nil_r. split_and!; try done.
    intros l'. case_decide; [subst|done]. rewrite Hc. cbn. by rewrite decide_False.
  - apply dec_stable in Hs. rewrite bool_decide_true by done.
    destruct (enq c) as [x|c'] eqn:He; cbn [andb omap list_omap].
    + rewrite Hc. split_and!; try done.
      intros l'. case_decide; [subst|done]. change (conn_at l (spawn_termination l g)) with (conn_at l g).
      rewrite Hc. cbn. by rewrite decide_True, He.
    + cbn. rewrite !app_nil_r. split_and!; try done.
      intros l'. unfold conn_at in *. cbn. destruct (decide (l' = l)) as [->|].
      * rewrite lookup_alter_eq, Hc. cbn. by rewrite decide_True, He.
      * by rewrite lookup_alter_ne.
Qed.

Lemma frame_ok_trans g1 g2 g3 : frame_ok g1 g2 -> frame_ok g2 g3 -> frame_ok g1 g3.
Proof. unfold frame_ok. naive_solver congruence. Qed.

Lemma overflowing_agree g g' ls :
  (forall l, l ∈ ls -> conn_at l g' = conn_at l g) -> overflowing g' ls = overflowing g ls.
Proof.
  intros H. unfold overflowing. induction ls as [|l ls IH]; [done|].
  rewrite !filter_cons, H by set_solver. rewrite IH; [done|].
  intros l' Hl'. apply H. set_solver.
Qed.

Lemma ids_of_agree g g' ls :
  (forall l, l ∈ ls -> conn_at l g' = conn_at l g) -> ids_of g' ls = ids_of g ls.
Proof.
  intros H. unfold ids_of. induction ls as [|l ls IH]; cbn; [done|].
  rewrite H by set_solver. rewrite IH; [done|]. intros l' Hl'. apply H. set_solver.
Qed.

Lemma deliver_all ls : forall ds n g,
  NoDup ls ->
  let '(ds', n', g') := foldl (deliver_to settings channel envelope sequence) (ds, n, g) ls in
  frame_ok g g' /\
  (forall l', conn_at l' g' = if decide (l' ∈ ls) then after_delivery <$> conn_at l' g
                              else conn_at l' g) /\
  terminating g' = terminating g ++ overflowing g ls /\
  ds' = ds ++ ids_of g (overflowing g ls).
Proof.
  induction ls as [|l ls IH]; intros ds n g Hnd.
  - cbn. rewrite !app_nil_r. split_and!; try done.
  - apply NoDup_cons in Hnd as [Hni Hnd].
    pose proof (deliver_to_spec ds n g l) as Hone. cbn [foldl].
    destruct (deliver_to _ _ _ _ (ds, n, g) l) as [[ds1 n1] g1].
    destruct Hone as (Hf1 & Hc1 & Ht1 & Hd1). specialize (IH ds1 n1 g1 Hnd).
    destruct (foldl _ _ _) as [[ds' n'] g']. destruct IH as (Hf & Hc & Ht & Hd).
    assert (forall l', l' ∈ ls -> conn_at l' g1 = conn_at l' g) as Hag.
    { intros l' Hl'. rewrite Hc1, decide_False; [done|]. by intros ->. }
    assert (overflowing g (l :: ls) = overflowing g [l] ++ overflowing g ls) as Hsplit
      by apply (filter_app _ [l] ls).
    assert (ids_of g (overflowing g (l :: ls)) =
            ids_of g (overflowing g [l]) ++ ids_of g (overflowing g ls)) as Hids
      by (unfold ids_of; by rewrite Hsplit, omap_app).
    assert (overflowing g1 ls = overflowing g ls) as Hov by by apply overflowing_agree.
    split_and!.
    + by eapply frame_ok_trans.
    + intros l'. rewrite Hc, Hc1. destruct (decide (l' = l)) as [->|Hne].
      * rewrite decide_False by done. by rewrite decide_True by set_solver.
      * destruct (decide (l' ∈ ls)); [rewrite decide_True by set_solver|
                                      rewrite decide_False by set_solver]; done.
    + by rewrite Ht, Ht1, Hov, Hsplit, app_assoc.
    + rewrite Hd, Hd1, Hov, Hids, <- app_assoc. do 2 f_equal. apply ids_of_agree.
      intros l' Hl'. apply Hag. unfold overflowing in Hl'.
      by apply list_elem_of_filter in Hl' as [_ ?].
Qed.

(** *** The metrics *)
Definition is_active (c : Connection) : bool := bool_decide (state c = ACTIVE).

(** The connection is active and takes the message. *)
Definition accepts (c : Connection) : bool :=
  is_active c && match enq c with inl _ => false | inr _ => true end.

(** How many of the connections satisfy a test. *)
Definition count (f : Connection -> bool) (g : Gateway) (ls : list loc) : Z :=
  Z.of_nat (length (filter (fun l => from_option f false (conn_at l g) = true) ls)).

Lemma count_cons f g l ls :
  count f g (l :: ls) = (if from_option f false (conn_at l g) then 1 else 0) + count f g ls.
Proof.
  unfold count. rewrite filter_cons. destruct (from_option f false (conn_at l g)); case_decide; cbn; first [lia|done].
Qed.

Lemma count_agree f g g' ls :
  (forall l, l ∈ ls -> conn_at l g' = conn_at l g) -> count f g' ls = count f g ls.
Proof.
  intros H. induction ls as [|l ls IH]; [done|]. rewrite !count_cons, H by set_solver.
  rewrite IH; [done|]. intros l' Hl'. apply H. set_solver.
Qed.

Notation delivered g := (default 0 (METRICS g !! "relay_messages_delivered_total")).

Lemma deliver_to_counts ds n g l :
  let '(_, n', g') := deliver_to settings channel envelope sequence (ds, n, g) l in
  n' = n + (if from_option is_active false (conn_at l g) then 1 else 0) /\
  delivered g' = delivered g + (if from_option accepts false (conn_at l g) then 1 else 0) /\
  forall name, name <> "relay_messages_delivered_total" -> METRICS g' !! name = METRICS g !! name.
Proof.
  unfold deliver_to, accepts, is_active. destruct (conn_at l g) as [c|]; cbn [from_option];
    [|split_and!; [lia|lia|done]].
  destruct (decide (state c <> ACTIVE)) as [Hs|Hs].
  - rewrite bool_decide_false by done. split_and!; [cbn; lia|cbn; lia|done].
  - apply dec_stable in Hs. rewrite bool_decide_true by done.
    destruct (enq c) as [x|c']; cbn; [split_and!; [lia|lia|done]|].
    split; [lia|]. split; [by rewrite lookup_insert_eq|]. intros name Hn. by rewrite lookup_insert_ne.
Qed.

Lemma deliver_counts ls : forall ds n g,
  NoDup ls ->
  let '(_, n', g') := foldl (deliver_to settings channel envelope sequence) (ds, n, g) ls in
  n' = n + count is_active g ls /\ delivered g' = delivered g + count accepts g ls /\
  forall name, name <> "relay_messages_delivered_total" -> METRICS g' !! name = METRICS g !! name.
Proof.
  induction ls as [|l ls IH]; intros ds n g Hnd; [cbn; rewrite !Z.add_0_r; done|].
  apply NoDup_cons in Hnd as [Hni Hnd]. cbn [foldl].
  pose proof (deliver_to_spec ds n g l) as Hone. pose proof (deliver_to_counts ds n g l) as Hcnt.
  destruct (deliver_to _ _ _ _ (ds, n, g) l) as [[ds1 n1] g1].
  destruct Hone as (_ & Hc1 & _). destruct Hcnt as (Hn1 & Hd1 & Hm1). specialize (IH ds1 n1 g1 Hnd).
  destruct (foldl _ _ _) as [[ds' n'] g']. destruct IH as (Hn & Hd & Hm).
  assert (forall l', l' ∈ ls -> conn_at l' g1 = conn_at l' g) as Hag.
  { intros l' Hl'. rewrite Hc1, decide_False; [done|]. by intros ->. }
  rewrite !count_cons. rewrite (count_agree _ _ _ _ Hag) in Hn. rewrite (count_agree _ _ _ _ Hag) in Hd. split_and!; [lia|lia|].
  intros name Hne. by rewrite Hm, Hm1.
Qed.

End DeliverProofs.

(** There is room for one more message of this text, in both bounds. *)
Definition has_room (settings : Settings) (text : string) (c : Connection) : bool :=
  (queue_depth c <? connection_queue_max_messages settings) &&
  (queue_bytes c + utf8_len text <=? connection_queue_max_bytes settings).

Lemma enqueue_room settings text ch sq c :
  enqueue settings text NORMAL (Some ch) sq c =
  if has_room settings text c
  then inr (set_queue (queue c ++ [mkQueued text (utf8_len text) NORMAL (Some ch) sq])
              (queue_bytes c + utf8_len text) c)
  else inl (SlowConsumerError (connection_id c)).
Proof.
  unfold enqueue, has_room, queue_bytes. rewrite Z.ltb_antisym, Z.leb_antisym.
  destruct (_ <=? _), (_ <? _); done.
Qed.

(** ** Supervision of the listener *)
Section ListenerProofs.
Context {Jt : JsonText}.
Variable settings : Settings.
Variable channel : string.

(** A subscription attempt that fails, or a subscription that drops, with the
    pause after it. *)
Definition failed_round : list listener_input := [LFailed; LClosed; LWoken; LGo].
Definition failed_rounds (n : nat) : list listener_input := concat (replicate n failed_round).

Lemma listener_run_app stop ins1 ins2 s g :
  listener_run settings channel stop (ins1 ++ ins2) s g =
  ('(s', g') ← listener_run settings channel stop ins1 s g;
   listener_run settings channel stop ins2 s' g').
Proof.
  revert s g. induction ins1 as [|i ins1 IH]; intros s g; cbn; [done|].
  destruct (listener_step _ _ _ _ _ _) as [[s' g']|]; cbn; [apply IH|done].
Qed.

Definition retry_delay (n : nat) : Z := Z.min (250 * 2 ^ Z.of_nat n) 5000.

Lemma retry_delay_S n : retry_delay (S n) = Z.min (retry_delay n * 2) 5000.
Proof.
  unfold retry_delay. rewrite Nat2Z.inj_succ, Z.pow_succ_r by lia.
  pose proof (Z.pow_pos_nonneg 2 (Z.of_nat n)). lia.
Qed.

Lemma failed_rounds_run n g :
  listener_run settings channel false (failed_rounds n) (mkListenerState LSubscribing 250) g =
  Some (mkListenerState LSubscribing (retry_delay n), g).
Proof.
  induction n as [|n IH]; [done|]. unfold failed_rounds in *.
  rewrite replicate_S_end, concat_app, listener_run_app, IH. cbn.
  by rewrite retry_delay_S.
Qed.

Definition backoff_ok (s : listener) : Prop := 250 <= l_backoff s <= 5000 /\ l_pc s <> LEnded.

Lemma listener_step_ok i s g s' g' :
  listener_step settings channel false i s g = Some (s', g') -> backoff_ok s -> backoff_ok s'.
Proof.
  destruct s as [pc b]. unfold backoff_ok. intros H [Hb Hpc].
  destruct pc, i; cbn in H; simplify_eq; cbn in *; (split; [lia|done]).
Qed.

Lemma listener_run_ok ins : forall s g s' g',
  listener_run settings channel false ins s g = Some (s', g') -> backoff_ok s -> backoff_ok s'.
Proof.
  induction ins as [|i ins IH]; intros s g s' g' H Hs; cbn in H; [by simplify_eq|].
  destruct (listener_step _ _ _ _ _ _) as [[s1 g1]|] eqn:E; simplify_eq/=.
  eapply IH; [done|]. by eapply listener_step_ok.
Qed.

End ListenerProofs.

(** ** Claims *)

(** C13.  Local fanout is exact and slow consumers are isolated: every active
    local subscriber with room in its queue gets the envelope appended exactly
    once, as a flow-controlled message of the channel, and nothing else of it
    changes; the active subscribers without room, and no other connections, are
    reported and handed to an out-of-band termination, once each and in the order
    of the loop, and stay as they were; no other connection changes.  The
    delivered and fanout metrics count the accepted and the attempted
    deliveries, and no other metric and no other part of the gateway changes. *)
Theorem deliver_local_exact (settings : Settings) (ch text : string) (sq : option Z) (g : Gateway) :
  wf (store g) ->
  let '(ds, g') := deliver_local settings ch text sq g in
  let ls := local_subscribers ch (store g) in
  let room c := queue_depth c < connection_queue_max_messages settings /\
                queue_bytes c + utf8_len text <= connection_queue_max_bytes settings in
  let full := filter (fun l => from_option (fun c => is_active c && negb (has_room settings text c))
                                 false (conn_at l g) = true) ls in
  (forall l, l ∉ ls -> conn_at l g' = conn_at l g) /\
  (forall l c, l ∈ ls -> conn_at l g = Some c ->
     (state c <> ACTIVE -> conn_at l g' = Some c) /\
     (state c = ACTIVE -> room c ->
        conn_at l g' = Some (set_queue (queue c ++ [mkQueued text (utf8_len text) NORMAL (Some ch) sq])
                               (queue_bytes c + utf8_len text) c)) /\
     (state c = ACTIVE -> ~ room c -> conn_at l g' = Some c)) /\
  ds = omap (fun l => connection_id <$> conn_at l g) full /\
  terminating g' = terminating g ++ full /\ NoDup full /\
  (forall l, l ∈ full <-> l ∈ ls /\ exists c, conn_at l g = Some c /\ state c = ACTIVE /\ ~ room c) /\
  METRICS g' !! "relay_fanout_size" = Some (count is_active g ls) /\
  default 0 (METRICS g' !! "relay_messages_delivered_total") =
    default 0 (METRICS g !! "relay_messages_delivered_total") +
    count (fun c => is_active c && has_room settings text c) g ls /\
  (forall name, name ∉ ["relay_fanout_size"; "relay_messages_delivered_total"] ->
     METRICS g' !! name = METRICS g !! name) /\
  frame_ok g g'.
Proof.
  intros Hwf. unfold deliver_local.
  assert (NoDup (local_subscribers ch (store g))) as Hnd by (by apply NoDup_present).
  pose proof (deliver_all settings ch text sq (local_subscribers ch (store g)) [] 0 g Hnd) as Hall.
  pose proof (deliver_counts settings ch text sq (local_subscribers ch (store g)) [] 0 g Hnd) as Hcnt.
  destruct (foldl _ _ _) as [[ds n] g']. destruct Hall as (Hf & Hc & Hterm & Hds).
  destruct Hcnt as (Hn & Hd & Hm).
  assert (forall c, has_room settings text c = true <->
    queue_depth c < connection_queue_max_messages settings /\
    queue_bytes c + utf8_len text <= connection_queue_max_bytes settings) as Hroom.
  { intros c. unfold has_room. by rewrite andb_true_iff, Z.ltb_lt, Z.leb_le. }
  assert (forall f f' : Connection -> bool, (forall c, f c = f' c) -> forall l,
    from_option f false (conn_at l g) = from_option f' false (conn_at l g)) as Hext.
  { intros f f' H l. destruct (conn_at l g); [apply H|done]. }
  set (ls := local_subscribers ch (store g)) in *. cbv zeta.
  set (full := filter _ ls).
  assert (overflowing settings ch text sq g ls = full) as Hfull.
  { apply list_filter_iff. intros l. erewrite Hext; [reflexivity|]. intros c.
    unfold overflows, is_active. rewrite enqueue_room. by destruct (has_room settings text c). }
  rewrite Hfull in Hterm, Hds. split_and!.
  - intros l Hl. change (conn_at l (metric_set _ n g')) with (conn_at l g').
    by rewrite (Hc l), decide_False.
  - intros l c Hl Hlc. change (conn_at l (metric_set _ n g')) with (conn_at l g').
    rewrite (Hc l), decide_True, Hlc by done. cbn. unfold after_delivery. rewrite enqueue_room.
    rewrite <- Hroom. destruct (has_room settings text c); split_and!; intros; by case_decide.
  - exact Hds.
  - exact Hterm.
  - by apply NoDup_filter.
  - intros l. unfold full. rewrite list_elem_of_filter.
    destruct (conn_at l g) as [c|]; cbn [from_option]; [|naive_solver].
    rewrite andb_true_iff, negb_true_iff, <- not_true_iff_false, Hroom. unfold is_active.
    rewrite bool_decide_eq_true. naive_solver.
  - cbn. by rewrite lookup_insert_eq, Hn.
  - cbn. rewrite lookup_insert_ne by done. rewrite Hd. f_equal. unfold count. do 2 f_equal.
    apply list_filter_iff. intros l. erewrite Hext; [reflexivity|]. intros c. unfold accepts.
    rewrite enqueue_room. by destruct (has_room settings text c).
  - intros name Hne. cbn. rewrite lookup_insert_ne by set_solver. apply Hm. set_solver.
  - exact Hf.
Qed.

Definition gateway_sub : Gateway := with_store (fun _ => store_sub) initial_gateway.

Lemma deliver_local_exact_witness :
  conn_at 0 (deliver_local tiny_settings "t-1:chat" "m7" (Some 7) gateway_sub).2 =
  Some (set_queue [mkQueued "m7" 2 NORMAL (Some "t-1:chat") (Some 7)] 2
          (set_subscriptions {["t-1:chat"]} conn_a)).
Proof.
  pose proof (deliver_local_exact tiny_settings "t-1:chat" "m7" (Some 7) gateway_sub
                (wf_reachable _ store_sub_reachable)) as H.
  destruct (deliver_local _ _ _ _ _) as [ds g']. destruct H as (_ & H & _).
  apply (H 0%nat (set_subscriptions {["t-1:chat"]} conn_a)); [|done|done|by vm_compute].
  vm_compute. apply list_elem_of_here.
Defined.

(** The slow-consumer policy always completes: whatever the socket does,
    the termination marks the connection dead, counts it, sends the
    SLOW_CONSUMER reason and closes with 4409 when the socket accepts them, and
    does not touch Redis, so the session can be resumed. *)
Theorem terminate_slow_consumer_total {Rd : Redis} {Py : Pydantic} (e : env) (l : loc) (ws : nat)
    (w : world Gateway) :
  exists w', run e (terminate_slow_consumer l ws) w = (inr tt, w') /\
    conn_at l (w_state w') = set_state DEAD <$> conn_at l (w_state w) /\
    (forall l', l' <> l -> conn_at l' (w_state w') = conn_at l' (w_state w)) /\
    METRICS (w_state w') !! "relay_slow_consumers_total" =
      Some (default 0 (METRICS (w_state w) !! "relay_slow_consumers_total") + 1) /\
    w_db w' = w_db w /\
    w_out w' = w_out w
      ++ (if ws_ok e (1 + w_tick w)
          then [WsSent ws (dump (DisconnectFrame ErrorCode.SLOW_CONSUMER))] else [])
      ++ (if ws_ok e (2 + w_tick w) then [WsClosed ws 4409] else []).
Proof.
  unfold terminate_slow_consumer. cbn.
  destruct (ws_ok e (S (w_tick w))); cbn; destruct (ws_ok e (S (S (w_tick w)))); cbn;
    eexists; (split; [reflexivity|]); unfold conn_at; cbn;
    rewrite lookup_alter_eq, ?app_nil_r, <- ?app_assoc;
    (split_and!; [done|intros l' Hne; by rewrite lookup_alter_ne| |done|done]);
    rewrite lookup_insert_ne, lookup_insert_eq by done; done.
Qed.

(** C32.  The listener is supervised: as long as nobody stops it, it never ends,
    whatever Redis does; the pause between attempts starts at 250 ms, doubles
    with each failure and never exceeds 5 s; and once a subscription succeeds,
    the pause is reset and the next message is delivered locally. *)
Theorem listener_recovers {Jt : JsonText} (settings : Settings) (ch : string) (g : Gateway) :
  (forall ins s g', listener_run settings ch false ins run_pubsub_listener_init g = Some (s, g') ->
     l_pc s <> LEnded /\ 250 <= l_backoff s <= 5000) /\
  (forall n data,
     listener_run settings ch false ([LGo] ++ failed_rounds n) run_pubsub_listener_init g =
       Some (mkListenerState LSubscribing (Z.min (250 * 2 ^ Z.of_nat n) 5000), g) /\
     listener_run settings ch false ([LGo] ++ failed_rounds n ++ [LSubscribed; LMessage data])
       run_pubsub_listener_init g =
       Some (mkListenerState LListening 250,
             (deliver_local settings ch data (envelope_sequence data) g).2)).
Proof.
  split.
  - intros ins s g' H. destruct (listener_run_ok settings ch ins _ _ _ _ H) as [? ?]; [|done].
    split; cbn; [lia|done].
  - intros n data. split; cbn.
    + apply failed_rounds_run.
    + rewrite listener_run_app, failed_rounds_run. done.
Qed.
