(* ===== verification/Delivery.v ===== *)
(** * From the publisher to the socket

    The composition of the parts: [publish_message] appends to the channel and
    to the Pub/Sub log, the listener hears the log, [deliver_local] queues, the
    sender writes.  Redis Pub/Sub gives a subscribed client the messages of its
    topic that are published while it is subscribed, in order: [heard]. *)
From Stdlib Require Import ZArith Lia.
From stdpp Require Import base gmap strings list sets sorting.
From S2P Require Import Prelude Config Frames Keys RedisApi Async RefRedis Samples Publisher Replay Connection Flow Registry State Fanout.

(** What a listener of [topic] is resumed with for the published messages
    [log]. *)
Definition heard (topic : string) (log : list (string * string)) : list listener_input :=
  omap (fun m => if String.eqb m.1 topic then Some (LMessage m.2) else None) log.

(** The envelopes of [frames] on the Pub/Sub log. *)
Definition announced {Py : Pydantic} (ch : string) (frames : list MessageFrame) :
    list (string * string) :=
  map (fun m => (RedisKeys.pubsub_channel ch, dump (MessageF m))) frames.

(** The queue entries of the frames. *)
Definition queued {Py : Pydantic} (ch : string) (m : MessageFrame) : QueuedMessage :=
  let text := dump (MessageF m) in
  mkQueued text (utf8_len text) NORMAL (Some ch) (Some (mf_sequence m)).

Definition total_bytes {Py : Pydantic} (frames : list MessageFrame) : Z :=
  foldr (fun m n => utf8_len (dump (MessageF m)) + n) 0 frames.

(** ** Publication *)
Section Published.
Context {Rd : Redis} {Rl : RedisLaws} {Jt : JsonText} {Py : Pydantic} {S : Type}.
Variable settings : Settings.
Variable e : env.
Hypothesis Hrel : reliable e.
Hypothesis Hmono : mono_clock e.

(** Publications one after the other announce the messages in order, with
    consecutive numbers. *)
Lemma publish_all_announces (ps : list json_object) (ch : string) : forall (w : world S) (cv : channel_view),
  represents (w_db w) (clock e (w_tick w)) ch cv ->
  cv_last cv + Z.of_nat (length ps) <= int64_max ->
  exists w' frames, run e (publish_all settings ch ps) w = (inr tt, w') /\
    map mf_payload frames = ps /\
    map mf_sequence frames = seqZ (cv_last cv + 1) (Z.of_nat (length ps)) /\
    Forall (fun m => mf_channel m = ch) frames /\
    plog (w_db w') = plog (w_db w) ++ announced ch frames /\
    map mf_message_id frames = map (fun i => uuid e (8 * i + w_tick w)) (seq 0 (length ps)).
Proof.
  induction ps as [|p ps IH]; intros w cv Hrep Hmax; cbn [length] in Hmax.
  { exists w, []. split_and!; [done..| |done]. by rewrite app_nil_r. }
  assert (Ht : forall i j : nat, (i <= j)%nat ->
    clock e (i + w_tick w) <= clock e (j + w_tick w)) by (intros; apply Hmono; lia).
  destruct (publish_run settings e Hrel Hmono w ch p cv)
    as (d1 & cv1 & Hrun & (_ & Hlast & _) & Hrep1 & Hlog);
    [apply (represents_later _ _ _ _ _ (Ht 0%nat 1%nat ltac:(lia)) Hrep)|lia|].
  set (m := mkMessageFrame _ _ _ _ _) in Hlog.
  destruct (IH (mkWorld (8 + w_tick w) d1 (w_state w) (w_out w)) cv1)
    as (w' & frames & Hrun' & Hp & Hs & Hch & Hlog' & Hid).
  - apply (represents_later _ _ _ _ _ (Ht 7%nat 8%nat ltac:(lia)) Hrep1).
  - lia.
  - exists w', (m :: frames). split_and!.
    + unfold publish_all; cbn [for_each]. rewrite run_bind, run_bind, Hrun. exact Hrun'.
    + cbn [map]. by rewrite Hp.
    + cbn [map length]. rewrite Hs, Hlast.
      rewrite (seqZ_cons (cv_last cv + 1) (Z.of_nat (Datatypes.S (length ps)))) by lia.
      f_equal. f_equal; lia.
    + by constructor.
    + rewrite Hlog'. cbn [w_db]. rewrite Hlog, <- app_assoc. done.
    + cbn [map length seq]. rewrite Hid, <- seq_shift, map_map. f_equal.
      apply map_ext. intros i. cbn [w_tick]. f_equal. lia.
Qed.

End Published.

Lemma heard_announced {Py : Pydantic} (ch : string) (frames : list MessageFrame) :
  heard (RedisKeys.pubsub_channel ch) (announced ch frames)
  = map (fun m => LMessage (dump (MessageF m))) frames.
Proof.
  induction frames as [|m frames IH]; [done|]. cbn. rewrite String.eqb_refl. by f_equal.
Qed.

(** ** Fanout of a sequence of messages *)
Section Fanned.
Context {Jt : JsonText} {Py : Pydantic} {Pl : PydanticLaws}.
Variable settings : Settings.

Lemma envelope_sequence_dump (m : MessageFrame) :
  envelope_sequence (dump (MessageF m)) = Some (mf_sequence m).
Proof.
  unfold envelope_sequence. destruct (dump_message_sequence m) as (d & -> & ->). done.
Qed.

(** One delivery to a subscriber with room. *)
Lemma deliver_one (ch text : string) (sq : option Z) (g : Gateway) (l : loc) (c : Connection) :
  NoDup (local_subscribers ch (store g)) -> l ∈ local_subscribers ch (store g) ->
  conn_at l g = Some c -> state c = ACTIVE ->
  queue_depth c < connection_queue_max_messages settings ->
  queue_bytes c + utf8_len text <= connection_queue_max_bytes settings ->
  let g' := (deliver_local settings ch text sq g).2 in
  local_subscribers ch (store g') = local_subscribers ch (store g) /\
  conn_at l g' = Some (set_queue (queue c ++ [mkQueued text (utf8_len text) NORMAL (Some ch) sq])
                         (queue_bytes c + utf8_len text) c).
Proof.
  intros Hnd Hl Hc Ha Hq Hb. unfold deliver_local.
  pose proof (deliver_all settings ch text sq (local_subscribers ch (store g)) [] 0 g Hnd) as Hall.
  destruct (foldl _ _ _) as [[ds n] g']. destruct Hall as ((Hr & _) & Hconn & _). cbn [snd].
  split.
  - unfold local_subscribers, present, by_id. cbn. by rewrite Hr.
  - change (conn_at l (metric_set _ n g')) with (conn_at l g').
    rewrite (Hconn l), decide_True, Hc by done. cbn. unfold after_delivery, enqueue.
    unfold queue_bytes in *. rewrite decide_True by done.
    rewrite (proj2 (Z.leb_gt _ _)), (proj2 (Z.ltb_ge _ _)) by lia. done.
Qed.

Lemma total_bytes_nonneg (frames : list MessageFrame) : 0 <= total_bytes frames.
Proof.
  induction frames as [|m frames IH]; cbn; [lia|].
  pose proof (utf8_len_nonneg (dump (MessageF m))). unfold total_bytes in IH. lia.
Qed.

(** A listening listener queues a sequence of messages at a subscriber that has
    room for them. *)
Lemma listener_queues (ch : string) (b : Z) (l : loc) (frames : list MessageFrame) :
  forall (g : Gateway) (c : Connection),
  NoDup (local_subscribers ch (store g)) -> l ∈ local_subscribers ch (store g) ->
  conn_at l g = Some c -> state c = ACTIVE ->
  queue_depth c + Z.of_nat (length frames) <= connection_queue_max_messages settings ->
  queue_bytes c + total_bytes frames <= connection_queue_max_bytes settings ->
  exists g' qb,
    listener_run settings ch false (map (fun m => LMessage (dump (MessageF m))) frames)
      (mkListenerState LListening b) g = Some (mkListenerState LListening b, g') /\
    conn_at l g' = Some (set_queue (queue c ++ map (queued ch) frames) qb c).
Proof.
  induction frames as [|m frames IH]; intros g c Hnd Hl Hc Ha Hq Hb.
  { exists g, (_queue_bytes c). split; [done|]. rewrite app_nil_r, Hc. by destruct c. }
  pose proof (total_bytes_nonneg frames) as Htb.
  change (total_bytes (m :: frames)) with (utf8_len (dump (MessageF m)) + total_bytes frames) in Hb.
  cbn [length map] in *.
  destruct (deliver_one ch (dump (MessageF m)) (Some (mf_sequence m)) g l c) as [Hsub Hone];
    [done..|lia|lia|].
  set (g1 := (deliver_local settings ch _ _ g).2) in *.
  destruct (IH g1 (set_queue (queue c ++ [queued ch m]) (queue_bytes c + utf8_len (dump (MessageF m))) c))
    as (g' & qb & Hrun & Hconn).
  - by rewrite Hsub.
  - by rewrite Hsub.
  - exact Hone.
  - done.
  - unfold queue_depth in *. cbn. rewrite length_app. cbn. lia.
  - unfold queue_bytes in *. cbn. lia.
  - exists g', qb. cbn [listener_run listener_step l_pc]. rewrite envelope_sequence_dump.
    split; [exact Hrun|]. rewrite Hconn. cbn. by rewrite <- app_assoc.
Qed.

Lemma normals_app (q q' : list QueuedMessage) : normals (q ++ q') = normals q + normals q'.
Proof. unfold normals. rewrite filter_app, length_app. lia. Qed.

Lemma normals_queued (ch : string) (frames : list MessageFrame) :
  normals (map (queued ch) frames) = Z.of_nat (length frames).
Proof.
  induction frames as [|m frames IH]; [done|]. cbn [map length].
  rewrite normals_cons, IH, decide_True by done. lia.
Qed.

(** What a node does with announced messages: its listener queues them at a
    subscriber with room, and the sender writes them after what was queued. *)
Lemma announced_reach_socket (ch : string) (frames : list MessageFrame) (g : Gateway) (l : loc)
    (c : Connection) (backoff : Z) :
  wf (store g) -> l ∈ local_subscribers ch (store g) -> conn_at l g = Some c -> state c = ACTIVE ->
  queue_depth c + Z.of_nat (length frames) <= connection_queue_max_messages settings ->
  queue_bytes c + total_bytes frames <= connection_queue_max_bytes settings ->
  inflight_count c + normals (queue c) + Z.of_nat (length frames) <= max_inflight_messages settings ->
  exists g' c' c'' n,
    listener_run settings ch false (heard (RedisKeys.pubsub_channel ch) (announced ch frames))
      (mkListenerState LListening backoff) g = Some (mkListenerState LListening backoff, g') /\
    conn_at l g' = Some c' /\
    sender_run settings n c' Top = (c'', Getting, queue c ++ map (queued ch) frames) /\
    queue c'' = [].
Proof.
  intros Hwf Hl Hc Ha Hq Hb Hi.
  destruct (listener_queues ch backoff l frames g c) as (g' & qb & Hlis & Hconn);
    [by apply NoDup_present|done..|].
  set (c' := set_queue _ _ c) in Hconn.
  destruct (sender_drains_gen settings (queue c') c' (4 * length (queue c') + 1) eq_refl)
    as (c'' & Hsend & Hempty & _).
  - unfold running. cbn. by rewrite Ha.
  - cbn. rewrite normals_app, normals_queued. unfold inflight_count in *. cbn. lia.
  - done.
  - exists g', c', c'', (4 * length (queue c') + 1)%nat. rewrite heard_announced. done.
Qed.

End Fanned.

(** C3.  End to end, across the cluster: messages published one after the other
    on a channel are, on every node, written to the socket of every active
    local subscriber, each exactly once, in the order of publication, after
    what was queued before, with consecutive sequence numbers from the
    channel's next one and with the published payloads, the same frames for
    all; provided the subscriber's queue and window have room for them.  The
    node's listener is subscribed and stays so. *)
Theorem published_reaches_socket {Rd : Redis} {Rl : RedisLaws} {Jt : JsonText} {Py : Pydantic}
    {Pl : PydanticLaws} {S : Type} (settings : Settings) (e : env) (w : world S) (ch : string)
    (ps : list json_object) (cv : channel_view) :
  reliable e -> mono_clock e ->
  represents (w_db w) (clock e (w_tick w)) ch cv ->
  cv_last cv + Z.of_nat (length ps) <= int64_max ->
  exists w' frames log,
    run e (publish_all settings ch ps) w = (inr tt, w') /\
    plog (w_db w') = plog (w_db w) ++ log /\
    map mf_payload frames = ps /\
    map mf_sequence frames = seqZ (cv_last cv + 1) (Z.of_nat (length ps)) /\
    forall (g : Gateway) (l : loc) (c : Connection) (backoff : Z),
      wf (store g) -> l ∈ local_subscribers ch (store g) -> conn_at l g = Some c ->
      state c = ACTIVE ->
      queue_depth c + Z.of_nat (length ps) <= connection_queue_max_messages settings ->
      queue_bytes c + total_bytes frames <= connection_queue_max_bytes settings ->
      inflight_count c + normals (queue c) + Z.of_nat (length ps) <= max_inflight_messages settings ->
      exists g' c' c'' n,
        listener_run settings ch false (heard (RedisKeys.pubsub_channel ch) log)
          (mkListenerState LListening backoff) g = Some (mkListenerState LListening backoff, g') /\
        conn_at l g' = Some c' /\
        sender_run settings n c' Top = (c'', Getting, queue c ++ map (queued ch) frames) /\
        queue c'' = [].
Proof.
  intros Hrel Hmono Hrep Hmax.
  destruct (publish_all_announces settings e Hrel Hmono ps ch w cv Hrep Hmax)
    as (w' & frames & Hrun & Hp & Hs & _ & Hlog & _).
  exists w', frames, (announced ch frames). split_and!; [done..|].
  assert (length ps = length frames) as -> by (by rewrite <- Hp, length_map).
  intros g l c backoff Hwf Hl Hc Ha Hq Hb Hi. by apply announced_reach_socket.
Qed.

Lemma published_reaches_socket_witness :
  exists w' frames log,
    run calm (publish_all tiny_settings sample_channel [payload_n 7]) (ref_world 0 sample_db tt)
      = (inr tt, w') /\
    plog (w_db w') = log /\ map mf_sequence frames = [4] /\
    exists g' c' c'' n,
      listener_run tiny_settings sample_channel false (heard (RedisKeys.pubsub_channel sample_channel) log)
        (mkListenerState LListening 250) gateway_sub = Some (mkListenerState LListening 250, g') /\
      conn_at 0 g' = Some c' /\
      sender_run tiny_settings n c' Top = (c'', Getting, map (queued sample_channel) frames) /\
      queue c'' = [].
Proof.
  destruct (published_reaches_socket (Pl := sample_laws) tiny_settings calm (ref_world 0 sample_db tt)
    sample_channel [payload_n 7] (mkView 3 [])
    calm_reliable calm_mono (sample_represents 0) ltac:(vm_compute; discriminate))
    as (w' & frames & log & Hrun & Hlog & Hp & Hs & H).
  exists w', frames, log. split; [exact Hrun|]. split; [exact Hlog|]. split; [exact Hs|].
  apply (H gateway_sub 0%nat (set_subscriptions {["t-1:chat"]} conn_a) 250
    (wf_reachable _ store_sub_reachable) ltac:(vm_compute; apply list_elem_of_here) eq_refl eq_refl);
    [vm_compute; discriminate| |vm_compute; discriminate].
  destruct frames as [|m [|m' frames]]; [discriminate Hp| |discriminate Hp].
  injection Hs as Hm. unfold total_bytes. cbn [foldr].
  unfold dump, sample_pydantic. rewrite Hm. vm_compute. discriminate.
Defined.
