(* ===== verification/Presence.v ===== *)
(** * Presence ([apps/gateway/presence/tracker.py])

    A user's presence is a Redis set of connection ids and a reported-idle
    flag, both with a deadline.  The specification is a set with a flag; the
    tracker implements it within the deadline, and a user whose heartbeats stop
    goes offline when the deadline passes. *)
From Stdlib Require Import ZArith Lia.
From stdpp Require Import base gmap strings list sets.
From S2P Require Import Prelude Config Keys RedisApi Async Tasks RefRedis Scan Samples.

Module tracker.

Inductive PresenceState := ONLINE | IDLE | OFFLINE.
#[export] Instance PresenceState_eq_dec : EqDecision PresenceState.
Proof. solve_decision. Defined.

(** The value of the [StrEnum] member. *)
Definition value (s : PresenceState) : string :=
  match s with ONLINE => "ONLINE" | IDLE => "IDLE" | OFFLINE => "OFFLINE" end.

(** The dict [get_presence] returns. *)
Record Presence := mkPresence {
  p_user_id : string;
  p_state : PresenceState;
  p_connections : nat
}.

Section Ops.
Context {S : Type}.
Variable settings : Settings.

Definition connection_online (tenant_id user_id connection_id : string) : proc S unit :=
  let key := presence_key tenant_id user_id in
  redis (MULTI2 (SADD key connection_id) (EXPIRE key (presence_ttl_seconds settings))) ;;
  Ret tt.

Definition refresh (tenant_id user_id : string) : proc S unit :=
  let key := presence_key tenant_id user_id in
  redis (MULTI2 (EXPIRE key (presence_ttl_seconds settings))
           (EXPIRE (presence_state_key tenant_id user_id) (presence_ttl_seconds settings))) ;;
  Ret tt.

Definition connection_offline (tenant_id user_id connection_id : string) : proc S bool :=
  let key := presence_key tenant_id user_id in
  redis (SREM key connection_id) ;;
  let! remaining := redis (SCARD key) in
  if (remaining =? 0)%nat then
    redis (DEL [key; presence_state_key tenant_id user_id]) ;; Ret true
  else Ret false.

Definition set_state (tenant_id user_id : string) (state : PresenceState) : proc S unit :=
  if decide (state = IDLE) then
    redis (SET (presence_state_key tenant_id user_id) (value state)
             (Some (presence_ttl_seconds settings)))
  else redis (DEL [presence_state_key tenant_id user_id]).

Definition get_presence (tenant_id user_id : string) : proc S Presence :=
  let! connections := redis (SCARD (presence_key tenant_id user_id)) in
  if (connections =? 0)%nat then Ret (mkPresence user_id OFFLINE 0)
  else
    let! reported := redis (GET (presence_state_key tenant_id user_id)) in
    let state := if decide (reported = Some (value IDLE)) then IDLE else ONLINE in
    Ret (mkPresence user_id state connections).

(** The body of [async for key in scan_iter(...)] on the keys of one page, in the
    order the server gives them. *)
Fixpoint list_keys (tenant_id : string) (keys : list string) : proc S (list Presence) :=
  match keys with
  | [] => Ret []
  | key :: keys' =>
      if endswith key ":state" then list_keys tenant_id keys'
      else
        let prefix := "relay:presence:" +:+ tenant_id +:+ ":" in
        let! p := get_presence tenant_id (removeprefix key prefix) in
        let! out := list_keys tenant_id keys' in
        Ret (p :: out)
  end.

Definition list_online (fuel : nat) (tenant_id : string) : proc S (list Presence) :=
  scan_iter fuel ("relay:presence:" +:+ tenant_id +:+ ":") 0 (list_keys tenant_id).

End Ops.
End tracker.

Import tracker.

(** ** The specification *)
Record presence_spec := mkSpec {
  s_conns : gset string;
  s_idle : bool
}.

Inductive presence_op :=
| Online (connection_id : string)
| Offline (connection_id : string)
| Report (idle : bool).

Definition spec_step (o : presence_op) (s : presence_spec) : presence_spec :=
  match o with
  | Online c => mkSpec ({[c]} ∪ s_conns s) (s_idle s)
  | Offline c =>
      let rest := s_conns s ∖ {[c]} in
      if decide (rest = ∅) then mkSpec ∅ false else mkSpec rest (s_idle s)
  | Report b => mkSpec (s_conns s) b
  end.

(** What a reader of the presence should be told. *)
Definition spec_view (user_id : string) (s : presence_spec) : Presence :=
  if decide (s_conns s = ∅) then mkPresence user_id OFFLINE 0
  else mkPresence user_id (if s_idle s then IDLE else ONLINE) (size (s_conns s)).

(** What [connection_offline] should answer; the other operations answer
    nothing. *)
Definition spec_answer (o : presence_op) (s : presence_spec) : option bool :=
  match o with
  | Offline c => Some (bool_decide (s_conns s ∖ {[c]} = ∅))
  | _ => None
  end.

Section Refinement.
Context {Rd : Redis} {Rl : RedisLaws} {S : Type}.
Variable settings : Settings.
Variable e : env.
Hypothesis Hrel : reliable e.
Hypothesis Hmono : mono_clock e.
Variables tid uid : string.

Notation key := (presence_key tid uid).
Notation skey := (presence_state_key tid uid).

Definition call (o : presence_op) : proc S (option bool) :=
  match o with
  | Online c => connection_online settings tid uid c ;; Ret None
  | Offline c => let! b := connection_offline tid uid c in Ret (Some b)
  | Report b => tracker.set_state settings tid uid (if b then IDLE else ONLINE) ;; Ret None
  end.

Fixpoint calls (ops : list presence_op) : proc S (list (option bool)) :=
  match ops with
  | [] => Ret []
  | o :: ops' => let! r := call o in let! rs := calls ops' in Ret (r :: rs)
  end.

(** In the interval from [t] to [T] Redis holds the connections [x], the flag
    [b], the presence [s] of the user. *)
Definition holds_set (d : db) (t T : Z) (x : gset string) : Prop :=
  forall u, t <= u < T -> as_set (sees d u key) = Some x.
Definition holds_flag (d : db) (t T : Z) (b : bool) : Prop :=
  forall u, t <= u < T -> sees d u skey = (if b then Some (VStr "IDLE") else None).
Definition holds (d : db) (t T : Z) (s : presence_spec) : Prop :=
  holds_set d t T (s_conns s) /\ holds_flag d t T (s_idle s).

Lemma key_skey : key <> skey.
Proof.
  intros H. key_inj H. apply str_app_inv_l, str_app_inv_l in H.
  revert H. induction uid as [|c s IH]; [done|]. rewrite str_app_cons. intros [= H]. by apply IH.
Qed.

Lemma holds_later d t t' T s : t <= t' -> holds d t T s -> holds d t' T s.
Proof. intros Htt [H1 H2]. split; intros u Hu; [apply H1|apply H2]; lia. Qed.

Lemma holds_same d d' t T s : same t d d' -> holds d t T s -> holds d' t T s.
Proof.
  intros Hs [H1 H2]. split; intros u Hu; rewrite !(same_sees _ _ _ _ _ Hs) by lia; auto.
Qed.

(** A change of one of the two keys leaves the other alone. *)
Lemma flag_changes d d' t T f b :
  changes t d d' key f -> holds_flag d t T b -> holds_flag d' t T b.
Proof.
  intros Hch H u Hu.
  rewrite (changes_frame _ _ _ _ _ _ _ Hch) by (lia || apply not_eq_sym, key_skey). auto.
Qed.

Lemma set_changes d d' t T f x :
  changes t d d' skey f -> holds_set d t T x -> holds_set d' t T x.
Proof.
  intros Hch H u Hu.
  rewrite (changes_frame _ _ _ _ _ _ _ Hch) by (lia || apply key_skey). auto.
Qed.

Notation at_ w := (clock e (w_tick w)).
Notation ttl := (presence_ttl_seconds settings).

Lemma holds_online d d' t T s c r :
  rexec (MULTI2 (SADD key c) (EXPIRE key ttl)) t d = (r, d') -> t < T <= t + 1000 * ttl ->
  holds d t T s -> (exists b, r = inr (tt, b)) /\ holds d' t T (spec_step (Online c) s).
Proof.
  intros E HT [H1 H2]. rewrite law_multi in E.
  destruct (rexec (SADD key c) t d) as [r1 d1] eqn:E1.
  destruct (rexec (EXPIRE key ttl) t d1) as [r2 d2] eqn:E2. simplify_eq.
  apply (law_sadd _ _ (s_conns s)) in E1 as [-> Hch]; [|apply H1; lia].
  apply law_expire in E2 as [-> Hch2].
  split; [by eexists|]. split; cbn.
  - intros u Hu. rewrite (changes_at _ _ _ _ _ _ Hch2) by lia.
    rewrite (changes_at _ _ _ _ _ _ Hch), keep_ttl_now by lia. cbn.
    by rewrite expiring_before by lia.
  - eapply flag_changes; [done|]. by eapply flag_changes.
Qed.

(** Removal of a member: the set keeps its deadline, or disappears. *)
Lemma holds_srem d d' t T s c r :
  rexec (SREM key c) t d = (r, d') -> t < T -> holds d t T s ->
  r = inr tt /\ holds d' t T (mkSpec (s_conns s ∖ {[c]}) (s_idle s)).
Proof.
  intros E HT [H1 H2]. apply (law_srem _ _ (s_conns s)) in E as [-> Hch]; [|apply H1; lia].
  split; [done|]. split; cbn; [|by eapply flag_changes].
  intros u Hu. rewrite (changes_at _ _ _ _ _ _ Hch) by lia. case_bool_decide as Hem.
  - by rewrite Hem.
  - pose proof (H1 u Hu) as Hs. unfold keep_ttl.
    destruct (sees d u key) as [v|]; cbn in Hs; [by destruct (sees d t key)|].
    exfalso. apply Hem. simplify_eq. set_solver.
Qed.

Lemma holds_del d d' t T s r :
  rexec (DEL [key; skey]) t d = (r, d') -> holds d t T s ->
  r = inr tt /\ holds d' t T (mkSpec ∅ false).
Proof.
  intros E _. apply law_del in E as (-> & _ & Hd). split; [done|].
  split; intros u Hu; rewrite Hd, bool_decide_true by (lia || set_solver); done.
Qed.

Lemma holds_report d d' t T s r :
  rexec (SET skey "IDLE" (Some ttl)) t d = (r, d') -> 0 < ttl -> T <= t + 1000 * ttl ->
  holds d t T s -> r = inr tt /\ holds d' t T (mkSpec (s_conns s) true).
Proof.
  intros E Httl HT [H1 H2]. apply law_set_ex in E as [-> Hch]; [|done]. split; [done|].
  split; cbn; [by eapply set_changes|].
  intros u Hu. rewrite (changes_at _ _ _ _ _ _ Hch) by lia. by rewrite expiring_before by lia.
Qed.

Lemma holds_unreport d d' t T s r :
  rexec (DEL [skey]) t d = (r, d') -> holds d t T s ->
  r = inr tt /\ holds d' t T (mkSpec (s_conns s) false).
Proof.
  intros E [H1 H2]. apply law_del in E as (-> & _ & Hd). split; [done|].
  split; intros u Hu; rewrite Hd by lia.
  - rewrite bool_decide_false; [by apply H1|]. pose proof key_skey. set_solver.
  - by rewrite bool_decide_true by set_solver.
Qed.

Lemma holds_scard d d' t T s r :
  rexec (SCARD key) t d = (r, d') -> t < T -> holds d t T s ->
  r = inr (size (s_conns s)) /\ holds d' t T s.
Proof.
  intros E HT H. apply law_scard in E as [Hs ->]. split; [|by eapply holds_same].
  destruct H as [H1 _]. by rewrite H1 by lia.
Qed.

(** Every call refines its specification within the interval. *)
Lemma run_call (o : presence_op) (w : world S) (T : Z) (s : presence_spec) :
  0 < ttl -> clock e (3 + w_tick w) < T -> T <= at_ w + 1000 * ttl ->
  holds (w_db w) (at_ w) T s ->
  exists w', run e (call o) w = (inr (spec_answer o s), w') /\
    (w_tick w <= w_tick w' <= 3 + w_tick w)%nat /\
    holds (w_db w') (at_ w') T (spec_step o s).
Proof.
  intros Httl HT HT' H.
  assert (forall n, (n <= 3)%nat -> at_ w <= clock e (n + w_tick w) < T) as Hin.
  { intros n Hn. split; [apply Hmono; lia|].
    apply (Z.le_lt_trans _ (clock e (3 + w_tick w))); [apply Hmono; lia|done]. }
  pose proof (Hin 0%nat ltac:(lia)) as Hin0. cbn [Nat.add] in Hin0.
  destruct o as [c|c|b]; cbn [call spec_answer].
  - unfold connection_online. rewrite run_bind. run_step Hrel.
    destruct (holds_online _ _ _ T s c _ E) as [[b ->] H']; [lia|done|]. cbn.
    eexists. split; [reflexivity|]. cbn. split; [lia|].
    eapply holds_later, H'. apply Hmono; lia.
  - unfold connection_offline. rewrite run_bind. run_step Hrel.
    destruct (holds_srem _ _ _ T s c _ E) as [-> H1]; [lia|done|].
    apply (holds_later _ _ (clock e (1 + w_tick w))) in H1; [|apply Hmono; lia].
    run_step Hrel.
    destruct (holds_scard _ _ _ T _ _ E0 (proj2 (Hin 1%nat ltac:(lia))) H1) as [-> H2].
    cbn [s_conns] in *.
    apply (holds_later _ _ (clock e (1 + (1 + w_tick w)))) in H2; [|apply Hmono; lia].
    unfold spec_step. destruct (decide (s_conns s ∖ {[c]} = ∅)) as [Hem|Hne].
    + rewrite bool_decide_true by done. rewrite Hem, size_empty in *. cbn [Nat.eqb]. run_step Hrel.
      destruct (holds_del _ _ _ T _ _ E1 H2) as [-> H3]. cbn.
      eexists. split; [reflexivity|]. cbn. split; [lia|].
      eapply holds_later, H3. apply Hmono; lia.
    + rewrite (proj2 (Nat.eqb_neq _ _)) by by rewrite size_empty_iff, leibniz_equiv_iff.
      rewrite bool_decide_false by done.
      cbn. eexists. split; [reflexivity|]. by split; [cbn; lia|].
  - unfold tracker.set_state. destruct b; [rewrite decide_True by done|rewrite decide_False by done].
    + run_step Hrel. destruct (holds_report _ _ _ T s _ E) as [-> H']; [done..|]. cbn.
      eexists. split; [reflexivity|]. cbn. split; [lia|].
      eapply holds_later, H'. apply Hmono; lia.
    + run_step Hrel. destruct (holds_unreport _ _ _ T s _ E) as [-> H']; [done|]. cbn.
      eexists. split; [reflexivity|]. cbn. split; [lia|].
      eapply holds_later, H'. apply Hmono; lia.
Qed.

Fixpoint spec_answers (ops : list presence_op) (s : presence_spec) : list (option bool) :=
  match ops with
  | [] => []
  | o :: ops' => spec_answer o s :: spec_answers ops' (spec_step o s)
  end.

Lemma run_calls (ops : list presence_op) : forall (w : world S) (T : Z) (s : presence_spec),
  0 < ttl -> clock e (3 * length ops + w_tick w) < T -> T <= at_ w + 1000 * ttl ->
  holds (w_db w) (at_ w) T s ->
  exists w', run e (calls ops) w = (inr (spec_answers ops s), w') /\
    (w_tick w <= w_tick w' <= 3 * length ops + w_tick w)%nat /\
    holds (w_db w') (at_ w') T (foldl (fun s o => spec_step o s) s ops).
Proof.
  induction ops as [|o ops IH]; intros w T s Httl HT HT' H.
  { exists w. split; [done|]. split; [lia|done]. }
  cbn [calls length] in *. rewrite run_bind.
  destruct (run_call o w T s Httl) as (w1 & -> & Htick & H1); [|done|done|].
  { eapply Z.le_lt_trans, HT. apply Hmono. lia. }
  rewrite run_bind. destruct (IH w1 T (spec_step o s) Httl) as (w2 & -> & Htick2 & H2); [| |done|].
  - eapply Z.le_lt_trans, HT. apply Hmono. lia.
  - pose proof (Hmono (w_tick w) (w_tick w1) ltac:(lia)). lia.
  - exists w2. split; [done|]. split; [lia|done].
Qed.

Lemma run_get_presence (w : world S) (T : Z) (s : presence_spec) :
  clock e (1 + w_tick w) < T -> holds (w_db w) (at_ w) T s ->
  exists w', run e (get_presence tid uid) w = (inr (spec_view uid s), w').
Proof.
  intros HT H. pose proof (Hmono (w_tick w) (1 + w_tick w)%nat ltac:(lia)) as Hm.
  unfold get_presence. run_step Hrel.
  destruct (holds_scard _ _ _ T s _ E) as [-> H1]; [lia|done|]. unfold spec_view.
  destruct (decide (s_conns s = ∅)) as [Hem|Hne].
  - rewrite Hem, size_empty. cbn. by eexists.
  - rewrite (proj2 (Nat.eqb_neq _ _)) by by rewrite size_empty_iff, leibniz_equiv_iff.
    run_step Hrel. apply law_get in E0 as [_ ->]. destruct H1 as [_ H1].
    rewrite H1 by lia. destruct (s_idle s); cbn; by eexists.
Qed.

End Refinement.

(** ** Claims *)

(** C15.  The tracker implements a set of connections with an idle flag: for
    any sequence of connections, disconnections and idle reports of a user that
    fits in the deadline, [connection_offline] answers true exactly when no
    other connection of the user is left, and [get_presence] then reports
    OFFLINE exactly when the set is empty, the number of its members, and IDLE
    exactly when the last report said so. *)
Theorem presence_refines {Rd : Redis} {Rl : RedisLaws} {S : Type} (settings : Settings) (e : env)
    (tid uid : string) (ops : list presence_op) (w : world S) :
  reliable e -> mono_clock e ->
  clock e (3 * length ops + 1 + w_tick w)
    < clock e (w_tick w) + 1000 * presence_ttl_seconds settings ->
  (forall u, clock e (w_tick w) <= u ->
     sees (w_db w) u (presence_key tid uid) = None /\
     sees (w_db w) u (presence_state_key tid uid) = None) ->
  exists w' w'',
    run e (calls settings tid uid ops) w = (inr (spec_answers ops (mkSpec ∅ false)), w') /\
    run e (get_presence tid uid) w'
      = (inr (spec_view uid (foldl (fun s o => spec_step o s) (mkSpec ∅ false) ops)), w'').
Proof.
  intros Hrel Hmono HT Habs.
  set (T := clock e (w_tick w) + 1000 * presence_ttl_seconds settings) in *.
  assert (holds tid uid (w_db w) (clock e (w_tick w)) T (mkSpec ∅ false)) as H.
  { split; intros u [Hu _]; destruct (Habs u Hu) as [H1 H2]; cbn; by rewrite ?H1, ?H2. }
  assert (0 < presence_ttl_seconds settings).
  { pose proof (Hmono (w_tick w) (3 * length ops + 1 + w_tick w)%nat ltac:(lia)). lia. }
  destruct (run_calls settings e Hrel Hmono tid uid ops w T (mkSpec ∅ false))
    as (w' & Hrun & Htick & H'); [done| |lia|done|].
  { eapply Z.le_lt_trans, HT. apply Hmono. lia. }
  assert (clock e (1 + w_tick w') < T) as HT'.
  { eapply Z.le_lt_trans, HT. apply Hmono. lia. }
  destruct (run_get_presence e Hrel Hmono tid uid w' T _ HT' H') as (w'' & Hget).
  by exists w', w''.
Qed.

(** Two tabs: closing one keeps the user online, closing the other does not. *)
Lemma presence_refines_witness :
  exists w' w'',
    run calm (calls default_settings "1" "ann" [Online "a"; Online "b"; Offline "a"])
      (ref_world 0 Ref.empty tt) = (inr [None; None; Some false], w') /\
    run calm (get_presence "1" "ann") w' = (inr (mkPresence "ann" ONLINE 1), w'').
Proof.
  apply (presence_refines default_settings calm "1" "ann" [Online "a"; Online "b"; Offline "a"]
           (ref_world 0 Ref.empty tt) calm_reliable calm_mono).
  - vm_compute. reflexivity.
  - intros u _. split; reflexivity.
Defined.

(** Absence of heartbeats marks a user offline: after [connection_online]
    and a later [refresh], with no other call, the user is reported with a
    connection until the deadline the refresh set, and OFFLINE from then on. *)
Theorem presence_expires {Rd : Redis} {Rl : RedisLaws} {S : Type} (settings : Settings) (e : env)
    (tid uid c : string) (w : world S) :
  reliable e -> mono_clock e -> 0 < presence_ttl_seconds settings ->
  as_set (sees (w_db w) (clock e (w_tick w)) (presence_key tid uid)) <> None ->
  exists w1, run e (connection_online settings tid uid c) w = (inr tt, w1) /\
  forall w2 : world S, w_db w2 = w_db w1 -> (w_tick w1 <= w_tick w2)%nat ->
    clock e (w_tick w2) < clock e (w_tick w) + 1000 * presence_ttl_seconds settings ->
    exists w3, run e (refresh settings tid uid) w2 = (inr tt, w3) /\
    forall w4 : world S, w_db w4 = w_db w3 -> (w_tick w3 <= w_tick w4)%nat ->
      let deadline := clock e (w_tick w2) + 1000 * presence_ttl_seconds settings in
      (clock e (w_tick w4) < deadline -> exists x,
         as_set (sees (w_db w4) (clock e (w_tick w4)) (presence_key tid uid)) = Some x /\ c ∈ x) /\
      (deadline <= clock e (w_tick w4) -> exists w5,
         run e (get_presence tid uid) w4 = (inr (mkPresence uid OFFLINE 0), w5)).
Proof.
  intros Hrel Hmono Httl Hset. apply not_eq_None_Some in Hset as [x Hx].
  unfold connection_online. run_step Hrel. rewrite law_multi in E.
  destruct (rexec (SADD _ c) _ _) as [r1 d1] eqn:E1.
  destruct (rexec (EXPIRE _ _) _ d1) as [r2 d2] eqn:E2. simplify_eq.
  apply (law_sadd _ _ x) in E1 as [-> Hch]; [|done]. apply law_expire in E2 as [-> Hch2].
  eexists. split; [reflexivity|]. intros w2 Hdb Htick Hbefore. cbn in Hdb, Htick.
  assert (forall u, clock e (w_tick w) <= u ->
    sees d u (presence_key tid uid) = expiring (clock e (w_tick w))
      (presence_ttl_seconds settings) (VSet ({[c]} ∪ x)) u) as Hd.
  { intros u Hu. rewrite (changes_at _ _ _ _ _ _ Hch2) by done.
    by rewrite (changes_at _ _ _ _ _ _ Hch), keep_ttl_now by lia. }
  pose proof (Hmono (w_tick w) (w_tick w2) ltac:(lia)) as Hm2.
  unfold refresh. run_step Hrel. rewrite Hdb, law_multi in E.
  destruct (rexec (EXPIRE (presence_key tid uid) _) _ d) as [r3 d3] eqn:E3.
  destruct (rexec (EXPIRE _ _) _ d3) as [r4 d4] eqn:E4. simplify_eq.
  destruct (law_expire _ _ _ _ _ _ E3) as [-> Hch3].
  destruct (law_expire _ _ _ _ _ _ E4) as [-> Hch4].
  eexists. split; [reflexivity|]. intros w4 Hdb4 Htick4. cbn in Hdb4, Htick4.
  pose proof (Hmono (w_tick w2) (w_tick w4) ltac:(lia)) as Hm4.
  assert (sees (w_db w4) (clock e (w_tick w4)) (presence_key tid uid) =
          expiring (clock e (w_tick w2)) (presence_ttl_seconds settings) (VSet ({[c]} ∪ x))
            (clock e (w_tick w4))) as Hsee.
  { rewrite Hdb4, (changes_frame _ _ _ _ _ _ _ Hch4) by (done || apply key_skey).
    rewrite (changes_at _ _ _ _ _ _ Hch3) by done.
    by rewrite Hd, expiring_before by lia. }
  split; intros Hdl.
  - rewrite Hsee, expiring_before by done. cbn. eexists. split; [done|]. set_solver.
  - unfold get_presence. run_step Hrel. apply law_scard in E as [_ ->].
    rewrite Hsee, expiring_after by done. cbn. by eexists.
Qed.

(** A clock that advances ten seconds with every event. *)
Definition coarse : env := {|
  clock := fun n => 10000 * Z.of_nat n;
  net := fun _ => NetOk 0;
  uuid := fun n => "uuid-" +:+ py_str (Z.of_nat n);
  ws_ok := fun _ => true
|}.

Lemma coarse_reliable : reliable coarse.
Proof. done. Qed.

Lemma coarse_mono : mono_clock coarse.
Proof. intros i j H. cbn. lia. Qed.

(** A call that is one request takes one event. *)
Lemma run_request_tick {Rd : Redis} {S A : Type} (e : env) (c : rcmd A) (w w' : world S) :
  reliable e -> run e (redis c ;; Ret tt) w = (inr tt, w') -> w_tick w' = (1 + w_tick w)%nat.
Proof.
  intros Hrel. rewrite run_redis_bind by apply Hrel.
  destruct (rexec c _ _) as [[x|a] d]; cbn; by intros [= <-].
Qed.

Lemma presence_expires_witness :
  exists w1, run coarse (connection_online default_settings "1" "ann" "a")
               (ref_world 0 Ref.empty tt) = (inr tt, w1) /\
  exists w3, run coarse (refresh default_settings "1" "ann") (ref_world 2 (w_db w1) tt)
               = (inr tt, w3) /\
  exists w5, run coarse (get_presence "1" "ann") (ref_world 5 (w_db w3) tt)
               = (inr (mkPresence "ann" OFFLINE 0), w5).
Proof.
  destruct (presence_expires default_settings coarse "1" "ann" "a" (ref_world 0 Ref.empty tt)
              coarse_reliable coarse_mono eq_refl) as (w1 & H1 & H2); [done|].
  exists w1. split; [exact H1|].
  assert (w_tick w1 = 1%nat) as Ht1 by exact (run_request_tick coarse _ _ _ coarse_reliable H1).
  destruct (H2 (ref_world 2 (w_db w1) tt) eq_refl) as (w3 & H3 & H4).
  - rewrite Ht1. cbn. lia.
  - reflexivity.
  - exists w3. split; [exact H3|].
    assert (w_tick w3 = 3%nat) as Ht3 by exact (run_request_tick coarse _ _ _ coarse_reliable H3).
    apply (H4 (ref_world 5 (w_db w3) tt) eq_refl).
    + rewrite Ht3. cbn. lia.
    + discriminate.
Defined.
