(* ===== verification/PresenceList.v ===== *)
(** * The listing of online users ([presence/tracker.py], [list_online])

    [list_online] scans the tenant's presence keys and reads each of them while
    time passes; this file states what its answer is worth. *)
From Stdlib Require Import ZArith Lia.
From stdpp Require Import base gmap strings list sets.
From S2P Require Import Prelude Config Keys RedisApi Async Tasks RefRedis Scan Samples Presence.
Import tracker.

Definition presence_prefix (tid : string) : string := "relay:presence:" +:+ tid +:+ ":".

Lemma presence_key_prefix (tid uid : string) : presence_key tid uid = presence_prefix tid +:+ uid.
Proof. unfold presence_key, presence_prefix. by rewrite !str_app_assoc. Qed.

Lemma presence_state_key_prefix (tid uid : string) :
  presence_state_key tid uid = presence_prefix tid +:+ (uid +:+ ":state").
Proof. unfold presence_state_key, presence_prefix. by rewrite !str_app_assoc. Qed.

Lemma rev_app_spec (a b c : string) : String.rev_app a (b +:+ c) = String.rev_app a b +:+ c.
Proof. revert b. induction a as [|x a IH]; intros b; cbn; [done|]. apply (IH (String x b)). Qed.

Lemma rev_app_app (a b c : string) :
  String.rev_app (a +:+ b) c = String.rev_app b (String.rev_app a c).
Proof. revert c. induction a as [|x a IH]; intros c; [done|]. rewrite str_app_cons. cbn. apply IH. Qed.

Lemma endswith_app (a q : string) : endswith (a +:+ q) q = true.
Proof.
  unfold endswith, String.rev. rewrite rev_app_app.
  change (String.rev_app a "") with ("" +:+ String.rev_app a "").
  rewrite rev_app_spec. apply startswith_app.
Qed.

Section Listing.
Context {Rd : Redis} {Rl : RedisLaws} {S : Type}.
Variable e : env.
Variable tid : string.
Hypothesis Hrel : reliable e.
Hypothesis Hmono : mono_clock e.

Notation at_ w := (clock e (w_tick w)).

(** From [t] on, the tenant's keys have the types the tracker gives them. *)
Definition typed (d : db) (t : Z) : Prop :=
  forall k u, startswith k (presence_prefix tid) = true -> t <= u ->
    if endswith k ":state" then
      match sees d u k with None | Some (VStr _) => True | Some _ => False end
    else is_Some (as_set (sees d u k)).

(** [p] is what the set of its user said at some time from [t] to [t']. *)
Definition view_of (d : db) (t t' : Z) (p : Presence) : Prop :=
  exists u x, t <= u <= t' /\ as_set (sees d u (presence_key tid (p_user_id p))) = Some x /\
    p_connections p = size x /\ (p_state p = OFFLINE <-> x = ∅).

Lemma typed_same (d d' : db) (t t' : Z) : same t d d' -> t <= t' -> typed d t -> typed d' t'.
Proof.
  intros Hs Ht H k u Hk Hu. rewrite (same_sees _ _ _ _ _ Hs) by lia. apply H; [done|lia].
Qed.

Lemma key_typed (d : db) (t : Z) (uid : string) :
  typed d t -> endswith (presence_key tid uid) ":state" = false ->
  is_Some (as_set (sees d t (presence_key tid uid))).
Proof.
  intros Ht He. specialize (Ht (presence_key tid uid) t). rewrite He in Ht.
  apply Ht; [|lia]. rewrite presence_key_prefix. apply startswith_app.
Qed.

(** One user: the view is that of the moment the set is read, and the server is
    as it was. *)
Lemma run_view (uid : string) (w : world S) :
  typed (w_db w) (at_ w) -> endswith (presence_key tid uid) ":state" = false ->
  exists p w' x, run e (get_presence tid uid) w = (inr p, w') /\ p_user_id p = uid /\
    as_set (sees (w_db w) (at_ w) (presence_key tid uid)) = Some x /\
    p_connections p = size x /\ (p_state p = OFFLINE <-> x = ∅) /\
    (w_tick w <= w_tick w')%nat /\ same (at_ w') (w_db w) (w_db w').
Proof.
  intros Ht He. destruct (key_typed _ _ _ Ht He) as [x Hx].
  assert (at_ w <= clock e (1 + w_tick w)) as Hle by (apply Hmono; lia).
  unfold get_presence. run_step Hrel. apply law_scard in E as [Hsame ->]. rewrite Hx.
  destruct (Nat.eqb_spec (size x) 0) as [H0|H0].
  - exists (mkPresence uid OFFLINE 0), (set_db w d), x. apply size_empty_iff in H0.
    split_and!; try done; cbn [p_connections p_state w_tick set_db w_db].
    + by rewrite H0, size_empty.
    + split; [intros _; by apply leibniz_equiv|done].
    + lia.
    + by apply (same_later (at_ w)).
  - run_step Hrel. apply law_get in E as [Hsame2 ->].
    pose proof (typed_same _ _ _ _ Hsame Hle Ht (presence_state_key tid uid) (clock e (1 + w_tick w)))
      as Hst.
    rewrite presence_state_key_prefix, <- str_app_assoc in Hst. rewrite endswith_app in Hst.
    rewrite str_app_assoc in Hst. specialize (Hst (startswith_app _ _) (Z.le_refl _)).
    rewrite <- presence_state_key_prefix in Hst.
    assert (x <> ∅) as Hne by (intros ->; by rewrite size_empty in H0).
    assert (clock e (1 + w_tick w) <= clock e (2 + w_tick w)) as Hle2 by (apply Hmono; lia).
    destruct (sees d (clock e (1 + w_tick w)) (presence_state_key tid uid)) as [[]|]; try done;
      (eexists _, _, x; split; [reflexivity|]; split_and!; try done; cbn [p_state w_tick set_db w_db];
       first [lia | repeat case_decide; split; done
             |etrans; [apply (same_later (at_ w)); [|done]; apply Hmono; cbn; lia
                      |eapply same_later; [|done]; apply Hmono; cbn; lia]]).
Qed.

Lemma removeprefix_key (k : string) :
  startswith k (presence_prefix tid) = true ->
  k = presence_key tid (removeprefix k (presence_prefix tid)).
Proof.
  intros [r ->]%startswith_spec. unfold removeprefix. rewrite drop_prefix_app.
  by rewrite presence_key_prefix.
Qed.

(** What one page gives: only views of the time it takes, and a view of every
    user whose set is there when it is done. *)
Definition page_views (d : db) (keys : list string) (t t' : Z) (ps : list Presence) : Prop :=
  (forall p, p ∈ ps -> view_of d t t' p) /\
  (forall uid x, presence_key tid uid ∈ keys -> endswith (presence_key tid uid) ":state" = false ->
     x <> ∅ -> sees d t' (presence_key tid uid) = Some (VSet x) ->
     exists p, p ∈ ps /\ p_user_id p = uid /\ p_connections p = size x /\ p_state p <> OFFLINE).

Lemma view_of_wider (d : db) (t1 t t' t1' : Z) (p : Presence) :
  t1 <= t -> t' <= t1' -> view_of d t t' p -> view_of d t1 t1' p.
Proof. intros H1 H2 (u & x & Hu & H). exists u, x. split; [lia|done]. Qed.

Lemma run_list_keys (t0 : Z) (d0 : db) (keys : list string) : forall w : world S,
  typed d0 t0 -> still e t0 d0 w ->
  (forall k, k ∈ keys -> startswith k (presence_prefix tid) = true) ->
  exists ps w', run e (list_keys tid keys) w = (inr ps, w') /\ still e t0 d0 w' /\
    (w_tick w <= w_tick w')%nat /\ page_views d0 keys (at_ w) (at_ w') ps.
Proof.
  induction keys as [|k keys IH]; intros w Ht Hw Hk.
  { exists [], w. split_and!; [done|done|lia|split].
    - by intros p []%not_elem_of_nil.
    - by intros uid x []%not_elem_of_nil. }
  cbn [list_keys]. destruct (endswith k ":state") eqn:Ek.
  { destruct (IH w Ht Hw) as (ps & w' & Hrun & Hw' & Hle & Hs & Hc); [intros; apply Hk; by right|].
    exists ps, w'. split_and!; [done|done|done|split; [done|]].
    intros uid x [<-|Hin]%elem_of_cons He; [congruence|]. by apply Hc. }
  pose proof (removeprefix_key k (Hk k ltac:(by left))) as Hkey.
  set (uid := removeprefix k (presence_prefix tid)) in *.
  change ("relay:presence:" +:+ tid +:+ ":") with (presence_prefix tid). fold uid.
  rewrite Hkey in Ek. destruct Hw as [Hw0 Hws]. destruct (run_view uid w) as
    (p & w1 & x & Hrun1 & Hid & Hx & Hsz & Hoff & Htick & Hsame); [|done|].
  { intros k0 u Hk0 Hu. rewrite (same_sees _ _ _ _ _ Hws) by lia. apply Ht; [done|lia]. }
  assert (at_ w <= at_ w1) as Hle by (apply Hmono; lia).
  destruct (IH w1 Ht) as (ps & w' & Hrun & Hw' & Hle' & Hs & Hc).
  { split; [lia|]. etrans; [by apply (same_later (at_ w))|done]. }
  { intros k0 Hk0. apply Hk. by right. }
  assert (at_ w1 <= at_ w') as Hle1 by (apply Hmono; lia).
  rewrite (same_sees _ _ _ _ _ Hws) in Hx by lia.
  exists (p :: ps), w'. rewrite run_bind, Hrun1, run_bind, Hrun.
  split_and!; [done|done|lia|split].
  - intros q [->|Hq]%elem_of_cons.
    + exists (at_ w), x. rewrite Hid. split; [lia|done].
    + eapply view_of_wider; [| |by apply Hs]; lia.
  - intros uid' y Hin He Hy Hst. destruct (decide (uid' = uid)) as [->|Hne].
    + exists p. split; [by left|]. apply (law_time _ (at_ w)) in Hst; [|lia].
      rewrite Hst in Hx. injection Hx as <-. split_and!; [done|done|]. intros Hp. by apply Hy, Hoff.
    + destruct (Hc uid' y) as (q & Hq & Hq'); [|done..|exists q; split; [by right|done]].
      apply elem_of_cons in Hin as [Hin|Hin]; [|done]. destruct Hne. rewrite Hkey in Hin.
      rewrite !presence_key_prefix in Hin. by apply str_app_inv_l in Hin.
Qed.

End Listing.


(** One user with two connections, whose presence expires after 30 seconds. *)
Definition presence_db : Ref.rdb := {|
  Ref.keys := {[ presence_key "1" "ann" := (VSet {["c1"; "c2"]}, Some 30000) ]};
  Ref.log := []
|}.

Lemma presence_db_typed : typed (Rd := Ref.ref_redis) "1" presence_db 0.
Proof.
  intros k u Hk Hu. cbn [sees Ref.ref_redis]. unfold Ref.rsees, Ref.look, presence_db, Ref.keys.
  destruct (decide (k = presence_key "1" "ann")) as [->|Hne].
  - rewrite lookup_singleton_eq. destruct (Ref.alive u _); by eexists.
  - rewrite lookup_singleton_ne by (by intros <-). cbn.
    destruct (endswith k ":state"); [done|]. by eexists.
Qed.

