(* ===== verification/Concurrency.v ===== *)
(** * Concurrent publishers

    Any number of [publish_message] calls, on any channels, interleaved in any
    way, with Redis requests lost, retried or failing: the sequence numbers the
    calls return for one channel are distinct.  The steps of a publication are
    not atomic together, so the order of the numbers is not the order of the
    Pub/Sub messages; a schedule shows it. *)
From Stdlib Require Import ZArith Lia.
From stdpp Require Import base gmap strings list.
From S2P Require Import Prelude Config Frames Keys RedisApi Async RefRedis Samples Sessions Publisher Replay.

Lemma Forall3_insert {A B C} (P : A -> B -> C -> Prop) l k k' :
  Forall3 P l k k' -> forall i x y z, P x y z ->
  Forall3 P (<[i := x]> l) (<[i := y]> k) (<[i := z]> k').
Proof.
  induction 1 as [|a b c l k k' Hp Hf IH]; intros i x y z Hxyz; [by constructor|].
  destruct i as [|i]; cbn; constructor; auto.
Qed.

(** ** Shapes of tasks *)
Section Shapes.
Context {S : Type}.
Variable key : string.

Definition ev_avoids {B} (x : ev S B) : Prop :=
  match x with ERedis c => key ∉ touched c | _ => True end.

(** [p] never writes [key], and what it returns satisfies [Q]. *)
Fixpoint safe {A} (Q : A -> Prop) (p : proc S A) : Prop :=
  match p with
  | Ret a => Q a
  | Throw _ => True
  | Call x k => ev_avoids x /\ forall b, safe Q (k b)
  end.

Lemma safe_bind {A B} (P : A -> Prop) (Q : B -> Prop) (p : proc S A) (f : A -> proc S B) :
  safe P p -> (forall a, P a -> safe Q (f a)) -> safe Q (bind p f).
Proof.
  intros Hp Hf. induction p as [a|x|C x k IH]; cbn in *; [by apply Hf|done|].
  destruct Hp as [Hx Hk]. split; [done|]. intros b. by apply IH.
Qed.

Lemma safe_redis {A} (c : rcmd A) : key ∉ touched c -> safe (fun _ => True) (redis c).
Proof. intros H. split; [done|]. by intros []. Qed.

(** [p] writes [key] by one [INCR] at most, and what it returns carries the
    number the server answered. *)
Fixpoint will_allocate (p : proc S PublishResult) : Prop :=
  match p with
  | Ret _ => False
  | Throw _ => True
  | Call x k =>
      match x in ev _ B return
        (B -> Prop) -> (Z -> B -> Prop) -> Prop with
      | ERedis c =>
          match c in rcmd A return
            ((exn + A) -> Prop) -> (Z -> (exn + A) -> Prop) -> Prop with
          | INCR k' => fun K R => k' = key /\ (forall z, R z (inr z)) /\ forall x, K (inl x)
          | c' => fun K _ => key ∉ touched c' /\ forall b, K b
          end
      | _ => fun K _ => forall b, K b
      end (fun b => will_allocate (k b))
          (fun z b => safe (fun a => pr_sequence a = z) (k b))
  end.

End Shapes.

Section PublishShape.
Context {Jt : JsonText} {Py : Pydantic} {S : Type}.
Variable settings : Settings.

(** The part of a publication after its number is known. *)
Lemma safe_append key ch mid sq payload :
  key <> RedisKeys.channel_stream ch ->
  safe (S := S) key (fun _ => True) (append_to_channel_buffer settings ch mid sq payload).
Proof.
  intros Hne. split; [done|]. intros t. cbn [bind]. eapply safe_bind.
  - apply safe_redis. set_solver.
  - intros id _. split; [done|]. intros t'. cbn [bind]. apply safe_redis. set_solver.
Qed.

Lemma publish_will_allocate ch payload :
  will_allocate (S := S) (RedisKeys.channel_sequence ch) (publish_message settings ch payload).
Proof.
  intros mid. cbn [bind]. split; [done|]. split; [|done]. intros sq. cbn [lift bind].
  eapply safe_bind; [apply safe_append, not_eq_sym, stream_sequence_neq|].
  intros _ _. split; [done|]. intros t. cbn [bind]. eapply safe_bind; [apply safe_redis; set_solver|].
  done.
Qed.

(** A publication on another channel leaves the counter alone. *)
Lemma publish_safe ch ch' payload :
  ch' <> ch ->
  safe (S := S) (RedisKeys.channel_sequence ch) (fun _ => True) (publish_message settings ch' payload).
Proof.
  intros Hne. split; [done|]. intros mid. cbn [bind]. eapply safe_bind.
  - apply safe_redis. cbn. intros H. apply list_elem_of_singleton in H.
    by apply channel_sequence_inj in H.
  - intros sq _. eapply safe_bind; [apply safe_append, not_eq_sym, stream_sequence_neq|].
    intros _ _. split; [done|]. intros t. cbn [bind]. eapply safe_bind; [apply safe_redis; set_solver|].
    done.
Qed.

End PublishShape.

(** ** The counter under faults and retries *)
Section Counter.
Context {Rd : Redis} {Rl : RedisLaws} {S : Type}.
Variable e : env.
Hypothesis Hmono : mono_clock e.
Variable key : string.

(** From [t] on the counter reads [n]. *)
Definition counter (d : db) (t n : Z) : Prop :=
  persistent d t key /\ as_counter (sees d t key) = Some n.

Lemma counter_later d t u n : t <= u -> counter d t n -> counter d u n.
Proof. intros Htu [Hp Hc]. split; [by apply (persistent_later d t)|]. by rewrite Hp. Qed.

Lemma counter_same d d' t n :
  (forall u, t <= u -> sees d' u key = sees d u key) -> counter d t n -> counter d' t n.
Proof.
  intros H [Hp Hc]. destruct (unchanged_persistent t d d' key H Hp) as [? E].
  split; [done|]. by rewrite E.
Qed.

Lemma counter_incr d t n r d' :
  rexec (INCR key) t d = (r, d') -> counter d t n ->
  exists n', n <= n' /\ counter d' t n' /\ forall z, r = inr z -> n < z /\ n' = z.
Proof.
  intros E [Hp Hc]. destruct (Z.lt_ge_cases n int64_max) as [Hlt|Hge].
  - apply (law_incr _ n) in E as [-> Hch]; [|done..]. exists (n + 1).
    destruct (changes_persistent _ _ _ _ _ Hch Hp) as [Hp1 Hs1].
    split; [lia|]. split.
    + split; [done|]. rewrite Hs1. cbn. apply py_int_str.
    + intros z [= <-]. lia.
  - apply (law_incr_overflow _ n) in E as [-> Hs]; [|done..]. exists n. split; [lia|].
    split; [|done]. apply (counter_same d); [|by split]. intros u Hu. by apply Hs.
Qed.

Lemma counter_frame {A} (c : rcmd A) d t n :
  key ∉ touched c -> counter d t n -> counter (rexec c t d).2 t n.
Proof. intros Hk. apply counter_same. intros u Hu. by apply law_frame. Qed.

Lemma counter_iter_incr m d t n :
  counter d t n -> exists n', n <= n' /\ counter (Nat.iter m (exec_once (INCR key) t) d) t n'.
Proof.
  intros H. induction m as [|m (n1 & Hn & IH)]; [exists n; split; [lia|exact H]|].
  rewrite Nat.iter_succ. set (d1 := Nat.iter m _ d) in *. unfold exec_once.
  destruct (rexec (INCR key) t d1) as [r d2] eqn:E.
  destruct (counter_incr _ _ _ _ _ E IH) as (n2 & Hn2 & H2 & _). exists n2. split; [lia|done].
Qed.

Lemma counter_iter_frame {A} (c : rcmd A) m d t n :
  key ∉ touched c -> counter d t n -> counter (Nat.iter m (exec_once c t) d) t n.
Proof. intros Hk H. induction m as [|m IH]; [done|].
  rewrite Nat.iter_succ. by apply counter_frame. Qed.

(** A request to another key, whatever happens to it. *)
Lemma request_frame {A} (ne : netev) (c : rcmd A) d t n :
  key ∉ touched c -> counter d t n -> counter (request ne c t d).2 t n.
Proof.
  intros Hk H. destruct ne as [m|m]; cbn; [|by apply counter_iter_frame].
  pose proof (counter_frame c _ t n Hk (counter_iter_frame c m d t n Hk H)) as Hc.
  by destruct (rexec c t _).
Qed.

(** An [INCR], whatever happens to it: the number answered is new. *)
Lemma request_incr (ne : netev) d t n :
  counter d t n ->
  exists n', n <= n' /\ counter (request ne (INCR key) t d).2 t n' /\
    forall z, (request ne (INCR key) t d).1 = inr z -> n < z <= n'.
Proof.
  intros H. destruct ne as [m|m]; cbn.
  - destruct (counter_iter_incr m d t n H) as (n1 & Hn1 & H1).
    destruct (rexec (INCR key) t _) as [r d'] eqn:E.
    destruct (counter_incr _ _ _ _ _ E H1) as (n2 & Hn2 & H2 & Hz). exists n2.
    split; [lia|]. split; [done|]. intros z Hr. destruct r as [x|z']; simplify_eq/=.
    destruct (Hz z eq_refl). lia.
  - destruct (counter_iter_incr m d t n H) as (n1 & Hn1 & H1). exists n1.
    split; [lia|]. split; [done|]. by intros z.
Qed.

End Counter.

(** ** The pool of publishers *)
Section Pool.
Context {Rd : Redis} {Rl : RedisLaws} {S : Type}.
Variable e : env.
Hypothesis Hmono : mono_clock e.
Variable ch : string.

Notation key := (RedisKeys.channel_sequence ch).

(** A task on channel [c] that has been given [o], if anything, on [ch]. *)
Definition task_ok (c : string) (p : proc S PublishResult) (o : option Z) : Prop :=
  match o with
  | Some z => c = ch /\ safe key (fun a => pr_sequence a = z) p
  | None => if decide (c = ch) then will_allocate key p else safe key (fun _ => True) p
  end.

(** A task may be given one number, above every number given before. *)
Definition evolves (o : option Z) (n : Z) (o' : option Z) (n' : Z) : Prop :=
  n <= n' /\ (o' = o \/ o = None /\ exists z, o' = Some z /\ n < z <= n').

Lemma evolves_refl o n : evolves o n o n.
Proof. split; [lia|by left]. Qed.

Notation now_ w := (clock e (w_tick w)).

(** An event that writes nothing to the counter. *)
Lemma do_ev_frame {B} (x : ev S B) (w : world S) n :
  ev_avoids key x -> counter key (w_db w) (now_ w) n ->
  counter key (w_db (do_ev e x w).2) (now_ (do_ev e x w).2) n.
Proof.
  intros Hx H.
  assert (counter key (w_db w) (clock e (1 + w_tick w)) n) as Hlater
    by (eapply counter_later, H; apply Hmono; lia).
  destruct x as [A c| | |A f|ws t|ws m|ms]; cbn; try done.
  - pose proof (request_frame key (net e (w_tick w)) c _ _ n Hx H) as Hr.
    destruct (request _ _ _ _) as [r d']. eapply counter_later, Hr. apply Hmono; cbn; lia.
  - by destruct (f (w_state w)).
  - by destruct (ws_ok _ _).
  - by destruct (ws_ok _ _).
Qed.

Lemma do_ev_incr (w : world S) n :
  counter key (w_db w) (now_ w) n ->
  exists n', n <= n' /\
    counter key (w_db (do_ev e (ERedis (INCR key)) w).2)
      (now_ (do_ev e (ERedis (INCR key)) w).2) n' /\
    forall z, (do_ev e (ERedis (INCR key)) w).1 = inr z -> n < z <= n'.
Proof.
  intros H. destruct (request_incr key (net e (w_tick w)) _ _ n H) as (n' & Hn & Hc & Hz).
  exists n'. cbn. destruct (request _ _ _ _) as [r d']. cbn in *. split; [done|]. split; [|done].
  eapply counter_later, Hc. apply Hmono. lia.
Qed.

(** One event of an unnumbered publication on the channel. *)
Lemma do_ev_allocate {B} (x : ev S B) (k : B -> proc S PublishResult) (w : world S) n :
  will_allocate key (Call x k) -> counter key (w_db w) (now_ w) n ->
  exists o' n', evolves None n o' n' /\
    counter key (w_db (do_ev e x w).2) (now_ (do_ev e x w).2) n' /\
    task_ok ch (k (do_ev e x w).1) o'.
Proof.
  intros Hp Hc.
  destruct x as [A c| | |A f|ws t|ws m|ms].
  1: destruct c.
  4:{ destruct Hp as (-> & Hok & Herr).
      destruct (do_ev_incr w n Hc) as (n' & Hn & Hc' & Hz).
      destruct ((do_ev e (ERedis (INCR key)) w).1) as [x|z] eqn:Hr.
      - exists None, n'. split; [split; [done|by left]|]. split; [done|].
        unfold task_ok. rewrite decide_True by done. apply Herr.
      - exists (Some z), n'. destruct (Hz z eq_refl). split; [split; [lia|right]|].
        + split; [done|]. exists z. split; [done|lia].
        + split; [done|]. split; [done|apply Hok]. }
  all: exists None, n; split; [apply evolves_refl|].
  all: split; [apply do_ev_frame; [|done]; try done; apply Hp|].
  all: unfold task_ok; rewrite decide_True by done; apply Hp.
Qed.

(** One event of any task. *)
Lemma do_ev_task {B} c (x : ev S B) (k : B -> proc S PublishResult) o (w : world S) n :
  task_ok c (Call x k) o -> counter key (w_db w) (now_ w) n ->
  exists o' n', evolves o n o' n' /\
    counter key (w_db (do_ev e x w).2) (now_ (do_ev e x w).2) n' /\
    task_ok c (k (do_ev e x w).1) o'.
Proof.
  intros Hp Hc. destruct o as [z|].
  - destruct Hp as (-> & Hx & Hk). exists (Some z), n. split; [apply evolves_refl|].
    split; [by apply do_ev_frame|]. split; [done|apply Hk].
  - unfold task_ok in Hp. destruct (decide (c = ch)) as [->|Hne].
    + by apply do_ev_allocate.
    + destruct Hp as [Hx Hk]. exists None, n. split; [apply evolves_refl|].
      split; [by apply do_ev_frame|]. unfold task_ok. rewrite decide_False by done. apply Hk.
Qed.

Lemma evolves_trans o1 n1 o2 n2 o3 n3 :
  evolves o1 n1 o2 n2 -> evolves o2 n2 o3 n3 -> evolves o1 n1 o3 n3.
Proof.
  intros [H1 H2] [H3 H4]. split; [lia|].
  destruct H2 as [->|(-> & z & -> & Hz)], H4 as [->|(H4 & z' & -> & Hz')]; try done.
  - by left.
  - right. split; [done|]. exists z'. split; [done|lia].
  - right. split; [done|]. exists z. split; [done|lia].
Qed.

Lemma settle_task c p : forall o (w : world S) n,
  task_ok c p o -> counter key (w_db w) (now_ w) n ->
  exists o' n', evolves o n o' n' /\
    counter key (w_db (settle e p w).2) (now_ (settle e p w).2) n' /\
    task_ok c (settle e p w).1 o'.
Proof.
  induction p as [a|x|C x k IH]; intros o w n Hp Hc; cbn.
  1,2: exists o, n; split; [apply evolves_refl|done].
  destruct (is_await x); [exists o, n; split; [apply evolves_refl|done]|].
  destruct (do_ev_task c x k o w n Hp Hc) as (o1 & n1 & He & Hc1 & Ht1).
  destruct (do_ev e x w) as [b w1]. destruct (IH b o1 w1 n1 Ht1 Hc1) as (o2 & n2 & He2 & H2).
  exists o2, n2. split; [by eapply evolves_trans|done].
Qed.

Lemma turn_task c p o (w : world S) n :
  task_ok c p o -> counter key (w_db w) (now_ w) n ->
  exists o' n', evolves o n o' n' /\
    counter key (w_db (turn e p w).2) (now_ (turn e p w).2) n' /\
    task_ok c (turn e p w).1 o'.
Proof.
  intros Hp Hc. destruct p as [a|x|C x k]; cbn.
  1,2: exists o, n; split; [apply evolves_refl|done].
  destruct (do_ev_task c x k o w n Hp Hc) as (o1 & n1 & He & Hc1 & Ht1).
  destruct (is_await x); destruct (do_ev e x w) as [b w1]; [by exists o1, n1|].
  destruct (settle_task c (k b) o1 w1 n1 Ht1 Hc1) as (o2 & n2 & He2 & H2).
  exists o2, n2. split; [by eapply evolves_trans|done].
Qed.

(** Each task is in shape, the numbers given are distinct and not above the
    counter. *)
Definition pool_ok (chs : list string) (st : list (proc S PublishResult) * world S) : Prop :=
  exists os n, counter key (w_db st.2) (now_ st.2) n /\
    Forall3 task_ok chs st.1 os /\
    (forall i z, os !! i = Some (Some z) -> z <= n) /\
    (forall i j z, os !! i = Some (Some z) -> os !! j = Some (Some z) -> i = j).

Lemma pool_step chs i st : pool_ok chs st -> pool_ok chs (pstep e i st).
Proof.
  intros (os & n & Hc & Hf & Hle & Hinj). unfold pstep.
  destruct (st.1 !! i) as [p|] eqn:Hp; [|by exists os, n].
  destruct (Forall3_lookup_m _ _ _ _ _ _ Hf Hp) as (c & o & Hch & Ho & Ht).
  destruct (turn_task c p o st.2 n Ht Hc) as (o' & n' & [Hn He] & Hc' & Ht').
  destruct (turn e p st.2) as [p' w']. exists (<[i := o']> os), n'. split; [done|].
  split_and!.
  - rewrite <- (list_insert_id chs i c Hch). by apply Forall3_insert.
  - intros j z Hj. apply list_lookup_insert_Some in Hj as [(_ & Hz & _)|[_ Hj]].
    + destruct He as [->|(_ & z' & -> & Hz')]; [|simplify_eq; lia].
      subst. apply Hle in Ho. lia.
    + apply Hle in Hj. lia.
  - assert (forall j z, os !! j = Some (Some z) -> o' = Some z -> i = j) as Hnew.
    { intros j z Hj ->. destruct He as [He|(_ & z' & He & Hz')]; simplify_eq.
      - by apply (Hinj i j z).
      - apply Hle in Hj. lia. }
    intros j1 j2 z H1 H2.
    apply list_lookup_insert_Some in H1 as [(<- & Hz1 & _)|[Hn1 H1]],
      H2 as [(<- & Hz2 & _)|[Hn2 H2]]; eauto. symmetry. eauto.
Qed.

Lemma pool_run chs sched : forall st, pool_ok chs st -> pool_ok chs (run_sched e sched st).
Proof.
  induction sched as [|i sched IH]; intros st H; [done|]. apply IH. by apply pool_step.
Qed.

End Pool.

(** ** Claims *)

(** C4.  Sequence numbers are unique per channel: for any pool of concurrent
    publications on any channels, any interleaving of their steps, and any
    losses, failures and retries of their Redis requests, two publications that
    return on the same channel return different numbers. *)
Theorem sequences_unique {Rd : Redis} {Rl : RedisLaws} {Jt : JsonText} {Py : Pydantic} {S : Type}
    (settings : Settings) (e : env) (sched : list nat)
    (pool : list (string * json_object)) (w : world S) (ch : string) (n : Z) :
  mono_clock e -> counter (RedisKeys.channel_sequence ch) (w_db w) (clock e (w_tick w)) n ->
  let final := run_sched e sched
                 ((fun x => publish_message settings x.1 x.2) <$> pool, w) in
  forall i j pi pj ri rj,
    pool !! i = Some (ch, pi) -> pool !! j = Some (ch, pj) ->
    final.1 !! i = Some (Ret ri) -> final.1 !! j = Some (Ret rj) ->
    i <> j -> pr_sequence ri <> pr_sequence rj.
Proof.
  intros Hmono Hc final i j pi pj ri rj Hpi Hpj Hri Hrj Hij Heq.
  assert (pool_ok e ch pool.*1 final) as (os & m & _ & Hf & _ & Hinj).
  { apply pool_run; [done|]. exists (replicate (length pool) None), n. split; [done|].
    split_and!.
    - clear. induction pool as [|[c p] pool IH]; cbn; constructor; [|done].
      unfold task_ok. case_decide as Hch; cbn; [subst|].
      + apply publish_will_allocate.
      + by apply publish_safe.
    - intros k z Hk. apply lookup_replicate in Hk as [Hk _]. done.
    - intros k l z Hk. apply lookup_replicate in Hk as [Hk _]. done. }
  assert (forall k p r, pool !! k = Some (ch, p) -> final.1 !! k = Some (Ret r) ->
            os !! k = Some (Some (pr_sequence r))) as Hret.
  { intros k p r Hk Hr. destruct (Forall3_lookup_m _ _ _ _ _ _ Hf Hr) as (c & o & Hck & Ho & Ht).
    rewrite list_lookup_fmap, Hk in Hck. cbn in Hck. simplify_eq. destruct o as [z|]; cbn in Ht.
    - destruct Ht as [_ <-]. done.
    - by rewrite decide_True in Ht by done. }
  apply Hij, (Hinj i j (pr_sequence ri)); [by eapply Hret|]. rewrite Heq. by eapply Hret.
Qed.

(** Two publications whose steps alternate. *)
Definition two_pool : list (string * json_object) :=
  [(sample_channel, payload_n 1); (sample_channel, payload_n 2)].

Definition alternating : list nat := concat (replicate 8 [0; 1]%nat).

Lemma sequences_unique_witness :
  exists r0 r1,
    (run_sched calm alternating
       ((fun x => publish_message (S := unit) tiny_settings x.1 x.2) <$> two_pool,
        ref_world 0 sample_db tt)).1 = [Ret r0; Ret r1] /\
    pr_sequence r0 <> pr_sequence r1.
Proof.
  exists (mkPublishResult "uuid-0" 4), (mkPublishResult "uuid-1" 5). split; [by vm_compute|].
  apply (sequences_unique tiny_settings calm alternating two_pool (ref_world 0 sample_db tt)
           sample_channel 3 calm_mono) with (i := 0%nat) (j := 1%nat)
           (pi := payload_n 1) (pj := payload_n 2); by vm_compute.
Defined.

(** Overtaking: the first publication takes its number, the second one runs to
    its end, then the first one continues. *)
Definition overtaking : list nat := [0; 0]%nat ++ replicate 10 1%nat ++ replicate 10 0%nat.

(** The number order is not the delivery order: there is a schedule of two
    publications on one channel after which the Pub/Sub history holds the
    message numbered 5 before the one numbered 4. *)
Theorem publish_order_can_invert :
  let final := run_sched calm overtaking
    ((fun x => publish_message (S := unit) tiny_settings x.1 x.2) <$> two_pool,
     ref_world 0 sample_db tt) in
  (exists r0 r1, final.1 = [Ret r0; Ret r1] /\ pr_sequence r0 = 4 /\ pr_sequence r1 = 5) /\
  plog (w_db final.2) = [(RedisKeys.pubsub_channel sample_channel, "m5");
                         (RedisKeys.pubsub_channel sample_channel, "m4")].
Proof.
  split; [|by vm_compute].
  exists (mkPublishResult "uuid-0" 4), (mkPublishResult "uuid-2" 5). by vm_compute.
Qed.

(** Both acknowledgements read the stored position before either writes. *)
Definition ack_race : list nat := [0; 1; 1; 0]%nat.

(** Recording an acknowledgement is a read followed by a write: when the
    connections of one session acknowledge 7 and 9 at the same time, the
    position stored afterwards can be 7. *)
Theorem ack_position_can_regress :
  let final := run_sched calm ack_race
    ([record_ack default_settings "s-1" sample_channel 7;
      record_ack default_settings "s-1" sample_channel 9], ref_world 0 Ref.empty tt) in
  final.1 = [Ret tt; Ret tt] /\
  (run calm (get_ack "s-1" sample_channel) final.2).1 = inr 7.
Proof. split; by vm_compute. Qed.
