(* ===== verification/Handler.v ===== *)
(** * The WebSocket handler
    ([apps/gateway/websocket/handler.py])

    The handshake, the frame loop and the cleanup of one connection, as tasks
    on the gateway's state.  [receive_json] is a suspension point that yields
    the next of a list of inputs, and raises [WebSocketDisconnect] after the
    last.  The texts of Pydantic's [ValidationError] and of [str] on a JSON value
    are parameters; an identifier that a client sends as another JSON value is
    used, as in the f-strings of the keys, by its text. *)
From Stdlib Require Import Ascii ZArith Lia.
From stdpp Require Import base gmap strings list sets.
From S2P Require Import Prelude Config Frames Keys RedisApi Async Tasks RefRedis Samples Handshake Auth Sessions Publisher Replay Connection Registry State Rooms Fanout Presence.

(** [raw.get(k) == s] *)
Definition field_is (k s : string) (raw : json_object) : bool :=
  match obj_get k raw with Some (JStr s') => String.eqb s' s | _ => false end.

Definition type_is (t : FrameType) (raw : json_object) : bool :=
  field_is "type" (frame_type_value t) raw.

(** [not j] *)
Definition falsy (j : json) : bool :=
  match j with
  | JNull | JBool false | JInt 0 | JStr "" | JArr [] | JObj [] => true
  | JFloat repr => String.eqb repr "0.0" || String.eqb repr "-0.0"
  | _ => false
  end.

(** A field the code uses only when it is truthy, as the text it has in a key. *)
Definition optional_id (str_of : json -> string) (k : string) (raw : json_object) :
    option string :=
  match obj_get k raw with
  | None => None
  | Some j => if falsy j then None
              else Some (match j with JStr s => s | _ => str_of j end)
  end.

(** [uuid.uuid4().hex] *)
Fixpoint remove_dashes (s : string) : string :=
  match s with
  | EmptyString => EmptyString
  | String c s' => if Ascii.eqb c "-"%char then remove_dashes s' else String c (remove_dashes s')
  end.

Definition truthy_id (o : option string) : option string :=
  match o with Some "" => None | _ => o end.

Section Handler.
Context {Jt : JsonText} {Py : Pydantic} {Sh : Sha256} {Ad : AuthDb}.
Variable settings : Settings.
Variable validation_text : json_object -> string.
Variable str_of : json -> string.

Definition _send_error (ws : nat) (code message : string) : proc Gateway unit :=
  send_text ws (dump (ErrorFrame code message)).

(** The connection object of the handler, which it keeps a reference to. *)
Definition self (l : loc) : proc Gateway Connection :=
  let! c := gets (conn_at l) in
  match c with Some c => Ret c | None => Throw (OtherError "no object") end.

(** ** Frames *)
Section Frames.
Variables (l : loc) (ws : nat) (tid : string).

Definition on_pong : proc Gateway unit :=
  let! t := now in
  modify (update_at l (set_last_pong t)) ;;
  let! conn := self l in
  touch_session settings (session_id conn) (node_id settings) ;;
  match truthy_id (user_id conn) with
  | Some u => tracker.refresh settings tid u
  | None => Ret tt
  end.

Definition on_presence (raw : json_object) : proc Gateway unit :=
  let! conn := self l in
  match truthy_id (user_id conn) with
  | Some u => tracker.set_state settings tid u
                (if field_is "state" "IDLE" raw then tracker.IDLE else tracker.ONLINE)
  | None => Ret tt
  end.

Definition on_subscribe (raw : json_object) : proc Gateway unit :=
  match parse_subscribe raw with
  | None => _send_error ws ErrorCode.INVALID_CHANNEL (validation_text raw)
  | Some channel =>
      if negb (channel_belongs_to_tenant channel tid) then
        _send_error ws ErrorCode.CHANNEL_FORBIDDEN channel
      else
        let! conn := self l in
        modify (with_store (subscribe (connection_id conn) channel)) ;;
        on_local_subscribe settings channel ;;
        send_text ws (dump (SubscribedFrame channel))
  end.

Definition on_unsubscribe (raw : json_object) : proc Gateway unit :=
  match parse_unsubscribe raw with
  | None => Throw ValidationError
  | Some channel =>
      let! conn := self l in
      modify (with_store (unsubscribe (connection_id conn) channel)) ;;
      on_local_unsubscribe settings channel ;;
      send_text ws (dump (UnsubscribedFrame channel))
  end.

(** [conn.on_ack(...)] and the metric. *)
Definition apply_ack (channel : string) (sequence : Z) (g : Gateway) : Gateway :=
  match conn_at l g with
  | None => g
  | Some c =>
      let '(released, c') := on_ack settings channel sequence c in
      metric_add "relay_messages_acked_total" released (update_at l (fun _ => c') g)
  end.

Definition on_ack_frame (raw : json_object) : proc Gateway unit :=
  match parse_ack raw with
  | None => Throw ValidationError
  | Some (channel, sequence) =>
      let! conn := self l in
      record_ack settings (session_id conn) channel sequence ;;
      modify (apply_ack channel sequence)
  end.

(** [conn.enqueue(...)] on the object. *)
Definition enqueue_at (payload : string) (priority : Priority) (channel : option string)
    (sequence : option Z) : proc Gateway unit :=
  let! r := local (fun g =>
    match conn_at l g with
    | None => (inl (OtherError "no object"), g)
    | Some c => match enqueue settings payload priority channel sequence c with
                | inl x => (inl x, g)
                | inr c' => (inr tt, update_at l (fun _ => c') g)
                end
    end) in
  lift r.

(** A replayed message: [MessageFrame] wants an object as its payload. *)
Definition replay_one (channel : string) (m : Buffered) : proc Gateway unit :=
  match b_payload m with
  | JObj payload =>
      let mf := MessageF {| mf_message_id := b_message_id m; mf_channel := channel;
                            mf_sequence := b_sequence m;
                            mf_timestamp := utc_timestamp (b_created_at m);
                            mf_payload := payload |} in
      enqueue_at (dump mf) NORMAL (Some channel) (Some (b_sequence m))
  | _ => Throw ValidationError
  end.

(** The loop over [last_ack_by_channel], with [replayed] and [gaps] so far. *)
Fixpoint resume_channels (items : list (string * Z)) (replayed : list (string * Z))
    (gaps : list string) : proc Gateway (list (string * Z) * list string) :=
  match items with
  | [] => Ret (replayed, gaps)
  | (channel, last_ack) :: items' =>
      if negb (channel_belongs_to_tenant channel tid) then resume_channels items' replayed gaps
      else
        let! result := replay_channel channel last_ack in
        if rr_gap result then
          _send_error ws ErrorCode.RESUME_GAP channel ;;
          resume_channels items' replayed (gaps ++ [channel])
        else
          for_each (rr_messages result) (replay_one channel) ;;
          let! conn := self l in
          modify (with_store (subscribe (connection_id conn) channel)) ;;
          on_local_subscribe settings channel ;;
          resume_channels items'
            (replayed ++ [(channel, Z.of_nat (length (rr_messages result)))]) gaps
  end.

Definition on_resume (raw : json_object) : proc Gateway unit :=
  match parse_resume raw with
  | None => Throw ValidationError
  | Some (_, items) =>
      let! rg := resume_channels items [] [] in
      let! conn := self l in
      send_text ws (dump (ResumedFrame (session_id conn) rg.1 rg.2))
  end.

(** [str(frame_type)] *)
Definition type_text (raw : json_object) : string :=
  match obj_get "type" raw with
  | None | Some JNull => "None"
  | Some (JStr s) => s
  | Some j => str_of j
  end.

(** One turn of the loop on a received frame; [false] is [break]. *)
Definition handle_frame (raw : json_object) : proc Gateway bool :=
  if type_is PONG raw then on_pong ;; Ret true
  else if field_is "type" "PRESENCE" raw then on_presence raw ;; Ret true
  else if type_is SUBSCRIBE raw then on_subscribe raw ;; Ret true
  else if type_is UNSUBSCRIBE raw then on_unsubscribe raw ;; Ret true
  else if type_is ACK raw then on_ack_frame raw ;; Ret true
  else if type_is RESUME raw then on_resume raw ;; Ret true
  else if type_is DISCONNECT raw then Ret false
  else _send_error ws ErrorCode.UNKNOWN_MESSAGE (type_text raw) ;; Ret true.

Fixpoint _frame_loop (inputs : list json) : proc Gateway unit :=
  let! conn := self l in
  if decide (state conn = ACTIVE) then
    sleep 0 ;;
    match inputs with
    | [] => Throw WebSocketDisconnect
    | JObj raw :: inputs' =>
        let! continue := handle_frame raw in
        if continue then _frame_loop inputs' else Ret tt
    | _ :: _ => Throw (OtherError "AttributeError")
    end
  else Ret tt.

Definition _on_dead_connection (reason : string) : proc Gateway unit :=
  modify (update_at l (set_state DEAD)) ;;
  catch (close ws (if String.eqb reason "HEARTBEAT_TIMEOUT" then 4408 else 4409))
    (fun _ => Ret tt).

(** The cancellation of the sender is [step_cancel] of [Connection]. *)
Definition _cleanup_connection : proc Gateway unit :=
  modify (update_at l (set_state DEAD)) ;;
  let! conn := self l in
  for_each (elements (subscriptions conn)) (on_local_unsubscribe settings) ;;
  match truthy_id (user_id conn) with
  | Some u => let! _ := tracker.connection_offline (c_tenant_id conn) u (connection_id conn) in Ret tt
  | None => Ret tt
  end ;;
  modify (with_store (fun s => (remove (connection_id conn) s).2)) ;;
  catch (close ws 1000) (fun _ => Ret tt).

(** The part of [handle_connection] after the handshake: [finally] runs the
    cleanup, then an exception other than a disconnect goes on. *)
Definition serve (inputs : list json) : proc Gateway unit :=
  let! outcome := catch (_frame_loop inputs ;; Ret None)
    (fun x => match x with WebSocketDisconnect => Ret None | _ => Ret (Some x) end) in
  _cleanup_connection ;;
  match outcome with Some x => Throw x | None => Ret tt end.

End Frames.

(** ** The handshake *)

(** Session creation or resumption: the requested session is taken only when
    it exists and belongs to the tenant. *)
Definition choose_session (requested_session_id : option string) (tid : string) :
    proc Gateway string :=
  let! session_id := match requested_session_id with
                     | Some sid =>
                         let! existing := get_session sid in
                         Ret (match existing with
                              | Some h => if bool_decide (h !! "tenant_id" = Some tid)
                                          then Some sid else None
                              | None => None
                              end)
                     | None => Ret None
                     end in
  match session_id with
  | None => create_session settings tid (node_id settings)
  | Some sid => touch_session settings sid (node_id settings) ;; Ret sid
  end.

(** [raw.get("token", "")], as far as [authenticate_token] gets with it: a falsy
    value is a missing token, and [token.encode] fails on what is no string. *)
Definition token_of (raw : json_object) : exn + string :=
  match obj_get "token" raw with
  | None => inr ""
  | Some j => if falsy j then inr ""
              else match j with JStr s => inr s | _ => inl (OtherError "AttributeError") end
  end.

(** [ConnectedFrame(session_id=...)] wants a string: the requested session is
    the client's own value. *)
Definition connected_valid (raw : json_object) (sid : string) : bool :=
  match obj_get "session_id" raw with
  | None | Some (JStr _) => true
  | Some j => falsy j || negb (String.eqb sid (str_of j))
  end.

(** The handshake on the first frame: [None] when the connection was refused,
    else the new object and its tenant.  Before the CONNECTED frame it starts two
    tasks on the object: the sender ([Connection.sender_step] from [Top]) and
    [Heartbeat.run_heartbeat]. *)
Definition handshake (sql : tables) (ws : nat) (raw : json_object) :
    proc Gateway (option (loc * string)) :=
  if negb (type_is CONNECT raw) then
    _send_error ws ErrorCode.INVALID_FRAME "expected CONNECT frame first" ;;
    close ws 1000 ;; Ret None
  else
    let requested_session_id := optional_id str_of "session_id" raw in
    let uid := optional_id str_of "user_id" raw in
    let! token := lift (token_of raw) in
    sleep 0 ;;
    match authenticate_token sql token with
    | inl (AuthenticationError text) =>
        _send_error ws ErrorCode.AUTH_FAILED text ;; close ws 4401 ;; Ret None
    | inl x => Throw x
    | inr auth_ctx =>
        let tid := auth_tenant_id auth_ctx in
        let! count := gets (fun g => tenant_connection_count tid (store g)) in
        if max_connections_per_tenant settings <=? count then
          _send_error ws ErrorCode.RATE_LIMITED "tenant connection limit reached" ;;
          close ws 4429 ;; Ret None
        else
          let! sid := choose_session requested_session_id tid in
          let! u := uuid4 in
          let cid := "conn-" +:+ py_take 12 (remove_dashes u) in
          let! t := now in
          let! l := local (fun g =>
            let conn := set_user_id uid (new_connection cid sid tid ws ACTIVE t) in
            let '(l, s) := alloc conn (store g) in
            (l, with_store (fun _ => add l s) g)) in
          match uid with
          | Some u => tracker.connection_online settings tid u cid
          | None => Ret tt
          end ;;
          if negb (connected_valid raw sid) then Throw ValidationError
          else
            send_text ws (dump (ConnectedFrame cid sid (node_id settings)
                                  (heartbeat_interval_ms settings))) ;;
            Ret (Some (l, tid))
    end.

(** *** [async with _handshake_semaphore] *)

(** Waiting for a slot.  [patience] bounds how often the task looks whether its
    future is done; a task that still waits then is cancelled. *)
Fixpoint wait_slot (patience : nat) (ws : nat) : proc Gateway unit :=
  sleep 0 ;;
  match patience with
  | O =>
      modify (with_semaphore (fun s => cancel ws (bool_decide ((ws, true) ∈ _waiters s)) s)) ;;
      Throw (OtherError "CancelledError")
  | S patience' =>
      let! woken := local (fun g =>
        if decide ((ws, true) ∈ _waiters (handshake_semaphore g))
        then (true, with_semaphore (resume ws) g) else (false, g)) in
      if woken then Ret tt else wait_slot patience' ws
  end.

(** [__aenter__]. *)
Definition acquire (patience : nat) (ws : nat) : proc Gateway unit :=
  let! entered := local (fun g =>
    (negb (locked (handshake_semaphore g)), with_semaphore (arrive ws) g)) in
  if entered then Ret tt else wait_slot patience ws.

(** [p], then [f], whether [p] raised or not. *)
Definition finally {A} (p : proc Gateway A) (f : Gateway -> Gateway) : proc Gateway A :=
  let! r := catch (let! a := p in Ret (inr a)) (fun x => Ret (inl x)) in
  modify f ;;
  lift r.

Definition in_semaphore {A} (patience : nat) (ws : nat) (body : proc Gateway A) : proc Gateway A :=
  acquire patience ws ;; finally body (with_semaphore (leave ws)).

(** The block: [first] is the first frame, if one came before the time limit.
    The history variable says how long it lasts. *)
Definition handshake_block (sql : tables) (ws : nat) (first : option json) :
    proc Gateway (option (loc * string)) :=
  modify (with_handshaking (fun x => {[ws]} ∪ x)) ;;
  finally
    (sleep 0 ;;
     match first with
     | None => Ret None
     | Some (JObj raw) => handshake sql ws raw
     | Some _ => Throw (OtherError "AttributeError")
     end)
    (with_handshaking (fun x => x ∖ {[ws]})).

(** The whole life of a connection, from [websocket.accept()] on. *)
Definition handle_connection (patience : nat) (sql : tables) (ws : nat) (first : option json)
    (inputs : list json) : proc Gateway unit :=
  sleep 0 ;;
  let! h := in_semaphore patience ws (handshake_block sql ws first) in
  match h with
  | None => Ret tt
  | Some (l, tid) => serve l ws tid inputs
  end.

End Handler.
