(* ===== verification/Isolation.v ===== *)
(** * Tenant isolation

    An invariant of the gateway's store that every task of the gateway keeps:
    a connection is subscribed to channels of its own tenant only, and its queue
    holds messages of such channels only.  This file shows that the handlers,
    fanout and the terminations keep it and write such messages only; [Tenants]
    concludes for all tasks of a process, in every interleaving. *)
From Stdlib Require Import ZArith Lia.
From stdpp Require Import base gmap strings list sets.
From S2P Require Import Prelude Config Frames Keys RedisApi Async Tasks RefRedis Samples Auth Sessions Publisher Replay Connection Registry State Rooms Fanout Presence Handler.

(** ** Changes the indexes do not see *)
Definition index_eq (c c' : Connection) : Prop :=
  connection_id c' = connection_id c /\ session_id c' = session_id c /\
  c_tenant_id c' = c_tenant_id c /\ subscriptions c' = subscriptions c /\
  websocket c' = websocket c.

#[export] Instance index_eq_equivalence : Equivalence index_eq.
Proof. unfold index_eq. split; repeat intro; naive_solver congruence. Qed.

(** Two stores with one registry whose objects differ in other fields only. *)
Definition store_eq (s s' : Store) : Prop :=
  registry s' = registry s /\ forall l, option_Forall2 index_eq (heap s !! l) (heap s' !! l).

Lemma store_eq_lookup s s' l c' :
  store_eq s s' -> heap s' !! l = Some c' -> exists c, heap s !! l = Some c /\ index_eq c c'.
Proof.
  intros [_ H] Hl. specialize (H l). rewrite Hl in H. inversion H; subst. eauto.
Qed.

Lemma store_eq_lookup_l s s' l c :
  store_eq s s' -> heap s !! l = Some c -> exists c', heap s' !! l = Some c' /\ index_eq c c'.
Proof.
  intros [_ H] Hl. specialize (H l). rewrite Hl in H. inversion H; subst. eauto.
Qed.

Lemma store_eq_conn s s' cid (P : Connection -> Prop) :
  store_eq s s' -> (forall c c', index_eq c c' -> P c <-> P c') ->
  (exists c, conn_of s' cid = Some c /\ P c) <-> (exists c, conn_of s cid = Some c /\ P c).
Proof.
  intros Hs HP. setoid_rewrite conn_of_Some. unfold by_id. rewrite (proj1 Hs). split.
  - intros (c' & (l & Hl & Hc) & Hp). destruct (store_eq_lookup s s' l c' Hs Hc) as (c & ? & Hi).
    exists c. split; [eauto|]. by apply (HP c c').
  - intros (c & (l & Hl & Hc) & Hp). destruct (store_eq_lookup_l s s' l c Hs Hc) as (c' & ? & Hi).
    exists c'. split; [eauto|]. by apply (HP c c').
Qed.

Lemma wf_store_eq s s' : store_eq s s' -> wf s -> wf s'.
Proof.
  intros Hs Hwf. split.
  - intros cid l. unfold by_id. rewrite (proj1 Hs). intros Hl.
    destruct (wf_id s Hwf cid l Hl) as (c & Hc & Hcid).
    destruct (store_eq_lookup_l s s' l c Hs Hc) as (c' & Hc' & Hi & _).
    exists c'. split; [done|]. congruence.
  - intros sid cid. rewrite (proj1 Hs), (wf_session s Hwf). symmetry.
    apply (store_eq_conn s s'); [done|]. by intros c c' (_ & -> & _).
  - intros tid cid. rewrite (proj1 Hs), (wf_tenant s Hwf). symmetry.
    apply (store_eq_conn s s'); [done|]. by intros c c' (_ & _ & -> & _).
  - intros ch cid. rewrite (proj1 Hs), (wf_channel s Hwf). symmetry.
    apply (store_eq_conn s s'); [done|]. by intros c c' (_ & _ & _ & -> & _).
Qed.

(** ** The invariant *)

(** A handler: its object, its connection id, its tenant and its socket. *)
Notation handler := (loc * string * string * nat)%type.

Definition is_message (f : frame) : bool := match f with MessageF _ => true | _ => false end.

Section Own.
Context {Py : Pydantic}.
(** What the listeners of this process hear: a text on a channel. *)
Variable heard : string -> string -> Prop.

(** A text that a client of the tenant may get: a frame that is no MESSAGE, a
    MESSAGE of one of its channels, or what was heard on one of them. *)
Definition own_text (tid text : string) : Prop :=
  (exists f, text = dump f /\
     forall m, f = MessageF m -> channel_belongs_to_tenant (mf_channel m) tid = true) \/
  (exists ch, heard ch text /\ channel_belongs_to_tenant ch tid = true).

Definition own_item (tid : string) (q : QueuedMessage) : Prop :=
  own_text tid (q_payload q) /\
  forall ch, q_channel q = Some ch -> channel_belongs_to_tenant ch tid = true.

Lemma own_control tid f : is_message f = false -> own_text tid (dump f).
Proof. intros H. left. exists f. split; [done|]. by intros m ->. Qed.

Record isolated (hs : list handler) (s : Store) : Prop := {
  iso_wf : wf s;
  (* a connection id names one tenant, and so does a socket *)
  iso_ids : forall l l' c c', heap s !! l = Some c -> heap s !! l' = Some c' ->
    connection_id c = connection_id c' -> c_tenant_id c = c_tenant_id c';
  iso_sockets : forall l l' c c', heap s !! l = Some c -> heap s !! l' = Some c' ->
    websocket c = websocket c' -> c_tenant_id c = c_tenant_id c';
  iso_subs : forall l c ch, heap s !! l = Some c -> ch ∈ subscriptions c ->
    channel_belongs_to_tenant ch (c_tenant_id c) = true;
  iso_queue : forall l c q, heap s !! l = Some c -> q ∈ queue c -> own_item (c_tenant_id c) q;
  iso_handlers : forall l cid tid ws, (l, cid, tid, ws) ∈ hs ->
    exists c, heap s !! l = Some c /\ connection_id c = cid /\ c_tenant_id c = tid /\ websocket c = ws
}.

Section Preservation.
Variable hs : list handler.

(** A change of the objects that leaves the indexes alone and adds own items only. *)
Lemma isolated_store_eq s s' :
  store_eq s s' ->
  (forall l c c' q, heap s !! l = Some c -> heap s' !! l = Some c' -> q ∈ queue c' ->
     q ∈ queue c \/ own_item (c_tenant_id c) q) ->
  isolated hs s -> isolated hs s'.
Proof.
  intros Hs Hq [Hwf Hids Hsock Hsubs Hqueue Hh]. split.
  - by eapply wf_store_eq.
  - intros l l' c c' Hl Hl' Hid.
    destruct (store_eq_lookup s s' l c Hs Hl) as (c0 & H0 & E1 & _ & E3 & _).
    destruct (store_eq_lookup s s' l' c' Hs Hl') as (c1 & H1 & F1 & _ & F3 & _).
    rewrite E3, F3. apply (Hids l l'); [done|done|]. congruence.
  - intros l l' c c' Hl Hl' Hws.
    destruct (store_eq_lookup s s' l c Hs Hl) as (c0 & H0 & _ & _ & E3 & _ & E5).
    destruct (store_eq_lookup s s' l' c' Hs Hl') as (c1 & H1 & _ & _ & F3 & _ & F5).
    rewrite E3, F3. apply (Hsock l l'); [done|done|]. congruence.
  - intros l c ch Hl Hin.
    destruct (store_eq_lookup s s' l c Hs Hl) as (c0 & H0 & _ & _ & E3 & E4 & _).
    rewrite E3. rewrite E4 in Hin. eauto.
  - intros l c q Hl Hin. destruct (store_eq_lookup s s' l c Hs Hl) as (c0 & H0 & _ & _ & E3 & _).
    rewrite E3. destruct (Hq l c0 c q H0 Hl Hin); [by eapply Hqueue|done].
  - intros l cid tid ws Hin. destruct (Hh l cid tid ws Hin) as (c & Hc & <- & <- & <-).
    destruct (store_eq_lookup_l s s' l c Hs Hc) as (c' & Hc' & E1 & _ & E3 & _ & E5). eauto.
Qed.

Lemma store_eq_update l f s :
  (forall c, heap s !! l = Some c -> index_eq c (f c)) -> store_eq s (update_conn l f s).
Proof.
  intros Hf. split; [done|]. intros l'. cbn. rewrite lookup_alter.
  destruct (decide (l = l')) as [<-|]; [|by destruct (heap s !! l'); constructor].
  destruct (heap s !! l) as [c|] eqn:E; constructor. by apply Hf.
Qed.

(** A change of the subscriptions of one object. *)
Lemma isolated_resubscribe l f s s' :
  heap s' = alter f l (heap s) -> wf s' -> isolated hs s ->
  (forall c, connection_id (f c) = connection_id c /\ c_tenant_id (f c) = c_tenant_id c /\
             websocket (f c) = websocket c /\ queue (f c) = queue c) ->
  (forall c ch, heap s !! l = Some c -> ch ∈ subscriptions (f c) ->
     channel_belongs_to_tenant ch (c_tenant_id c) = true) ->
  isolated hs s'.
Proof.
  intros Hh Hwf' [Hwf Hids Hsock Hsubs Hqueue Hhs] Hf Hb.
  assert (forall l1 c1, heap s' !! l1 = Some c1 -> exists c0, heap s !! l1 = Some c0 /\
    connection_id c1 = connection_id c0 /\ c_tenant_id c1 = c_tenant_id c0 /\
    websocket c1 = websocket c0 /\ queue c1 = queue c0 /\ (c1 = c0 \/ l1 = l /\ c1 = f c0)) as Hinv.
  { intros l1 c1. rewrite Hh, lookup_alter. destruct (decide (l = l1)) as [<-|].
    - intros H. apply fmap_Some in H as (c0 & Hc0 & ->). exists c0. destruct (Hf c0) as (? & ? & ? & ?).
      split_and!; eauto.
    - intros H. exists c1. split_and!; eauto. }
  split; [done| | | | |].
  - intros l1 l2 c1 c2 H1 H2 Hid. destruct (Hinv l1 c1 H1) as (d1 & Hd1 & E1 & T1 & _).
    destruct (Hinv l2 c2 H2) as (d2 & Hd2 & E2 & T2 & _). rewrite T1, T2.
    apply (Hids l1 l2); [done|done|congruence].
  - intros l1 l2 c1 c2 H1 H2 Hid. destruct (Hinv l1 c1 H1) as (d1 & Hd1 & _ & T1 & W1 & _).
    destruct (Hinv l2 c2 H2) as (d2 & Hd2 & _ & T2 & W2 & _). rewrite T1, T2.
    apply (Hsock l1 l2); [done|done|congruence].
  - intros l1 c1 ch H1 Hin. destruct (Hinv l1 c1 H1) as (d1 & Hd1 & _ & T1 & _ & _ & [->|[-> ->]]); [eauto|].
    rewrite T1. by apply (Hb d1).
  - intros l1 c1 q H1 Hin. destruct (Hinv l1 c1 H1) as (d1 & Hd1 & _ & T1 & _ & Q1 & _).
    rewrite T1. rewrite Q1 in Hin. eauto.
  - intros l1 cid tid ws Hin. destruct (Hhs l1 cid tid ws Hin) as (c & Hc & <- & <- & <-).
    rewrite Hh, lookup_alter. destruct (decide (l = l1)) as [<-|]; [|eauto].
    rewrite Hc. cbn. destruct (Hf c) as (? & ? & ? & ?). eauto.
Qed.

Lemma isolated_subscribe l cid tid ws ch s :
  (l, cid, tid, ws) ∈ hs -> channel_belongs_to_tenant ch tid = true ->
  isolated hs s -> isolated hs (subscribe cid ch s).
Proof.
  intros Hin Hb Hiso. pose proof (wf_subscribe cid ch s (iso_wf _ _ Hiso)) as Hwf'.
  destruct (iso_handlers _ _ Hiso l cid tid ws Hin) as (c & Hc & Hcid & Htid & _).
  unfold subscribe in *. destruct (by_id s !! cid) as [l'|] eqn:Hl'; [|done].
  destruct (wf_id s (iso_wf _ _ Hiso) cid l' Hl') as (c' & Hc' & Hcid').
  eapply isolated_resubscribe; [reflexivity|done|done|done|].
  intros c0 ch0 Hc0. cbn. simplify_eq. rewrite elem_of_union, elem_of_singleton.
  intros [->|Hs]; [|by eapply (iso_subs _ _ Hiso)].
  by rewrite (iso_ids _ _ Hiso l' l c' c).
Qed.

Lemma isolated_unsubscribe cid ch s : isolated hs s -> isolated hs (unsubscribe cid ch s).
Proof.
  intros Hiso. pose proof (wf_unsubscribe cid ch s (iso_wf _ _ Hiso)) as Hwf'.
  unfold unsubscribe in *. destruct (by_id s !! cid) as [l'|] eqn:Hl'.
  - eapply isolated_resubscribe; [reflexivity|done|done|done|].
    intros c0 ch0 Hc0. cbn. rewrite elem_of_difference. intros [Hs _].
    by eapply (iso_subs _ _ Hiso).
  - destruct Hiso as [_ Hids Hsock Hsubs Hqueue Hhs]. by split.
Qed.

Lemma heap_remove cid s : heap (remove cid s).2 = heap s.
Proof.
  unfold remove. destruct (_by_id (registry s) !! cid) as [l|]; [|done].
  by destruct (heap s !! l).
Qed.

Lemma isolated_remove cid s : isolated hs s -> isolated hs (remove cid s).2.
Proof.
  intros Hiso. pose proof (wf_remove cid s (iso_wf _ _ Hiso)) as Hwf'.
  destruct Hiso as [_ Hids Hsock Hsubs Hqueue Hhs]. split; [done|..]; rewrite heap_remove; done.
Qed.

End Preservation.
End Own.

(** ** The tasks keep the invariant *)
Section Keeps.
Context {Jt : JsonText} {Py : Pydantic}.
Variable settings : Settings.
Variable validation_text : json_object -> string.
Variable str_of : json -> string.
Variable heard : string -> string -> Prop.
Variable hs : list handler.

Definition inv (g : Gateway) : Prop := isolated heard hs (store g).

(** What may be written on a socket: own texts of its client. *)
Definition own_writes : writes :=
  mkWrites (fun ws text => forall l cid tid, (l, cid, tid, ws) ∈ hs -> own_text heard tid text)
    (fun _ => True).

Notation safely p := (safe inv own_writes p).

(** Synchronous code that leaves the store alone. *)
Lemma own_modify_other (f : Gateway -> Gateway) :
  (forall g, store (f g) = store g) -> safely (modify f).
Proof. intros H. apply keeps_modify. intros g. unfold inv. by rewrite H. Qed.

(** A change of one object that adds own items only. *)
Lemma inv_update l f g :
  (forall c, conn_at l g = Some c -> index_eq c (f c) /\
     forall q, q ∈ queue (f c) -> q ∈ queue c \/ own_item heard (c_tenant_id c) q) ->
  inv g -> inv (update_at l f g).
Proof.
  intros Hf. unfold inv, conn_at in *. apply isolated_store_eq.
  - apply store_eq_update. intros c Hc. by apply Hf.
  - intros l' c c' q Hc. cbn. rewrite lookup_alter. destruct (decide (l = l')) as [<-|].
    + rewrite Hc. cbn. intros [= <-]. by apply Hf.
    + rewrite Hc. intros [= <-]. by left.
Qed.

Lemma own_update l f :
  (forall c, index_eq c (f c) /\ queue (f c) = queue c) -> safely (modify (update_at l f)).
Proof.
  intros Hf. apply keeps_modify. intros g. apply inv_update. intros c _.
  destruct (Hf c) as [Hi Hq]. split; [done|]. intros q. rewrite Hq. by left.
Qed.

Lemma own_dump ws f : is_message f = false -> safely (send_text ws (dump f)).
Proof. intros H. apply safe_send. intros l cid tid _. by apply own_control. Qed.

Lemma store_ensure ch g : store (ensure_listener ch g) = store g.
Proof. unfold ensure_listener. by destruct (needs_listener ch g). Qed.

Lemma store_release ch g : store (release_channel ch g).2 = store g.
Proof.
  unfold release_channel, stop_listener. destruct (_ <=? _); [|done]. cbn. by destruct (_ !! ch).
Qed.

Lemma own_on_local_subscribe ch : safely (on_local_subscribe settings ch).
Proof.
  unfold on_local_subscribe. keeps_auto; by apply own_modify_other; try apply store_ensure.
Qed.

Lemma own_on_local_unsubscribe ch : safely (on_local_unsubscribe settings ch).
Proof.
  unfold on_local_unsubscribe. keeps_auto.
  apply keeps_local. intros g. unfold inv. by rewrite store_release.
Qed.

(** Code that only talks to Redis. *)
Lemma own_touch sid nid : safely (touch_session settings sid nid).
Proof. unfold touch_session. keeps_auto. Qed.

Lemma own_refresh tid u : safely (tracker.refresh settings tid u).
Proof. unfold tracker.refresh. keeps_auto. Qed.

Lemma own_set_state tid u st : safely (tracker.set_state settings tid u st).
Proof. unfold tracker.set_state. keeps_auto. Qed.

Lemma own_offline tid u cid : safely (tracker.connection_offline tid u cid).
Proof. unfold tracker.connection_offline. keeps_auto. Qed.

Lemma own_record_ack sid ch sq : safely (record_ack settings sid ch sq).
Proof. unfold record_ack, to_int. keeps_auto. Qed.

Lemma own_replay ch n : safely (replay_channel ch n).
Proof. unfold replay_channel, parse_entries. keeps_auto. Qed.

#[local] Hint Resolve own_on_local_subscribe own_on_local_unsubscribe own_touch own_refresh
  own_set_state own_offline own_record_ack own_replay : relay.
#[local] Hint Extern 2 (safe _ _ (send_text _ (dump _))) => apply own_dump; reflexivity : relay.

Lemma enqueue_index payload pr ch sq c c' :
  enqueue settings payload pr ch sq c = inr c' ->
  index_eq c c' /\
  forall q, q ∈ queue c' -> q ∈ queue c \/ q = mkQueued payload (utf8_len payload) pr ch sq.
Proof.
  unfold enqueue. intros H. repeat case_match; simplify_eq; (split; [done|]); intros q; cbn;
    rewrite ?elem_of_app, ?list_elem_of_singleton; tauto.
Qed.

(** *** The frames of one handler *)
Section OneHandler.
Variables (l : loc) (ws : nat) (cid tid : string).
Hypothesis Hin : (l, cid, tid, ws) ∈ hs.

(** What the handler reads of its own object. *)
Lemma own_self {A} (k : Connection -> proc Gateway A) :
  (forall conn, connection_id conn = cid -> c_tenant_id conn = tid -> safely (k conn)) ->
  safely (bind (self l) k).
Proof.
  intros Hk g Hg. split; [done|].
  destruct (iso_handlers _ _ _ Hg l cid tid ws Hin) as (c & Hc & Hcid & Htid & _).
  unfold conn_at. rewrite Hc. by apply Hk.
Qed.

Lemma own_subscribe ch :
  channel_belongs_to_tenant ch tid = true ->
  safely (modify (with_store (subscribe cid ch))).
Proof.
  intros Hb. apply keeps_modify. intros g Hg. by apply (isolated_subscribe heard hs l cid tid ws).
Qed.

Lemma own_pong : safely (on_pong settings l tid).
Proof. unfold on_pong. keeps_auto. by apply own_update. Qed.

Lemma own_presence raw : safely (on_presence settings l tid raw).
Proof. unfold on_presence. keeps_auto. Qed.

Lemma own_subscribe_frame raw : safely (on_subscribe settings validation_text l ws tid raw).
Proof.
  unfold on_subscribe, _send_error. destruct (parse_subscribe raw) as [ch|]; [|keeps_auto].
  destruct (channel_belongs_to_tenant ch tid) eqn:Hb; cbn [negb]; [|keeps_auto].
  apply own_self. intros conn -> _. keeps_auto. by apply own_subscribe.
Qed.

Lemma own_unsubscribe_frame raw : safely (on_unsubscribe settings l ws raw).
Proof.
  unfold on_unsubscribe. destruct (parse_unsubscribe raw) as [ch|]; [|done].
  apply own_self. intros conn -> _. keeps_auto. apply keeps_modify. intros g Hg.
  by apply isolated_unsubscribe.
Qed.

Lemma inv_replace g c c' :
  conn_at l g = Some c -> index_eq c c' ->
  (forall q, q ∈ queue c' -> q ∈ queue c \/ own_item heard (c_tenant_id c) q) ->
  inv g -> inv (update_at l (fun _ => c') g).
Proof. intros Hc Hi Hq. apply inv_update. intros c0 Hc0. by simplify_eq. Qed.

Lemma own_ack_frame raw : safely (on_ack_frame settings l raw).
Proof.
  unfold on_ack_frame. destruct (parse_ack raw) as [[ch sq]|]; [|done].
  keeps_auto. apply keeps_modify. intros g Hg. unfold apply_ack.
  destruct (conn_at l g) as [c|] eqn:Hc; [|done]. cbn.
  apply (inv_replace g c); [done|done| |done]. intros q Hq. by left.
Qed.

Lemma own_enqueue payload pr ch sq :
  own_item heard tid (mkQueued payload (utf8_len payload) pr ch sq) ->
  safely (enqueue_at settings l payload pr ch sq).
Proof.
  intros Hown. unfold enqueue_at. apply keeps_bind; [|intros r; apply keeps_lift].
  apply keeps_local. intros g Hg. destruct (conn_at l g) as [c|] eqn:Hc; [|done].
  destruct (enqueue _ _ _ _ _ c) as [x|c'] eqn:He; [done|]. cbn.
  apply enqueue_index in He as [Hi Hq]. apply (inv_replace g c); [done|done| |done].
  intros q [?| ->]%Hq; [by left|right].
  destruct (iso_handlers _ _ _ Hg l cid tid ws Hin) as (c0 & Hc0 & _ & Htid & _).
  unfold conn_at in Hc. assert (c0 = c) as <- by congruence. by rewrite Htid.
Qed.

Lemma own_resume_channels items : forall replayed gaps,
  safely (resume_channels settings l ws tid items replayed gaps).
Proof.
  induction items as [|[ch n] items IH]; intros replayed gaps; cbn [resume_channels]; [done|].
  destruct (channel_belongs_to_tenant ch tid) eqn:Hb; cbn [negb]; [|done].
  apply keeps_bind; [apply own_replay|]. intros result. destruct (rr_gap result).
  - unfold _send_error. keeps_auto.
  - apply keeps_bind; [|intros _].
    + apply keeps_for_each. intros m _. unfold replay_one. destruct (b_payload m); try done.
      apply own_enqueue. split; [|by intros ? [= <-]]. left. eexists. split; [reflexivity|].
      by intros m' [= <-].
    + apply own_self. intros conn -> _. keeps_auto. by apply own_subscribe.
Qed.

Lemma own_resume_frame raw : safely (on_resume settings l ws tid raw).
Proof.
  unfold on_resume. destruct (parse_resume raw) as [[sid items]|]; [|done].
  apply keeps_bind; [apply own_resume_channels|]. intros rg. keeps_auto.
Qed.

#[local] Hint Resolve own_pong own_presence own_subscribe_frame own_unsubscribe_frame
  own_ack_frame own_resume_frame : relay.

Lemma own_handle_frame raw :
  safely (handle_frame settings validation_text str_of l ws tid raw).
Proof.
  unfold handle_frame, _send_error.
  repeat (case_match; [apply keeps_bind; [|done]|]); try done; try keeps_auto.
Qed.

Lemma own_frame_loop inputs :
  safely (_frame_loop settings validation_text str_of l ws tid inputs).
Proof.
  induction inputs as [|raw inputs IH]; cbn [_frame_loop];
    apply own_self; intros conn _ _; case_decide; try done; intros ?; try done.
  destruct raw; try done. cbn [bind].
  apply keeps_bind; [apply own_handle_frame|]. by intros [].
Qed.

Lemma own_dead reason : safely (_on_dead_connection l ws reason).
Proof.
  unfold _on_dead_connection. apply keeps_bind; [by apply own_update|].
  intros _. apply keeps_catch; keeps_auto.
Qed.

Lemma own_cleanup : safely (_cleanup_connection settings l ws).
Proof.
  unfold _cleanup_connection. apply keeps_bind; [by apply own_update|intros _].
  apply own_self. intros conn -> _. apply keeps_bind; [|intros _].
  { apply keeps_for_each. intros ch _. apply own_on_local_unsubscribe. }
  apply keeps_bind; [|intros _].
  { destruct (truthy_id _); [|done]. apply keeps_bind; [apply own_offline|done]. }
  apply keeps_bind; [|intros _; apply keeps_catch; keeps_auto].
  apply keeps_modify. intros g Hg. by apply isolated_remove.
Qed.

Lemma own_serve inputs :
  safely (serve settings validation_text str_of l ws tid inputs).
Proof.
  unfold serve. apply keeps_bind.
  - apply keeps_catch; [|intros []; done]. apply keeps_bind; [apply own_frame_loop|done].
  - intros r. apply keeps_bind; [apply own_cleanup|]. intros _. by destruct r.
Qed.

End OneHandler.

(** *** Fanout *)
Lemma inv_deliver ch text sq g :
  heard ch text -> inv g -> inv (deliver_local settings ch text sq g).2.
Proof.
  intros Hh Hg. unfold deliver_local.
  pose proof (deliver_all settings ch text sq (local_subscribers ch (store g)) [] 0 g
                (NoDup_present _ _ (iso_wf _ _ _ Hg))) as Hall.
  destruct (foldl _ _ _) as [[ds n] g']. destruct Hall as ((Hr & _) & Hc & _).
  assert (forall l c, conn_at l g = Some c -> exists c', conn_at l g' = Some c' /\ index_eq c c' /\
    forall q, q ∈ queue c' -> q ∈ queue c \/ own_item heard (c_tenant_id c) q) as Hone.
  { intros l c Hlc. rewrite Hc, Hlc. assert (index_eq c c /\ forall q, q ∈ queue c ->
      q ∈ queue c \/ own_item heard (c_tenant_id c) q) as Hid by (split; [reflexivity|by left]).
    case_decide as Hl; [|by exists c]. cbn. eexists. split; [reflexivity|].
    unfold after_delivery. case_decide; [|exact Hid].
    destruct (enqueue _ _ _ _ _ c) as [x|c'] eqn:He; [exact Hid|].
    apply enqueue_index in He as [Hi Hq]. split; [done|]. intros q [?| ->]%Hq; [by left|right].
    apply elem_present in Hl as (cid & Hcid & Hl).
    apply (wf_channel _ (iso_wf _ _ _ Hg)) in Hcid as (c0 & Hc0 & Hsub).
    apply conn_of_Some in Hc0 as (l' & Hl' & Hc0). unfold conn_at in Hlc.
    assert (l' = l) as -> by congruence. assert (c0 = c) as -> by congruence.
    pose proof (iso_subs _ _ _ Hg l c ch Hlc Hsub) as Hb.
    split; [right; by exists ch|]. by intros ? [= <-]. }
  unfold inv. cbn. eapply isolated_store_eq; [| |exact Hg].
  - split; [done|]. intros l. specialize (Hc l). unfold conn_at in *.
    destruct (heap (store g) !! l) as [c|] eqn:Hl.
    + destruct (Hone l c Hl) as (c' & Hc' & Hi & _). rewrite Hc'. by constructor.
    + cbn. rewrite Hc. case_decide; constructor.
  - intros l c c' q Hl Hl' Hq. destruct (Hone l c Hl) as (c1 & Hc1 & _ & H).
    unfold conn_at in Hc1. assert (c1 = c') as <- by congruence. by apply H.
Qed.

Lemma own_terminate l ws : safely (terminate_slow_consumer l ws).
Proof.
  unfold terminate_slow_consumer. apply keeps_bind; [by apply (own_update l (set_state DEAD))|].
  intros _. apply keeps_bind; [|intros _]; apply keeps_catch; keeps_auto.
Qed.

(** *** What fanout may change *)
Lemma deliver_own_tenant ch text sq t g l c :
  inv g -> channel_belongs_to_tenant ch t = true -> no_colon t = true ->
  conn_at l g = Some c -> no_colon (c_tenant_id c) = true ->
  conn_at l (deliver_local settings ch text sq g).2 <> conn_at l g -> c_tenant_id c = t.
Proof.
  intros Hg Hb Hnc Hc Hnc' Hchanged.
  pose proof (deliver_all settings ch text sq (local_subscribers ch (store g)) [] 0 g
                (NoDup_present _ _ (iso_wf _ _ _ Hg))) as Hall.
  unfold deliver_local in Hchanged.
  destruct (foldl _ _ _) as [[ds n] g1]. destruct Hall as (_ & Hc1 & _).
  specialize (Hc1 l). change (conn_at l g1 <> conn_at l g) in Hchanged.
  rewrite Hc1 in Hchanged. destruct (decide (l ∈ local_subscribers ch (store g))) as [Hl|]; [|done].
  apply elem_present in Hl as (cid & Hcid & Hl).
  apply (wf_channel _ (iso_wf _ _ _ Hg)) in Hcid as (c' & Hc' & Hsub).
  apply conn_of_Some in Hc' as (l' & Hl' & Hc'). unfold conn_at in Hc.
  assert (l' = l) as -> by congruence. assert (c' = c) as -> by congruence.
  pose proof (iso_subs _ _ _ Hg l c ch Hc Hsub) as Hb'.
  apply channel_belongs_iff in Hb as [m Hm], Hb' as [m' Hm'].
  rewrite Hm in Hm'. by apply namespaced_channel_inj in Hm' as [<- _].
Qed.

End Keeps.

(** *** Two tenants, each with one connection *)
Definition conn_1 : Connection := new_connection "c-1" "s-1" "1" 0 ACTIVE 0.
Definition conn_2 : Connection := new_connection "c-2" "s-2" "2" 1 ACTIVE 0.
Definition two_tenants : Store :=
  let s := add (alloc conn_1 empty_store).1 (alloc conn_1 empty_store).2 in
  add (alloc conn_2 s).1 (alloc conn_2 s).2.

Definition subscribe_frame (ch : string) : json :=
  JObj [("type", JStr "SUBSCRIBE"); ("channel", JStr ch)].
Definition unsubscribe_frame (ch : string) : json :=
  JObj [("type", JStr "UNSUBSCRIBE"); ("channel", JStr ch)].

Definition two_handlers : list handler := [(0%nat, "c-1", "1", 0%nat); (1%nat, "c-2", "2", 1%nat)].

Lemma two_tenants_lookup l c :
  heap two_tenants !! l = Some c -> (l = 0%nat /\ c = conn_1) \/ (l = 1%nat /\ c = conn_2).
Proof.
  change (heap two_tenants) with (<[1%nat := conn_2]> {[0%nat := conn_1]} : gmap nat Connection).
  rewrite lookup_insert_Some, lookup_singleton_Some. naive_solver.
Qed.

Lemma two_tenants_isolated {Py : Pydantic} heard : isolated heard two_handlers two_tenants.
Proof.
  split.
  - apply wf_reachable. eapply rtc_l; [by apply (rs_connect conn_1)|].
    apply rtc_once. by apply (rs_connect conn_2).
  - intros l l' c c' [[-> ->]|[-> ->]]%two_tenants_lookup [[-> ->]|[-> ->]]%two_tenants_lookup; done.
  - intros l l' c c' [[-> ->]|[-> ->]]%two_tenants_lookup [[-> ->]|[-> ->]]%two_tenants_lookup; done.
  - intros l c ch [[-> ->]|[-> ->]]%two_tenants_lookup; set_solver.
  - intros l c q [[-> ->]|[-> ->]]%two_tenants_lookup; by intros []%not_elem_of_nil.
  - intros l cid tid ws. unfold two_handlers. rewrite !elem_of_cons.
    intros [[= -> -> -> ->]|[[= -> -> -> ->]|[]%not_elem_of_nil]].
    + by exists conn_1.
    + by exists conn_2.
Qed.

Lemma two_tenants_wf : wf two_tenants.
Proof. exact (iso_wf _ _ _ (two_tenants_isolated (fun _ _ => False))). Qed.

Definition two_gateway : Gateway := with_store (fun _ => two_tenants) initial_gateway.
Definition no_text (_ : json_object) : string := "invalid".
Definition no_str (_ : json) : string := "?".

(** *** Small facts on running a handler *)
Lemma run_self {Rd : Redis} e l (w : world Gateway) conn :
  conn_at l (w_state w) = Some conn -> run e (self l) w = (inr conn, tick w).
Proof. intros H. unfold self. cbn. by rewrite H. Qed.

Lemma run_send_state {Rd : Redis} e ws text (w : world Gateway) :
  w_state (run e (send_text ws text) w).2 = w_state w /\
  w_db (run e (send_text ws text) w).2 = w_db w.
Proof. cbn. by destruct (ws_ok e (w_tick w)). Qed.

(** A connection that is not subscribed is not among the subscribers. *)
Lemma local_subscribers_not_subscribed cid ch s :
  wf s -> (forall c, conn_of s cid = Some c -> ch ∉ subscriptions c) ->
  local_subscribers ch (unsubscribe cid ch s) = local_subscribers ch s.
Proof.
  intros Hwf Hns. unfold local_subscribers, present. cbn.
  assert (members (get_discard (_by_channel (registry s)) ch cid) ch
          = members (_by_channel (registry s)) ch) as ->; [|done].
  apply set_eq. intros x. rewrite elem_get_discard. split; [tauto|]. intros Hx. split; [done|].
  intros [_ ->]. apply (wf_channel s Hwf) in Hx as (c & Hc & Hin). by apply (Hns c).
Qed.

(** C39.  UNSUBSCRIBE is not checked: a frame that names a channel the sender is
    not subscribed to, of its own or of another tenant, still releases one
    reference of the channel; when that was the last one, the listener is
    stopped although the channel's subscribers are still registered. *)
Theorem unsubscribe_stops_foreign_listener {Rd : Redis} {Rl : RedisLaws} {Jt : JsonText}
    {Py : Pydantic} {Pl : PydanticLaws} (settings : Settings)
    (validation_text : json_object -> string) (str_of : json -> string) (e : env)
    (w : world Gateway) (l ws : nat) (tid ch : string) (conn : Connection) :
  reliable e -> mono_clock e -> room_sets (w_db w) (clock e (w_tick w)) ->
  wf (store (w_state w)) -> manager_wf (w_state w) ->
  by_id (store (w_state w)) !! connection_id conn = Some l -> conn_at l (w_state w) = Some conn ->
  ch ∉ subscriptions conn -> count_of ch (w_state w) = 1 ->
  exists r w', run e (handle_frame settings validation_text str_of l ws tid
                  [("type", JStr "UNSUBSCRIBE"); ("channel", JStr ch)]) w = (r, w') /\
    ~ live_listener (w_state w') ch /\
    local_subscribers ch (store (w_state w')) = local_subscribers ch (store (w_state w)).
Proof.
  intros Hrel Hmono Hrooms Hwf Hm Hid Hc Hns Hcount.
  change (handle_frame settings validation_text str_of l ws tid
            [("type", JStr "UNSUBSCRIBE"); ("channel", JStr ch)])
    with (on_unsubscribe settings l ws [("type", JStr "UNSUBSCRIBE"); ("channel", JStr ch)] ;; Ret true).
  unfold on_unsubscribe, parse_unsubscribe, str_field. cbn [obj_get String.eqb Ascii.eqb Bool.eqb].
  change (obj_get "channel" _) with (Some (JStr ch)). cbn [mbind option_bind]. rewrite as_str_JStr.
  rewrite run_bind, run_bind, (run_self e l w conn Hc).
  rewrite run_bind, run_modify, run_bind.
  set (w2 := mkWorld _ _ _ _).
  assert (room_sets (w_db w2) (clock e (w_tick w2))) as Hrooms2
    by (eapply room_sets_later, Hrooms; apply Hmono; cbn; lia).
  assert (manager_wf (w_state w2)) as Hm2 by (destruct Hm; by split).
  destruct (run_on_local_unsubscribe settings e Hrel Hmono ch w2 Hrooms2)
    as (w3 & -> & Hst & _ & _ & _).
  pose proof (run_send_state e ws (dump (UnsubscribedFrame ch)) w3) as [Hsend _].
  destruct (run e (send_text ws _) w3) as [r w4]. cbn in Hsend.
  exists (match r with inl x => inl x | inr _ => inr true end), w4.
  split; [by destruct r|]. rewrite Hsend, Hst. split.
  - rewrite live_release by done. intros [_ Hn]. apply Hn. split; [done|].
    change (count_of ch (w_state w2)) with (count_of ch (w_state w)). lia.
  - rewrite store_release. apply local_subscribers_not_subscribed; [done|].
    intros c. rewrite conn_of_Some. intros (l' & Hl' & Hc'). unfold conn_at in Hc. by simplify_eq.
Qed.

(** The first tenant's connection is subscribed, and the only subscriber. *)
Definition subscribed_gateway : Gateway :=
  let g := with_store (subscribe "c-1" "t-1:chat") two_gateway in
  ensure_listener "t-1:chat" (set_count "t-1:chat" (count_of "t-1:chat" g + 1) g).

Lemma subscribed_manager : manager_wf subscribed_gateway.
Proof.
  apply manager_wf_ensure, manager_wf_count. destruct (proj1 implements_initial). by split.
Qed.

(** The second tenant's connection silences the first one's. *)
Lemma unsubscribe_stops_foreign_listener_witness :
  exists r w', run calm (handle_frame (Jt := sample_json) (Py := sample_pydantic) default_settings
      no_text no_str 1 1 "2" [("type", JStr "UNSUBSCRIBE"); ("channel", JStr "t-1:chat")])
      (ref_world 0 Ref.empty subscribed_gateway) = (r, w') /\
    ~ live_listener (w_state w') "t-1:chat" /\
    local_subscribers "t-1:chat" (store (w_state w')) = [0%nat].
Proof.
  apply (unsubscribe_stops_foreign_listener (Pl := sample_laws) default_settings no_text no_str calm
           (ref_world 0 Ref.empty subscribed_gateway) 1 1 "2" "t-1:chat" conn_2
           calm_reliable calm_mono).
  - intros ch u _. by eexists.
  - apply (wf_subscribe "c-1" "t-1:chat"), two_tenants_wf.
  - exact subscribed_manager.
  - reflexivity.
  - reflexivity.
  - vm_compute. intros H. inversion H.
  - reflexivity.
Defined.
