(* ===== verification/Resume.v ===== *)
(** * RESUME ([websocket/handler.py])

    The RESUME frame names channels with the last number the client has of
    each.  For every channel of its tenant the handler replays the recovery
    buffer into the connection's queue, subscribes the connection and starts the
    channel's listener, or reports that the buffer does not reach back far
    enough. *)
From Stdlib Require Import ZArith Lia.
From stdpp Require Import base gmap strings list sets sorting.
From S2P Require Import Prelude Config Frames Json JsonLaws FrameText Keys RedisApi Async Tasks RefRedis Samples Auth Sessions Publisher Replay Connection Flow Registry State Rooms Fanout Delivery Presence Handler Isolation.

(** The frame that replays a buffered message. *)
Definition replayed_frame (ch : string) (b : Buffered) : MessageFrame :=
  mkMessageFrame (b_message_id b) ch (b_sequence b) (utc_timestamp (b_created_at b))
    (match b_payload b with JObj p => p | _ => [] end).

Definition is_object (j : json) : bool := match j with JObj _ => true | _ => false end.

Lemma Forall_selected {A} (P Q : A -> Prop) {Qd : forall x, Decision (Q x)} (l : list A) :
  Forall P l -> Forall P (filter Q l).
Proof. rewrite !Forall_forall. intros H x [_ Hx]%list_elem_of_filter. auto. Qed.

(** ** The queue of one connection *)
Lemma update_at_self (l : loc) (g : Gateway) (c : Connection) :
  conn_at l g = Some c -> update_at l (fun _ => c) g = g.
Proof.
  intros Hc. destruct g as [[h r] m t tm mt dr ns]. unfold update_at, with_store, update_conn, conn_at in *.
  cbn in *. do 2 f_equal. apply map_eq. intros l'. rewrite lookup_alter. case_decide; [subst|done].
  by rewrite Hc.
Qed.

Lemma update_at_twice (l : loc) (g : Gateway) (c c' : Connection) :
  update_at l (fun _ => c') (update_at l (fun _ => c) g) = update_at l (fun _ => c') g.
Proof.
  unfold update_at, with_store, update_conn. cbn. do 2 f_equal. by rewrite alter_alter_eq.
Qed.

Lemma conn_at_update (l : loc) (g : Gateway) (c c' : Connection) :
  conn_at l g = Some c -> conn_at l (update_at l (fun _ => c') g) = Some c'.
Proof. intros Hc. unfold conn_at in *. cbn. by rewrite lookup_alter_eq, Hc. Qed.

Lemma wf_replace (l : loc) (g : Gateway) (c c' : Connection) :
  conn_at l g = Some c -> index_eq c c' -> wf (store g) -> wf (store (update_at l (fun _ => c') g)).
Proof.
  intros Hc Hi Hwf. apply (wf_store_eq (store g)); [|done]. apply store_eq_update.
  intros c0 Hc0. unfold conn_at in Hc. by simplify_eq.
Qed.

Section Resume.
Context {Rd : Redis} {Rl : RedisLaws} {Jt : JsonText} {Py : Pydantic}.
Variable settings : Settings.
Variable e : env.
Hypothesis Hrel : reliable e.
Hypothesis Hmono : mono_clock e.
Variables (l : loc) (ch : string).

Notation at_ w := (clock e (w_tick w)).

(** A frame is queued at a connection with room. *)
Lemma run_enqueue_room (m : MessageFrame) (w : world Gateway) (c : Connection) :
  conn_at l (w_state w) = Some c ->
  queue_depth c < connection_queue_max_messages settings ->
  queue_bytes c + utf8_len (dump (MessageF m)) <= connection_queue_max_bytes settings ->
  run e (enqueue_at settings l (dump (MessageF m)) NORMAL (Some ch) (Some (mf_sequence m))) w =
  (inr tt, mkWorld (1 + w_tick w) (w_db w)
     (update_at l (fun _ => set_queue (queue c ++ [queued ch m])
                              (queue_bytes c + utf8_len (dump (MessageF m))) c) (w_state w))
     (w_out w)).
Proof.
  intros Hc Hq Hb. unfold enqueue_at. cbn. rewrite Hc. unfold enqueue, queue_bytes in *.
  rewrite (proj2 (Z.leb_gt _ _)), (proj2 (Z.ltb_ge _ _)) by lia. done.
Qed.

(** The replay loop queues its messages in order. *)
Lemma run_replays (bs : list Buffered) : forall (w : world Gateway) (c : Connection),
  Forall (fun b => is_object (b_payload b) = true) bs ->
  conn_at l (w_state w) = Some c ->
  queue_depth c + Z.of_nat (length bs) <= connection_queue_max_messages settings ->
  queue_bytes c + total_bytes (map (replayed_frame ch) bs) <= connection_queue_max_bytes settings ->
  run e (for_each bs (replay_one settings l ch)) w =
  (inr tt, mkWorld (length bs + w_tick w) (w_db w)
     (update_at l (fun _ => set_queue (queue c ++ map (queued ch) (map (replayed_frame ch) bs))
                     (queue_bytes c + total_bytes (map (replayed_frame ch) bs)) c) (w_state w))
     (w_out w)).
Proof.
  induction bs as [|b bs IH]; intros w c Hobj Hc Hq Hb.
  { cbn [for_each run map length]. rewrite app_nil_r.
    replace (queue_bytes c + total_bytes []) with (_queue_bytes c) by (unfold queue_bytes; cbn; lia).
    replace (set_queue _ _ c) with c by by destruct c.
    rewrite (update_at_self l _ c Hc). by destruct w. }
  apply Forall_cons in Hobj as [Hob Hobj]. cbn [for_each]. rewrite run_bind.
  pose proof (total_bytes_nonneg (map (replayed_frame ch) bs)) as Htb.
  cbn [map length] in *. change (total_bytes (?m :: ?r)) with (utf8_len (dump (MessageF m)) + total_bytes r) in *.
  assert (replay_one settings l ch b =
    enqueue_at settings l (dump (MessageF (replayed_frame ch b))) NORMAL (Some ch)
      (Some (mf_sequence (replayed_frame ch b)))) as ->.
  { unfold replay_one, replayed_frame. by destruct (b_payload b). }
  rewrite (run_enqueue_room _ _ c) by (done || lia).
  erewrite IH; [|done|by eapply conn_at_update|..].
  - cbn [w_tick w_db w_state w_out]. rewrite update_at_twice. f_equal. f_equal; [cbn; lia|].
    f_equal. unfold queue_bytes. cbn. rewrite <- app_assoc, Z.add_assoc. done.
  - unfold queue_depth in *. cbn. rewrite length_app. cbn. lia.
  - unfold queue_bytes in *. cbn. lia.
Qed.

Lemma subscribe_gateway (g : Gateway) (c : Connection) :
  wf (store g) -> by_id (store g) !! connection_id c = Some l -> conn_at l g = Some c ->
  let g' := with_store (subscribe (connection_id c) ch) g in
  wf (store g') /\ by_id (store g') !! connection_id c = Some l /\
  conn_at l g' = Some (set_subscriptions ({[ch]} ∪ subscriptions c) c).
Proof.
  intros Hwf Hid Hc g'. pose proof (wf_subscribe (connection_id c) ch _ Hwf) as Hwf'.
  assert (conn_at l g' = Some (set_subscriptions ({[ch]} ∪ subscriptions c) c)) as Hc'.
  { unfold g', conn_at, with_store, subscribe in *. cbn. rewrite Hid. cbn.
    by rewrite lookup_alter_eq, Hc. }
  assert (by_id (store g') !! connection_id c = Some l) as Hid'.
  { unfold g', with_store, subscribe, by_id in *. cbn. by rewrite Hid. }
  done.
Qed.

(** The connection is registered and its process in order. *)
Record attached (w : world Gateway) (c : Connection) : Prop := {
  at_rooms : room_sets (w_db w) (at_ w);
  at_manager : manager_wf (w_state w);
  at_registry : wf (store (w_state w));
  at_registered : by_id (store (w_state w)) !! connection_id c = Some l;
  at_conn : conn_at l (w_state w) = Some c
}.

(** Redis changed only the sets of nodes of the rooms, and listeners that were
    running still are. *)
Record advanced (w w' : world Gateway) : Prop := {
  av_tick : (w_tick w <= w_tick w')%nat;
  av_log : plog (w_db w') = plog (w_db w);
  av_keys : forall k u, (forall ch', k <> RedisKeys.room_nodes ch') -> at_ w' <= u ->
              sees (w_db w') u k = sees (w_db w) u k;
  av_live : forall ch', live_listener (w_state w) ch' -> live_listener (w_state w') ch'
}.

Lemma advanced_trans (w1 w2 w3 : world Gateway) : advanced w1 w2 -> advanced w2 w3 -> advanced w1 w3.
Proof.
  intros [Ht1 Hl1 Hk1 Hv1] [Ht2 Hl2 Hk2 Hv2]. split; [lia|congruence| |auto].
  intros k u Hk Hu. rewrite Hk2 by done. apply Hk1; [done|]. pose proof (Hmono _ _ Ht2). lia.
Qed.

(** A subscriber is found through its channel. *)
Lemma attached_subscriber (w : world Gateway) (c : Connection) :
  attached w c -> ch ∈ subscriptions c -> l ∈ local_subscribers ch (store (w_state w)).
Proof.
  intros [_ _ Hwf Hid Hc] Hin. apply elem_present. exists (connection_id c). split; [|done].
  apply (wf_channel _ Hwf). eexists. split; [apply conn_of_Some; eauto|done].
Qed.

(** The end of the loop's body: the connection is subscribed and listened for. *)
Lemma run_join {A} (p : proc Gateway A) (w : world Gateway) (c : Connection) :
  attached w c ->
  exists w', run e (let! conn := self l in
                    modify (with_store (subscribe (connection_id conn) ch)) ;;
                    on_local_subscribe settings ch ;; p) w = run e p w' /\
    attached w' (set_subscriptions ({[ch]} ∪ subscriptions c) c) /\ advanced w w' /\
    live_listener (w_state w') ch /\ w_out w' = w_out w.
Proof.
  intros [Hrooms Hm Hwf Hid Hc].
  rewrite run_bind, (run_self e l w c Hc), run_bind, run_modify. cbn [w_state w_db w_tick w_out tick].
  destruct (subscribe_gateway (w_state w) c Hwf Hid Hc) as (Hwf2 & Hid2 & Hc2).
  set (g2 := with_store _ _) in *. set (w2 := mkWorld (1 + _) _ g2 _). rewrite run_bind.
  destruct (run_on_local_subscribe settings e Hrel Hmono ch w2)
    as (w3 & -> & Hst & Ht3 & Hr3 & Ho & Hp & Hfr).
  { eapply room_sets_later, Hrooms. apply Hmono. cbn. lia. }
  assert (store (w_state w3) = store g2) as Hs3 by by rewrite Hst, store_ensure.
  assert (manager_wf g2) as Hm2 by (destruct Hm as [H1 H2]; by split).
  pose proof (manager_wf_count ch g2 Hm2) as Hm3. cbn in Ht3.
  exists w3. split_and!; [done| | | |done].
  - split; [done|by rewrite Hst; apply manager_wf_ensure|by rewrite Hs3| |].
    + by rewrite Hs3.
    + unfold conn_at in *. by rewrite Hs3.
  - split; [lia|done|intros k u Hk Hu; by apply Hfr|].
    intros ch' Hl. rewrite Hst. apply live_ensure; [done|]. right. by apply live_set_count.
  - rewrite Hst. apply live_ensure; [done|]. by left.
Qed.

Lemma advanced_same (w : world Gateway) (d : db) (g : Gateway) (n : nat) (o : list ws_event) :
  same (at_ w) (w_db w) d -> manager g = manager (w_state w) ->
  listener_tasks g = listener_tasks (w_state w) -> (w_tick w <= n)%nat ->
  advanced w (mkWorld n d g o).
Proof.
  intros [Hs Hl] Hm Ht Hn. split; cbn; [done|done| |].
  - intros k u _ Hu. apply Hs. pose proof (Hmono _ _ Hn). lia.
  - intros ch' (t & task & H). exists t, task. by rewrite Hm, Ht.
Qed.

Lemma attached_same (w : world Gateway) (c : Connection) (d : db) (n : nat) (o : list ws_event) q b :
  attached w c -> same (at_ w) (w_db w) d -> (w_tick w <= n)%nat ->
  let c' := set_queue q b c in
  attached (mkWorld n d (update_at l (fun _ => c') (w_state w)) o) c'.
Proof.
  intros [Hr Hm Hwf Hid Hc] [Hs _] Hn c'. split; cbn [w_state w_db w_tick].
  - intros ch' u Hu. pose proof (Hmono _ _ Hn). rewrite Hs by lia. apply Hr. lia.
  - destruct Hm as [H1 H2]. by split.
  - by eapply wf_replace.
  - done.
  - by eapply conn_at_update.
Qed.

End Resume.

(** ** What a RESUME is answered *)

Inductive resume_answer :=
| Foreign            (** another tenant's channel: ignored *)
| Lost               (** the buffer does not reach back: reported as a gap *)
| Replayed (bs : list Buffered).

Section Answers.
Context {Py : Pydantic}.
Variables (tid : string) (views : string -> channel_view).

Definition answer (item : string * Z) : resume_answer :=
  if channel_belongs_to_tenant item.1 tid then
    let rr := replay_result item.2 (cv_retained (views item.1)) in
    if rr_gap rr then Lost else Replayed (rr_messages rr)
  else Foreign.

Definition gap_channels (items : list (string * Z)) : list string :=
  omap (fun it => match answer it with Lost => Some it.1 | _ => None end) items.

Definition replayed_counts (items : list (string * Z)) : list (string * Z) :=
  omap (fun it => match answer it with
                  | Replayed bs => Some (it.1, Z.of_nat (length bs)) | _ => None end) items.

Definition replayed_to (item : string * Z) : list MessageFrame :=
  match answer item with Replayed bs => map (replayed_frame item.1) bs | _ => [] end.

(** The queue entries of all replayed messages, in the order of the frame. *)
Definition replayed_queue (items : list (string * Z)) : list QueuedMessage :=
  items ≫= fun it => map (queued it.1) (replayed_to it).

Definition replayed_bytes (items : list (string * Z)) : Z :=
  foldr (fun it n => total_bytes (replayed_to it) + n) 0 items.

Definition resumed_channels (items : list (string * Z)) : list string :=
  (replayed_counts items).*1.

(** The connection after the whole loop. *)
Definition resumed_conn (items : list (string * Z)) (c : Connection) : Connection :=
  set_subscriptions (list_to_set (resumed_channels items) ∪ subscriptions c)
    (set_queue (queue c ++ replayed_queue items) (queue_bytes c + replayed_bytes items) c).

Lemma replayed_queue_cons it items :
  replayed_queue (it :: items) = map (queued it.1) (replayed_to it) ++ replayed_queue items.
Proof. done. Qed.

Lemma replayed_bytes_cons it items :
  replayed_bytes (it :: items) = total_bytes (replayed_to it) + replayed_bytes items.
Proof. done. Qed.

Lemma replayed_bytes_nonneg items : 0 <= replayed_bytes items.
Proof.
  unfold replayed_bytes. induction items as [|it items IH]; cbn [foldr]; [lia|].
  pose proof (total_bytes_nonneg (replayed_to it)). lia.
Qed.

Lemma resumed_conn_nil c : resumed_conn [] c = c.
Proof.
  unfold resumed_conn, queue_bytes. cbn. rewrite app_nil_r, Z.add_0_r, (left_id_L ∅ (∪)).
  by destruct c.
Qed.

Lemma gap_channels_cons it items :
  gap_channels (it :: items) = gap_channels [it] ++ gap_channels items.
Proof. apply (omap_app _ [it]). Qed.

Lemma replayed_counts_cons it items :
  replayed_counts (it :: items) = replayed_counts [it] ++ replayed_counts items.
Proof. apply (omap_app _ [it]). Qed.

Lemma resumed_channels_cons it items :
  resumed_channels (it :: items) = resumed_channels [it] ++ resumed_channels items.
Proof. unfold resumed_channels. by rewrite replayed_counts_cons, fmap_app. Qed.

Lemma resumed_conn_cons it items c :
  resumed_conn (it :: items) c = resumed_conn items (resumed_conn [it] c).
Proof.
  unfold resumed_conn. rewrite resumed_channels_cons, list_to_set_app_L.
  unfold queue_bytes. cbn [queue _queue_bytes set_queue set_subscriptions subscriptions].
  rewrite replayed_queue_cons, replayed_bytes_cons, (replayed_queue_cons it []), (replayed_bytes_cons it []).
  unfold replayed_queue at 2, replayed_bytes at 2. cbn [mbind list_bind foldr].
  rewrite !app_nil_r, !app_assoc, Z.add_0_r, !Z.add_assoc.
  by rewrite (comm_L (∪) (list_to_set (resumed_channels [it]))), <- (assoc_L (∪)).
Qed.

(** One channel that is not replayed, and one that is. *)
Lemma resumed_conn_skip it c :
  (forall bs, answer it <> Replayed bs) -> resumed_conn [it] c = c.
Proof.
  intros H. rewrite <- (resumed_conn_nil c) at 2. unfold resumed_conn.
  rewrite replayed_queue_cons, replayed_bytes_cons.
  unfold resumed_channels, replayed_counts, replayed_to. cbn [omap list_omap].
  destruct (answer it) as [| |bs]; [done|done|by destruct (H bs)].
Qed.

Lemma resumed_conn_replayed it bs c :
  answer it = Replayed bs ->
  resumed_conn [it] c =
  set_subscriptions ({[it.1]} ∪ subscriptions c)
    (set_queue (queue c ++ map (queued it.1) (map (replayed_frame it.1) bs))
       (queue_bytes c + total_bytes (map (replayed_frame it.1) bs)) c).
Proof.
  intros Ha. unfold resumed_conn. rewrite replayed_queue_cons, replayed_bytes_cons.
  unfold resumed_channels, replayed_counts, replayed_to. cbn [omap list_omap]. rewrite Ha.
  unfold replayed_queue, replayed_bytes. cbn [mbind list_bind foldr].
  rewrite app_nil_r, Z.add_0_r. cbn. by rewrite (right_id_L ∅ (∪)).
Qed.
End Answers.

Section Loop.
Context {Rd : Redis} {Rl : RedisLaws} {Jt : JsonText} {Py : Pydantic}.
Variable settings : Settings.
Variable e : env.
Hypothesis Hrel : reliable e.
Hypothesis Hmono : mono_clock e.
Hypothesis Hws : forall n, ws_ok e n = true.
Variables (l : loc) (ws : nat) (tid : string) (views : string -> channel_view).

Notation at_ w := (clock e (w_tick w)).
Notation answer_ := (answer tid views).

(** The recovery buffers of the tenant's channels hold what the views say. *)
Definition buffers (w : world Gateway) (items : list (string * Z)) : Prop :=
  Forall (fun it => channel_belongs_to_tenant it.1 tid = true ->
    represents (w_db w) (at_ w) it.1 (views it.1) /\
    Forall readable (cv_retained (views it.1)) /\
    Forall (fun b => is_object (b_payload b) = true) (cv_retained (views it.1))) items.

Lemma represents_advanced (w w' : world Gateway) ch cv :
  advanced e w w' -> represents (w_db w) (at_ w) ch cv -> represents (w_db w') (at_ w') ch cv.
Proof.
  intros [Ht _ Hk _] Hrep. apply (represents_frame (w_db w)).
  - eapply represents_later, Hrep. by apply Hmono.
  - intros k u Hch Hu. apply Hk; [|done]. intros ch'. by destruct Hch as [-> | ->].
Qed.

Lemma buffers_advanced (w w' : world Gateway) items :
  advanced e w w' -> buffers w items -> buffers w' items.
Proof.
  intros Ha Hb. eapply Forall_impl; [exact Hb|]. intros it H Hown.
  destruct (H Hown) as (Hr & Hre & Ho).
  split_and!; [by eapply represents_advanced|done|done].
Qed.

(** The messages of a reply are among the retained ones. *)
Lemma replay_result_retained last l' P :
  Forall P l' -> Forall P (rr_messages (replay_result last l')).
Proof.
  intros H. assert (Forall P (sort_by_sequence l')) as Hs.
  { rewrite Forall_forall in *. intros b Hb. apply H. by rewrite <- sort_by_sequence_perm. }
  unfold replay_result. destruct (sort_by_sequence l'); [constructor|]. cbn [rr_messages].
  by apply Forall_selected.
Qed.

(** The gap reports of the loop on the socket. *)
Definition gap_errors (items : list (string * Z)) : list ws_event :=
  map (fun ch => WsSent ws (dump (ErrorFrame ErrorCode.RESUME_GAP ch))) (gap_channels tid views items).

(** The replay and the subscription of one channel. *)
Lemma run_replay_join {A} (p : proc Gateway A) it bs (w : world Gateway) (c : Connection) :
  attached e l w c -> Forall (fun b => is_object (b_payload b) = true) bs ->
  queue_depth c + Z.of_nat (length bs) <= connection_queue_max_messages settings ->
  queue_bytes c + total_bytes (map (replayed_frame it) bs) <= connection_queue_max_bytes settings ->
  exists w', run e (for_each bs (replay_one settings l it) ;;
                    let! conn := self l in
                    modify (with_store (subscribe (connection_id conn) it)) ;;
                    on_local_subscribe settings it ;; p) w = run e p w' /\
    attached e l w' (set_subscriptions ({[it]} ∪ subscriptions c)
       (set_queue (queue c ++ map (queued it) (map (replayed_frame it) bs))
          (queue_bytes c + total_bytes (map (replayed_frame it) bs)) c)) /\
    advanced e w w' /\ live_listener (w_state w') it /\ w_out w' = w_out w.
Proof.
  intros Hat Hobj Hq Hb. rewrite run_bind.
  rewrite (run_replays settings e l it bs w c Hobj (at_conn _ _ _ _ Hat) Hq Hb).
  set (w1 := mkWorld _ _ _ _).
  assert (attached e l w1 (set_queue (queue c ++ map (queued it) (map (replayed_frame it) bs))
            (queue_bytes c + total_bytes (map (replayed_frame it) bs)) c)) as Hat1.
  { apply attached_same; [done|done|by split|lia]. }
  destruct (run_join settings e Hrel Hmono l it p w1 _ Hat1) as (w2 & Hrun & Hat2 & Hadv & Hlive & Ho).
  exists w2. split_and!; [done|done| |done|done].
  apply (advanced_trans e Hmono w w1 w2); [|done]. apply advanced_same; [done|by split|done|done|lia].
Qed.

Lemma attached_read (w : world Gateway) c d n o :
  attached e l w c -> same (at_ w) (w_db w) d -> (w_tick w <= n)%nat ->
  attached e l (mkWorld n d (w_state w) o) c.
Proof.
  intros [Hr Hm Hwf Hid Hc] [Hs _] Hn. split; try done. cbn [w_db w_tick]. intros ch' u Hu.
  pose proof (Hmono _ _ Hn). rewrite Hs by lia. apply Hr. lia.
Qed.

(** One turn of the loop. *)
Lemma run_resume_item it items counts gaps (w : world Gateway) (c : Connection) :
  attached e l w c -> buffers w [it] ->
  queue_depth c + Z.of_nat (length (replayed_to tid views it)) <= connection_queue_max_messages settings ->
  queue_bytes c + total_bytes (replayed_to tid views it) <= connection_queue_max_bytes settings ->
  exists w', run e (resume_channels settings l ws tid (it :: items) counts gaps) w
      = run e (resume_channels settings l ws tid items (counts ++ replayed_counts tid views [it])
                 (gaps ++ gap_channels tid views [it])) w' /\
    attached e l w' (resumed_conn tid views [it] c) /\ advanced e w w' /\
    w_out w' = w_out w ++ gap_errors [it] /\
    forall ch, ch ∈ resumed_channels tid views [it] -> live_listener (w_state w') ch.
Proof.
  intros Hat [Hbuf _]%Forall_cons Hq Hb. destruct it as [ch last].
  unfold gap_errors, resumed_channels, gap_channels, replayed_counts. cbn [resume_channels omap list_omap].
  cbn [fst snd] in *. destruct (channel_belongs_to_tenant ch tid) eqn:Hown; cbn [negb].
  2:{ assert (answer_ (ch, last) = Foreign) as Ha by (unfold answer; cbn [fst]; by rewrite Hown).
      rewrite resumed_conn_skip, Ha by (intros bs; by rewrite Ha). cbn [map]. rewrite !app_nil_r.
      exists w. split_and!; [done|done|by split|done|set_solver]. }
  destruct (Hbuf eq_refl) as (Hrep & Hread & Hobj). rewrite run_bind.
  destruct (replay_run e Hrel w ch last (views ch) Hrep Hread) as (d & -> & Hsame).
  set (rr := replay_result _ _). set (w1 := set_db w d).
  assert (advanced e w w1) as Hadv1 by (apply advanced_same; [done|done|done|done|lia]).
  assert (attached e l w1 c) as Hat1 by (apply attached_read; [done|done|cbn; lia]).
  assert (answer_ (ch, last) = if rr_gap rr then Lost else Replayed (rr_messages rr)) as Ha
    by (unfold answer; cbn [fst snd]; by rewrite Hown).
  destruct (rr_gap rr) eqn:Hgap.
  - rewrite resumed_conn_skip by (intros bs; by rewrite Ha). rewrite Ha, run_bind.
    unfold _send_error. cbn [run send_text do_ev]. rewrite Hws. cbn [lift run map fmap list_fmap].
    rewrite app_nil_r. eexists. split; [reflexivity|]. split_and!.
    + apply attached_read; [done|done|cbn; lia].
    + apply advanced_same; [done|done|done|done|cbn; lia].
    + done.
    + set_solver.
  - unfold replayed_to in Hq, Hb. rewrite Ha in Hq, Hb. rewrite length_map in Hq.
    destruct (run_replay_join (resume_channels settings l ws tid items
        (counts ++ [(ch, Z.of_nat (length (rr_messages rr)))]) gaps) ch (rr_messages rr) w1 c Hat1)
      as (w2 & Hrun & Hat2 & Hadv2 & Hlive & Ho); [by apply replay_result_retained|done|done|].
    rewrite (resumed_conn_replayed _ _ _ _ _ Ha), Ha. cbn [fst map fmap list_fmap].
    rewrite !app_nil_r. exists w2. split_and!; [done|done| |done|].
    + by eapply advanced_trans.
    + intros ch' ->%list_elem_of_singleton. done.
Qed.

Lemma run_resume_channels items : forall counts gaps (w : world Gateway) (c : Connection),
  attached e l w c -> buffers w items ->
  queue_depth c + Z.of_nat (length (replayed_queue tid views items))
    <= connection_queue_max_messages settings ->
  queue_bytes c + replayed_bytes tid views items <= connection_queue_max_bytes settings ->
  exists w', run e (resume_channels settings l ws tid items counts gaps) w
      = (inr (counts ++ replayed_counts tid views items, gaps ++ gap_channels tid views items), w') /\
    attached e l w' (resumed_conn tid views items c) /\ advanced e w w' /\
    w_out w' = w_out w ++ gap_errors items /\
    forall ch, ch ∈ resumed_channels tid views items -> live_listener (w_state w') ch.
Proof.
  induction items as [|it items IH]; intros counts gaps w c Hat Hbuf Hq Hb.
  { exists w. cbn. rewrite !app_nil_r, resumed_conn_nil. split_and!; [done|done|by split|done|set_solver]. }
  apply Forall_cons in Hbuf as [Hit Hbuf].
  rewrite replayed_queue_cons, length_app, length_map in Hq. rewrite replayed_bytes_cons in Hb.
  pose proof (replayed_bytes_nonneg tid views items) as Hnn.
  destruct (run_resume_item it items counts gaps w c Hat) as (w1 & -> & Hat1 & Hadv1 & Ho1 & Hl1);
    [by constructor|lia|lia|].
  destruct (IH (counts ++ replayed_counts tid views [it]) (gaps ++ gap_channels tid views [it]) w1 _ Hat1)
    as (w2 & -> & Hat2 & Hadv2 & Ho2 & Hl2); [by eapply buffers_advanced| | |].
  { unfold resumed_conn, queue_depth in *. cbn [queue set_queue set_subscriptions].
    rewrite length_app, replayed_queue_cons, length_app, length_map. cbn. lia. }
  { unfold resumed_conn, queue_bytes in *. cbn [_queue_bytes set_queue set_subscriptions].
    rewrite replayed_bytes_cons. unfold replayed_bytes at 1. cbn [foldr]. lia. }
  exists w2. rewrite <- !app_assoc, <- replayed_counts_cons, <- gap_channels_cons, <- resumed_conn_cons in *.
  split_and!; [done|done|by eapply advanced_trans| |].
  - rewrite Ho2, Ho1, <- app_assoc. unfold gap_errors. by rewrite <- map_app, <- gap_channels_cons.
  - intros ch. rewrite resumed_channels_cons, elem_of_app. intros [H|H]; [|auto].
    apply (av_live _ _ _ Hadv2). auto.
Qed.

Variable validation_text : json_object -> string.
Variable str_of : json -> string.
Hypothesis Hstr : forall s, as_str (JStr s) = Some s.
Hypothesis Hint : forall z, as_int (JInt z) = Some z.

Lemma parse_resume_object sid items :
  parse_resume (frame_object (ResumeFrame sid items)) = Some (sid, items).
Proof.
  unfold parse_resume, str_field. cbn. rewrite Hstr. cbn. by rewrite (int_items_dict Hint).
Qed.

(** The whole handling of the frame. *)
Lemma run_on_resume sid items (w : world Gateway) (c : Connection) :
  attached e l w c -> buffers w items ->
  queue_depth c + Z.of_nat (length (replayed_queue tid views items))
    <= connection_queue_max_messages settings ->
  queue_bytes c + replayed_bytes tid views items <= connection_queue_max_bytes settings ->
  exists w', run e (handle_frame settings validation_text str_of l ws tid
                      (frame_object (ResumeFrame sid items))) w = (inr true, w') /\
    attached e l w' (resumed_conn tid views items c) /\ advanced e w w' /\
    w_out w' = w_out w ++ gap_errors items ++
      [WsSent ws (dump (ResumedFrame (session_id c) (replayed_counts tid views items)
                          (gap_channels tid views items)))] /\
    forall ch, ch ∈ resumed_channels tid views items -> live_listener (w_state w') ch.
Proof.
  intros Hat Hbuf Hq Hb.
  change (handle_frame _ _ _ _ _ _ _) with
    (on_resume settings l ws tid (frame_object (ResumeFrame sid items)) ;; Ret true).
  unfold on_resume. rewrite parse_resume_object, run_bind, run_bind.
  destruct (run_resume_channels items [] [] w c Hat Hbuf Hq Hb) as (w1 & -> & Hat1 & Hadv & Ho & Hl).
  cbn [app fst snd]. rewrite run_bind, (run_self e l w1 _ (at_conn _ _ _ _ Hat1)).
  cbn [run send_text do_ev tick w_tick]. rewrite Hws. cbn [lift run].
  eexists. split; [reflexivity|]. split_and!.
  - apply (attached_read w1); [done|by split|cbn; lia].
  - eapply advanced_trans; [done|exact Hadv|]. apply advanced_same; [done|by split|done|done|cbn; lia].
  - cbn [w_out tick]. by rewrite Ho, <- app_assoc.
  - exact Hl.
Qed.
End Loop.

(** ** Claims *)


(** *** A client of tenant 1 that is back on its node *)
Definition back_again : Gateway := with_store (fun _ => two_tenants) initial_gateway.

(** A second channel of the tenant, which retains message 8 only. *)
Definition news : string := "t-1:news".
Definition news_buffer : list Buffered := [mkBuffered "m8" 8 (JObj (payload_n 80)) 0].

Definition two_channels : Ref.rdb := {|
  Ref.keys := <[RedisKeys.channel_sequence news := (VStr "8", None)]>
    (<[RedisKeys.channel_stream news :=
         (VStream [((0, 2), buffered_fields (mkBuffered "m8" 8 (JObj (payload_n 80)) 0))], None)]>
       (Ref.keys sample_db2));
  Ref.log := []
|}.

Definition two_views (ch : string) : channel_view :=
  if String.eqb ch sample_channel then mkView 5 sample_buffer else mkView 8 news_buffer.

(** The client has message 4 of the first channel and message 3 of the second,
    and asks for a channel of another tenant. *)
Definition three_items : list (string * Z) := [(sample_channel, 4); ("t-2:chat", 0); (news, 3)].

Lemma two_channels_rooms : room_sets (Rd := Ref.ref_redis) two_channels 0.
Proof.
  intros ch u Hu. assert (Ref.keys two_channels !! RedisKeys.room_nodes ch = None) as H.
  { unfold two_channels, sample_db2. cbn [Ref.keys]. by rewrite !lookup_insert_ne by done. }
  assert (sees (Redis := Ref.ref_redis) two_channels u (RedisKeys.room_nodes ch) = None) as ->; [|by eexists].
  change (Ref.rsees two_channels u (RedisKeys.room_nodes ch) = None). unfold Ref.rsees, Ref.look.
  by rewrite H.
Qed.

