(* ===== verification/Reconnect.v ===== *)
(** * Delivery across a reconnection

    A client that comes back sends RESUME with the last number it has: the
    handler replays the recovery buffer into the connection's queue, subscribes
    the connection and starts the channel's listener.  This file joins that to
    the publications that follow. *)
From Stdlib Require Import ZArith Lia.
From stdpp Require Import base gmap strings list sets sorting.
From S2P Require Import Prelude Config Frames Json JsonLaws FrameText Keys RedisApi Async Tasks RefRedis Samples Auth Sessions Publisher Replay Connection Flow Registry State Rooms Fanout Delivery Presence Handler Isolation Resume.

(** The frames after [last] that a channel still holds. *)
Definition missed (ch : string) (last : Z) (cv : channel_view) : list MessageFrame :=
  map (replayed_frame ch) (filter (fun m => last < b_sequence m) (cv_retained cv)).

Section Resume.
Context {Rd : Redis} {Rl : RedisLaws} {Jt : JsonText} {Py : Pydantic}.
Variable settings : Settings.
Variable e : env.
Hypothesis Hrel : reliable e.
Hypothesis Hmono : mono_clock e.
Variables (l : loc) (ch : string).

Notation at_ w := (clock e (w_tick w)).

(** *** The RESUME of one channel *)
Variables (ws : nat) (tid sid : string) (last : Z) (cv : channel_view).
Variable validation_text : json_object -> string.
Variable str_of : json -> string.
Hypothesis Hws : forall n, ws_ok e n = true.
Hypothesis Hstr : forall s, as_str (JStr s) = Some s.
Hypothesis Hint : forall z, as_int (JInt z) = Some z.

(** What the client needs is still in the buffer. *)
Definition covered : Prop :=
  contiguous cv /\ cv_last cv - Z.of_nat (length (cv_retained cv)) <= last <= cv_last cv.

Lemma replay_covered :
  covered -> replay_result last (cv_retained cv) =
    mkReplayResult (filter (fun m => last < b_sequence m) (cv_retained cv)) false.
Proof.
  intros [Hc Hl]. unfold replay_result.
  rewrite sort_by_sequence_id by by apply contiguous_StronglySorted.
  destruct (cv_retained cv) as [|m r] eqn:E; [done|]. f_equal.
  assert (cv_retained cv !! 0%nat = Some m) as H0 by by rewrite E.
  pose proof (Hc 0%nat m H0) as Hm. rewrite E in *. rewrite (proj2 (Z.ltb_ge _ _)) by lia. done.
Qed.

(** The connection after the replay and the subscription. *)
Definition resumed (c : Connection) : Connection :=
  set_subscriptions ({[ch]} ∪ subscriptions c)
    (set_queue (queue c ++ map (queued ch) (missed ch last cv))
       (queue_bytes c + total_bytes (missed ch last cv)) c).

Lemma run_resume (w : world Gateway) (c : Connection) :
  channel_belongs_to_tenant ch tid = true -> covered ->
  represents (w_db w) (at_ w) ch cv -> Forall readable (cv_retained cv) ->
  Forall (fun b => is_object (b_payload b) = true) (cv_retained cv) ->
  room_sets (w_db w) (at_ w) -> manager_wf (w_state w) ->
  wf (store (w_state w)) -> by_id (store (w_state w)) !! connection_id c = Some l ->
  conn_at l (w_state w) = Some c ->
  queue_depth c + Z.of_nat (length (missed ch last cv)) <= connection_queue_max_messages settings ->
  queue_bytes c + total_bytes (missed ch last cv) <= connection_queue_max_bytes settings ->
  exists w',
    run e (handle_frame settings validation_text str_of l ws tid
             (frame_object (ResumeFrame sid [(ch, last)]))) w = (inr true, w') /\
    w_out w' = w_out w ++ [WsSent ws (dump (ResumedFrame (session_id c)
                             [(ch, Z.of_nat (length (missed ch last cv)))] []))] /\
    wf (store (w_state w')) /\ l ∈ local_subscribers ch (store (w_state w')) /\
    conn_at l (w_state w') = Some (resumed c) /\ live_listener (w_state w') ch /\
    represents (w_db w') (at_ w') ch cv /\ plog (w_db w') = plog (w_db w).
Proof.
  intros Hb Hcov Hrep Hread Hobj Hrooms Hm Hwf Hid Hc Hq Hbytes.
  set (views := fun _ : string => cv).
  assert (answer tid views (ch, last)
          = Replayed (filter (fun m => last < b_sequence m) (cv_retained cv))) as Ha.
  { unfold answer, views. cbn [fst snd]. by rewrite Hb, (replay_covered Hcov). }
  assert (replayed_to tid views (ch, last) = missed ch last cv) as Hto
    by (unfold replayed_to; by rewrite Ha).
  destruct (run_on_resume settings e Hrel Hmono Hws l ws tid views validation_text str_of Hstr Hint
              sid [(ch, last)] w c) as (w1 & Hrun & Hat & Hadv & Ho & Hl).
  - by split.
  - constructor; [done|constructor].
  - rewrite replayed_queue_cons, app_nil_r, length_map, Hto. exact Hq.
  - rewrite replayed_bytes_cons, Hto. unfold replayed_bytes. cbn [foldr]. lia.
  - assert (resumed_conn tid views [(ch, last)] c = resumed c) as Heq
      by (rewrite (resumed_conn_replayed _ _ _ _ _ Ha); unfold missed; done).
    rewrite Heq in Hat. exists w1.
    unfold gap_errors, gap_channels, replayed_counts, resumed_channels, replayed_counts in *.
    cbn [omap list_omap] in *. rewrite Ha in *. cbn [map app fmap list_fmap fst] in *.
    unfold missed at 1. rewrite length_map.
    split_and!; [done|done|apply Hat| |apply Hat|apply Hl; set_solver| |apply Hadv].
    + eapply attached_subscriber; [done|]. cbn. set_solver.
    + by eapply represents_advanced.
Qed.

End Resume.

(** ** The resumption and what is published next *)

(** The server's side of a resumption that can succeed: Redis and the socket
    work, the recovery buffer covers the client's position [last], the
    connection [c] is registered and active, and its queue and window have room
    for what was missed and [n] messages more. *)
Record resumable {Rd : Redis} {Jt : JsonText} {Py : Pydantic} (settings : Settings) (e : env)
    (l : loc) (ch tid : string) (last : Z) (cv : channel_view) (n : Z) (w : world Gateway)
    (c : Connection) : Prop := {
  rs_reliable : reliable e;
  rs_mono : mono_clock e;
  rs_sockets : forall i, ws_ok e i = true;
  rs_tenant : channel_belongs_to_tenant ch tid = true;
  rs_covered : covered last cv;
  rs_channel : represents (w_db w) (clock e (w_tick w)) ch cv;
  rs_readable : Forall readable (cv_retained cv);
  rs_objects : Forall (fun b => is_object (b_payload b) = true) (cv_retained cv);
  rs_numbers : cv_last cv + n <= int64_max;
  rs_rooms : room_sets (w_db w) (clock e (w_tick w));
  rs_manager : manager_wf (w_state w);
  rs_registry : wf (store (w_state w));
  rs_registered : by_id (store (w_state w)) !! connection_id c = Some l;
  rs_connection : conn_at l (w_state w) = Some c;
  rs_active : state c = ACTIVE;
  rs_queue : queue_depth c + Z.of_nat (length (missed ch last cv)) + n
               <= connection_queue_max_messages settings;
  rs_bytes : queue_bytes c + total_bytes (missed ch last cv) <= connection_queue_max_bytes settings;
  rs_window : inflight_count c + normals (queue c) + Z.of_nat (length (missed ch last cv)) + n
                <= max_inflight_messages settings
}.

(** What is written to the socket after the RESUME, when [frames] are
    announced as [log]: the queue, the missed messages, the new ones. *)
Definition written_after {Rd : Redis} {Jt : JsonText} {Py : Pydantic} (settings : Settings)
    (l : loc) (ch : string) (last : Z) (cv : channel_view) (c : Connection)
    (frames : list MessageFrame) (log : list (string * string)) (backoff : Z) (g : Gateway) : Prop :=
  queue_bytes c + total_bytes (missed ch last cv) + total_bytes frames
    <= connection_queue_max_bytes settings ->
  exists g' c' c'' n,
    listener_run settings ch false (heard (RedisKeys.pubsub_channel ch) log)
      (mkListenerState LListening backoff) g = Some (mkListenerState LListening backoff, g') /\
    conn_at l g' = Some c' /\
    sender_run settings n c' Top
      = (c'', Getting, queue c ++ map (queued ch) (missed ch last cv ++ frames)) /\
    queue c'' = [].

(** When the recovery buffer still covers the client's position, its RESUME is
    answered by RESUMED without a gap, the connection is subscribed and the
    channel's listener runs; and with the messages [ps] that are published next,
    the socket is written what was queued before and then exactly the messages
    after the client's position, missed and new, each once, in order, with
    consecutive numbers. *)
Lemma resume_loses_nothing {Rd : Redis} {Rl : RedisLaws} {Jt : JsonText} {Py : Pydantic}
    {Pl : PydanticLaws} (settings : Settings) (e : env) (l : loc) (ch : string) (ws : nat)
    (tid sid : string) (last : Z) (cv : channel_view) (validation_text : json_object -> string)
    (str_of : json -> string) (w : world Gateway) (c : Connection) (ps : list json_object)
    (backoff : Z) :
  resumable settings e l ch tid last cv (Z.of_nat (length ps)) w c ->
  exists w1 w2 frames log,
    run e (handle_frame settings validation_text str_of l ws tid
             (frame_object (ResumeFrame sid [(ch, last)]))) w = (inr true, w1) /\
    w_out w1 = w_out w ++ [WsSent ws (dump (ResumedFrame (session_id c)
                             [(ch, Z.of_nat (length (missed ch last cv)))] []))] /\
    live_listener (w_state w1) ch /\
    run e (publish_all settings ch ps) w1 = (inr tt, w2) /\
    plog (w_db w2) = plog (w_db w) ++ log /\
    map mf_payload frames = ps /\
    map mf_sequence (missed ch last cv ++ frames)
      = seqZ (last + 1) (cv_last cv - last + Z.of_nat (length ps)) /\
    Forall (fun m => mf_channel m = ch) (missed ch last cv ++ frames) /\
    map mf_message_id frames = map (fun i => uuid e (8 * i + w_tick w1)) (seq 0 (length ps)) /\
    map mf_sequence frames = seqZ (cv_last cv + 1) (Z.of_nat (length ps)) /\
    written_after settings l ch last cv c frames log backoff (w_state w1).
Proof.
  intros [Hrel Hmono Hws Hb Hcov Hrep Hread Hobj Hmax Hrooms Hm Hwf Hid Hc Ha Hq Hbytes Hi].
  destruct (run_resume settings e Hrel Hmono l ch ws tid sid last cv validation_text str_of Hws
              as_str_JStr as_int_JInt w c)
    as (w1 & Hrun & Hout & Hwf1 & Hl1 & Hc1 & Hlive & Hrep1 & Hlog1); [done..|lia|done|].
  destruct (publish_all_announces settings e Hrel Hmono ps ch w1 cv Hrep1 Hmax)
    as (w2 & frames & Hrun2 & Hp & Hs & Hch & Hlog2 & Hids).
  assert (length ps = length frames) as Hlen by (by rewrite <- Hp, length_map).
  exists w1, w2, frames, (announced ch frames). rewrite Hlog2, Hlog1. split_and!; try done.
  - rewrite map_app, Hs. destruct Hcov as [Hcon Hpos]. unfold missed.
    rewrite map_map, (map_ext _ b_sequence) by done. rewrite contiguous_newer by done.
    replace (cv_last cv + 1) with (last + 1 + (cv_last cv - last)) by lia.
    rewrite <- seqZ_app by lia. done.
  - apply Forall_app. split; [|done]. unfold missed. apply Forall_map. by apply Forall_true.
  - intros Htot. rewrite map_app, app_assoc.
    apply (announced_reach_socket settings ch frames (w_state w1) l (resumed ch last cv c) backoff
             Hwf1 Hl1 Hc1 Ha); unfold queue_depth, queue_bytes, inflight_count, resumed in *;
      cbn [queue _queue_bytes inflight set_queue set_subscriptions].
    + rewrite length_app, !length_map. lia.
    + exact Htot.
    + rewrite normals_app, normals_queued. unfold inflight_count in Hi. lia.
Qed.

(** *** A client of tenant 1 that has message 4 of 5 *)
Lemma sample_rooms : room_sets (Rd := Ref.ref_redis) sample_db2 0.
Proof.
  intros ch u Hu. assert (Ref.keys sample_db2 !! RedisKeys.room_nodes ch = None) as H.
  { unfold sample_db2. cbn [Ref.keys]. by rewrite !lookup_insert_ne by done. }
  assert (sees (Redis := Ref.ref_redis) sample_db2 u (RedisKeys.room_nodes ch) = None) as ->; [|by eexists].
  change (Ref.rsees sample_db2 u (RedisKeys.room_nodes ch) = None). unfold Ref.rsees, Ref.look.
  by rewrite H.
Qed.

Lemma sample_resumable :
  resumable default_settings calm 0 sample_channel "1" 4 (mkView 5 sample_buffer) 1
    (ref_world 0 sample_db2 back_again) conn_1.
Proof.
  split.
  - apply calm_reliable.
  - apply calm_mono.
  - done.
  - reflexivity.
  - split; [exact sample_buffer_contiguous|]. by vm_compute.
  - exact (sample_represents2 0).
  - exact sample_buffer_readable.
  - by repeat constructor.
  - by vm_compute.
  - exact sample_rooms.
  - split; [intros ch [t Ht]|intros ch n Hn]; by cbn in *.
  - exact two_tenants_wf.
  - reflexivity.
  - reflexivity.
  - reflexivity.
  - by vm_compute.
  - by vm_compute.
  - by vm_compute.
Qed.

(** What a RESUME does not cover: the buffer is read before the connection is
    subscribed and listened for.  A message that is published in between is
    neither replayed nor heard, and RESUMED reports no gap. *)
Theorem resume_race_loses :
  let tasks : list (proc Gateway unit) :=
    [handle_frame default_settings no_text no_str 0 0 "1"
       (frame_object (ResumeFrame "s-1" [(sample_channel, 4)])) ;; Ret tt;
     publish_message default_settings sample_channel (payload_n 7) ;; Ret tt] in
  let published := run_sched calm ([0] ++ replicate 12 1)%nat
                     (tasks, ref_world 0 sample_db2 back_again) in
  let final := run_sched calm (replicate 12 0%nat) published in
  plog (w_db published.2) =
    [(RedisKeys.pubsub_channel sample_channel, "m6")] /\
  _listeners (manager (w_state published.2)) !! sample_channel = None /\
  final.1 = [Ret tt; Ret tt] /\ w_out final.2 = [WsSent 0 "RESUMED"] /\
  plog (w_db final.2) = plog (w_db published.2) /\
  option_map (fun c => map q_sequence (queue c)) (conn_at 0 (w_state final.2)) = Some [Some 5] /\
  is_Some (_listeners (manager (w_state final.2)) !! sample_channel).
Proof. vm_compute. split_and!; try done. by eexists. Qed.
