(* ===== verification/Lifecycle.v ===== *)
(** * Life of a connection: session choice, cleanup, and what failures leave

    Theorems on the handshake and the cleanup of [Handler]. *)
From Stdlib Require Import ZArith Lia.
From stdpp Require Import base gmap strings list sets.
From S2P Require Import Prelude Config Frames Keys RedisApi Async Tasks RefRedis Samples Auth Sessions Publisher Replay Connection Registry State Rooms Fanout Presence Handler Isolation.

(** The unsubscriptions of the cleanup. *)
Definition release_all (chs : list string) (g : Gateway) : Gateway :=
  foldl (fun g ch => (release_channel ch g).2) g chs.

Lemma store_release_all chs : forall g, store (release_all chs g) = store g.
Proof.
  induction chs as [|ch chs IH]; intros g; cbn; [done|]. unfold release_all in *. cbn.
  by rewrite IH, store_release.
Qed.

Lemma count_release_all chs : forall g ch,
  manager_wf g -> NoDup chs ->
  count_of ch (release_all chs g) =
  if decide (ch ∈ chs) then Z.max 0 (count_of ch g - 1) else count_of ch g.
Proof.
  induction chs as [|ch0 chs IH]; intros g ch Hm Hnd; [done|].
  apply NoDup_cons in Hnd as [Hni Hnd].
  change (release_all (ch0 :: chs) g) with (release_all chs (release_channel ch0 g).2).
  rewrite IH by (done || by apply manager_wf_release). rewrite count_release by done.
  destruct (decide (ch0 = ch)) as [->|Hne].
  - rewrite decide_False by done. by rewrite decide_True by set_solver.
  - destruct (decide (ch ∈ chs)); [rewrite decide_True by set_solver|
                                   rewrite decide_False by set_solver]; done.
Qed.

Section Cleanup.
Context {Rd : Redis} {Rl : RedisLaws}.
Variable settings : Settings.
Variable e : env.
Hypothesis Hrel : reliable e.
Hypothesis Hmono : mono_clock e.

Notation at_ w := (clock e (w_tick w)).

(** Keys of rooms and keys of presence differ. *)
Lemma presence_not_room tid u ch : presence_key tid u <> RedisKeys.room_nodes ch.
Proof. key_neq. Qed.

Lemma run_release_all (chs : list string) : forall w : world Gateway,
  room_sets (w_db w) (at_ w) ->
  exists w', run e (for_each chs (on_local_unsubscribe settings)) w = (inr tt, w') /\
    w_state w' = release_all chs (w_state w) /\ (w_tick w <= w_tick w')%nat /\
    forall u k, at_ w' <= u -> (forall ch, k <> RedisKeys.room_nodes ch) ->
      sees (w_db w') u k = sees (w_db w) u k.
Proof.
  induction chs as [|ch chs IH]; intros w Hr; [by exists w|].
  cbn [for_each]. rewrite run_bind.
  destruct (run_on_local_unsubscribe settings e Hrel Hmono ch w Hr)
    as (w1 & -> & Hs1 & Ht1 & Hr1 & _ & Hf1).
  destruct (IH w1 Hr1) as (w2 & -> & Hs2 & Ht2 & Hf2). exists w2. split; [done|].
  split; [by rewrite Hs2, Hs1|]. split; [lia|].
  intros u k Hu Hk. rewrite Hf2 by done. apply Hf1; [|done].
  etransitivity; [|exact Hu]. by apply Hmono.
Qed.

(** [connection_offline] succeeds when the presence key holds a set. *)
Lemma run_offline tid u c (w : world Gateway) :
  (forall v, at_ w <= v -> is_Some (as_set (sees (w_db w) v (presence_key tid u)))) ->
  exists b w', run e (tracker.connection_offline tid u c) w = (inr b, w') /\
    w_state w' = w_state w.
Proof.
  intros Hset. unfold tracker.connection_offline.
  destruct (Hset (at_ w)) as [x Hx]; [lia|]. run_step Hrel.
  apply (law_srem _ _ x) in E as [-> Hch]; [|done]. run_step Hrel.
  apply law_scard in E as [_ ->]. rewrite (changes_at _ _ _ _ _ _ Hch) by (apply Hmono; lia).
  assert (is_Some (as_set (if bool_decide (x ∖ {[c]} = ∅) then None
     else keep_ttl (at_ w) (w_db w) (presence_key tid u) (VSet (x ∖ {[c]})) (clock e (1 + w_tick w)))))
    as [y ->].
  { case_bool_decide; [by eexists|apply as_set_keep_ttl]. }
  destruct (size y =? 0)%nat; [|by eexists _, _].
  run_step Hrel. apply law_del in E as (-> & _). by eexists _, _.
Qed.

Lemma run_cleanup l ws (w : world Gateway) (conn : Connection) :
  conn_at l (w_state w) = Some conn -> room_sets (w_db w) (at_ w) ->
  (forall u v, truthy_id (user_id conn) = Some u -> at_ w <= v ->
     is_Some (as_set (sees (w_db w) v (presence_key (c_tenant_id conn) u)))) ->
  exists w', run e (_cleanup_connection settings l ws) w = (inr tt, w') /\
    w_state w' = with_store (fun s => (remove (connection_id conn) s).2)
      (release_all (elements (subscriptions conn)) (update_at l (set_state DEAD) (w_state w))).
Proof.
  intros Hc Hr Hp. unfold _cleanup_connection. rewrite run_bind, run_modify, run_bind.
  rewrite (run_self e l _ (set_state DEAD conn)).
  2:{ unfold conn_at in *. cbn. by rewrite lookup_alter_eq, Hc. }
  cbn [subscriptions user_id c_tenant_id connection_id set_state]. rewrite run_bind.
  set (w2 := tick _).
  assert (at_ w <= at_ w2) as Hw2 by (apply Hmono; cbn; lia).
  destruct (run_release_all (elements (subscriptions conn)) w2) as (w3 & -> & Hs3 & Ht3 & Hf3).
  { by eapply room_sets_later. }
  assert (exists b w4, run e (match truthy_id (user_id conn) with
      | Some u => let! _ := tracker.connection_offline (c_tenant_id conn) u (connection_id conn) in Ret tt
      | None => Ret tt end) w3 = (inr b, w4) /\ w_state w4 = w_state w3) as (b & w4 & Hrun4 & Hs4).
  { destruct (truthy_id (user_id conn)) as [u|] eqn:Hu; [|by exists tt, w3].
    rewrite run_bind.
    destruct (run_offline (c_tenant_id conn) u (connection_id conn) w3) as (b & w4 & -> & Hs4).
    - intros v Hv. rewrite Hf3 by (done || intros ch; apply presence_not_room).
      apply Hp; [done|]. pose proof (Hmono _ _ Ht3). lia.
    - by exists tt, w4. }
  rewrite run_bind, Hrun4, run_bind, run_modify.
  cbn. destruct (ws_ok e _); cbn; eexists; (split; [reflexivity|]); cbn; by rewrite Hs4, Hs3.
Qed.

End Cleanup.

(** ** Claims *)

(** C27.  Cleanup is complete: with Redis answering, it always finishes; the
    connection is then dead and unregistered, is a subscriber of no channel and
    does not count against its tenant, and each of its channels has lost one
    reference. *)
Theorem cleanup_complete {Rd : Redis} {Rl : RedisLaws} (settings : Settings) (e : env)
    (l ws : nat) (w : world Gateway) (conn : Connection) :
  reliable e -> mono_clock e -> wf (store (w_state w)) -> manager_wf (w_state w) ->
  conn_at l (w_state w) = Some conn -> room_sets (w_db w) (clock e (w_tick w)) ->
  (forall u v, truthy_id (user_id conn) = Some u -> clock e (w_tick w) <= v ->
     is_Some (as_set (sees (w_db w) v (presence_key (c_tenant_id conn) u)))) ->
  exists w', run e (_cleanup_connection settings l ws) w = (inr tt, w') /\
    let g := w_state w' in
    (exists c, conn_at l g = Some c /\ state c = DEAD) /\
    get (connection_id conn) (store g) = None /\
    (forall ch, connection_id conn ∉ members (_by_channel (registry (store g))) ch) /\
    connection_id conn ∉ members (_by_tenant (registry (store g))) (c_tenant_id conn) /\
    (forall ch, ch ∈ subscriptions conn ->
       count_of ch g = Z.max 0 (count_of ch (w_state w) - 1)).
Proof.
  intros Hrel Hmono Hwf Hm Hc Hr Hp.
  destruct (run_cleanup settings e Hrel Hmono l ws w conn Hc Hr Hp) as (w' & Hrun & Hst).
  exists w'. split; [done|]. cbv zeta. rewrite Hst. clear Hst Hrun w'.
  set (g1 := update_at l (set_state DEAD) (w_state w)).
  set (g2 := release_all (elements (subscriptions conn)) g1).
  assert (store g2 = store g1) as Hs2 by apply store_release_all.
  assert (wf (store g2)) as Hwf2 by (rewrite Hs2; by apply wf_update).
  pose proof (wf_remove (connection_id conn) _ Hwf2) as Hwf3.
  assert (conn_of (remove (connection_id conn) (store g2)).2 (connection_id conn) = None) as Hnone
    by (rewrite conn_of_remove by done; by rewrite decide_True).
  cbn [store with_store]. split_and!.
  - exists (set_state DEAD conn). split; [|done]. unfold conn_at. cbn.
    rewrite heap_remove, Hs2. cbn. unfold conn_at in Hc. by rewrite lookup_alter_eq, Hc.
  - destruct (get (connection_id conn) _) as [l'|] eqn:Hl; [|done].
    destruct (wf_id _ Hwf3 _ l' Hl) as (c & Hc' & _).
    assert (conn_of (remove (connection_id conn) (store g2)).2 (connection_id conn) = Some c)
      by (apply conn_of_Some; eauto). congruence.
  - intros ch Hin. apply (wf_channel _ Hwf3) in Hin as (c & Hc' & _). congruence.
  - intros Hin. apply (wf_tenant _ Hwf3) in Hin as (c & Hc' & _). congruence.
  - intros ch Hin. change (count_of ch (with_store _ g2)) with (count_of ch g2).
    unfold g2. rewrite count_release_all; [|by destruct Hm; split|apply NoDup_elements].
    by rewrite decide_True by by apply elem_of_elements.
Qed.

(** The subscriber of [subscribed_gateway] leaves. *)
Lemma cleanup_complete_witness :
  exists w', run calm (_cleanup_connection default_settings 0 0)
      (ref_world 0 Ref.empty subscribed_gateway) = (inr tt, w') /\
    get "c-1" (store (w_state w')) = None /\ count_of "t-1:chat" (w_state w') = 0.
Proof.
  destruct (cleanup_complete (Rd := Ref.ref_redis) default_settings calm 0 0
    (ref_world 0 Ref.empty subscribed_gateway) (set_subscriptions {["t-1:chat"]} conn_1)
    calm_reliable calm_mono) as (w' & Hrun & _ & Hget & _ & _ & Hcount).
  - apply (wf_subscribe "c-1" "t-1:chat"), two_tenants_wf.
  - exact subscribed_manager.
  - reflexivity.
  - intros ch u _. by eexists.
  - discriminate.
  - exists w'. split; [exact Hrun|]. split; [exact Hget|].
    apply (Hcount "t-1:chat"). reflexivity.
Defined.

(** A failure of Redis during the cleanup leaves a dead connection in the
    registry: when the first request of the cleanup fails, the cleanup ends
    with the error before it removes the connection, which still counts against
    its tenant's limit. *)
Theorem cleanup_failure_leaks :
  let outage := mkEnv (clock calm) (fun _ => NetErr 0) (uuid calm) (fun _ => true) in
  let '(r, w') := run outage (_cleanup_connection default_settings 0 0)
                    (ref_world 0 Ref.empty subscribed_gateway) in
  r = inl RedisConnectionError /\
  state <$> conn_at 0 (w_state w') = Some DEAD /\
  get "c-1" (store (w_state w')) = Some 0%nat /\
  tenant_connection_count "1" (store (w_state w')) = 1.
Proof. by vm_compute. Qed.

(** The cleanup does not cover the handshake: when the socket fails at the
    CONNECTED frame, [handle_connection] ends with the error, and the
    connection it registered stays in the registry, active, for good. *)
Theorem handshake_failure_leaks :
  let broken := mkEnv (clock calm) (fun _ => NetOk 0) (uuid calm) (fun _ => false) in
  let connect := JObj [("type", JStr "CONNECT"); ("token", JStr "relay_a")] in
  let '(r, w') :=
    run broken (handle_connection (Jt := sample_json) (Py := sample_pydantic) (Sh := marked_hash)
                  (Ad := list_authdb) default_settings no_text no_str 0 sample_tables 0
                  (Some connect) [])
      (ref_world 0 Ref.empty initial_gateway) in
  r = inl WebSocketDisconnect /\
  active_count (store (w_state w')) = 1 /\
  tenant_connection_count "1" (store (w_state w')) = 1 /\
  state <$> conn_at 0 (w_state w') = Some ACTIVE.
Proof. by vm_compute. Qed.

(** C25.  A session is resumed by its own tenant only: when a client asks for a
    session that is stored for another tenant, a session id that the handshake
    goes on with is the fresh one it drew, and the other tenant's session is
    left exactly as it was. *)
Theorem session_not_hijacked {Rd : Redis} {Rl : RedisLaws} (settings : Settings) (e : env)
    (sid tid : string) (h : gmap string string) (w : world Gateway) r w' :
  reliable e -> mono_clock e ->
  sees (w_db w) (clock e (w_tick w)) (RedisKeys.session sid) = Some (VHash h) ->
  h !! "tenant_id" <> Some tid -> uuid e (1 + w_tick w) <> sid ->
  run e (choose_session settings (Some sid) tid) w = (r, w') ->
  (forall s, r = inr s -> s = uuid e (1 + w_tick w)) /\
  forall u, clock e (w_tick w') <= u ->
    sees (w_db w') u (RedisKeys.session sid) = sees (w_db w) u (RedisKeys.session sid).
Proof.
  intros Hrel Hmono Hsee Hten Hfresh.
  unfold choose_session, get_session. rewrite run_bind, run_bind. run_step Hrel.
  apply law_hgetall in E as [Hsame ->]. rewrite Hsee. cbn [as_hash run].
  set (t0 := clock e (w_tick w)) in *.
  assert ((match (if bool_decide (h = ∅) then None else Some h) with
           | Some h => if bool_decide (h !! "tenant_id" = Some tid) then Some sid else None
           | None => None end) = None) as ->.
  { case_bool_decide; [done|]. by rewrite bool_decide_false. }
  assert (RedisKeys.session sid <> RedisKeys.session (uuid e (1 + w_tick w))) as Hkey.
  { intros H. apply Hfresh. symmetry. by apply (str_app_inv_l "relay:session:"). }
  unfold create_session. run_step Hrel. run_step Hrel. run_step Hrel.
  pose proof (law_frame _ (HSET (RedisKeys.session (uuid e (1 + w_tick w)))
    [("tenant_id", tid); ("current_node", node_id settings);
     ("created_at", py_str (clock e (1 + (1 + w_tick w))));
     ("last_seen", py_str (clock e (1 + (1 + w_tick w))))])
    (clock e (1 + (1 + (1 + w_tick w)))) d (RedisKeys.session sid)) as Hf1.
  rewrite E in Hf1. cbn [touched snd] in Hf1.
  assert (forall u, clock e (3 + w_tick w) <= u ->
    sees d0 u (RedisKeys.session sid) = sees (w_db w) u (RedisKeys.session sid)) as Hd0.
  { intros u Hu. rewrite Hf1 by (done || set_solver).
    apply (same_sees _ _ _ _ _ Hsame). etransitivity; [|exact Hu]. apply Hmono. lia. }
  destruct r0 as [x|[]].
  - intros [= <- <-]. split; [done|]. intros u Hu. apply Hd0. etransitivity; [|exact Hu].
    apply Hmono. cbn. lia.
  - run_step Hrel. pose proof (law_frame _ (EXPIRE (RedisKeys.session (uuid e (1 + w_tick w)))
      (session_resume_window_seconds settings)) (clock e (4 + w_tick w)) d0
      (RedisKeys.session sid)) as Hf2.
    cbn [Nat.add] in *. rewrite E0 in Hf2. cbn [touched snd] in Hf2.
    assert (forall u, clock e (S (S (S (S (w_tick w))))) <= u ->
      sees d1 u (RedisKeys.session sid) = sees (w_db w) u (RedisKeys.session sid)) as Hd1.
    { intros u Hu. rewrite Hf2 by (done || set_solver). apply Hd0.
      etransitivity; [|exact Hu]. apply Hmono. lia. }
    destruct r0 as [x|b]; cbn; intros [= <- <-]; (split; [intros s; congruence|]);
      intros u Hu; apply Hd1; (etransitivity; [|exact Hu]; apply Hmono; cbn; lia).
Qed.

(** Tenant 1 asks for a session of tenant 2. *)
Definition foreign_session_db : Ref.rdb := {|
  Ref.keys := {[ RedisKeys.session "s-9" := (VHash {[ "tenant_id" := "2" ]}, None) ]};
  Ref.log := []
|}.

Lemma session_not_hijacked_witness :
  let out := run calm (choose_session default_settings (Some "s-9") "1")
               (ref_world 0 foreign_session_db initial_gateway) in
  out.1 = inr "uuid-1" /\ forall s, out.1 = inr s -> s = "uuid-1".
Proof.
  split; [by vm_compute|].
  destruct (run calm (choose_session default_settings (Some "s-9") "1")
              (ref_world 0 foreign_session_db initial_gateway)) as [r w'] eqn:E.
  exact (proj1 (session_not_hijacked default_settings calm "s-9" "1" {[ "tenant_id" := "2" ]}
    (ref_world 0 foreign_session_db initial_gateway) r w' calm_reliable calm_mono
    eq_refl ltac:(discriminate) ltac:(discriminate) E)).
Defined.
