(* ===== verification/SessionLife.v ===== *)
(** * The life of a session across connections

    A session outlives its connections for the resume window: the handshake
    creates it, every PONG of a connection of it refreshes it
    ([touch_session]), and a handshake that names it in time takes it up again
    ([choose_session]).  [session_life] is the history of one session among
    everything else that happens to Redis. *)
From Stdlib Require Import ZArith Lia.
From stdpp Require Import base gmap strings list.
From S2P Require Import Prelude Config Keys RedisApi Async RefRedis Sessions State Handler.

Section Life.
Context {Rd : Redis}.
Variable settings : Settings.
Variable e : env.
Variables sid tid : string.

Notation at_ w := (clock e (w_tick w)).
Notation key := (RedisKeys.session sid).
Notation window := (1000 * session_resume_window_seconds settings).

(** Time passes and other keys change. *)
Definition elsewhere_only (w w' : world Gateway) : Prop :=
  (w_tick w <= w_tick w')%nat /\
  forall u, at_ w' <= u -> sees (w_db w') u key = sees (w_db w) u key.

(** [session_life n w]: in [w] the session of [tid] exists or has expired, and
    event [n] was the last to refresh it. *)
Inductive session_life : nat -> world Gateway -> Prop :=
| life_created w w' :
    sees (w_db w) (clock e (2 + w_tick w)) (RedisKeys.session (uuid e (w_tick w))) = None ->
    run e (create_session settings tid (node_id settings)) w = (inr sid, w') ->
    session_life (3 + w_tick w) w'
| life_other n w w' :
    session_life n w -> elsewhere_only w w' -> session_life n w'
| life_touched n w w' :
    session_life n w -> clock e (2 + w_tick w) < clock e n + window ->
    run e (touch_session settings sid (node_id settings)) w = (inr tt, w') ->
    session_life (2 + w_tick w) w'
| life_resumed n w w' :
    session_life n w -> clock e (3 + w_tick w) < clock e n + window ->
    run e (choose_session settings (Some sid) tid) w = (inr sid, w') ->
    session_life (3 + w_tick w) w'.
End Life.

Section Facts.
Context {Rd : Redis} {Rl : RedisLaws}.
Variable settings : Settings.
Variable e : env.
Variables sid tid : string.
Hypothesis Hrel : reliable e.
Hypothesis Hmono : mono_clock e.

Notation at_ w := (clock e (w_tick w)).
Notation key := (RedisKeys.session sid).
Notation window := (1000 * session_resume_window_seconds settings).

(** The key holds a hash of the tenant until [window] after event [n]. *)
Definition lease (n : nat) (w : world Gateway) : Prop :=
  exists h : gmap string string, h !! "tenant_id" = Some tid /\
    forall u, at_ w <= u ->
      sees (w_db w) u key = expiring (clock e n) (session_resume_window_seconds settings) (VHash h) u.

Lemma lease_other n (w w' : world Gateway) : lease n w -> elsewhere_only e sid w w' -> lease n w'.
Proof.
  intros (h & Ht & Hs) [Hle Hk]. exists h. split; [done|]. intros u Hu. rewrite Hk by done.
  apply Hs. pose proof (Hmono _ _ Hle). lia.
Qed.

(** A touch in time moves the deadline and keeps the tenant. *)
Lemma lease_touch nid n (w : world Gateway) :
  lease n w -> clock e (2 + w_tick w) < clock e n + window ->
  exists w', run e (touch_session settings sid nid) w = (inr tt, w') /\
    w_tick w' = (3 + w_tick w)%nat /\ lease (2 + w_tick w) w'.
Proof.
  intros (h & Ht & Hs) Hlt. unfold touch_session. run_step Hrel.
  pose proof (Hmono (w_tick w) (1 + w_tick w)%nat ltac:(lia)).
  pose proof (Hmono (1 + w_tick w)%nat (2 + w_tick w)%nat ltac:(lia)).
  set (m := [("last_seen", _); ("current_node", nid)]).
  destruct (hset_expire_run e Hrel Hmono key m (session_resume_window_seconds settings) tt (tick w) h) as (d & Hrun & Hd).
  - done.
  - cbn [w_db w_tick tick]. rewrite Hs, expiring_before by (cbn in *; lia). done.
  - right. exists (VHash h). cbn [w_db w_tick tick].
    rewrite Hs, expiring_before by (cbn in *; lia). done.
  - eexists. split; [exact Hrun|]. split; [done|]. exists (hash_update h m). split.
    + unfold hash_update, m. cbn. by rewrite !lookup_insert_ne.
    + cbn [w_db w_tick]. intros u Hu. rewrite Hd; [by rewrite bool_decide_true|].
      etransitivity; [|exact Hu]. apply Hmono. cbn. lia.
Qed.

(** A handshake of the tenant that names the session in time takes it up. *)
Lemma lease_choose n (w : world Gateway) :
  lease n w -> clock e (3 + w_tick w) < clock e n + window ->
  exists w', run e (choose_session settings (Some sid) tid) w = (inr sid, w') /\
    w_tick w' = (4 + w_tick w)%nat /\ lease (3 + w_tick w) w'.
Proof.
  intros Hl Hlt. pose proof Hl as (h & Ht & Hs).
  pose proof (Hmono (w_tick w) (3 + w_tick w)%nat ltac:(lia)).
  unfold choose_session, get_session. rewrite run_bind, run_bind. run_step Hrel.
  apply law_hgetall in E as [Hsame ->]. rewrite Hs, expiring_before by lia. cbn [as_hash run].
  rewrite bool_decide_false by (intros ->; by rewrite lookup_empty in Ht).
  rewrite bool_decide_true by done. rewrite run_bind.
  destruct (lease_touch (node_id settings) n (set_db w d)) as (w' & -> & Htick & Hlease).
  - apply (lease_other n w); [done|]. split; [cbn; lia|]. intros u Hu.
    apply (same_sees _ _ _ _ _ Hsame). etransitivity; [|exact Hu]. apply Hmono. cbn. lia.
  - exact Hlt.
  - exists w'. split; [done|]. split; [exact Htick|exact Hlease].
Qed.

(** One that names it too late is given the id it draws. *)
Lemma lease_expired n (w : world Gateway) :
  lease n w -> clock e n + window <= at_ w ->
  sees (w_db w) (clock e (3 + w_tick w)) (RedisKeys.session (uuid e (1 + w_tick w))) = None ->
  exists w', run e (choose_session settings (Some sid) tid) w = (inr (uuid e (1 + w_tick w)), w').
Proof.
  intros (h & _ & Hs) Hle Hfresh. unfold choose_session, get_session.
  rewrite run_bind, run_bind. run_step Hrel.
  apply law_hgetall in E as [Hsame ->]. rewrite Hs, expiring_after by lia. cbn [as_hash run].
  rewrite bool_decide_true by done.
  destruct (create_session_run settings e Hrel Hmono (set_db w d) tid (node_id settings))
    as (d' & Hrun & _); [|by eexists].
  cbn [w_db w_tick set_db]. rewrite (same_sees _ _ _ _ _ Hsame); [exact Hfresh|]. apply Hmono. lia.
Qed.

(** Along its life the session is leased. *)
Lemma life_lease n (w : world Gateway) : session_life settings e sid tid n w -> lease n w.
Proof.
  induction 1 as [w w' Hfresh Hrun|n w w' _ IH Hel|n w w' _ IH Hlt Hrun|n w w' _ IH Hlt Hrun].
  - destruct (create_session_run settings e Hrel Hmono w tid (node_id settings) Hfresh)
      as (d & Hrun' & Hd). rewrite Hrun' in Hrun. injection Hrun as Hsid <-.
    exists (new_session_hash tid (node_id settings) (clock e (1 + w_tick w))).
    split; [apply new_session_hash_tenant|]. cbn [w_db w_tick]. intros u Hu. rewrite Hd.
    + by rewrite bool_decide_true by by rewrite Hsid.
    + etransitivity; [|exact Hu]. apply Hmono. lia.
  - by eapply lease_other.
  - destruct (lease_touch (node_id settings) n w IH Hlt) as (w'' & Hrun' & _ & Hl).
    rewrite Hrun' in Hrun. by injection Hrun as <-.
  - destruct (lease_choose n w IH Hlt) as (w'' & Hrun' & _ & Hl).
    rewrite Hrun' in Hrun. by injection Hrun as <-.
Qed.
End Facts.

(** ** Claims *)

(** C26.  A session lives as long as it is used: after any history of
    refreshes, resumptions and other changes of Redis, a handshake of its
    tenant that names the session within the resume window of the last refresh
    is given it back and starts the window anew; one after the window is given
    the fresh session it draws. *)
Theorem session_kept_alive {Rd : Redis} {Rl : RedisLaws} (settings : Settings) (e : env)
    (sid tid : string) (n : nat) (w : world Gateway) :
  reliable e -> mono_clock e -> session_life settings e sid tid n w ->
  let deadline := clock e n + 1000 * session_resume_window_seconds settings in
  (clock e (3 + w_tick w) < deadline ->
   exists w', run e (choose_session settings (Some sid) tid) w = (inr sid, w') /\
     session_life settings e sid tid (3 + w_tick w) w') /\
  (deadline <= clock e (w_tick w) ->
   sees (w_db w) (clock e (3 + w_tick w)) (RedisKeys.session (uuid e (1 + w_tick w))) = None ->
   exists w', run e (choose_session settings (Some sid) tid) w = (inr (uuid e (1 + w_tick w)), w')).
Proof.
  intros Hrel Hmono Hlife deadline.
  pose proof (life_lease settings e sid tid Hrel Hmono n w Hlife) as Hl. split.
  - intros Hlt. destruct (lease_choose settings e sid tid Hrel Hmono n w Hl Hlt) as (w' & Hrun & _).
    exists w'. split; [done|]. by eapply life_resumed.
  - by apply lease_expired.
Qed.

(** A session that is created, left alone for a while and refreshed. *)
Definition after_create : world (Rd := Ref.ref_redis) Gateway :=
  (run calm (create_session default_settings "1" (node_id default_settings))
     (ref_world 0 Ref.empty initial_gateway)).2.
Definition a_while_later : world (Rd := Ref.ref_redis) Gateway :=
  mkWorld 60 (w_db after_create) (w_state after_create) (w_out after_create).
Definition after_touch : world (Rd := Ref.ref_redis) Gateway :=
  (run calm (touch_session default_settings "uuid-0" (node_id default_settings)) a_while_later).2.

Lemma run_result {A} (p : proc Gateway A) (e : env) (w : world (Rd := Ref.ref_redis) Gateway) r :
  (run e p w).1 = r -> run e p w = (r, (run e p w).2).
Proof. intros <-. apply surjective_pairing. Qed.

Lemma session_kept_alive_witness :
  exists w', run calm (choose_session default_settings (Some "uuid-0") "1") after_touch
               = (inr "uuid-0", w').
Proof.
  destruct (session_kept_alive default_settings calm "uuid-0" "1" 62 after_touch calm_reliable calm_mono)
    as [H _].
  - apply (life_touched _ _ _ _ 3 a_while_later).
    + apply (life_other _ _ _ _ 3 after_create).
      * apply (life_created _ _ _ _ (ref_world 0 Ref.empty initial_gateway)); [done|].
        apply run_result. by vm_compute.
      * split; [|done]. apply Nat.leb_le. by vm_compute.
    + by vm_compute.
    + apply run_result. by vm_compute.
  - destruct H as (w' & Hrun & _); [by vm_compute|]. by exists w'.
Defined.

(** A refresh of a session that has expired makes a hash without a tenant: no
    handshake takes it up, although it is stored. *)
Theorem late_touch_orphans :
  let w := (run calm (touch_session default_settings "s-1" "n1")
              (ref_world 0 Ref.empty initial_gateway)).2 in
  (exists h, sees (w_db w) 10 (RedisKeys.session "s-1") = Some (VHash h) /\ h !! "tenant_id" = None) /\
  (run calm (choose_session default_settings (Some "s-1") "1") w).1 = inr "uuid-4".
Proof.
  split; [|by vm_compute]. eexists. split; [vm_compute; reflexivity|by vm_compute].
Qed.
