(* ===== verification/Http.v ===== *)
(** * The HTTP API of the gateway ([apps/gateway/main.py])

    Bearer authentication, the publish endpoint with its idempotency cache, the
    presence endpoints, the health probes, the drain of the connections. *)
From Stdlib Require Import ZArith Lia.
From stdpp Require Import base gmap strings list sets.
From S2P Require Import Prelude Config Frames Keys RedisApi Async Tasks RefRedis Samples Auth Sessions Publisher Replay Connection Registry State Rooms Fanout Presence.

Section Http.
Context {Jt : JsonText} {Py : Pydantic} {Sh : Sha256} {Ad : AuthDb}.
Variable settings : Settings.
Variable sql : tables.

Definition _auth_http (authorization : option string) : exn + AuthContext :=
  match authorization with
  | None => inl (HTTPException 401 "missing bearer token")
  | Some a =>
      if negb (truthy a) || negb (startswith a "Bearer ") then
        inl (HTTPException 401 "missing bearer token")
      else match authenticate_token sql (removeprefix a "Bearer ") with
           | inl (AuthenticationError text) => inl (HTTPException 401 text)
           | r => r
           end
  end.

(** [except RedisConnectionError: raise HTTPException(503, ...)] *)
Definition or_503 {A} (p : proc Gateway A) : proc Gateway A :=
  catch p (fun x => match x with
                    | RedisConnectionError => Throw (HTTPException 503 "REDIS_UNAVAILABLE")
                    | _ => Throw x
                    end).

(** The value the idempotency key holds: [{"message_id": ..., "sequence": ...}] *)
Definition cached_value (r : PublishResult) : json :=
  JObj [("message_id", JStr (pr_message_id r)); ("sequence", JInt (pr_sequence r))].

(** [PublishResponse( **json.loads(cached) )] *)
Definition of_cached (text : string) : proc Gateway PublishResult :=
  match json_loads text with
  | Some (JObj data) =>
      match str_field "message_id" data, int_field "sequence" data with
      | Some mid, Some sq => Ret (mkPublishResult mid sq)
      | _, _ => Throw ValidationError
      end
  | _ => Throw (OtherError "malformed cache entry")
  end.

Definition truthy_text (o : option string) : option string :=
  match o with Some "" => None | _ => o end.

(** The part of [publish] after its checks. *)
Definition publish_checked (tid channel : string) (payload : json_object)
    (idempotency_key : option string) : proc Gateway PublishResult :=
  let! cached :=
    match idempotency_key with
    | Some k => or_503 (redis (GET (RedisKeys.idempotency tid k)))
    | None => Ret None
    end in
  match truthy_text cached with
  | Some text => of_cached text
  | None =>
      let! result := or_503 (publish_message settings channel payload) in
      modify (metric_add "relay_messages_received_total" 1) ;;
      match idempotency_key with
      | Some k =>
          redis (SET (RedisKeys.idempotency tid k) (json_dumps (cached_value result))
                   (Some (idempotency_ttl_seconds settings)))
      | None => Ret tt
      end ;;
      Ret result
  end.

Definition publish (channel : string) (payload : json_object)
    (authorization idempotency_key : option string) : proc Gateway PublishResult :=
  sleep 0 ;;
  match _auth_http authorization with
  | inl x => Throw x
  | inr auth =>
      match validate_channel_name channel with
      | inl text => Throw (HTTPException 400 text)
      | inr _ =>
          if negb (channel_belongs_to_tenant channel (auth_tenant_id auth)) then
            Throw (HTTPException 403 "CHANNEL_FORBIDDEN")
          else if max_message_size_bytes settings <? utf8_len (json_dumps (JObj payload)) then
            Throw (HTTPException 413 "MESSAGE_TOO_LARGE")
          else publish_checked (auth_tenant_id auth) channel payload (truthy_text idempotency_key)
      end
  end.

(** The body of a request; FastAPI parses it before [publish] runs, and answers
    422 when that fails. *)
Record PublishRequest := mkPublishRequest { body_channel : string; body_payload : json_object }.

Definition parse_publish_request (raw : json) : option PublishRequest :=
  match raw with
  | JObj d =>
      channel ← str_field "channel" d;
      match obj_get "payload" d with
      | None => Some (mkPublishRequest channel [])
      | Some (JObj payload) => Some (mkPublishRequest channel payload)
      | Some _ => None
      end
  | _ => None
  end.

Definition publish_request (raw : json) (authorization idempotency_key : option string) :
    proc Gateway PublishResult :=
  match parse_publish_request raw with
  | None => Throw (OtherError "RequestValidationError")
  | Some body => publish (body_channel body) (body_payload body) authorization idempotency_key
  end.

Definition get_presence (user_id : string) (authorization : option string) :
    proc Gateway tracker.Presence :=
  sleep 0 ;;
  match _auth_http authorization with
  | inl x => Throw x
  | inr auth => tracker.get_presence (auth_tenant_id auth) user_id
  end.

Definition list_presence (fuel : nat) (authorization : option string) : proc Gateway (list tracker.Presence) :=
  sleep 0 ;;
  match _auth_http authorization with
  | inl x => Throw x
  | inr auth => tracker.list_online fuel (auth_tenant_id auth)
  end.

(** [_drain_connections] *)
Definition _drain_connections : proc Gateway unit :=
  let frame := dump (DisconnectFrame "NODE_DRAINING") in
  let! conns := gets (fun g => omap (M := list) (fun l => conn_at l g) (all_connections (store g))) in
  for_each conns (fun conn =>
    catch (send_text (websocket conn) frame) (fun _ => Ret tt) ;;
    catch (close (websocket conn) 4503) (fun _ => Ret tt)).

(** [websocket_endpoint]: a draining node refuses the socket; the result tells
    whether the handler runs. *)
Definition websocket_endpoint (ws : nat) : proc Gateway bool :=
  let! d := gets draining in
  if d then close ws 4503 ;; Ret false else Ret true.

End Http.

(** ** Facts on running the endpoints *)
Section Facts.
Context {Rd : Redis} {Rl : RedisLaws} {Jt : JsonText} {Py : Pydantic} {Pl : PydanticLaws}.
Context {Sh : Sha256} {Ad : AuthDb}.
Variable settings : Settings.
Variable e : env.
Hypothesis Hrel : reliable e.
Hypothesis Hmono : mono_clock e.

Notation at_ w := (clock e (w_tick w)).

Lemma run_or_503_ok {A} (p : proc Gateway A) (w w' : world Gateway) a :
  run e p w = (inr a, w') -> run e (or_503 p) w = (inr a, w').
Proof. intros H. unfold or_503. by apply run_catch_ok. Qed.

Lemma idempotency_not_channel tid k ch :
  RedisKeys.idempotency tid k <> RedisKeys.channel_stream ch /\
  RedisKeys.idempotency tid k <> RedisKeys.channel_sequence ch.
Proof. split; key_neq. Qed.

(** A first publication with a key: it publishes, then stores its result. *)
Lemma run_publish_first (tid ch k : string) (payload : json_object) (cv : channel_view)
    (w : world Gateway) :
  0 < idempotency_ttl_seconds settings ->
  represents (w_db w) (at_ w) ch cv -> cv_last cv < int64_max ->
  sees (w_db w) (at_ w) (RedisKeys.idempotency tid k) = None ->
  let result := mkPublishResult (uuid e (1 + w_tick w)) (cv_last cv + 1) in
  exists w' cv' ts, run e (publish_checked settings tid ch payload (Some k)) w = (inr result, w') /\
    w_tick w' = (11 + w_tick w)%nat /\
    plog (w_db w') = plog (w_db w) ++ [(RedisKeys.pubsub_channel ch,
      dump (MessageF (mkMessageFrame (pr_message_id result) ch (cv_last cv + 1) ts payload)))] /\
    represents (w_db w') (at_ w') ch cv' /\ cv_last cv' = cv_last cv + 1 /\
    (forall k' u, k' <> RedisKeys.channel_sequence ch -> k' <> RedisKeys.channel_stream ch ->
       k' <> RedisKeys.idempotency tid k -> at_ w' <= u -> sees (w_db w') u k' = sees (w_db w) u k') /\
    forall u, clock e (10 + w_tick w) <= u ->
      sees (w_db w') u (RedisKeys.idempotency tid k) =
      expiring (clock e (10 + w_tick w)) (idempotency_ttl_seconds settings)
        (VStr (json_dumps (cached_value result))) u.
Proof.
  intros Httl Hrep Hmax Hnone result. unfold publish_checked.
  rewrite run_bind.
  destruct (rexec (GET (RedisKeys.idempotency tid k)) (at_ w) (w_db w)) as [r d] eqn:E.
  pose proof (law_get _ _ _ _ _ E) as [Hsame Hr]. rewrite Hnone in Hr. subst r.
  rewrite (run_or_503_ok (redis (GET (RedisKeys.idempotency tid k))) w (set_db w d) None).
  2:{ rewrite run_redis by apply Hrel. by rewrite E. }
  cbn [truthy_text]. rewrite run_bind.
  destruct (publish_run_frame (Jt := Jt) settings e Hrel Hmono (set_db w d) ch payload cv)
    as (d' & cv' & Hrun & (_ & Hlast & _) & Hrep' & Hlog & Hfr); [| done |].
  { cbn [w_tick w_db set_db]. apply (represents_later _ (at_ w)); [apply Hmono; lia|].
    apply (represents_same (w_db w)); [|done]. intros u k' Hu. by apply Hsame. }
  rewrite (run_or_503_ok _ _ _ _ Hrun). clear Hrun. rewrite run_bind.
  rewrite run_modify. cbn [w_tick w_db w_state w_out set_db] in *. rewrite run_bind.
  set (w2 := mkWorld _ _ _ _).
  destruct (run_set_ex e (RedisKeys.idempotency tid k) (json_dumps (cached_value result))
              (idempotency_ttl_seconds settings) w2) as (d2 & Hrun2 & Hlog2 & Hsee);
    [apply Hrel|done|].
  change (mkPublishResult (uuid e (1 + w_tick w)) (cv_last cv + 1)) with result.
  rewrite Hrun2. cbn [run]. cbn [w_tick w_db set_db w2] in *.
  pose proof (Hmono (w_tick w) (11 + w_tick w)%nat ltac:(lia)).
  pose proof (Hmono (8 + w_tick w)%nat (11 + w_tick w)%nat ltac:(lia)).
  pose proof (Hmono (10 + w_tick w)%nat (11 + w_tick w)%nat ltac:(lia)).
  eexists _, cv', _. split; [reflexivity|]. cbn [w_tick w_db set_db w2]. split_and!.
  - done.
  - rewrite Hlog2, Hlog. by destruct Hsame as [_ ->].
  - apply (represents_frame d').
    + eapply represents_later, Hrep'. cbn in *. lia.
    + intros k' u Hk Hu. rewrite Hsee by (cbn in *; lia). rewrite bool_decide_false; [done|].
      destruct (idempotency_not_channel tid k ch). by destruct Hk as [-> | ->].
  - done.
  - intros k' u N1 N2 N3 Hu. rewrite Hsee, bool_decide_false by (done || (cbn in *; lia)).
    rewrite Hfr by (done || (cbn in *; lia)). apply Hsame. cbn in *. lia.
  - intros u Hu. rewrite Hsee by (cbn in *; lia). by rewrite bool_decide_true.
Qed.

(** A later publication with the key, while the cache holds the result. *)
Lemma run_publish_again (tid ch k : string) (payload : json_object) (result : PublishResult)
    (w : world Gateway) :
  json_dumps (cached_value result) <> "" ->
  json_loads (json_dumps (cached_value result)) = Some (cached_value result) ->
  sees (w_db w) (at_ w) (RedisKeys.idempotency tid k)
    = Some (VStr (json_dumps (cached_value result))) ->
  exists d', run e (publish_checked settings tid ch payload (Some k)) w = (inr result, set_db w d') /\
    same (at_ w) (w_db w) d'.
Proof.
  intros Hne Hround Hsee. unfold publish_checked. rewrite run_bind.
  destruct (rexec (GET (RedisKeys.idempotency tid k)) (at_ w) (w_db w)) as [r d] eqn:E.
  pose proof (law_get _ _ _ _ _ E) as [Hsame Hr]. rewrite Hsee in Hr. subst r.
  rewrite (run_or_503_ok (redis (GET (RedisKeys.idempotency tid k))) w (set_db w d)
             (Some (json_dumps (cached_value result)))).
  2:{ rewrite run_redis by apply Hrel. by rewrite E. }
  exists d. split; [|done]. unfold truthy_text.
  destruct (json_dumps (cached_value result)) as [|c s] eqn:Hd; [done|].
  unfold of_cached. rewrite Hround. unfold cached_value, str_field, int_field.
  cbn [obj_get String.eqb Ascii.eqb Bool.eqb mbind option_bind].
  rewrite as_str_JStr, as_int_JInt. by destruct result.
Qed.

End Facts.

(** A request that passes every check. *)
Definition accepted_request {Jt : JsonText} {Sh : Sha256} {Ad : AuthDb} (settings : Settings)
    (sql : tables) (ch : string) (payload : json_object) (authorization : option string)
    (auth : AuthContext) : Prop :=
  _auth_http sql authorization = inr auth /\ validate_channel_name ch = inr ch /\
  channel_belongs_to_tenant ch (auth_tenant_id auth) = true /\
  utf8_len (json_dumps (JObj payload)) <= max_message_size_bytes settings.

Lemma run_publish_accepted {Rd : Redis} {Jt : JsonText} {Py : Pydantic} {Sh : Sha256} {Ad : AuthDb}
    settings e sql ch payload a k auth (w : world Gateway) :
  accepted_request settings sql ch payload a auth ->
  run e (publish settings sql ch payload a k) w =
  run e (publish_checked settings (auth_tenant_id auth) ch payload (truthy_text k)) (tick w).
Proof.
  intros (Ha & Hv & Hb & Hs). unfold publish. rewrite Ha, Hv, Hb. cbn [negb].
  by rewrite (proj2 (Z.ltb_ge _ _)).
Qed.

(** ** Claims *)

(** C16.  Idempotent publish: a POST with an idempotency key publishes one
    message; every later POST of the tenant with the key within its lifetime,
    whatever its body, returns the first message's id and number and publishes
    nothing. *)
Theorem publish_idempotent {Rd : Redis} {Rl : RedisLaws} {Jt : JsonText} {Py : Pydantic}
    {Pl : PydanticLaws} {Sh : Sha256} {Ad : AuthDb} (settings : Settings) (e : env) (sql : tables)
    (ch ch' k : string) (payload payload' : json_object) (a a' : option string)
    (auth auth' : AuthContext) (cv : channel_view) (w : world Gateway) :
  reliable e -> mono_clock e -> 0 < idempotency_ttl_seconds settings -> k <> "" ->
  (forall r, json_dumps (cached_value r) <> "" /\
             json_loads (json_dumps (cached_value r)) = Some (cached_value r)) ->
  accepted_request settings sql ch payload a auth ->
  accepted_request settings sql ch' payload' a' auth' ->
  auth_tenant_id auth' = auth_tenant_id auth ->
  represents (w_db w) (clock e (1 + w_tick w)) ch cv -> cv_last cv < int64_max ->
  sees (w_db w) (clock e (1 + w_tick w)) (RedisKeys.idempotency (auth_tenant_id auth) k) = None ->
  exists result w1,
    run e (publish settings sql ch payload a (Some k)) w = (inr result, w1) /\
    length (plog (w_db w1)) = S (length (plog (w_db w))) /\
    forall w2 : world Gateway, w_db w2 = w_db w1 -> (w_tick w1 <= w_tick w2)%nat ->
      clock e (1 + w_tick w2) < clock e (1 + w_tick w) + 1000 * idempotency_ttl_seconds settings ->
      exists w3, run e (publish settings sql ch' payload' a' (Some k)) w2 = (inr result, w3) /\
        same (clock e (1 + w_tick w2)) (w_db w2) (w_db w3).
Proof.
  intros Hrel Hmono Httl Hk Hjson Hacc Hacc' Hten Hrep Hmax Hnone.
  rewrite (run_publish_accepted _ _ _ _ _ _ _ _ _ Hacc).
  assert (truthy_text (Some k) = Some k) as -> by (by destruct k).
  destruct (run_publish_first settings e Hrel Hmono (auth_tenant_id auth) ch k payload cv (tick w)
              Httl Hrep Hmax Hnone) as (w1 & cv' & ts & Hrun & Ht & Hlog & _ & _ & _ & Hsee).
  set (result := mkPublishResult _ _) in *.
  exists result, w1. split; [exact Hrun|]. split; [rewrite Hlog, length_app; cbn; lia|].
  intros w2 Hdb Ht2 Hlt.
  rewrite (run_publish_accepted _ _ _ _ _ _ _ _ _ Hacc'), Hten.
  assert (truthy_text (Some k) = Some k) as -> by (by destruct k).
  cbn [w_tick tick] in Hsee, Ht.
  pose proof (Hmono (10 + (1 + w_tick w))%nat (1 + w_tick w2)%nat ltac:(lia)).
  pose proof (Hmono (1 + w_tick w)%nat (10 + (1 + w_tick w))%nat ltac:(lia)).
  destruct (run_publish_again settings e Hrel (auth_tenant_id auth) ch' k payload'
              result (tick w2) (proj1 (Hjson _)) (proj2 (Hjson _))) as (d & Hrun2 & Hsame).
  - cbn [w_db w_tick tick]. rewrite Hdb, Hsee by lia. apply expiring_before. lia.
  - by eexists.
Qed.

Lemma sample_cached_readable (r : PublishResult) :
  json_dumps (JsonText := sample_json) (cached_value r) <> "" /\
  json_loads (JsonText := sample_json) (json_dumps (JsonText := sample_json) (cached_value r))
    = Some (cached_value r).
Proof. split; [done|apply sample_result_readable]. Qed.

(** The same POST twice, with the sample tables and channel. *)
Definition sample_token : option string := Some "Bearer relay_a".

Lemma sample_accepted n :
  utf8_len (py_str n) < 1000 ->
  accepted_request (Jt := sample_json) (Sh := marked_hash) (Ad := list_authdb) default_settings
    sample_tables sample_channel (payload_n n) sample_token (mkAuthContext "1" "k1").
Proof.
  intros Hn. split_and!; [reflexivity..|]. unfold json_dumps, sample_json, sample_dumps, payload_n.
  rewrite str_app_cons, str_app_nil_l. unfold utf8_len in *. cbn [String.length].
  change (max_message_size_bytes default_settings) with 1000000. lia.
Qed.

Lemma publish_idempotent_witness :
  exists result w1 w3,
    run calm (publish (Jt := sample_json) (Py := sample_pydantic) (Sh := marked_hash)
                (Ad := list_authdb) default_settings sample_tables sample_channel (payload_n 1)
                sample_token (Some "key-1"))
      (ref_world 0 sample_db initial_gateway) = (inr result, w1) /\
    run calm (publish (Jt := sample_json) (Py := sample_pydantic) (Sh := marked_hash)
                (Ad := list_authdb) default_settings sample_tables sample_channel (payload_n 2)
                sample_token (Some "key-1"))
      (ref_world 100 (w_db w1) initial_gateway) = (inr result, w3).
Proof.
  destruct (publish_idempotent (Rd := Ref.ref_redis) (Pl := sample_laws) (Sh := marked_hash)
    (Ad := list_authdb) default_settings calm sample_tables sample_channel sample_channel "key-1"
    (payload_n 1) (payload_n 2) sample_token sample_token (mkAuthContext "1" "k1")
    (mkAuthContext "1" "k1") (mkView 3 []) (ref_world 0 sample_db initial_gateway)
    calm_reliable calm_mono eq_refl) as (result & w1 & Hrun & _ & Hagain).
  - discriminate.
  - exact sample_cached_readable.
  - by apply sample_accepted.
  - by apply sample_accepted.
  - reflexivity.
  - split_and!; [by intros u _|reflexivity|by intros u _|]. exists []. by split; [|constructor].
  - reflexivity.
  - reflexivity.
  - assert (w_tick w1 = 12%nat) as Ht.
    { apply (f_equal (fun p => w_tick p.2)) in Hrun. vm_compute in Hrun. by symmetry. }
    destruct (Hagain (ref_world 100 (w_db w1) initial_gateway) eq_refl) as (w3 & Hrun3 & _).
    + rewrite Ht. cbn. lia.
    + reflexivity.
    + exists result, w1, w3. split; [exact Hrun|exact Hrun3].
Defined.

(** The order of the checks. *)
Lemma run_publish_rejects {Rd : Redis} {Jt : JsonText} {Py : Pydantic} {Sh : Sha256} {Ad : AuthDb}
    (settings : Settings) (e : env) (sql : tables) (ch : string) (payload : json_object)
    (a k : option string) (w : world Gateway) :
  (forall auth, ~ accepted_request settings sql ch payload a auth) ->
  exists x, run e (publish settings sql ch payload a k) w = (inl x, tick w) /\
    match _auth_http sql a with
    | inl _ => exists text, x = HTTPException 401 text
    | inr auth =>
        match validate_channel_name ch with
        | inl text => x = HTTPException 400 text
        | inr _ => x = if channel_belongs_to_tenant ch (auth_tenant_id auth)
                       then HTTPException 413 "MESSAGE_TOO_LARGE"
                       else HTTPException 403 "CHANNEL_FORBIDDEN"
        end
    end.
Proof.
  intros Hrej. unfold publish. destruct (_auth_http sql a) as [x|auth] eqn:Ha.
  - exists x. split; [done|]. unfold _auth_http in Ha. destruct a as [a|]; [|naive_solver].
    destruct (_ || _); [naive_solver|]. unfold authenticate_token in Ha.
    destruct (negb (truthy _)); [naive_solver|].
    destruct (first_active_row sql _) as [[]|]; naive_solver.
  - destruct (validate_channel_name ch) as [t|c] eqn:Hv; [by eexists|].
    assert (c = ch) as -> by (apply validate_channel_name_ok in Hv; tauto).
    destruct (channel_belongs_to_tenant ch (auth_tenant_id auth)) eqn:Hb; cbn [negb]; [|by eexists].
    destruct (Z.ltb_spec (max_message_size_bytes settings) (utf8_len (json_dumps (JObj payload))));
      [by eexists|]. exfalso. by apply (Hrej auth).
Qed.

(** C34.  A publish request that fails a check is answered, in this order, 422
    for a malformed body, 401 for a missing or unknown key, 400 for an invalid
    channel name, 403 for another tenant's channel, 413 for a payload that is
    too large; and nothing changes, in Redis or in the process. *)
Theorem publish_rejects {Rd : Redis} {Jt : JsonText} {Py : Pydantic} {Sh : Sha256} {Ad : AuthDb}
    (settings : Settings) (e : env) (sql : tables) (raw : json) (a k : option string)
    (w : world Gateway) :
  (forall body auth, parse_publish_request raw = Some body ->
     ~ accepted_request settings sql (body_channel body) (body_payload body) a auth) ->
  exists x w', run e (publish_request settings sql raw a k) w = (inl x, w') /\
    w_db w' = w_db w /\ w_state w' = w_state w /\ w_out w' = w_out w /\
    match parse_publish_request raw with
    | None => x = OtherError "RequestValidationError"
    | Some body =>
        match _auth_http sql a with
        | inl _ => exists text, x = HTTPException 401 text
        | inr auth =>
            match validate_channel_name (body_channel body) with
            | inl text => x = HTTPException 400 text
            | inr _ => x = if channel_belongs_to_tenant (body_channel body) (auth_tenant_id auth)
                           then HTTPException 413 "MESSAGE_TOO_LARGE"
                           else HTTPException 403 "CHANNEL_FORBIDDEN"
            end
        end
    end.
Proof.
  intros Hrej. unfold publish_request. destruct (parse_publish_request raw) as [body|]; [|by eexists _, w].
  destruct (run_publish_rejects settings e sql (body_channel body) (body_payload body) a k w)
    as (x & Hrun & Hx); [intros auth; by apply Hrej|].
  exists x, (tick w). done.
Qed.

(** A token that is not known. *)
Lemma publish_rejects_witness :
  exists x w', run calm (publish_request (Jt := sample_json) (Py := sample_pydantic) (Sh := marked_hash)
      (Ad := list_authdb) default_settings sample_tables
      (JObj [("channel", JStr sample_channel); ("payload", JObj (payload_n 1))])
      (Some "Bearer nope") None) (ref_world 0 sample_db initial_gateway) = (inl x, w') /\
    w_db w' = sample_db /\ exists text, x = HTTPException 401 text.
Proof.
  destruct (publish_rejects (Rd := Ref.ref_redis) (Sh := marked_hash) (Ad := list_authdb)
    default_settings calm sample_tables
    (JObj [("channel", JStr sample_channel); ("payload", JObj (payload_n 1))])
    (Some "Bearer nope") None (ref_world 0 sample_db initial_gateway))
    as (x & w' & Hrun & Hdb & _ & _ & Hx).
  { intros body auth _ (H & _). vm_compute in H. discriminate. }
  exists x, w'. split; [exact Hrun|]. split; [exact Hdb|exact Hx].
Defined.

(** The idempotency check is a read before the publication and a write
    after it: two POSTs with one key at the same time both publish. *)
Theorem idempotency_race :
  let post n := publish_checked (Jt := sample_json) (Py := sample_pydantic) tiny_settings "1"
                  sample_channel (payload_n n) (Some "key-1") in
  let final := run_sched calm (concat (replicate 12 [0; 1]%nat))
                 ([post 1; post 1], ref_world 0 sample_db initial_gateway) in
  (exists r0 r1, final.1 = [Ret r0; Ret r1] /\ pr_sequence r0 = 4 /\ pr_sequence r1 = 5) /\
  length (plog (w_db final.2)) = 2%nat.
Proof.
  split; [|by vm_compute].
  eexists _, _. split; [vm_compute; reflexivity|]. done.
Qed.
