(* ===== verification/DemoPublisher.v ===== *)
(** * The demo publisher ([demo-publisher/publish.py])

    A client of the publish endpoint: it posts numbered messages, each with an
    idempotency key of its own, and tries a message up to three times with the
    same key.  The HTTP client ([httpx]) and the network are represented by the
    fate of each attempt; the endpoint that serves the attempts is
    [Http.publish_request], and an attempt that reached it has been served
    before the next one is made. *)
From Stdlib Require Import ZArith Lia QArith Qround.
From stdpp Require Import base gmap strings list.
From S2P Require Import Prelude Config Frames Keys RedisApi Async Tasks RefRedis Samples Auth Publisher State Http.

Open Scope Z_scope.

(** What becomes of an attempt: the reply comes back; the gateway serves the
    request and [httpx] raises the named error; the request does not reach the
    gateway and [httpx] raises. *)
Inductive http_fate :=
| Answered
| ReplyLost (error : string)
| Unreached (error : string).

Record http_response := mkResponse { status_code : Z; response_body : option PublishResult }.

(** A line the program prints. *)
Inductive line :=
| Sent (i : nat) (sequence : Z)
| Refused (i : nat) (status : Z)
| Failed (i : nat) (error : string).

(** The status FastAPI answers an exception with. *)
Definition status_of (x : exn) : Z :=
  match x with
  | HTTPException status _ => status
  | OtherError "RequestValidationError" => 422
  | _ => 500
  end.

Definition demo_payload (i : nat) : json_object :=
  [("n", JInt (Z.of_nat i)); ("text", JStr ("message " +:+ py_str (Z.of_nat i)))].

Definition demo_body (channel : string) (i : nat) : json :=
  JObj [("channel", JStr channel); ("payload", JObj (demo_payload i))].

Section Demo.
Context {Jt : JsonText} {Py : Pydantic} {Sh : Sha256} {Ad : AuthDb}.
Variable settings : Settings.
Variable sql : tables.
Variable fate : nat -> nat -> http_fate.
Variables api_key channel : string.

Definition respond (p : proc Gateway PublishResult) : proc Gateway http_response :=
  catch (let! r := p in Ret (mkResponse 200 (Some r)))
    (fun x => Ret (mkResponse (status_of x) None)).

(** [http.post]: an [httpx.HTTPError] by its name, or the response. *)
Definition post (f : http_fate) (i : nat) (key : string) :
    proc Gateway (string + http_response) :=
  let serve := respond (publish_request settings sql (demo_body channel i)
                          (Some ("Bearer " +:+ api_key)) (Some key)) in
  match f with
  | Answered => let! r := serve in Ret (inr r)
  | ReplyLost error => serve ;; Ret (inl error)
  | Unreached error => sleep 0 ;; Ret (inl error)
  end.

(** The loop over the attempts at message [i]. *)
Fixpoint retry (i : nat) (key : string) (attempts : list nat) : proc Gateway (list line) :=
  match attempts with
  | [] => Ret []
  | attempt :: rest =>
      let again l :=
        sleep (250 * 2 ^ Z.of_nat attempt) ;;
        let! ls := retry i key rest in Ret (l :: ls) in
      let! r := post (fate i attempt) i key in
      match r with
      | inl error => again (Failed i error)
      | inr r =>
          if status_code r =? 200 then
            match response_body r with
            | Some b => Ret [Sent i (pr_sequence b)]
            | None => Throw (OtherError "KeyError")
            end
          else again (Refused i (status_code r))
      end
  end.

(** The loop over the messages. *)
Fixpoint demo_loop (rate : Q) (msgs : list nat) : proc Gateway (list line) :=
  match msgs with
  | [] => Ret []
  | i :: rest =>
      let! key := uuid4 in
      let! ls := retry i key [0; 1; 2]%nat in
      if Qeq_bool rate 0 then Throw (OtherError "ZeroDivisionError")
      else
        sleep (Qfloor (1000 / rate)) ;;
        let! ls' := demo_loop rate rest in
        Ret (ls ++ ls')
  end.

(** [main], with [rate] and [count] as the arguments that are present. *)
Definition demo_main (rate : option Q) (count : option Z) : proc Gateway (list line) :=
  demo_loop (default (5 # 1) rate) (seq 0 (Z.to_nat (default 100 count))).

End Demo.

(** ** What a run amounts to *)

(** The attempts the messages get: does one reach the gateway, is one answered? *)
Definition reaches (f : http_fate) : bool :=
  match f with Unreached _ => false | _ => true end.
Definition answers (f : http_fate) : bool :=
  match f with Answered => true | _ => false end.
Definition reached (fate : nat -> nat -> http_fate) (i : nat) : bool :=
  existsb (fun a => reaches (fate i a)) [0; 1; 2]%nat.
Definition answered (fate : nat -> nat -> http_fate) (i : nat) : bool :=
  existsb (fun a => answers (fate i a)) [0; 1; 2]%nat.

(** The messages of [msgs] numbered from [last + 1] on. *)
Definition numbered (last : Z) (msgs : list nat) : list (nat * Z) :=
  zip msgs (seqZ (last + 1) (Z.of_nat (length msgs))).

(** The announcement of message [i] under number [n]. *)
Definition announces {Py : Pydantic} (ch : string) (p : nat * Z) (a : string * string) : Prop :=
  exists mid ts, a = (RedisKeys.pubsub_channel ch,
    dump (MessageF (mkMessageFrame mid ch p.2 ts (demo_payload p.1)))).

(** The line that reports the number of a message. *)
Definition sent (l : line) : option (nat * Z) :=
  match l with Sent i n => Some (i, n) | _ => None end.

Lemma numbered_app (last : Z) (l k : list nat) :
  numbered last (l ++ k) = numbered last l ++ numbered (last + Z.of_nat (length l)) k.
Proof.
  unfold numbered. rewrite length_app, Nat2Z.inj_add, seqZ_app by lia.
  replace (last + 1 + Z.of_nat (length l)) with (last + Z.of_nat (length l) + 1) by lia.
  apply zip_with_app. rewrite length_seqZ. lia.
Qed.

Section Facts.
Context {Rd : Redis} {Rl : RedisLaws} {Jt : JsonText} {Py : Pydantic} {Pl : PydanticLaws}.
Context {Sh : Sha256} {Ad : AuthDb}.
Variable settings : Settings.
Variable sql : tables.
Variable fate : nat -> nat -> http_fate.
Variables api_key ch : string.
Variable auth : AuthContext.
Variable e : env.
Hypothesis Hrel : reliable e.
Hypothesis Hmono : mono_clock e.
Hypothesis Httl : 0 < idempotency_ttl_seconds settings.
Hypothesis Hfast : forall n, clock e (50 + n) < clock e n + 1000 * idempotency_ttl_seconds settings.
Hypothesis Hjson : forall r, json_dumps (cached_value r) <> "" /\
  json_loads (json_dumps (cached_value r)) = Some (cached_value r).

Notation at_ w := (clock e (w_tick w)).
Notation idem k := (RedisKeys.idempotency (auth_tenant_id auth) k).
Notation post_ := (post settings sql api_key ch).
Notation retry_ := (retry settings sql fate api_key ch).
Notation accepted i :=
  (accepted_request settings sql ch (demo_payload i) (Some ("Bearer " +:+ api_key)) auth).

(** What [post] returns when the endpoint's result is [r]. *)
Definition outcome (f : http_fate) (r : PublishResult) : string + http_response :=
  match f with
  | Answered => inr (mkResponse 200 (Some r))
  | ReplyLost error | Unreached error => inl error
  end.

(** Everything but the keys of the channel and of [k] is as it was. *)
Definition framed (k : string) (w w' : world Gateway) : Prop :=
  forall k' u, k' <> RedisKeys.channel_sequence ch -> k' <> RedisKeys.channel_stream ch ->
    k' <> idem k -> at_ w' <= u -> sees (w_db w') u k' = sees (w_db w) u k'.

(** The cache holds [r] under [k], written at event [T]. *)
Definition stored (k : string) (r : PublishResult) (T : nat) (w : world Gateway) : Prop :=
  (T <= w_tick w)%nat /\
  forall u, at_ w <= u -> sees (w_db w) u (idem k) =
    expiring (clock e T) (idempotency_ttl_seconds settings) (VStr (json_dumps (cached_value r))) u.

Lemma stored_same k r T (w w' : world Gateway) :
  stored k r T w -> same (at_ w') (w_db w) (w_db w') -> (w_tick w <= w_tick w')%nat ->
  stored k r T w'.
Proof.
  intros [HT Hs] Hsame Hle. split; [lia|]. intros u Hu.
  pose proof (Hmono _ _ Hle). rewrite (proj1 Hsame) by done. apply Hs. lia.
Qed.

(** A served attempt ends as its fate says. *)
Lemma run_post_served f i key r (w w' : world Gateway) :
  reaches f = true -> accepted i -> key <> "" ->
  run e (publish_checked settings (auth_tenant_id auth) ch (demo_payload i) (Some key)) (tick w)
    = (inr r, w') ->
  run e (post_ f i key) w = (inr (outcome f r), w').
Proof.
  intros Hf Hacc Hk Hrun. unfold post, respond, publish_request.
  assert (parse_publish_request (demo_body ch i)
          = Some (mkPublishRequest ch (demo_payload i))) as ->.
  { unfold parse_publish_request, demo_body, str_field.
    cbn [obj_get String.eqb Ascii.eqb Bool.eqb mbind option_bind]. by rewrite as_str_JStr. }
  cbn [body_channel body_payload].
  assert (truthy_text (Some key) = Some key) as Htk by (by destruct key).
  destruct f; [| |done]; cbn [outcome];
    rewrite run_bind, run_catch, run_bind, (run_publish_accepted _ _ _ _ _ _ _ _ _ Hacc), Htk, Hrun;
    reflexivity.
Qed.

(** The first attempt that reaches the gateway publishes the message. *)
Lemma run_post_first f i key cv (w : world Gateway) :
  reaches f = true -> accepted i -> key <> "" ->
  represents (w_db w) (at_ w) ch cv -> cv_last cv < int64_max ->
  (forall u, at_ w <= u -> sees (w_db w) u (idem key) = None) ->
  exists r w' cv' a, run e (post_ f i key) w = (inr (outcome f r), w') /\
    w_tick w' = (12 + w_tick w)%nat /\ pr_sequence r = cv_last cv + 1 /\
    announces ch (i, cv_last cv + 1) a /\ plog (w_db w') = plog (w_db w) ++ [a] /\
    represents (w_db w') (at_ w') ch cv' /\ cv_last cv' = cv_last cv + 1 /\
    framed key w w' /\ stored key r (11 + w_tick w) w'.
Proof.
  intros Hf Hacc Hk Hrep Hmax Hnone.
  pose proof (Hmono (w_tick w) (1 + w_tick w)%nat ltac:(lia)) as Hle.
  destruct (run_publish_first settings e Hrel Hmono (auth_tenant_id auth) ch key (demo_payload i)
              cv (tick w) Httl (represents_later _ _ _ _ _ Hle Hrep) Hmax (Hnone _ Hle))
    as (w' & cv' & ts & Hrun & Ht & Hlog & Hrep' & Hlast & Hfr & Hsee).
  eexists _, w', cv', _. split; [by eapply run_post_served|].
  cbn [w_tick tick w_db] in *. split_and!; [lia|done| |done|done|done|exact Hfr|].
  - eexists _, _. reflexivity.
  - split; [lia|]. intros u Hu. apply Hsee. eapply Z.le_trans; [apply Hmono|exact Hu]. lia.
Qed.

(** A later one finds the result in the cache. *)
Lemma run_post_again f i key r T (w : world Gateway) :
  accepted i -> key <> "" -> stored key r T w -> (w_tick w < 50 + T)%nat ->
  exists w', run e (post_ f i key) w = (inr (outcome f r), w') /\
    (w_tick w <= w_tick w' <= 2 + w_tick w)%nat /\ same (at_ w') (w_db w) (w_db w').
Proof.
  intros Hacc Hk [HT Hs] Hlt.
  destruct (reaches f) eqn:Hf.
  2:{ destruct f; try done. exists (tick w). split; [done|]. cbn. by split; [lia|]. }
  destruct (run_publish_again settings e Hrel (auth_tenant_id auth) ch key (demo_payload i) r (tick w)
              (proj1 (Hjson r)) (proj2 (Hjson r))) as (d & Hrun & Hsame).
  - cbn [w_tick tick w_db]. rewrite Hs by (apply Hmono; lia). apply expiring_before.
    eapply Z.le_lt_trans; [apply Hmono|apply (Hfast T)]. lia.
  - eexists. split; [by apply run_post_served|]. cbn [w_tick set_db tick w_db] in *. split; [lia|].
    eapply same_later, Hsame. apply Hmono. lia.
Qed.

(** One attempt of the loop. *)
Lemma run_retry_step i key a rest r (w w1 : world Gateway) :
  run e (post_ (fate i a) i key) w = (inr (outcome (fate i a) r), w1) ->
  run e (retry_ i key (a :: rest)) w =
  match fate i a with
  | Answered => (inr [Sent i (pr_sequence r)], w1)
  | ReplyLost error | Unreached error =>
      let '(x, w2) := run e (retry_ i key rest) (tick w1) in
      match x with inl x => (inl x, w2) | inr ls => (inr (Failed i error :: ls), w2) end
  end.
Proof.
  intros Hrun. cbn [retry]. rewrite run_bind, Hrun.
  destruct (fate i a); cbn [outcome]; [done|..]; rewrite run_bind; cbn [run sleep do_ev];
    rewrite run_bind; by destruct (run e _ _) as [[]].
Qed.

(** The attempts after the publication change nothing; one that is answered
    reports the number. *)
Lemma run_retry_done i key r T attempts : forall w : world Gateway,
  accepted i -> key <> "" -> stored key r T w ->
  (w_tick w + 4 * length attempts < 50 + T)%nat ->
  exists ls w', run e (retry_ i key attempts) w = (inr ls, w') /\
    (w_tick w <= w_tick w')%nat /\ same (at_ w') (w_db w) (w_db w') /\
    omap sent ls = if existsb (fun a => answers (fate i a)) attempts
                   then [(i, pr_sequence r)] else [].
Proof.
  induction attempts as [|a rest IH]; intros w Hacc Hk Hst Hlt; cbn [length] in Hlt.
  - by exists [], w.
  - destruct (run_post_again (fate i a) i key r T w Hacc Hk Hst) as (w1 & Hrun & Ht & Hs1); [lia|].
    rewrite (run_retry_step _ _ _ _ _ _ _ Hrun). cbn [existsb].
    pose proof (stored_same _ _ _ _ _ Hst Hs1 (proj1 Ht)) as Hst1.
    destruct (IH (tick w1)) as (ls & w2 & Hrun2 & Ht2 & Hs2 & Hls); [done..| |cbn; lia|].
    { split; [cbn; destruct Hst1; lia|]. intros u Hu. apply Hst1.
      eapply Z.le_trans; [apply Hmono|exact Hu]. cbn; lia. }
    assert (Hs : same (at_ w2) (w_db w) (w_db w2)).
    { split; [|rewrite (proj2 Hs2); apply Hs1]. intros u k Hu. rewrite (proj1 Hs2) by done.
      apply Hs1. eapply Z.le_trans; [apply Hmono|exact Hu]. cbn in Ht2; lia. }
    cbn [tick w_tick] in Ht2.
    destruct (fate i a); cbn [answers orb].
    + exists [Sent i (pr_sequence r)], w1. split; [done|]. split; [lia|done].
    + rewrite Hrun2. eexists (Failed i _ :: ls), w2. split; [done|]. split; [lia|done].
    + rewrite Hrun2. eexists (Failed i _ :: ls), w2. split; [done|]. split; [lia|done].
Qed.

Lemma stored_tick k r T (w : world Gateway) : stored k r T w -> stored k r T (tick w).
Proof.
  intros H. apply (stored_same _ _ _ _ _ H); [done|cbn; lia].
Qed.

(** What holds of the channel and of the other keys after the publication
    holds after the attempts that follow. *)
Lemma after_same key cv (w w1 w2 : world Gateway) :
  framed key w w1 -> represents (w_db w1) (at_ w1) ch cv ->
  same (at_ w2) (w_db w1) (w_db w2) -> (w_tick w1 <= w_tick w2)%nat ->
  framed key w w2 /\ represents (w_db w2) (at_ w2) ch cv.
Proof.
  intros Hfr Hrep Hsame Hle. pose proof (Hmono _ _ Hle). split.
  - intros k' u N1 N2 N3 Hu. rewrite (proj1 Hsame) by done. apply Hfr; (done || lia).
  - apply (represents_same (w_db w1)); [|by eapply represents_later].
    intros u k' Hu. by apply Hsame.
Qed.

(** All attempts at a message that is not published yet. *)
Lemma run_retry_fresh i key attempts : forall cv (w : world Gateway),
  accepted i -> key <> "" -> (length attempts <= 8)%nat ->
  represents (w_db w) (at_ w) ch cv -> cv_last cv < int64_max ->
  (forall u, at_ w <= u -> sees (w_db w) u (idem key) = None) ->
  exists ls w' cv' frames, run e (retry_ i key attempts) w = (inr ls, w') /\
    (w_tick w <= w_tick w')%nat /\ plog (w_db w') = plog (w_db w) ++ frames /\
    represents (w_db w') (at_ w') ch cv' /\
    cv_last cv' = cv_last cv + Z.of_nat (length frames) /\ framed key w w' /\
    Forall2 (announces ch) (if existsb (fun a => reaches (fate i a)) attempts
                            then [(i, cv_last cv + 1)] else []) frames /\
    omap sent ls = if existsb (fun a => answers (fate i a)) attempts
                   then [(i, cv_last cv + 1)] else [].
Proof.
  induction attempts as [|a rest IH]; intros cv w Hacc Hk Hlen Hrep Hmax Hnone; cbn [length] in Hlen.
  { exists [], w, cv, []. rewrite app_nil_r. cbn. split_and!; try done; lia. }
  destruct (reaches (fate i a)) eqn:Hf.
  - destruct (run_post_first (fate i a) i key cv w Hf Hacc Hk Hrep Hmax Hnone)
      as (r & w1 & cv' & an & Hrun & Ht & Hsq & Han & Hlog & Hrep1 & Hlast & Hfr & Hst).
    rewrite (run_retry_step _ _ _ _ _ _ _ Hrun). cbn [existsb]. rewrite Hf. cbn [orb].
    destruct (run_retry_done i key r _ rest (tick w1) Hacc Hk (stored_tick _ _ _ _ Hst))
      as (ls & w2 & Hrun2 & Ht2 & Hs2 & Hls); [cbn; lia|]. cbn [tick w_tick] in Ht2.
    destruct (after_same key cv' w w1 w2) as [Hfr2 Hrep2]; [done..|lia|]. rewrite Hsq in Hls.
    destruct (fate i a); cbn [answers orb]; [|rewrite Hrun2|done].
    + exists [Sent i (pr_sequence r)], w1, cv', [an].
      split_and!; try done; [lia|by repeat constructor|cbn; by rewrite Hsq].
    + eexists (Failed i _ :: ls), w2, cv', [an].
      split_and!; try done; [lia|by rewrite (proj2 Hs2)|by repeat constructor].
  - assert (exists error, fate i a = Unreached error) as [error Hfa]
      by (destruct (fate i a); [done..|eauto]).
    rewrite (run_retry_step _ _ _ _ (mkPublishResult "" 0) w (tick w)) by (by rewrite Hfa).
    destruct (IH cv (tick (tick w))) as (ls & w2 & cv' & frames & Hrun & Ht & Hlog & Hrep' & Hlast & Hfr & Hfs & Hls);
      [done|done|lia|eapply represents_later, Hrep; apply Hmono; cbn; lia|done| |].
    { intros u Hu. apply Hnone. eapply Z.le_trans; [apply Hmono|exact Hu]. cbn; lia. }
    cbn [existsb]. rewrite Hfa, Hrun. cbn [reaches answers orb].
    eexists (Failed i error :: ls), w2, cv', frames. cbn [tick w_tick w_db] in *.
    split_and!; try done. lia.
Qed.

Hypothesis Huuid : forall n m, uuid e n = uuid e m -> n = m.
Hypothesis Hnonempty : forall n, uuid e n <> "".

(** The keys to come are not in the cache. *)
Definition unused (w : world Gateway) : Prop :=
  forall n u, (w_tick w <= n)%nat -> at_ w <= u -> sees (w_db w) u (idem (uuid e n)) = None.

Lemma idem_inj (k k' : string) : idem k = idem k' -> k = k'.
Proof. unfold RedisKeys.idempotency. intros H. by repeat apply str_app_inv_l in H. Qed.

Lemma unused_frame n (w w' : world Gateway) :
  unused w -> w_tick w = n -> (n < w_tick w')%nat -> framed (uuid e n) w w' -> unused w'.
Proof.
  intros Hun <- Hlt Hfr m u Hm Hu. destruct (idempotency_not_channel (auth_tenant_id auth) (uuid e m) ch).
  rewrite Hfr; [|done..| |done].
  - apply Hun; [lia|]. eapply Z.le_trans; [apply Hmono|exact Hu]. lia.
  - intros Heq%idem_inj%Huuid. lia.
Qed.

Lemma filter_numbered_one i (last : Z) :
  List.filter (fun p => answered fate p.1) (if reached fate i then [(i, last)] else [])
  = if answered fate i then [(i, last)] else [].
Proof.
  assert (reached fate i = false -> answered fate i = false).
  { unfold reached, answered. cbn [existsb].
    by destruct (fate i 0%nat), (fate i 1%nat), (fate i 2%nat). }
  destruct (reached fate i); [done|]. by rewrite H.
Qed.

Lemma numbered_filter_cons i rest last :
  numbered last (List.filter (reached fate) (i :: rest))
  = (if reached fate i then [(i, last + 1)] else []) ++
    numbered (last + if reached fate i then 1 else 0) (List.filter (reached fate) rest).
Proof.
  cbn [List.filter]. destruct (reached fate i); [|by rewrite Z.add_0_r].
  apply (numbered_app last [i]).
Qed.

Lemma run_demo_loop rate msgs : forall cv (w : world Gateway),
  (forall i, i ∈ msgs -> accepted i) -> Qeq_bool rate 0 = false ->
  represents (w_db w) (at_ w) ch cv ->
  cv_last cv + Z.of_nat (length msgs) <= int64_max -> unused w ->
  exists ls w' frames,
    run e (demo_loop settings sql fate api_key ch rate msgs) w = (inr ls, w') /\
    plog (w_db w') = plog (w_db w) ++ frames /\
    Forall2 (announces ch) (numbered (cv_last cv) (List.filter (reached fate) msgs)) frames /\
    omap sent ls = List.filter (fun p => answered fate p.1)
                     (numbered (cv_last cv) (List.filter (reached fate) msgs)).
Proof.
  induction msgs as [|i rest IH]; intros cv w Hacc Hrate Hrep Hmax Hun.
  { exists [], w, []. by rewrite app_nil_r. }
  cbn [demo_loop length] in *. rewrite run_uuid_bind, run_bind.
  destruct (run_retry_fresh i (uuid e (w_tick w)) [0; 1; 2]%nat cv (tick w))
    as (ls & w1 & cv1 & fs1 & Hrun & Ht & Hlog & Hrep1 & Hlast & Hfr & Hfs & Hls);
    [apply Hacc; set_solver|done|cbn; lia
    |eapply represents_later, Hrep; apply Hmono; cbn; lia|lia| |].
  { intros u Hu. apply Hun; [lia|]. eapply Z.le_trans; [apply Hmono|exact Hu]. cbn; lia. }
  fold (reached fate i) in Hfs. fold (answered fate i) in Hls.
  rewrite Hrun, Hrate, run_bind. cbn [run sleep do_ev].
  assert (Z.of_nat (length fs1) = if reached fate i then 1 else 0) as Hn.
  { rewrite <- (Forall2_length _ _ _ Hfs). by destruct (reached fate i). }
  cbn [tick w_tick w_db] in *.
  destruct (IH cv1 (tick w1)) as (ls2 & w2 & fs2 & Hrun2 & Hlog2 & Hfs2 & Hls2);
    [intros j Hj; apply Hacc; by constructor|done|eapply represents_later, Hrep1; apply Hmono; cbn; lia
    |destruct (reached fate i); lia
    |apply (unused_frame (w_tick w) w); [done|done|cbn; lia|]|].
  { intros k u N1 N2 N3 Hu. apply Hfr; [done..|].
    eapply Z.le_trans; [apply Hmono|exact Hu]. cbn; lia. }
  rewrite run_bind. change (mkWorld _ _ _ _) with (tick w1). rewrite Hrun2.
  exists (ls ++ ls2), w2, (fs1 ++ fs2).
  rewrite numbered_filter_cons, <- Hn, <- Hlast. split_and!.
  - done.
  - rewrite Hlog2. cbn [tick w_db]. by rewrite Hlog, <- app_assoc.
  - by apply Forall2_app.
  - by rewrite omap_app, List.filter_app, filter_numbered_one, Hls, Hls2.
Qed.
End Facts.

(** ** Claims *)

(** C17.  Exactly once: whatever becomes of the HTTP attempts, a message of the
    demo publisher is announced once if one of its three attempts reaches the
    gateway and not at all if none does; the announcements are in the order of
    the messages with consecutive numbers, and the number the program prints
    for a message is the one it was announced with.  This assumes that Redis
    answers, that the requests pass the endpoint's checks, that the generated
    keys are new, and that the attempts at a message end within the lifetime of
    its key. *)
Theorem demo_exactly_once {Rd : Redis} {Rl : RedisLaws} {Jt : JsonText} {Py : Pydantic}
    {Pl : PydanticLaws} {Sh : Sha256} {Ad : AuthDb} (settings : Settings) (sql : tables)
    (fate : nat -> nat -> http_fate) (api_key ch : string) (auth : AuthContext) (e : env)
    (rate : option Q) (count : option Z) (cv : channel_view) (w : world Gateway) :
  let msgs := seq 0 (Z.to_nat (default 100 count)) in
  reliable e -> mono_clock e -> 0 < idempotency_ttl_seconds settings ->
  (forall n, clock e (50 + n) < clock e n + 1000 * idempotency_ttl_seconds settings) ->
  (forall r, json_dumps (cached_value r) <> "" /\
             json_loads (json_dumps (cached_value r)) = Some (cached_value r)) ->
  (forall n m, uuid e n = uuid e m -> n = m) -> (forall n, uuid e n <> "") ->
  unused auth e w ->
  (forall i, i ∈ msgs -> accepted_request settings sql ch (demo_payload i)
                           (Some ("Bearer " +:+ api_key)) auth) ->
  Qeq_bool (default (5 # 1) rate) 0 = false ->
  represents (w_db w) (clock e (w_tick w)) ch cv ->
  cv_last cv + Z.of_nat (length msgs) <= int64_max ->
  exists lines w' frames,
    run e (demo_main settings sql fate api_key ch rate count) w = (inr lines, w') /\
    plog (w_db w') = plog (w_db w) ++ frames /\
    Forall2 (announces ch) (numbered (cv_last cv) (List.filter (reached fate) msgs)) frames /\
    omap sent lines = List.filter (fun p => answered fate p.1)
                        (numbered (cv_last cv) (List.filter (reached fate) msgs)).
Proof.
  intros msgs Hrel Hmono Httl Hfast Hjson Huuid Hne Hun Hacc Hrate Hrep Hmax.
  unfold demo_main. by eapply run_demo_loop.
Qed.

(** Message 0: the reply is lost, the retry is answered; message 1 never
    arrives; message 2 is answered at once. *)
Definition sample_fate (i attempt : nat) : http_fate :=
  match i, attempt with
  | 0%nat, 0%nat => ReplyLost "ReadTimeout"
  | 1%nat, _ => Unreached "ConnectError"
  | _, _ => Answered
  end.

Lemma demo_exactly_once_witness :
  exists lines w' a b,
    run calm (demo_main (Jt := sample_json) (Py := sample_pydantic) (Sh := marked_hash)
        (Ad := list_authdb) default_settings sample_tables sample_fate "relay_a" sample_channel
        None (Some 3)) (ref_world 0 sample_db initial_gateway) = (inr lines, w') /\
    plog (w_db w') = [a; b] /\
    announces (Py := sample_pydantic) sample_channel (0%nat, 4) a /\
    announces (Py := sample_pydantic) sample_channel (2%nat, 5) b /\
    omap sent lines = [(0%nat, 4); (2%nat, 5)].
Proof.
  destruct (demo_exactly_once (Rd := Ref.ref_redis) (Pl := sample_laws) (Sh := marked_hash)
    (Ad := list_authdb) default_settings sample_tables sample_fate "relay_a" sample_channel
    (mkAuthContext "1" "k1") calm None (Some 3) (mkView 3 [])
    (ref_world 0 sample_db initial_gateway) calm_reliable calm_mono eq_refl)
    as (lines & w' & frames & Hrun & Hlog & Hfs & Hls).
  - intros n. cbn [clock calm]. change (idempotency_ttl_seconds default_settings) with 600. lia.
  - exact sample_cached_readable.
  - intros n m H. cbn in H. apply str_app_inv_l, py_str_inj in H. lia.
  - intros n. cbn. by rewrite str_app_cons.
  - intros n u _ _. reflexivity.
  - intros i _. split_and!; [reflexivity..|]. vm_compute. discriminate.
  - reflexivity.
  - split_and!; [by intros u _|reflexivity|by intros u _|]. exists []. by split; [|constructor].
  - vm_compute. discriminate.
  - change (Forall2 (announces (Py := sample_pydantic) sample_channel) [(0%nat, 4); (2%nat, 5)] frames) in Hfs.
    inversion Hfs as [|? a ? fs Ha Hfs']; subst. inversion Hfs' as [|? b ? fs' Hb Hnil]; subst.
    inversion Hnil; subst.
    exists lines, w', a, b. split; [exact Hrun|]. split; [exact Hlog|]. split; [done|]. split; [done|].
    exact Hls.
Defined.

(** Redis executes the [PUBLISH] of the first attempt but the reply is lost. *)
Definition reply_lost_env : env := {|
  clock := clock calm;
  net := fun n => if bool_decide (n = 10%nat) then NetErr 1 else NetOk 0;
  uuid := uuid calm;
  ws_ok := ws_ok calm
|}.

(** The key does not cover a failure of Redis inside a publication: the
    attempt is answered 503 before the result is cached, and the retry with the
    same key announces the message a second time, under another number. *)
Theorem retry_duplicates :
  let r := run reply_lost_env (demo_main (Jt := sample_json) (Py := sample_pydantic)
             (Sh := marked_hash) (Ad := list_authdb) default_settings sample_tables
             (fun _ _ => Answered) "relay_a" sample_channel None (Some 1))
             (ref_world 0 sample_db initial_gateway) in
  r.1 = inr [Refused 0 503; Sent 0 5] /\
  exists a b, plog (w_db r.2) = [a; b] /\
    announces (Py := sample_pydantic) sample_channel (0%nat, 4) a /\
    announces (Py := sample_pydantic) sample_channel (0%nat, 5) b.
Proof.
  split; [by vm_compute|]. eexists _, _. split; [vm_compute; reflexivity|].
  split; exists "", ""; by vm_compute.
Qed.
