(* ===== verification/RelayClient.v ===== *)
(** * The reference client ([client/src/RelayClient.ts])

    The client of the protocol: heartbeat replies, reconnection with backoff,
    RESUME from the last acknowledged numbers, duplicate suppression and gap
    detection.  The class is a record and every method a function on it; the
    callbacks of the browser (socket events, timers, the end of an awaited
    handler) are the constructors of [event], so a history of the client is a
    list of events.  JavaScript numbers are integers here: sequence numbers are
    below [2^53]. *)
From Stdlib Require Import ZArith Lia QArith.
From stdpp Require Import base gmap strings list sets.
From S2P Require Import Prelude Frames RedisApi.

Open Scope Z_scope.

(** ** [Map] and [Set] of JavaScript: entries in the order of insertion *)
Fixpoint map_get {A} (k : string) (m : list (string * A)) : option A :=
  match m with
  | [] => None
  | (k', v) :: r => if String.eqb k k' then Some v else map_get k r
  end.

Fixpoint map_set {A} (k : string) (v : A) (m : list (string * A)) : list (string * A) :=
  match m with
  | [] => [(k, v)]
  | (k', v') :: r => if String.eqb k k' then (k, v) :: r else (k', v') :: map_set k v r
  end.

Definition map_delete {A} (k : string) (m : list (string * A)) : list (string * A) :=
  List.filter (fun p => negb (String.eqb k p.1)) m.

Definition set_add `{EqDecision A} (x : A) (s : list A) : list A :=
  if decide (x ∈ s) then s else s ++ [x].

Definition set_delete `{EqDecision A} (x : A) (s : list A) : list A :=
  filter (fun y => y <> x) s.

Module Client.

Inductive DeliveryState := connecting | connected | reconnecting | closed.

Inductive ReadyState := CONNECTING | OPEN | CLOSING | CLOSED.

Record RelayClientOptions := mkOptions {
  token : string;
  baseDelayMs : Z;
  maxDelayMs : Z;
  dedupWindowSize : nat;
  autoAck : bool
}.

(** The defaults of the constructor. *)
Definition default_options (tok : string) : RelayClientOptions :=
  mkOptions tok 250 30000 5000 true.

Record Stats := mkStats {
  messagesReceived : Z;
  duplicatesSuppressed : Z;
  gapsDetected : Z;
  reconnects : Z;
  resumes : Z
}.

(** A call of a callback of the options. *)
Inductive note :=
| onStateChange (s : DeliveryState)
| onGap (channel : string) (expected received : Z)
| onDuplicate (channel messageId : string)
| onError (code message : string).

(** An [onMessage] that awaits a handler: its message, the handler set it
    iterates over, the index of the handler that runs. *)
Record Awaiting := mkAwaiting { a_msg : MessageFrame; a_set : nat; a_index : nat }.

(** The fields of the class.  A socket is an index into [sockets], the ready
    states of the sockets created so far; a handler set is an index into
    [sets], since an iteration keeps the set object it began with; a handler is
    a number.  [out] is what the sockets were given to send, [calls] the calls
    of handlers and [notes] of callbacks, [timers] the pending timeouts with
    their delays. *)
Record RelayClient := mkClient {
  opts : RelayClientOptions;
  ws : option nat;
  sockets : list ReadyState;
  sessionId : option string;
  connectionId : option string;
  nodeId : option string;
  subscriptions : list string;
  handlers : list (string * nat);
  sets : list (list nat);
  lastAck : list (string * Z);
  lastSeen : list (string * Z);
  seenIds : gset string;
  seenOrder : list string;
  attempt : Z;
  state : DeliveryState;
  closedByUser : bool;
  reconnectTimer : option nat;
  stats : Stats;
  awaiting : list Awaiting;
  timers : list (nat * Q);
  next_timer : nat;
  out : list (nat * frame);
  calls : list (nat * MessageFrame);
  notes : list note
}.

(** [new RelayClient(options)] *)
Definition new_client (o : RelayClientOptions) : RelayClient :=
  mkClient o None [] None None None [] [] [] [] [] ∅ [] 0 closed false None (mkStats 0 0 0 0 0)
    [] [] 0 [] [] [].

(** *** Updates of the fields *)
Definition with_socket (w : option nat) (l : list ReadyState) (c : RelayClient) : RelayClient :=
  mkClient (opts c) w l (sessionId c) (connectionId c) (nodeId c) (subscriptions c) (handlers c)
    (sets c) (lastAck c) (lastSeen c) (seenIds c) (seenOrder c) (attempt c) (state c)
    (closedByUser c) (reconnectTimer c) (stats c) (awaiting c) (timers c) (next_timer c)
    (out c) (calls c) (notes c).
Definition with_ids (s i n : option string) (c : RelayClient) : RelayClient :=
  mkClient (opts c) (ws c) (sockets c) s i n (subscriptions c) (handlers c)
    (sets c) (lastAck c) (lastSeen c) (seenIds c) (seenOrder c) (attempt c) (state c)
    (closedByUser c) (reconnectTimer c) (stats c) (awaiting c) (timers c) (next_timer c)
    (out c) (calls c) (notes c).
Definition with_handlers (s : list string) (h : list (string * nat)) (l : list (list nat))
    (c : RelayClient) : RelayClient :=
  mkClient (opts c) (ws c) (sockets c) (sessionId c) (connectionId c) (nodeId c) s h
    l (lastAck c) (lastSeen c) (seenIds c) (seenOrder c) (attempt c) (state c)
    (closedByUser c) (reconnectTimer c) (stats c) (awaiting c) (timers c) (next_timer c)
    (out c) (calls c) (notes c).
Definition with_positions (a s : list (string * Z)) (c : RelayClient) : RelayClient :=
  mkClient (opts c) (ws c) (sockets c) (sessionId c) (connectionId c) (nodeId c) (subscriptions c)
    (handlers c) (sets c) a s (seenIds c) (seenOrder c) (attempt c) (state c)
    (closedByUser c) (reconnectTimer c) (stats c) (awaiting c) (timers c) (next_timer c)
    (out c) (calls c) (notes c).
Definition with_seen (i : gset string) (o : list string) (c : RelayClient) : RelayClient :=
  mkClient (opts c) (ws c) (sockets c) (sessionId c) (connectionId c) (nodeId c) (subscriptions c)
    (handlers c) (sets c) (lastAck c) (lastSeen c) i o (attempt c) (state c)
    (closedByUser c) (reconnectTimer c) (stats c) (awaiting c) (timers c) (next_timer c)
    (out c) (calls c) (notes c).
Definition with_state (a : Z) (s : DeliveryState) (b : bool) (c : RelayClient) : RelayClient :=
  mkClient (opts c) (ws c) (sockets c) (sessionId c) (connectionId c) (nodeId c) (subscriptions c)
    (handlers c) (sets c) (lastAck c) (lastSeen c) (seenIds c) (seenOrder c) a s
    b (reconnectTimer c) (stats c) (awaiting c) (timers c) (next_timer c)
    (out c) (calls c) (notes c).
Definition with_timers (t : option nat) (l : list (nat * Q)) (n : nat) (c : RelayClient) :
    RelayClient :=
  mkClient (opts c) (ws c) (sockets c) (sessionId c) (connectionId c) (nodeId c) (subscriptions c)
    (handlers c) (sets c) (lastAck c) (lastSeen c) (seenIds c) (seenOrder c) (attempt c) (state c)
    (closedByUser c) t (stats c) (awaiting c) l n
    (out c) (calls c) (notes c).
Definition with_stats (s : Stats) (c : RelayClient) : RelayClient :=
  mkClient (opts c) (ws c) (sockets c) (sessionId c) (connectionId c) (nodeId c) (subscriptions c)
    (handlers c) (sets c) (lastAck c) (lastSeen c) (seenIds c) (seenOrder c) (attempt c) (state c)
    (closedByUser c) (reconnectTimer c) s (awaiting c) (timers c) (next_timer c)
    (out c) (calls c) (notes c).
Definition with_calls (a : list Awaiting) (l : list (nat * MessageFrame)) (c : RelayClient) :
    RelayClient :=
  mkClient (opts c) (ws c) (sockets c) (sessionId c) (connectionId c) (nodeId c) (subscriptions c)
    (handlers c) (sets c) (lastAck c) (lastSeen c) (seenIds c) (seenOrder c) (attempt c) (state c)
    (closedByUser c) (reconnectTimer c) (stats c) a (timers c) (next_timer c)
    (out c) l (notes c).
Definition emit (f : list (nat * frame)) (n : list note) (c : RelayClient) : RelayClient :=
  mkClient (opts c) (ws c) (sockets c) (sessionId c) (connectionId c) (nodeId c) (subscriptions c)
    (handlers c) (sets c) (lastAck c) (lastSeen c) (seenIds c) (seenOrder c) (attempt c) (state c)
    (closedByUser c) (reconnectTimer c) (stats c) (awaiting c) (timers c) (next_timer c)
    (out c ++ f) (calls c) (notes c ++ n).

(** *** The methods *)

(** [send]: only on an open socket. *)
Definition send (f : frame) (c : RelayClient) : RelayClient :=
  match ws c with
  | Some s =>
      match sockets c !! s with
      | Some OPEN => emit [(s, f)] [] c
      | _ => c
      end
  | None => c
  end.

Definition setState (s : DeliveryState) (c : RelayClient) : RelayClient :=
  emit [] [onStateChange s] (with_state (attempt c) s (closedByUser c) c).

Definition connect (c : RelayClient) : RelayClient :=
  let c := with_state (attempt c) (state c) false c in
  let c := setState (if truthy (default "" (sessionId c)) then reconnecting else connecting) c in
  with_socket (Some (length (sockets c))) (sockets c ++ [CONNECTING]) c.

(** [ws.onopen] *)
Definition on_open (s : nat) (c : RelayClient) : RelayClient :=
  emit [(s, ConnectFrame (token (opts c)) (sessionId c))] []
    (with_socket (ws c) (<[s := OPEN]> (sockets c)) c).

Definition scheduleReconnect (random : Q) (c : RelayClient) : RelayClient :=
  let c := setState reconnecting c in
  let exp := Z.min (baseDelayMs (opts c) * 2 ^ attempt c) (maxDelayMs (opts c)) in
  let delay := (random * inject_Z exp)%Q in
  let c := with_state (attempt c + 1) (state c) (closedByUser c) c in
  let st := stats c in
  let c := with_stats (mkStats (messagesReceived st) (duplicatesSuppressed st) (gapsDetected st)
                         (reconnects st + 1) (resumes st)) c in
  with_timers (Some (next_timer c)) (timers c ++ [(next_timer c, delay)]) (S (next_timer c)) c.

(** [ws.onclose] *)
Definition on_close (s : nat) (random : Q) (c : RelayClient) : RelayClient :=
  let c := with_socket None (<[s := CLOSED]> (sockets c)) c in
  if closedByUser c then setState closed c else scheduleReconnect random c.

(** [if (this.reconnectTimer) clearTimeout(this.reconnectTimer)] *)
Definition clear_timer (c : RelayClient) : RelayClient :=
  match reconnectTimer c with
  | Some t => with_timers (Some t) (List.filter (fun p => negb (p.1 =? t)%nat) (timers c))
                (next_timer c) c
  | None => c
  end.

(** [this.ws?.close()] *)
Definition close_socket (c : RelayClient) : RelayClient :=
  match ws c with
  | Some s =>
      match sockets c !! s with
      | Some CLOSED => c
      | _ => with_socket (ws c) (<[s := CLOSING]> (sockets c)) c
      end
  | None => c
  end.

Definition disconnect (c : RelayClient) : RelayClient :=
  let c := clear_timer (with_state (attempt c) (state c) true c) in
  setState closed (close_socket (send (DisconnectFrame "client_request") c)).

(** [ack]: cumulative, so only a larger number counts. *)
Definition ack (channel : string) (sequence : Z) (c : RelayClient) : RelayClient :=
  let current := default 0 (map_get channel (lastAck c)) in
  if sequence <=? current then c
  else send (AckFrame channel sequence)
         (with_positions (map_set channel sequence (lastAck c)) (lastSeen c) c).

(** The loop of [rememberId]: the oldest ids leave while there are too many. *)
Fixpoint evict (n : nat) (ids : gset string) (order : list string) : gset string * list string :=
  match order with
  | [] => (ids, order)
  | x :: r => if (n <? length order)%nat then evict n (ids ∖ {[x]}) r else (ids, order)
  end.

Definition rememberId (id : string) (c : RelayClient) : RelayClient :=
  let '(ids, order) :=
    evict (dedupWindowSize (opts c)) ({[id]} ∪ seenIds c) (seenOrder c ++ [id]) in
  with_seen ids order c.

Definition auto_ack (m : MessageFrame) (c : RelayClient) : RelayClient :=
  if autoAck (opts c) then ack (mf_channel m) (mf_sequence m) c else c.

(** The loop over the handlers from index [i] on, up to the next [await], or
    the acknowledgement after it. *)
Definition run_handlers (m : MessageFrame) (set i : nat) (c : RelayClient) : RelayClient :=
  match sets c !! set ≫= (.!! i) with
  | Some h => with_calls (awaiting c ++ [mkAwaiting m set i]) (calls c ++ [(h, m)]) c
  | None => auto_ack m c
  end.

Definition detect_gap (m : MessageFrame) (c : RelayClient) : RelayClient :=
  match map_get (mf_channel m) (lastSeen c) with
  | Some previous =>
      if previous + 1 <? mf_sequence m then
        let st := stats c in
        emit [] [onGap (mf_channel m) (previous + 1) (mf_sequence m)]
          (with_stats (mkStats (messagesReceived st) (duplicatesSuppressed st)
                         (gapsDetected st + 1) (reconnects st) (resumes st)) c)
      else c
  | None => c
  end.

Definition note_seen (m : MessageFrame) (c : RelayClient) : RelayClient :=
  let raise := with_positions (lastAck c) (map_set (mf_channel m) (mf_sequence m) (lastSeen c)) c in
  match map_get (mf_channel m) (lastSeen c) with
  | Some previous => if previous <? mf_sequence m then raise else c
  | None => raise
  end.

(** [onMessage] up to its first suspension. *)
Definition onMessage (m : MessageFrame) (c : RelayClient) : RelayClient :=
  let st := stats c in
  if decide (mf_message_id m ∈ seenIds c) then
    auto_ack m
      (emit [] [onDuplicate (mf_channel m) (mf_message_id m)]
        (with_stats (mkStats (messagesReceived st + 1) (duplicatesSuppressed st + 1)
                       (gapsDetected st) (reconnects st) (resumes st)) c))
  else
    let c := with_stats (mkStats (messagesReceived st + 1) (duplicatesSuppressed st)
                           (gapsDetected st) (reconnects st) (resumes st)) c in
    let c := note_seen m (detect_gap m (rememberId (mf_message_id m) c)) in
    match map_get (mf_channel m) (handlers c) with
    | Some set => run_handlers m set 0 c
    | None => auto_ack m c
    end.

(** The awaited handler of [k] returns, or throws and ends its [onMessage]. *)
Definition handler_done (k : nat) (ok : bool) (c : RelayClient) : RelayClient :=
  match awaiting c !! k with
  | Some a =>
      let c := with_calls (delete k (awaiting c)) (calls c) c in
      if ok then run_handlers (a_msg a) (a_set a) (S (a_index a)) c else c
  | None => c
  end.

Definition restore (l : list string) (c : RelayClient) : RelayClient :=
  foldl (fun c channel => send (SubscribeFrame channel) c) c l.

Definition onConnected (connection_id session_id node_id : string) (c : RelayClient) : RelayClient :=
  let resuming := bool_decide (sessionId c = Some session_id) in
  let c := with_ids (Some session_id) (Some connection_id) (Some node_id) c in
  let c := with_state 0 (state c) (closedByUser c) c in
  let c := setState connected c in
  let c := if resuming && negb (bool_decide (lastAck c = []))
           then send (ResumeFrame session_id (lastAck c)) c else c in
  restore (subscriptions c) c.

Definition handleFrame (f : frame) (c : RelayClient) : RelayClient :=
  match f with
  | ConnectedFrame cid sid nid _ => onConnected cid sid nid c
  | PingFrame _ => send PongFrame c
  | MessageF m => onMessage m c
  | ResumedFrame _ _ _ =>
      let st := stats c in
      with_stats (mkStats (messagesReceived st) (duplicatesSuppressed st) (gapsDetected st)
                    (reconnects st) (resumes st + 1)) c
  | ErrorFrame code message =>
      let c := if String.eqb code ErrorCode.RESUME_GAP ||
                  String.eqb code ErrorCode.RESUME_WINDOW_EXPIRED
               then with_positions [] [] c else c in
      emit [] [onError code message] c
  | _ => c
  end.

(** [handlers.get(channel).add(handler)], with a new set where there is none. *)
Definition add_handler (channel : string) (h : nat) (c : RelayClient) : RelayClient :=
  match map_get channel (handlers c) with
  | Some set => with_handlers (subscriptions c) (handlers c) (alter (set_add h) set (sets c)) c
  | None => with_handlers (subscriptions c) (map_set channel (length (sets c)) (handlers c))
              (sets c ++ [[h]]) c
  end.

Definition subscribe (channel : string) (handler : option nat) (c : RelayClient) : RelayClient :=
  let c := with_handlers (set_add channel (subscriptions c)) (handlers c) (sets c) c in
  let c := match handler with Some h => add_handler channel h c | None => c end in
  send (SubscribeFrame channel) c.

Definition unsubscribe (channel : string) (c : RelayClient) : RelayClient :=
  let c := with_handlers (set_delete channel (subscriptions c)) (map_delete channel (handlers c))
             (sets c) c in
  let c := with_positions (map_delete channel (lastAck c)) (map_delete channel (lastSeen c)) c in
  send (UnsubscribeFrame channel) c.

Definition onMessageFor (channel : string) (h : nat) (c : RelayClient) : RelayClient :=
  add_handler channel h c.

(** ** Histories *)
Inductive event :=
| Connect
| Disconnect
| Subscribe (channel : string) (handler : option nat)
| Unsubscribe (channel : string)
| OnMessageFor (channel : string) (handler : nat)
| Ack (channel : string) (sequence : Z)
| Opened (s : nat)
| Received (s : nat) (f : frame)
| Closed (s : nat) (random : Q)
| Fired (t : nat)
| HandlerDone (k : nat) (ok : bool).

(** An event of the browser happens when it can: a socket opens once, receives
    while it is open, closes once; a timer fires while it is pending. *)
Definition step (c : RelayClient) (x : event) : RelayClient :=
  match x with
  | Connect => connect c
  | Disconnect => disconnect c
  | Subscribe ch h => subscribe ch h c
  | Unsubscribe ch => unsubscribe ch c
  | OnMessageFor ch h => onMessageFor ch h c
  | Ack ch n => ack ch n c
  | Opened s => match sockets c !! s with Some CONNECTING => on_open s c | _ => c end
  | Received s f => match sockets c !! s with Some OPEN => handleFrame f c | _ => c end
  | Closed s random =>
      match sockets c !! s with
      | Some CLOSED | None => c
      | _ => on_close s random c
      end
  | Fired t =>
      if existsb (fun p => (p.1 =? t)%nat) (timers c)
      then connect (with_timers (reconnectTimer c)
                      (List.filter (fun p => negb (p.1 =? t)%nat) (timers c)) (next_timer c) c)
      else c
  | HandlerDone k ok => handler_done k ok c
  end.

Definition history (c : RelayClient) (l : list event) : RelayClient := foldl step c l.


(** ** The window of remembered ids *)

(** The ids of the messages that are not suppressed. *)
Definition fresh_id (c : RelayClient) (x : event) : list string :=
  match x with
  | Received s (MessageF m) =>
      match sockets c !! s with
      | Some OPEN => if decide (mf_message_id m ∈ seenIds c) then [] else [mf_message_id m]
      | _ => []
      end
  | _ => []
  end.

Fixpoint accepted (c : RelayClient) (l : list event) : list string :=
  match l with
  | [] => []
  | x :: r => fresh_id c x ++ accepted (step c x) r
  end.

Definition seen_part (c : RelayClient) := (opts c, seenIds c, seenOrder c).

Lemma seen_send f c : seen_part (send f c) = seen_part c.
Proof. unfold send. destruct (ws c) as [s|]; [|done]. by destruct (sockets c !! s) as [[]|]. Qed.
Lemma seen_emit f n c : seen_part (emit f n c) = seen_part c.
Proof. done. Qed.
Lemma seen_setState s c : seen_part (setState s c) = seen_part c.
Proof. done. Qed.
Lemma seen_ack ch n c : seen_part (ack ch n c) = seen_part c.
Proof. unfold ack. destruct (_ <=? _); [done|]. by rewrite seen_send. Qed.
Lemma seen_auto_ack m c : seen_part (auto_ack m c) = seen_part c.
Proof. unfold auto_ack. destruct (autoAck _); [apply seen_ack|done]. Qed.
Lemma seen_run_handlers m set i c : seen_part (run_handlers m set i c) = seen_part c.
Proof. unfold run_handlers. destruct (_ ≫= _); [done|apply seen_auto_ack]. Qed.
Lemma seen_detect_gap m c : seen_part (detect_gap m c) = seen_part c.
Proof. unfold detect_gap. destruct (map_get _ _); [|done]. by destruct (_ <? _). Qed.
Lemma seen_note_seen m c : seen_part (note_seen m c) = seen_part c.
Proof. unfold note_seen. destruct (map_get _ _); [|done]. by destruct (_ <? _). Qed.
Lemma seen_add_handler ch h c : seen_part (add_handler ch h c) = seen_part c.
Proof. unfold add_handler. by destruct (map_get _ _). Qed.
Lemma seen_restore l : forall c, seen_part (restore l c) = seen_part c.
Proof.
  induction l as [|ch l IH]; intros c; [done|].
  change (restore (ch :: l) c) with (restore l (send (SubscribeFrame ch) c)).
  by rewrite IH, seen_send.
Qed.

Lemma seen_clear_timer c : seen_part (clear_timer c) = seen_part c.
Proof. unfold clear_timer. by destruct (reconnectTimer c). Qed.
Lemma seen_close_socket c : seen_part (close_socket c) = seen_part c.
Proof.
  unfold close_socket. destruct (ws c) as [s|]; [|done]. by destruct (sockets c !! s) as [[]|].
Qed.

Create HintDb client discriminated.
#[local] Hint Rewrite seen_send seen_emit seen_setState seen_ack seen_auto_ack seen_run_handlers
  seen_detect_gap seen_note_seen seen_add_handler seen_restore
  seen_clear_timer seen_close_socket : client.

Lemma seen_onMessage m c :
  seen_part (onMessage m c) =
  if decide (mf_message_id m ∈ seenIds c) then seen_part c
  else seen_part (rememberId (mf_message_id m) c).
Proof.
  unfold onMessage. case_decide; [by autorewrite with client|].
  destruct (map_get _ _); autorewrite with client; unfold rememberId; cbn [opts seenIds seenOrder with_stats];
    by destruct (evict _ _ _).
Qed.

(** Only a message that is accepted changes the window. *)
Lemma seen_step c x :
  seen_part (step c x) =
  match fresh_id c x with [id] => seen_part (rememberId id c) | _ => seen_part c end.
Proof.
  destruct x as [| |ch h|ch|ch h|ch n|s|s f|s q|t|k ok]; cbn [step fresh_id].
  - done.
  - unfold disconnect. by autorewrite with client.
  - unfold subscribe. destruct h; by autorewrite with client.
  - unfold unsubscribe. by autorewrite with client.
  - unfold onMessageFor. by autorewrite with client.
  - by autorewrite with client.
  - by destruct (sockets c !! s) as [[]|].
  - destruct (sockets c !! s) as [[]|]; [by destruct f| |by destruct f..].
    destruct f; cbn [handleFrame]; try done.
    + unfold onConnected. autorewrite with client. destruct (_ && _); by autorewrite with client.
    + by autorewrite with client.
    + rewrite seen_onMessage. by case_decide.
    + autorewrite with client. by destruct (_ || _).
  - destruct (sockets c !! s) as [[]|]; try done; unfold on_close;
      by destruct (closedByUser _).
  - by destruct (existsb _ _).
  - unfold handler_done. destruct (awaiting c !! k); [|done].
    destruct ok; by autorewrite with client.
Qed.

(** [evict] leaves the newest [n] ids, and the set is that of the list. *)
Lemma evict_window n order : forall ids,
  NoDup order -> ids = list_to_set order ->
  evict n ids order = (list_to_set (keep_last n order), keep_last n order).
Proof.
  induction order as [|x r IH]; intros ids Hnd ->; [done|].
  apply NoDup_cons in Hnd as [Hx Hnd]. cbn [evict].
  destruct (Nat.ltb_spec n (length (x :: r))) as [Hn|Hn].
  - rewrite IH; [|done|cbn; set_solver].
    assert (keep_last n (x :: r) = keep_last n r) as ->; [|done].
    unfold keep_last. cbn [length] in *.
    by replace (S (length r) - n)%nat with (S (length r - n)) by lia.
  - unfold keep_last. by replace (length (x :: r) - n)%nat with 0%nat by lia.
Qed.

Lemma keep_last_snoc {A} n (l : list A) (x : A) :
  keep_last n (keep_last n l ++ [x]) = keep_last n (l ++ [x]).
Proof.
  unfold keep_last. rewrite !length_app, length_drop. cbn [length].
  destruct (decide (length l <= n)%nat).
  { replace (length l - n)%nat with 0%nat by lia. rewrite drop_0. f_equal. lia. }
  rewrite <- (drop_app_le l [x]) by lia. rewrite drop_drop. f_equal. lia.
Qed.

Lemma NoDup_keep_last {A} n (l : list A) : NoDup l -> NoDup (keep_last n l).
Proof.
  unfold keep_last. intros H. rewrite <- (take_drop (length l - n) l) in H.
  by apply NoDup_app in H as (_ & _ & H).
Qed.

(** The set and the queue of ids hold the last [dedupWindowSize] accepted. *)
Definition window (c : RelayClient) (acc : list string) : Prop :=
  seenOrder c = keep_last (dedupWindowSize (opts c)) acc /\
  seenIds c = list_to_set (seenOrder c) /\ NoDup (seenOrder c).

Lemma window_step c acc x : window c acc -> window (step c x) (acc ++ fresh_id c x).
Proof.
  intros (Ho & Hi & Hn). unfold window. pose proof (seen_step c x) as Hs.
  assert (fresh_id c x = [] \/ exists id, fresh_id c x = [id] /\ id ∉ seenIds c) as [E|(id & E & Hid)].
  { unfold fresh_id. destruct x; try (by left). destruct f; try (by left).
    destruct (sockets c !! s) as [[]|]; try (by left). case_decide; [by left|right; eauto]. }
  - rewrite E in *. injection Hs as Hop Hids Hord. rewrite app_nil_r. by rewrite Hop, Hids, Hord.
  - rewrite E in *. unfold rememberId in Hs.
    assert (NoDup (seenOrder c ++ [id])).
    { apply NoDup_app. split_and!; [done| |apply NoDup_singleton].
      intros y Hy ->%list_elem_of_singleton. set_solver. }
    rewrite evict_window in Hs.
    + injection Hs as Hop Hids Hord. rewrite Hop, Hids, Hord. split_and!; [|done|].
      * by rewrite Ho, keep_last_snoc.
      * by apply NoDup_keep_last.
    + done.
    + rewrite list_to_set_app_L, Hi. set_solver.
Qed.

(** An id comes again only after [n] others. *)
Definition spaced (n : nat) (acc : list string) : Prop :=
  forall i j id, (i < j)%nat -> acc !! i = Some id -> acc !! j = Some id -> (n < j - i)%nat.

Lemma spaced_snoc n acc id : spaced n acc -> id ∉ keep_last n acc -> spaced n (acc ++ [id]).
Proof.
  intros Hs Hid i j id' Hij Hi Hj. pose proof (lookup_lt_Some _ _ _ Hj) as Hl.
  rewrite length_app in Hl. cbn in Hl. rewrite lookup_app_l in Hi by lia.
  destruct (decide (j < length acc)%nat) as [Hlt|Hge].
  { rewrite lookup_app_l in Hj by done. eauto. }
  rewrite lookup_app_r in Hj by lia. assert (j = length acc) as -> by lia.
  rewrite Nat.sub_diag in Hj. injection Hj as <-.
  destruct (decide (n < length acc - i)%nat) as [|Hn]; [done|]. exfalso. apply Hid.
  apply list_elem_of_lookup. exists (i - (length acc - n))%nat. unfold keep_last.
  rewrite lookup_drop. replace (length acc - n + (i - (length acc - n)))%nat with i by lia. done.
Qed.

Lemma opts_step c x : opts (step c x) = opts c.
Proof.
  pose proof (seen_step c x) as Hs. destruct (fresh_id c x) as [|id []]; [by injection Hs| |by injection Hs].
  unfold rememberId in Hs. destruct (evict _ _ _). by injection Hs.
Qed.

Lemma history_window l : forall c acc,
  window c acc -> spaced (dedupWindowSize (opts c)) acc ->
  window (history c l) (acc ++ accepted c l) /\
  spaced (dedupWindowSize (opts c)) (acc ++ accepted c l).
Proof.
  induction l as [|x l IH]; intros c acc Hw Hs; cbn [accepted].
  { by rewrite app_nil_r. }
  change (history c (x :: l)) with (history (step c x) l). rewrite app_assoc, <- (opts_step c x).
  apply IH; [by apply window_step|]. rewrite opts_step.
  destruct Hw as (Ho & Hi & _). unfold fresh_id. destruct x; try (by rewrite app_nil_r).
  destruct f; try (by rewrite app_nil_r). destruct (sockets c !! s) as [[]|]; try (by rewrite app_nil_r).
  case_decide as Hin; [by rewrite app_nil_r|]. apply spaced_snoc; [done|].
  rewrite <- Ho. by rewrite Hi, elem_of_list_to_set in Hin.
Qed.

(** ** A stretch of messages on one channel *)

Lemma map_get_set {A} k (v : A) m : map_get k (map_set k v m) = Some v.
Proof.
  induction m as [|[k' v'] m IH]; cbn; [by rewrite String.eqb_refl|].
  destruct (String.eqb k k') eqn:E; cbn; [by rewrite String.eqb_refl|by rewrite E].
Qed.

Lemma evict_room n ids order : (length order <= n)%nat -> evict n ids order = (ids, order).
Proof. intros H. destruct order; [done|]. cbn [evict]. by rewrite (proj2 (Nat.ltb_ge _ _)). Qed.

(** A connected client that acknowledges by itself and has the one handler [h]
    for the channel; it acknowledged [a], saw [q] and remembers [n] more ids
    without forgetting one. *)
Record ready (s : nat) (ch : string) (h : nat) (a q : Z) (n : nat) (c : RelayClient) : Prop := {
  r_ws : ws c = Some s;
  r_open : sockets c !! s = Some OPEN;
  r_idle : awaiting c = [];
  r_auto : autoAck (opts c) = true;
  r_handler : exists set, map_get ch (handlers c) = Some set /\ sets c !! set = Some [h];
  r_acked : default 0 (map_get ch (lastAck c)) = a;
  r_seen : map_get ch (lastSeen c) = Some q;
  r_room : (length (seenOrder c) + n <= dedupWindowSize (opts c))%nat
}.

(** The message arrives and its handler returns. *)
Definition processed (s : nat) (m : MessageFrame) : list event :=
  [Received s (MessageF m); HandlerDone 0 true].

Definition gaps_of (c : RelayClient) : Z := gapsDetected (stats c).

Lemma auto_ack_next s ch h a q n c m :
  ready s ch h a q n c -> mf_channel m = ch -> mf_sequence m = a + 1 ->
  auto_ack m c = emit [(s, AckFrame ch (a + 1))] []
                   (with_positions (map_set ch (a + 1) (lastAck c)) (lastSeen c) c).
Proof.
  intros [Hws Hop _ Hau _ Ha _ _] Hch Hsq. unfold auto_ack, ack. rewrite Hau, Hch, Hsq, Ha.
  rewrite (proj2 (Z.leb_gt _ _)) by lia. unfold send. cbn [ws sockets with_positions].
  by rewrite Hws, Hop.
Qed.

(** A message that was seen before is suppressed and acknowledged. *)
Lemma received_old s ch h a q n c m :
  ready s ch h a q (S n) c -> mf_channel m = ch -> mf_sequence m = a + 1 ->
  mf_message_id m ∈ seenIds c ->
  let c' := step c (Received s (MessageF m)) in
  ready s ch h (a + 1) q n c' /\ calls c' = calls c /\ seenIds c' = seenIds c /\
  out c' = out c ++ [(s, AckFrame ch (a + 1))] /\ gaps_of c' = gaps_of c.
Proof.
  intros Hr Hch Hsq Hin. cbn zeta. cbn [step].
  rewrite (r_open _ _ _ _ _ _ _ Hr). cbn [handleFrame]. unfold onMessage. rewrite decide_True by done.
  set (c0 := emit _ _ _).
  assert (ready s ch h a q n c0) as Hr0 by (destruct Hr; split; cbn; (done || lia)).
  rewrite (auto_ack_next _ _ _ _ _ _ _ _ Hr0 Hch Hsq).
  destruct Hr0. split_and!; try done; [|cbn; by rewrite app_nil_r].
  split; cbn; try done. by rewrite map_get_set.
Qed.

Lemma process_old s ch h a q n c m :
  ready s ch h a q (S n) c -> mf_channel m = ch -> mf_sequence m = a + 1 ->
  mf_message_id m ∈ seenIds c ->
  let c' := history c (processed s m) in
  ready s ch h (a + 1) q n c' /\ calls c' = calls c /\ seenIds c' = seenIds c /\
  out c' = out c ++ [(s, AckFrame ch (a + 1))] /\ gaps_of c' = gaps_of c.
Proof.
  intros Hr Hch Hsq Hin. pose proof (received_old _ _ _ _ _ _ _ _ Hr Hch Hsq Hin) as Hold.
  unfold history, processed. cbn [foldl]. cbn zeta in Hold |- *.
  set (c' := step c _) in *. cbn [step].
  assert (handler_done 0 true c' = c') as ->; [|done].
  unfold handler_done. by rewrite (r_idle _ _ _ _ _ _ _ (proj1 Hold)).
Qed.

(** The client between the end of the handler and the acknowledgement. *)
Definition handled (ch : string) (h : nat) (m : MessageFrame) (c : RelayClient) : RelayClient :=
  let st := stats c in
  with_calls [] (calls c ++ [(h, m)])
    (with_positions (lastAck c) (map_set ch (mf_sequence m) (lastSeen c))
       (with_seen ({[mf_message_id m]} ∪ seenIds c) (seenOrder c ++ [mf_message_id m])
          (with_stats (mkStats (messagesReceived st + 1) (duplicatesSuppressed st)
                         (gapsDetected st) (reconnects st) (resumes st)) c))).

Lemma received_new s ch h a n c m :
  ready s ch h a a (S n) c -> mf_channel m = ch -> mf_sequence m = a + 1 ->
  mf_message_id m ∉ seenIds c ->
  exists set, sets c !! set = Some [h] /\
    step c (Received s (MessageF m))
    = with_calls [mkAwaiting m set 0] (calls c ++ [(h, m)]) (handled ch h m c).
Proof.
  intros Hr Hch Hsq Hin. cbn [step].
  rewrite (r_open _ _ _ _ _ _ _ Hr). cbn [handleFrame]. unfold onMessage. rewrite decide_False by done.
  destruct Hr as [Hws Hop Hid Hau (set & Hh & Hset) Ha Hse Hro]. exists set. split; [done|].
  unfold rememberId. cbn [seenIds seenOrder opts with_stats].
  rewrite evict_room by (rewrite length_app; cbn; lia).
  unfold detect_gap. cbn [lastSeen with_seen with_stats]. rewrite Hch, Hse, Hsq, Z.ltb_irrefl.
  unfold note_seen. cbn [lastSeen with_seen with_stats]. rewrite Hch, Hse, Hsq.
  rewrite (proj2 (Z.ltb_lt _ _)) by lia. cbn [handlers with_positions with_seen with_stats]. rewrite Hh.
  unfold run_handlers. cbn [sets with_positions with_seen with_stats]. rewrite Hset.
  cbn [mbind option_bind lookup list_lookup awaiting with_positions with_seen with_stats].
  unfold handled. by rewrite Hid, Hsq.
Qed.

Lemma processed_new s ch h a n c m :
  ready s ch h a a (S n) c -> mf_channel m = ch -> mf_sequence m = a + 1 ->
  mf_message_id m ∉ seenIds c ->
  history c (processed s m) = auto_ack m (handled ch h m c).
Proof.
  intros Hr Hch Hsq Hin. unfold history, processed. cbn [foldl].
  destruct (received_new _ _ _ _ _ _ _ Hr Hch Hsq Hin) as (set & Hset & ->).
  cbn [step]. unfold handler_done.
  cbn [awaiting with_calls lookup list_lookup delete list_delete a_msg a_set a_index].
  unfold run_handlers. cbn [sets with_calls handled with_positions with_seen with_stats].
  rewrite Hset. by cbn [mbind option_bind lookup list_lookup].
Qed.

Lemma ready_handled s ch h a n c m :
  ready s ch h a a (S n) c -> mf_sequence m = a + 1 -> ready s ch h a (a + 1) n (handled ch h m c).
Proof.
  intros Hr Hsq. destruct Hr. split; cbn; try done; [by rewrite map_get_set, Hsq|].
  rewrite length_app. cbn. lia.
Qed.

(** A new message is handled, then acknowledged. *)
Lemma process_new s ch h a n c m :
  ready s ch h a a (S n) c -> mf_channel m = ch -> mf_sequence m = a + 1 ->
  mf_message_id m ∉ seenIds c ->
  let c' := history c (processed s m) in
  ready s ch h (a + 1) (a + 1) n c' /\ calls c' = calls c ++ [(h, m)] /\
  seenIds c' = {[mf_message_id m]} ∪ seenIds c /\
  out c' = out c ++ [(s, AckFrame ch (a + 1))] /\ gaps_of c' = gaps_of c.
Proof.
  intros Hr Hch Hsq Hin. cbn zeta. rewrite (processed_new _ _ _ _ _ _ _ Hr Hch Hsq Hin).
  pose proof (ready_handled _ _ _ _ _ _ _ Hr Hsq) as Hr2.
  rewrite (auto_ack_next _ _ _ _ _ _ _ _ Hr2 Hch Hsq).
  destruct Hr2. split_and!; try done. split; cbn; try done. by rewrite map_get_set.
Qed.

(** Messages with consecutive numbers after the acknowledged one, of which the
    client remembers exactly those up to [q]. *)
Lemma process_all s ch h ms : forall a q c,
  ready s ch h a q (length ms) c -> a <= q ->
  Forall (fun m => mf_channel m = ch) ms ->
  map mf_sequence ms = seqZ (a + 1) (Z.of_nat (length ms)) ->
  NoDup (map mf_message_id ms) ->
  Forall (fun m => mf_message_id m ∈ seenIds c <-> mf_sequence m <= q) ms ->
  let c' := history c (ms ≫= processed s) in
  calls c' = calls c ++ map (pair h) (List.filter (fun m => q <? mf_sequence m) ms) /\
  default 0 (map_get ch (lastAck c')) = a + Z.of_nat (length ms) /\
  out c' = out c ++ map (fun n => (s, AckFrame ch n)) (map mf_sequence ms) /\
  gaps_of c' = gaps_of c.
Proof.
  induction ms as [|m ms IH]; intros a q c Hr Haq Hch Hsq Hnd Hids; cbn zeta.
  { cbn. rewrite !app_nil_r. destruct Hr. split_and!; (done || lia). }
  apply Forall_cons in Hch as [Hchm Hch]. apply Forall_cons in Hids as [Hidm Hids].
  cbn [map length] in Hsq, Hr. rewrite seqZ_cons in Hsq by lia. injection Hsq as Hm Hsq.
  apply NoDup_cons in Hnd as [Hnm Hnd].
  replace (Z.succ (a + 1)) with (a + 1 + 1) in Hsq by lia.
  replace (Z.pred (Z.of_nat (S (length ms)))) with (Z.of_nat (length ms)) in Hsq by lia.
  cbn [mbind list_bind]. unfold history. rewrite foldl_app.
  fold (history c (processed s m)). set (c1 := history c (processed s m)).
  fold (history c1 (mbind (processed s) ms)). cbn [length map List.filter].
  replace (a + Z.of_nat (S (length ms))) with (a + 1 + Z.of_nat (length ms)) by lia.
  destruct (Z.ltb_spec q (mf_sequence m)) as [Hlt|Hge]; rewrite Hm in *.
  - assert (q = a) as -> by lia.
    assert (forall x, x ∈ ms -> a + 1 < mf_sequence x) as Hafter.
    { intros x Hx. assert (mf_sequence x ∈ map mf_sequence ms) as Hin by (by apply list_elem_of_fmap_2).
      rewrite Hsq, elem_of_seqZ in Hin. lia. }
    destruct (process_new s ch h a (length ms) c m Hr Hchm Hm) as (Hr1 & Hc1 & Hi1 & Ho1 & Hg1);
      [rewrite Hidm; lia|]. fold c1 in Hr1, Hc1, Hi1, Ho1, Hg1.
    destruct (IH (a + 1) (a + 1) c1 Hr1 ltac:(lia) Hch Hsq Hnd) as (Hc & Ha & Ho & Hg).
    { rewrite Hi1. rewrite Forall_forall in *. intros x Hx. specialize (Hafter x Hx).
      split; [|lia]. intros [Heq%elem_of_singleton|Hin]%elem_of_union.
      - exfalso. apply Hnm. rewrite <- Heq. by apply list_elem_of_fmap_2.
      - apply Hids in Hin; [lia|done]. }
    rewrite Hc, Ho, Hg, Hc1, Ho1, <- !app_assoc. split_and!; try done.
    rewrite (List.filter_ext_in _ (fun x => a <? mf_sequence x)); [done|].
    intros x Hx%list_elem_of_In. specialize (Hafter x Hx).
    by rewrite !(proj2 (Z.ltb_lt _ _)) by lia.
  - destruct (process_old s ch h a q (length ms) c m Hr Hchm Hm) as (Hr1 & Hc1 & Hi1 & Ho1 & Hg1);
      [by apply Hidm|]. fold c1 in Hr1, Hc1, Hi1, Ho1, Hg1.
    destruct (IH (a + 1) q c1 Hr1 ltac:(lia) Hch Hsq Hnd) as (Hc & Ha & Ho & Hg); [by rewrite Hi1|].
    by rewrite Hc, Ho, Hg, Hc1, Ho1, <- !app_assoc.
Qed.
(** ** Reconnection *)

(** The fields that reconnection depends on. *)
Definition link_part (c : RelayClient) := (opts c, ws c, sockets c, timers c, closedByUser c).

Lemma link_send f c : link_part (send f c) = link_part c.
Proof. unfold send. destruct (ws c) as [s|]; [|done]. by destruct (sockets c !! s) as [[]|]. Qed.
Lemma link_ack ch n c : link_part (ack ch n c) = link_part c.
Proof. unfold ack. destruct (_ <=? _); [done|]. by rewrite link_send. Qed.
Lemma link_auto_ack m c : link_part (auto_ack m c) = link_part c.
Proof. unfold auto_ack. destruct (autoAck _); [apply link_ack|done]. Qed.
Lemma link_run_handlers m set i c : link_part (run_handlers m set i c) = link_part c.
Proof. unfold run_handlers. destruct (_ ≫= _); [done|apply link_auto_ack]. Qed.
Lemma link_detect_gap m c : link_part (detect_gap m c) = link_part c.
Proof. unfold detect_gap. destruct (map_get _ _); [|done]. by destruct (_ <? _). Qed.
Lemma link_note_seen m c : link_part (note_seen m c) = link_part c.
Proof. unfold note_seen. destruct (map_get _ _); [|done]. by destruct (_ <? _). Qed.
Lemma link_rememberId id c : link_part (rememberId id c) = link_part c.
Proof. unfold rememberId. by destruct (evict _ _ _). Qed.
Lemma link_add_handler ch h c : link_part (add_handler ch h c) = link_part c.
Proof. unfold add_handler. by destruct (map_get _ _). Qed.
Lemma link_restore l : forall c, link_part (restore l c) = link_part c.
Proof.
  induction l as [|ch l IH]; intros c; [done|].
  change (restore (ch :: l) c) with (restore l (send (SubscribeFrame ch) c)).
  by rewrite IH, link_send.
Qed.

#[local] Hint Rewrite link_send link_ack link_auto_ack link_run_handlers link_detect_gap
  link_note_seen link_rememberId link_add_handler link_restore : client.

Lemma link_onMessage m c : link_part (onMessage m c) = link_part c.
Proof.
  unfold onMessage. case_decide; [by autorewrite with client|].
  by destruct (map_get _ _); autorewrite with client.
Qed.

Lemma link_handleFrame f c : link_part (handleFrame f c) = link_part c.
Proof.
  destruct f; cbn [handleFrame]; try done.
  - unfold onConnected. autorewrite with client. destruct (_ && _); by autorewrite with client.
  - by autorewrite with client.
  - apply link_onMessage.
  - by destruct (_ || _).
Qed.

(** Once it was told to connect and until it is told to disconnect, the client
    has a socket that is not closed or a timer that will make one. *)
Definition trying (c : RelayClient) : Prop :=
  sockets c = [] \/ closedByUser c = true \/ timers c <> [] \/
  exists s r, ws c = Some s /\ sockets c !! s = Some r /\ r <> CLOSED.

(** The delays of the pending timers. *)
Definition delays_bounded (c : RelayClient) : Prop :=
  Forall (fun p => 0 <= p.2 /\ p.2 <= inject_Z (maxDelayMs (opts c)))%Q (timers c).

Definition link_inv (c : RelayClient) : Prop :=
  0 <= baseDelayMs (opts c) /\ 0 <= maxDelayMs (opts c) /\ trying c /\ delays_bounded c.

(** [Math.random()] is in [[0, 1)]. *)
Definition random_ok (x : event) : Prop :=
  match x with Closed _ r => (0 <= r < 1)%Q | _ => True end.

Lemma link_same c c' : link_part c' = link_part c -> link_inv c -> link_inv c'.
Proof.
  unfold link_inv, trying, delays_bounded. intros H. injection H as -> -> -> -> ->. done.
Qed.

Lemma delays_filter t c :
  delays_bounded c ->
  Forall (fun p => 0 <= p.2 /\ p.2 <= inject_Z (maxDelayMs (opts c)))%Q
    (List.filter (fun p => negb (p.1 =? t)%nat) (timers c)).
Proof.
  unfold delays_bounded. rewrite !Forall_forall. intros H p Hp. apply H.
  apply list_elem_of_In, List.filter_In in Hp as [Hp _]. by apply list_elem_of_In.
Qed.

Lemma link_connect c : link_inv c -> link_inv (connect c).
Proof.
  intros (Hb & Hm & _ & Hd). split_and!; [done..| |done]. right; right; right.
  exists (length (sockets c)), CONNECTING. split_and!; [done| |done].
  cbn. by rewrite lookup_app_r, Nat.sub_diag by lia.
Qed.

(** The delay is between 0 and the cap. *)
Lemma link_close s r c : (0 <= r < 1)%Q -> link_inv c -> link_inv (on_close s r c).
Proof.
  intros Hr (Hb & Hm & _ & Hd). unfold on_close. cbn [closedByUser with_socket].
  destruct (closedByUser c) eqn:Hc.
  { split_and!; [done..| |done]. right; left. exact Hc. }
  split_and!; [done..| |].
  - right; right; left. cbn. by destruct (timers c).
  - unfold delays_bounded. cbn. apply Forall_app. split; [done|]. constructor; [|constructor]. cbn [snd].
    pose proof (Z.pow_nonneg 2 (attempt c) ltac:(lia)) as Hp.
    set (x := Z.min _ _). assert (0 <= x <= maxDelayMs (opts c)) as [Hx Hx'] by (unfold x; nia).
    rewrite Zle_Qle in Hx, Hx'. change (inject_Z 0) with 0%Q in Hx. destruct Hr as [Hr0 Hr1]. split.
    + by apply Qmult_le_0_compat.
    + eapply Qle_trans; [|exact Hx']. rewrite <- (Qmult_1_l (inject_Z x)) at 2.
      apply Qmult_le_compat_r; [by apply Qlt_le_weak|done].
Qed.

Lemma link_disconnect c : link_inv c -> link_inv (disconnect c).
Proof.
  intros (Hb & Hm & _ & Hd). unfold disconnect.
  set (c1 := clear_timer _). set (c2 := send _ c1).
  assert (link_inv c1) as (Hb1 & Hm1 & _ & Hd1).
  { unfold c1, clear_timer. cbn [reconnectTimer with_state].
    destruct (reconnectTimer c); (split_and!; [done|done|right; left; done|]); [|done].
    exact (delays_filter _ c Hd). }
  assert (closedByUser c1 = true) as Hc1.
  { unfold c1, clear_timer. by destruct (reconnectTimer _). }
  assert (link_part c2 = link_part c1) as H2 by apply link_send.
  assert (link_inv c2 /\ closedByUser c2 = true) as [(Hb2 & Hm2 & _ & Hd2) Hc2].
  { split; [apply (link_same c1); [done|]; split_and!; try done; by right; left|].
    by injection H2 as _ _ _ _ ->. }
  unfold close_socket. destruct (ws c2) as [s|]; [destruct (sockets c2 !! s) as [[]|]|];
    (split_and!; [done|done|by right; left|done]).
Qed.

Lemma link_open s c : sockets c !! s = Some CONNECTING -> link_inv c -> link_inv (on_open s c).
Proof.
  intros Hs (Hb & Hm & Ht & Hd). split_and!; [done..| |done].
  destruct Ht as [Ht|[Ht|[Ht|(s' & r & Hw & Hl & Hr)]]].
  + by rewrite Ht in Hs.
  + by right; left.
  + by right; right; left.
  + right; right; right. destruct (decide (s' = s)) as [->|Hne].
    * exists s, OPEN. split_and!; [done| |done]. cbn. apply list_lookup_insert_eq.
      by eapply lookup_lt_Some.
    * exists s', r. split_and!; [done| |done]. cbn. by rewrite list_lookup_insert_ne.
Qed.

Lemma link_step c x : random_ok x -> link_inv c -> link_inv (step c x).
Proof.
  intros Hx Hi. destruct x as [| |ch h|ch|ch h|ch n|s|s f|s r|t|k ok]; cbn [step].
  - by apply link_connect.
  - by apply link_disconnect.
  - eapply link_same, Hi. unfold subscribe. destruct h; by autorewrite with client.
  - eapply link_same, Hi. unfold unsubscribe. by autorewrite with client.
  - eapply link_same, Hi. unfold onMessageFor. by autorewrite with client.
  - eapply link_same, Hi. by autorewrite with client.
  - destruct (sockets c !! s) as [[]|] eqn:Hs; try done. by apply link_open.
  - destruct (sockets c !! s) as [[]|]; try done. eapply link_same, Hi. apply link_handleFrame.
  - destruct (sockets c !! s) as [[]|]; try done; by apply link_close.
  - destruct (existsb _ _); [|done]. destruct Hi as (Hb & Hm & _ & Hd).
    apply (link_same (with_timers (reconnectTimer c)
       (List.filter (fun p => negb (p.1 =? t)%nat) (timers c)) (next_timer c) (connect c))); [done|].
    split_and!; [done|done| |exact (delays_filter t c Hd)].
    right; right; right. exists (length (sockets c)), CONNECTING. split_and!; [done| |done].
    cbn. by rewrite lookup_app_r, Nat.sub_diag by lia.
  - unfold handler_done. destruct (awaiting c !! k); [|done].
    eapply link_same, Hi. destruct ok; by autorewrite with client.
Qed.

Lemma link_history l : forall c, Forall random_ok l -> link_inv c -> link_inv (history c l).
Proof.
  induction l as [|x l IH]; intros c Hl Hc; [done|]. apply Forall_cons in Hl as [Hx Hl].
  change (history c (x :: l)) with (history (step c x) l). apply IH; [done|by apply link_step].
Qed.

End Client.

(** ** Claims *)

(** C19.  Duplicate suppression: after any history of the client, the ids it
    remembers are the last [dedupWindowSize] accepted ones, each once and the
    set agreeing with the queue; and an id is accepted again only after at
    least [dedupWindowSize] other messages were accepted since. *)
Theorem client_dedup_window (o : Client.RelayClientOptions) (l : list Client.event) :
  let c := Client.history (Client.new_client o) l in
  let acc := Client.accepted (Client.new_client o) l in
  Client.seenOrder c = keep_last (Client.dedupWindowSize o) acc /\
  Client.seenIds c = list_to_set (Client.seenOrder c) /\ NoDup (Client.seenOrder c) /\
  (length (Client.seenOrder c) <= Client.dedupWindowSize o)%nat /\
  forall i j id, (i < j)%nat -> acc !! i = Some id -> acc !! j = Some id ->
    (Client.dedupWindowSize o < j - i)%nat.
Proof.
  destruct (Client.history_window l (Client.new_client o) []) as [(Ho & Hi & Hn) Hs].
  { split_and!; [done..|constructor]. }
  { intros i j id _ H. by rewrite lookup_nil in H. }
  cbn zeta. assert (Client.opts (Client.history (Client.new_client o) l) = o) as Hop.
  { clear. rewrite <- (eq_refl : Client.opts (Client.new_client o) = o) at 2.
    generalize (Client.new_client o). induction l as [|x l IH]; intros c; [done|].
    etransitivity; [apply IH|apply Client.opts_step]. }
  rewrite Hop in Ho. split_and!; try done.
  rewrite Ho. unfold keep_last. rewrite length_drop. lia.
Qed.

(** C40.  A message whose handler throws is not acknowledged, but its id is
    remembered: when the gateway sends the message again, the client suppresses
    it as a duplicate and acknowledges it, so no handler gets it a second
    time. *)
Theorem failed_handler_not_retried (s : nat) (ch : string) (h : nat) (a : Z) (n : nat)
    (c : Client.RelayClient) (m : MessageFrame) :
  Client.ready s ch h a a (S (S n)) c -> mf_channel m = ch -> mf_sequence m = a + 1 ->
  mf_message_id m ∉ Client.seenIds c ->
  let failed := Client.history c [Client.Received s (MessageF m); Client.HandlerDone 0 false] in
  let again := Client.step failed (Client.Received s (MessageF m)) in
  Client.calls failed = Client.calls c ++ [(h, m)] /\ Client.out failed = Client.out c /\
  Client.awaiting failed = [] /\
  Client.calls again = Client.calls failed /\ Client.awaiting again = [] /\
  Client.out again = Client.out failed ++ [(s, AckFrame ch (a + 1))] /\
  default 0 (map_get ch (Client.lastAck again)) = a + 1.
Proof.
  intros Hr Hch Hsq Hin.
  destruct (Client.received_new _ _ _ _ _ _ _ Hr Hch Hsq Hin) as (set & _ & Hrec).
  unfold Client.history. cbn [foldl]. rewrite Hrec.
  change (Client.step (Client.with_calls _ _ _) (Client.HandlerDone 0 false)) with (Client.handled ch h m c).
  pose proof (Client.ready_handled _ _ _ _ _ _ _ Hr Hsq) as Hr1.
  destruct (Client.received_old s ch h a (a + 1) n (Client.handled ch h m c) m Hr1 Hch Hsq)
    as ([_ _ Hid _ _ Ha _ _] & Hc & _ & Ho & _); [cbn; set_solver|].
  cbn zeta. by rewrite Hid, Ha, Hc, Ho.
Qed.

(** Message 5 of a session whose handler throws. *)
Definition session_start (h : nat) (ch : string) : list Client.event :=
  [Client.Connect; Client.Subscribe ch (Some h); Client.Opened 0;
   Client.Received 0 (ConnectedFrame "c-1" "s-1" "n1" 15000)].

Definition chat_message (n : Z) : MessageFrame :=
  mkMessageFrame ("m" +:+ py_str n) "t-1:chat" n "" [("n", JInt (10 * n))].

Definition first_client : Client.RelayClient :=
  Client.history (Client.new_client (Client.default_options "relay_a"))
    (session_start 7 "t-1:chat" ++ Client.processed 0 (chat_message 4)).

Lemma first_client_ready : Client.ready 0 "t-1:chat" 7 4 4 100 first_client.
Proof.
  split; try reflexivity; [by exists 0%nat|]. apply Nat.leb_le. by vm_compute.
Qed.

Lemma failed_handler_not_retried_witness :
  let failed := Client.history first_client
    [Client.Received 0 (MessageF (chat_message 5)); Client.HandlerDone 0 false] in
  let again := Client.step failed (Client.Received 0 (MessageF (chat_message 5))) in
  Client.calls failed = [(7%nat, chat_message 4); (7%nat, chat_message 5)] /\
  Client.calls again = Client.calls failed /\
  Client.out again = Client.out failed ++ [(0%nat, AckFrame "t-1:chat" 5)].
Proof.
  destruct (failed_handler_not_retried 0 "t-1:chat" 7 4 98 first_client (chat_message 5)
    first_client_ready eq_refl eq_refl) as (H1 & _ & _ & H2 & _ & H3 & _).
  - apply (bool_decide_unpack _). vm_compute. exact I.
  - split; [exact H1|]. split; [exact H2|exact H3].
Defined.

(** C21.  The client never gives up: in every history, once it was told to
    connect and until it is told to disconnect, it has a socket that is not
    closed or a timer that will open one, and a timer never waits longer than
    the cap. *)
Theorem client_keeps_trying (o : Client.RelayClientOptions) (l : list Client.event) :
  0 <= Client.baseDelayMs o -> 0 <= Client.maxDelayMs o -> Forall Client.random_ok l ->
  let c := Client.history (Client.new_client o) l in
  (Client.sockets c = [] \/ Client.closedByUser c = true \/ Client.timers c <> [] \/
   exists s r, Client.ws c = Some s /\ Client.sockets c !! s = Some r /\ r <> Client.CLOSED) /\
  Forall (fun p => 0 <= p.2 /\ p.2 <= inject_Z (Client.maxDelayMs (Client.opts c)))%Q (Client.timers c).
Proof.
  intros Hb Hm Hl c. destruct (Client.link_history l (Client.new_client o) Hl) as (_ & _ & Ht & Hd).
  - split_and!; [done|done|by left|constructor].
  - by split.
Qed.

(** Two failed attempts; the second timer waits at most 500 ms. *)
Lemma client_keeps_trying_witness :
  let c := Client.history (Client.new_client (Client.default_options "relay_a"))
    [Client.Connect; Client.Closed 0 (1 # 2); Client.Fired 0; Client.Closed 1 (9 # 10)] in
  Client.timers c <> [] /\
  Forall (fun p => 0 <= p.2 /\ p.2 <= inject_Z (Client.maxDelayMs (Client.opts c)))%Q (Client.timers c).
Proof.
  destruct (client_keeps_trying (Client.default_options "relay_a")
    [Client.Connect; Client.Closed 0 (1 # 2); Client.Fired 0; Client.Closed 1 (9 # 10)]) as (_ & H).
  - discriminate.
  - discriminate.
  - repeat constructor; discriminate.
  - split; [discriminate|exact H].
Defined.
