(* ===== verification/EndToEnd.v ===== *)
(** * From the publisher to the application

    The reference client and the gateway together, across a reconnection: the
    client's RESUME is handled by the gateway, what the gateway writes is
    handled by the client, and the application's handler is called. *)
From Stdlib Require Import ZArith Lia QArith.
From stdpp Require Import base gmap strings list sets sorting.
From S2P Require Import Prelude Config Frames FrameText Keys RedisApi Async RefRedis Samples Publisher Replay Connection Flow Registry State Rooms Fanout Delivery Handler Isolation Resume Reconnect RelayClient.

Open Scope Z_scope.

(** ** The client's first frames after it is connected again *)

Lemma emit_nil (c : Client.RelayClient) : Client.emit [] [] c = c.
Proof. unfold Client.emit. rewrite !app_nil_r. by destruct c. Qed.

Lemma emit_emit f f' (c : Client.RelayClient) :
  Client.emit f' [] (Client.emit f [] c) = Client.emit (f ++ f') [] c.
Proof. unfold Client.emit. cbn. by rewrite !app_nil_r, app_assoc. Qed.

Definition connected_socket (s : nat) (c : Client.RelayClient) : Prop :=
  Client.ws c = Some s /\ Client.sockets c !! s = Some Client.OPEN.

Lemma send_open s f c : connected_socket s c -> Client.send f c = Client.emit [(s, f)] [] c.
Proof. intros [H1 H2]. unfold Client.send. by rewrite H1, H2. Qed.

Lemma restore_open s l : forall c, connected_socket s c ->
  Client.restore l c = Client.emit (map (fun ch => (s, SubscribeFrame ch)) l) [] c.
Proof.
  induction l as [|ch l IH]; intros c Hc; [by rewrite emit_nil|].
  change (Client.restore (ch :: l) c) with (Client.restore l (Client.send (SubscribeFrame ch) c)).
  rewrite (send_open s) by done. rewrite IH by done. by rewrite emit_emit.
Qed.

(** The client that was given back its session asks for the missed messages
    before it subscribes again. *)
Lemma connected_resumes s cid sid nid hb ch last h q n (c : Client.RelayClient) :
  Client.ready s ch h last q n c -> Client.sessionId c = Some sid ->
  Client.lastAck c = [(ch, last)] ->
  let c' := Client.step c (Client.Received s (ConnectedFrame cid sid nid hb)) in
  Client.ready s ch h last q n c' /\ Client.calls c' = Client.calls c /\
  Client.seenIds c' = Client.seenIds c /\ Client.gaps_of c' = Client.gaps_of c /\
  Client.out c' = Client.out c ++ (s, ResumeFrame sid [(ch, last)])
                    :: map (fun ch => (s, SubscribeFrame ch)) (Client.subscriptions c).
Proof.
  intros Hr Hsid Hack. cbn [Client.step]. rewrite (Client.r_open _ _ _ _ _ _ _ Hr).
  cbn [Client.handleFrame]. unfold Client.onConnected. rewrite bool_decide_true by done.
  set (c0 := Client.setState _ _).
  assert (Client.ready s ch h last q n c0) as Hr0 by (destruct Hr; split; by cbn).
  assert (connected_socket s c0) as Hs0 by (destruct Hr0; by split).
  assert (Client.lastAck c0 = [(ch, last)]) as -> by done. rewrite bool_decide_false by done.
  cbn [andb negb]. rewrite (send_open s) by done. rewrite (restore_open s) by done.
  rewrite emit_emit. split_and!.
  - destruct Hr0. by split.
  - done.
  - done.
  - done.
  - cbn. rewrite app_nil_r. done.
Qed.

(** ** The messages after a position *)
Lemma newer_consecutive (a q : Z) (ms : list MessageFrame) :
  map mf_sequence ms = seqZ (a + 1) (Z.of_nat (length ms)) ->
  a <= q <= a + Z.of_nat (length ms) ->
  map mf_sequence (List.filter (fun m => q <? mf_sequence m) ms)
  = seqZ (q + 1) (a + Z.of_nat (length ms) - q).
Proof.
  revert a q. induction ms as [|m ms IH]; intros a q Hs Hq; cbn [length] in *.
  { cbn [List.filter map]. by rewrite seqZ_nil by lia. }
  cbn [map] in Hs. rewrite seqZ_cons in Hs by lia. injection Hs as Hm Hs.
  replace (Z.succ (a + 1)) with (a + 1 + 1) in Hs by lia.
  replace (Z.pred (Z.of_nat (S (length ms)))) with (Z.of_nat (length ms)) in Hs by lia.
  cbn [List.filter]. destruct (Z.ltb_spec q (mf_sequence m)) as [Hlt|Hge]; rewrite Hm in *.
  - assert (q = a) as -> by lia. cbn [map].
    rewrite (List.filter_ext_in _ (fun x => a + 1 <? mf_sequence x)).
    + rewrite (IH (a + 1) (a + 1)) by (done || lia). rewrite Hm, (seqZ_cons (a + 1)) by lia.
      f_equal. f_equal; lia.
    + intros x Hx. assert (mf_sequence x ∈ map mf_sequence ms) as Hin
        by (apply list_elem_of_fmap_2; by apply list_elem_of_In).
      rewrite Hs, elem_of_seqZ in Hin. rewrite !(proj2 (Z.ltb_lt _ _)) by lia. done.
  - rewrite (IH (a + 1) q) by (done || lia). f_equal. lia.
Qed.

(** ** The ids a client is given after its RESUME *)
Lemma NoDup_selected {A B} (f : A -> B) (P : A -> Prop) {Pd : forall x, Decision (P x)} (l : list A) :
  NoDup (map f l) -> NoDup (map f (filter P l)).
Proof.
  induction l as [|x l IH]; [done|]. cbn [map]. intros [Hx Hl]%NoDup_cons.
  rewrite filter_cons. case_decide; [|auto]. cbn [map]. apply NoDup_cons. split; [|auto].
  intros (y & Hy & Hin)%list_elem_of_fmap. apply Hx. rewrite Hy.
  apply list_elem_of_filter in Hin as [_ Hin]. by apply list_elem_of_fmap_2.
Qed.

Section Ids.
Variables (e : env) (ch : string) (last q : Z) (cv : channel_view) (frames : list MessageFrame).
Variables (t n : nat) (seen : gset string).
Hypothesis Hinj : forall i j, uuid e i = uuid e j -> i = j.
Hypothesis Hfresh : forall i, uuid e i ∉ seen /\ uuid e i ∉ map b_message_id (cv_retained cv).
Hypothesis Hids : map mf_message_id frames = map (fun i => uuid e (8 * i + t)) (seq 0 n).

Lemma missed_ids :
  map mf_message_id (missed ch last cv)
  = map b_message_id (filter (fun m => last < b_sequence m) (cv_retained cv)).
Proof. unfold missed. by rewrite map_map. Qed.

Lemma received_distinct :
  NoDup (map b_message_id (cv_retained cv)) ->
  NoDup (map mf_message_id (missed ch last cv ++ frames)).
Proof.
  intros Hnd. rewrite map_app, missed_ids, Hids. apply NoDup_app. split_and!.
  - by apply NoDup_selected.
  - intros x (b & -> & Hb)%list_elem_of_fmap (i & Hi & _)%list_elem_of_fmap.
    apply (proj2 (Hfresh (8 * i + t)%nat)). rewrite <- Hi.
    apply list_elem_of_filter in Hb as [_ Hb]. by apply list_elem_of_fmap_2.
  - apply NoDup_fmap_2; [|apply NoDup_seq]. intros i j H%Hinj. lia.
Qed.

Lemma received_known :
  Forall (fun b => last < b_sequence b -> b_message_id b ∈ seen <-> b_sequence b <= q)
    (cv_retained cv) ->
  q <= cv_last cv -> map mf_sequence frames = seqZ (cv_last cv + 1) (Z.of_nat n) ->
  Forall (fun m => mf_message_id m ∈ seen <-> mf_sequence m <= q) (missed ch last cv ++ frames).
Proof.
  intros Hold Hq Hs. apply Forall_app. split.
  - unfold missed. apply Forall_map, Forall_forall. intros b [Hlt Hb]%list_elem_of_filter.
    rewrite Forall_forall in Hold. by apply Hold.
  - apply Forall_forall. intros m Hm. split.
    + intros Hin. exfalso.
      assert (mf_message_id m ∈ map mf_message_id frames) as Hi by (by apply list_elem_of_fmap_2).
      rewrite Hids in Hi. apply list_elem_of_fmap in Hi as (i & Hi & _).
      rewrite Hi in Hin. by apply (proj1 (Hfresh (8 * i + t)%nat)).
    + intros Hle. assert (mf_sequence m ∈ map mf_sequence frames) as Hi by (by apply list_elem_of_fmap_2).
      rewrite Hs, elem_of_seqZ in Hi. lia.
Qed.
End Ids.

(** ** Claims *)

(** C1.  End to end across a reconnection: a client that comes back with its
    session, had acknowledged the messages up to [last] and seen those up to
    [q], sends RESUME as its first frame; the gateway answers
    without a gap and writes the missed messages and those published next to
    its socket; and when the client has processed them, the handler of each
    returning before the next arrives, the handler has been called for
    exactly the messages after [q],
    each once, in order, with consecutive numbers, the client has reported no
    gap, and it has acknowledged all of them, by an ACK frame for every message
    after [last]. *)
Theorem resume_to_application {Rd : Redis} {Rl : RedisLaws} {Jt : JsonText} {Py : Pydantic}
    {Pl : PydanticLaws} (settings : Settings) (e : env) (l : loc) (ch : string) (ws : nat)
    (tid sid cid nid : string) (hb last q : Z) (cv : channel_view)
    (validation_text : json_object -> string) (str_of : json -> string) (w : world Gateway)
    (c : Connection) (ps : list json_object) (backoff : Z) (s h : nat) (client : Client.RelayClient) :
  resumable settings e l ch tid last cv (Z.of_nat (length ps)) w c ->
  Client.ready s ch h last q (length (missed ch last cv) + length ps) client ->
  Client.sessionId client = Some sid -> Client.lastAck client = [(ch, last)] ->
  last <= q <= cv_last cv ->
  (forall n m, uuid e n = uuid e m -> n = m) ->
  (forall n, uuid e n ∉ Client.seenIds client /\ uuid e n ∉ map b_message_id (cv_retained cv)) ->
  NoDup (map b_message_id (cv_retained cv)) ->
  Forall (fun b => last < b_sequence b ->
            b_message_id b ∈ Client.seenIds client <-> b_sequence b <= q) (cv_retained cv) ->
  let back := Client.step client (Client.Received s (ConnectedFrame cid sid nid hb)) in
  Client.out back = Client.out client ++ (s, ResumeFrame sid [(ch, last)])
                      :: map (fun ch => (s, SubscribeFrame ch)) (Client.subscriptions client) /\
  exists w1 w2 frames log,
    run e (handle_frame settings validation_text str_of l ws tid
             (frame_object (ResumeFrame sid [(ch, last)]))) w = (inr true, w1) /\
    w_out w1 = w_out w ++ [WsSent ws (dump (ResumedFrame (session_id c)
                             [(ch, Z.of_nat (length (missed ch last cv)))] []))] /\
    run e (publish_all settings ch ps) w1 = (inr tt, w2) /\
    plog (w_db w2) = plog (w_db w) ++ log /\ map mf_payload frames = ps /\
    written_after settings l ch last cv c frames log backoff (w_state w1) /\
    let received := missed ch last cv ++ frames in
    let new := List.filter (fun m => q <? mf_sequence m) received in
    let done := Client.history back (received ≫= Client.processed s) in
    Client.calls done = Client.calls client ++ map (pair h) new /\
    map mf_sequence new = seqZ (q + 1) (cv_last cv + Z.of_nat (length ps) - q) /\
    Client.gaps_of done = Client.gaps_of client /\
    default 0 (map_get ch (Client.lastAck done)) = cv_last cv + Z.of_nat (length ps) /\
    Client.out done = Client.out back ++
      map (fun n => (s, AckFrame ch n))
        (seqZ (last + 1) (cv_last cv + Z.of_nat (length ps) - last)).
Proof.
  intros Hres Hready Hsid Hack Hq Hinj Hfresh Hnd Hids back.
  destruct (connected_resumes s cid sid nid hb ch last h q _ client Hready Hsid Hack)
    as (Hr & Hcalls & Hseen & Hgaps & Hout).
  split; [exact Hout|]. fold back in Hr, Hcalls, Hseen, Hgaps.
  destruct (resume_loses_nothing settings e l ch ws tid sid last cv validation_text str_of w c ps
              backoff Hres)
    as (w1 & w2 & frames & log & H1 & H2 & _ & H3 & H4 & H5 & Hsq & Hch & Hid & Hfs & Hwr).
  exists w1, w2, frames, log. split_and!; [done..|]. intros received new done_.
  assert (length ps = length frames) as Hlen by (by rewrite <- H5, length_map).
  assert (Z.of_nat (length received) = cv_last cv - last + Z.of_nat (length ps)) as Hlr.
  { apply (f_equal length) in Hsq. rewrite length_map, length_seqZ in Hsq. unfold received. lia. }
  destruct (Client.process_all s ch h received last q back) as (Hc & Ha & Hout' & Hg).
  - unfold received. rewrite length_app, <- Hlen. exact Hr.
  - lia.
  - exact Hch.
  - by rewrite Hlr.
  - by eapply received_distinct.
  - rewrite Hseen. by eapply received_known; [..|lia|].
  - fold done_ in Hc, Ha, Hout', Hg. rewrite Hc, Ha, Hg, Hcalls, Hgaps. split_and!; [done| |done|lia|].
    + unfold new. rewrite (newer_consecutive last q) by (rewrite ?Hlr; done || lia). f_equal. lia.
    + rewrite Hout'. f_equal. f_equal. unfold received in *. rewrite Hsq. f_equal. lia.
Qed.

(** *** A client that comes back with message 4 acknowledged and message 5 seen *)
Definition sample_client : Client.RelayClient :=
  Client.history first_client
    [Client.Received 0 (MessageF (chat_message 5)); Client.HandlerDone 0 false;
     Client.Closed 0 (1 # 2); Client.Fired 0; Client.Opened 1].

Lemma sample_client_ready : Client.ready 1 sample_channel 7 4 5 2 sample_client.
Proof.
  split; try (by vm_compute); [by exists 0%nat|]. apply Nat.leb_le. by vm_compute.
Qed.

Lemma sample_client_seen : Client.seenIds sample_client = list_to_set ["m4"; "m5"].
Proof. by vm_compute. Qed.

Lemma uuid_not_sample (n : nat) : uuid calm n <> "m4" /\ uuid calm n <> "m5".
Proof. cbn. rewrite str_app_cons. by split; intros H; injection H. Qed.

Lemma resume_to_application_witness :
  exists w1 w2 frames log,
    run calm (handle_frame default_settings no_text no_str 0 0 "1"
                (frame_object (ResumeFrame "s-1" [(sample_channel, 4)])))
      (ref_world 0 sample_db2 back_again) = (inr true, w1) /\
    run calm (publish_all default_settings sample_channel [payload_n 7]) w1 = (inr tt, w2) /\
    plog (w_db w2) = log /\
    let received := missed sample_channel 4 (mkView 5 sample_buffer) ++ frames in
    let back := Client.step sample_client
                  (Client.Received 1 (ConnectedFrame "c-2" "s-1" "n1" 15000)) in
    map mf_sequence (List.filter (fun m => 5 <? mf_sequence m) received) = [6] /\
    Client.calls (Client.history back (received ≫= Client.processed 1))
      = Client.calls sample_client ++
        map (pair 7%nat) (List.filter (fun m => 5 <? mf_sequence m) received).
Proof.
  destruct (resume_to_application (Pl := sample_laws) default_settings calm 0 sample_channel 0 "1" "s-1"
    "c-2" "n1" 15000 4 5 (mkView 5 sample_buffer) no_text no_str (ref_world 0 sample_db2 back_again)
    conn_1 [payload_n 7] 250 1 7 sample_client sample_resumable sample_client_ready)
    as (_ & w1 & w2 & frames & log & H1 & _ & H2 & H3 & _ & _ & H4 & H5 & _).
  - by vm_compute.
  - by vm_compute.
  - split; by vm_compute.
  - intros n m H. cbn in H. apply str_app_inv_l, py_str_inj in H. lia.
  - intros n. destruct (uuid_not_sample n). rewrite sample_client_seen. cbn. set_solver.
  - cbn. apply NoDup_cons. split; [set_solver|apply NoDup_singleton].
  - rewrite sample_client_seen. repeat constructor; cbn; (done || set_solver || lia).
  - exists w1, w2, frames, log. split; [exact H1|]. split; [exact H2|]. split; [exact H3|].
    split; [exact H5|exact H4].
Defined.
