(* ===== verification/Heartbeat.v ===== *)
(** * Heartbeat ([apps/gateway/heartbeat/monitor.py])

    The loops of [run_heartbeat] are bounded by fuel; [poll_rounds] is enough
    fuel for the inner one, because every iteration sleeps half a second. *)
From Stdlib Require Import ZArith Lia.
From stdpp Require Import base gmap strings list sets.
From S2P Require Import Prelude Config Frames Keys RedisApi Async Tasks RefRedis Samples Auth Sessions Publisher Replay Connection Registry State Rooms Fanout Presence Handler Isolation.

Inductive poll_outcome := Alive | Inactive | TimedOut | OutOfFuel.

Section Heartbeat.
Context {Py : Pydantic}.
Variable settings : Settings.
Variables (l : loc) (ws : nat).

(** [while time.time() < deadline: ...] *)
Fixpoint poll (fuel : nat) (sent_at deadline : Z) : proc Gateway poll_outcome :=
  match fuel with
  | O => Ret OutOfFuel
  | Datatypes.S fuel' =>
      let! t := now in
      if t <? deadline then
        sleep 500 ;;
        let! conn := self l in
        if decide (state conn <> ACTIVE) then Ret Inactive
        else if sent_at <=? last_pong_at conn then Ret Alive
        else poll fuel' sent_at deadline
      else Ret TimedOut
  end.

(** Iterations the inner loop can make: each takes 500 ms of the timeout. *)
Definition poll_rounds : nat := Z.to_nat (heartbeat_timeout_ms settings / 500 + 2).

(** The body of the outer loop; [true] when the loop goes on. *)
Definition heartbeat_round : proc Gateway bool :=
  sleep (heartbeat_interval_ms settings) ;;
  let! conn := self l in
  if decide (state conn <> ACTIVE) then Ret false
  else
    let! server_time := now in
    let frame := PingFrame (py_str server_time) in
    let! slow := catch (enqueue_at settings l (dump frame) HIGH None None ;; Ret false)
      (fun x => match x with SlowConsumerError _ => Ret true | _ => Throw x end) in
    if slow then _on_dead_connection l ws "SLOW_CONSUMER" ;; Ret false
    else
      let sent_at := server_time in
      let! t := now in
      let deadline := t + heartbeat_timeout_ms settings in
      let! outcome := poll poll_rounds sent_at deadline in
      match outcome with
      | Alive => Ret true
      | Inactive | OutOfFuel => Ret false
      | TimedOut => _on_dead_connection l ws "HEARTBEAT_TIMEOUT" ;; Ret false
      end.

(** [while conn.state == ACTIVE: ...], for at most [fuel] rounds. *)
Fixpoint run_heartbeat (fuel : nat) : proc Gateway unit :=
  match fuel with
  | O => Ret tt
  | Datatypes.S fuel' =>
      let! conn := self l in
      if decide (state conn = ACTIVE) then
        let! continue := heartbeat_round in
        if continue then run_heartbeat fuel' else Ret tt
      else Ret tt
  end.

End Heartbeat.

(** A control frame is queued whatever the queue holds. *)
Definition with_ping (p : string) (conn : Connection) : Connection :=
  set_queue (queue conn ++ [mkQueued p (utf8_len p) HIGH None None])
    (_queue_bytes conn + utf8_len p) conn.

Lemma poll_rounds_enough (settings : Settings) :
  0 <= heartbeat_timeout_ms settings ->
  exists fuel, poll_rounds settings = (1 + fuel)%nat /\
    heartbeat_timeout_ms settings < 500 * Z.of_nat fuel.
Proof.
  intros Hto. exists (Z.to_nat (heartbeat_timeout_ms settings / 500 + 1)). unfold poll_rounds.
  pose proof (Z.div_pos (heartbeat_timeout_ms settings) 500 Hto ltac:(lia)).
  pose proof (Z.div_mod (heartbeat_timeout_ms settings) 500 ltac:(lia)).
  pose proof (Z.mod_pos_bound (heartbeat_timeout_ms settings) 500 ltac:(lia)).
  rewrite Z2Nat.id by lia. split; lia.
Qed.
