(* ===== verification/Wire.v ===== *)
(** * What goes over the wire

    All the tasks of a gateway process together: the whole life of a
    connection from its first frame, its sender and its heartbeat, publications,
    the fanout of what the listeners hear, the termination of slow consumers and
    the drain of the node.  In every interleaving of them each text published on
    Redis, and each text written to a socket, is a frame of the server's side of
    the protocol. *)
From Stdlib Require Import ZArith Lia.
From stdpp Require Import base gmap strings list sets.
From S2P Require Import Prelude Config Frames Keys RedisApi Async Tasks RefRedis Samples Auth Sessions Publisher Replay Connection Registry State Rooms Fanout Presence Handler Isolation Http Heartbeat.

(** ** The sender as a task

    [sender_step] on the connection object of the gateway, with its waits as
    suspension points and its writes on the socket, for at most [fuel] steps. *)
Section Sender.
Variable settings : Settings.
Variables (l : loc) (ws : nat).

Definition sender_wait (pc : sender_pc) : proc Gateway bool :=
  match pc with
  | Sending item => catch (send_text ws (q_payload item) ;; Ret true) (fun _ => Ret false)
  | Getting | Asleep _ => sleep 0 ;; Ret true
  | Top | Window _ | Done => Ret true
  end.

Definition sender_move (ok : bool) (pc : sender_pc) (g : Gateway) : sender_pc * Gateway :=
  match conn_at l g with
  | None => (Done, g)
  | Some c => match sender_step settings ok c pc with
              | None => (pc, g)
              | Some (c', pc', _) => (pc', update_at l (fun _ => c') g)
              end
  end.

Fixpoint run_sender (fuel : nat) (pc : sender_pc) : proc Gateway unit :=
  match fuel with
  | O => Ret tt
  | Datatypes.S fuel' =>
      match pc with
      | Done => Ret tt
      | _ =>
          let! ok := sender_wait pc in
          let! pc' := local (sender_move ok pc) in
          run_sender fuel' pc'
      end
  end.

End Sender.

(** ** The frames a server sends *)
Section Typed.
Context {Jt : JsonText} {Py : Pydantic} {Sh : Sha256} {Ad : AuthDb}.
Variable settings : Settings.
Variable validation_text : json_object -> string.
Variable str_of : json -> string.

Definition server_frame (f : frame) : bool :=
  match f with
  | ConnectedFrame _ _ _ _ | PingFrame _ | SubscribedFrame _ | UnsubscribedFrame _
  | MessageF _ | ResumedFrame _ _ _ | ErrorFrame _ _ | DisconnectFrame _ => true
  | ConnectFrame _ _ | PongFrame | SubscribeFrame _ | UnsubscribeFrame _ | AckFrame _ _
  | NackFrame _ _ _ | ResumeFrame _ _ => false
  end.

Definition server_text (text : string) : Prop :=
  exists f, server_frame f = true /\ text = dump f.

Lemma server_dump f : server_frame f = true -> server_text (dump f).
Proof. by exists f. Qed.

(** What the listeners of the process hear: [run_pubsub_listener] passes on any
    text. *)
Variable heard : string -> Prop.

Definition sent_ok (text : string) : Prop := server_text text \/ heard text.

Definition typed_writes : writes := mkWrites (fun _ => sent_ok) server_text.

Lemma sent_dump f : server_frame f = true -> sent_ok (dump f).
Proof. left. by apply server_dump. Qed.

Definition queue_typed (c : Connection) : Prop :=
  forall q, q ∈ queue c -> sent_ok (q_payload q).

(** The frames waiting in the queues of all connection objects. *)
Definition queues_typed (g : Gateway) : Prop :=
  forall l c, conn_at l g = Some c -> queue_typed c.

Definition pc_typed (pc : sender_pc) : Prop :=
  match pc with
  | Window item | Asleep item | Sending item => sent_ok (q_payload item)
  | Top | Getting | Done => True
  end.

Notation safely p := (safe queues_typed typed_writes p).

(** *** Changes of the state *)
Lemma typed_heap (g g' : Gateway) :
  (forall l c', conn_at l g' = Some c' ->
     queue_typed c' \/ exists c, conn_at l g = Some c /\ queue c' = queue c) ->
  queues_typed g -> queues_typed g'.
Proof.
  intros H Hg l c' Hc'. destruct (H l c' Hc') as [|(c & Hc & Hq)]; [done|].
  intros q. rewrite Hq. by apply (Hg l).
Qed.

Lemma typed_same_heap (g g' : Gateway) :
  heap (store g') = heap (store g) -> queues_typed g -> queues_typed g'.
Proof. intros H. apply typed_heap. unfold conn_at. rewrite H. eauto. Qed.

Lemma typed_alter l f (g g' : Gateway) :
  heap (store g') = alter f l (heap (store g)) ->
  (forall c, conn_at l g = Some c -> queue_typed c -> queue_typed (f c)) ->
  queues_typed g -> queues_typed g'.
Proof.
  intros H Hf Hg l' c'. unfold conn_at. rewrite H, lookup_alter.
  destruct (decide (l = l')) as [<-|]; [|by apply Hg].
  intros (c & Hc & ->)%fmap_Some. apply Hf; [done|by apply (Hg l)].
Qed.

Lemma safe_update l f :
  (forall c, queue (f c) = queue c) -> safely (modify (update_at l f)).
Proof.
  intros Hf. apply keeps_modify. intros g. apply (typed_alter l f); [done|].
  intros c _ Hc q. rewrite Hf. apply Hc.
Qed.

Lemma safe_same (f : Gateway -> Gateway) :
  (forall g, heap (store (f g)) = heap (store g)) -> safely (modify f).
Proof. intros H. apply keeps_modify. intros g. by apply typed_same_heap. Qed.

Lemma safe_subscribe cid ch : safely (modify (with_store (subscribe cid ch))).
Proof.
  apply keeps_modify. intros g. unfold with_store, subscribe. cbn.
  destruct (by_id (store g) !! cid) as [l|]; [|by apply typed_same_heap].
  by eapply typed_alter.
Qed.

Lemma safe_unsubscribe cid ch : safely (modify (with_store (unsubscribe cid ch))).
Proof.
  apply keeps_modify. intros g. unfold with_store, unsubscribe. cbn.
  destruct (by_id (store g) !! cid) as [l|]; [|by apply typed_same_heap].
  by eapply typed_alter.
Qed.

Lemma enqueue_typed payload pr ch sq c c' :
  enqueue settings payload pr ch sq c = inr c' -> sent_ok payload ->
  queue_typed c -> queue_typed c'.
Proof.
  unfold enqueue. intros He Ht Hc. repeat case_match; simplify_eq; try done; intros q; cbn;
    rewrite elem_of_app, list_elem_of_singleton; intros [?| ->]; by auto.
Qed.

Lemma on_ack_queue ch sq c : queue (on_ack settings ch sq c).2 = queue c.
Proof. done. Qed.

(** [self], with what the invariant says of the object. *)
Lemma safe_self {A} l (k : Connection -> proc Gateway A) :
  (forall conn, safely (k conn)) -> safely (bind (self l) k).
Proof.
  intros Hk g Hg. split; [done|]. destruct (conn_at l g) as [c|]; [|done]. apply Hk.
Qed.

(** *** Code that only talks to Redis *)
Lemma safe_touch sid nid : safely (touch_session settings sid nid).
Proof. unfold touch_session. keeps_auto. Qed.

Lemma safe_refresh tid u : safely (tracker.refresh settings tid u).
Proof. unfold tracker.refresh. keeps_auto. Qed.

Lemma safe_set_state tid u st : safely (tracker.set_state settings tid u st).
Proof. unfold tracker.set_state. keeps_auto. Qed.

Lemma safe_online tid u cid : safely (tracker.connection_online settings tid u cid).
Proof. unfold tracker.connection_online. keeps_auto. Qed.

Lemma safe_offline tid u cid : safely (tracker.connection_offline tid u cid).
Proof. unfold tracker.connection_offline. keeps_auto. Qed.

Lemma safe_record_ack sid ch sq : safely (record_ack settings sid ch sq).
Proof. unfold record_ack, to_int. keeps_auto. Qed.

Lemma safe_replay ch n : safely (replay_channel ch n).
Proof. unfold replay_channel, parse_entries. keeps_auto. Qed.

Lemma safe_choose_session sid tid : safely (choose_session settings sid tid).
Proof.
  unfold choose_session, get_session, create_session, touch_session. keeps_auto.
Qed.

Lemma safe_on_local_subscribe ch : safely (on_local_subscribe settings ch).
Proof.
  unfold on_local_subscribe. keeps_auto; apply safe_same; intros g; by rewrite ?store_ensure.
Qed.

Lemma safe_on_local_unsubscribe ch : safely (on_local_unsubscribe settings ch).
Proof.
  unfold on_local_unsubscribe. keeps_auto. apply keeps_local. intros g.
  apply typed_same_heap. by rewrite store_release.
Qed.

Lemma safe_dump ws f : server_frame f = true -> safely (send_text ws (dump f)).
Proof. intros H. by apply safe_send, sent_dump. Qed.

#[local] Hint Resolve safe_touch safe_refresh safe_set_state safe_online safe_offline safe_record_ack
  safe_replay safe_choose_session safe_on_local_subscribe safe_on_local_unsubscribe safe_dump
  safe_subscribe safe_unsubscribe safe_self : relay.

(** *** The life of a connection *)
Section OneHandler.
Variables (l : loc) (ws : nat) (tid : string).

Lemma safe_pong : safely (on_pong settings l tid).
Proof.
  unfold on_pong. apply keeps_bind; [done|intros t]. apply keeps_bind; [by apply safe_update|intros _].
  apply safe_self. intros conn. keeps_auto.
Qed.

Lemma safe_presence raw : safely (on_presence settings l tid raw).
Proof. unfold on_presence. apply safe_self. intros conn. keeps_auto. Qed.

Lemma safe_subscribe_frame raw : safely (on_subscribe settings validation_text l ws tid raw).
Proof.
  unfold on_subscribe, _send_error. destruct (parse_subscribe raw) as [ch|]; [|keeps_auto].
  destruct (negb _); [keeps_auto|]. apply safe_self. intros conn. keeps_auto.
Qed.

Lemma safe_unsubscribe_frame raw : safely (on_unsubscribe settings l ws raw).
Proof.
  unfold on_unsubscribe. destruct (parse_unsubscribe raw) as [ch|]; [|done].
  apply safe_self. intros conn. keeps_auto.
Qed.

Lemma safe_ack_frame raw : safely (on_ack_frame settings l raw).
Proof.
  unfold on_ack_frame. destruct (parse_ack raw) as [[ch sq]|]; [|done]. apply safe_self. intros conn.
  apply keeps_bind; [auto with relay|intros _]. apply keeps_modify. intros g. unfold apply_ack.
  destruct (conn_at l g) as [c|] eqn:Hc; [|done]. cbn.
  apply (typed_alter l (fun _ => (on_ack settings ch sq c).2)); [done|].
  intros c0 Hc0 Hq. by simplify_eq.
Qed.

Lemma safe_enqueue payload pr ch sq :
  sent_ok payload -> safely (enqueue_at settings l payload pr ch sq).
Proof.
  intros Ht. unfold enqueue_at. apply keeps_bind; [|intros r; apply keeps_lift].
  apply keeps_local. intros g. destruct (conn_at l g) as [c|] eqn:Hc; [|done].
  destruct (enqueue _ _ _ _ _ c) as [x|c'] eqn:He; [done|]. cbn.
  apply (typed_alter l (fun _ => c')); [done|]. intros c0 Hc0 Hq. simplify_eq.
  by eapply enqueue_typed.
Qed.

Lemma safe_resume_channels items : forall replayed gaps,
  safely (resume_channels settings l ws tid items replayed gaps).
Proof.
  induction items as [|[ch n] items IH]; intros replayed gaps; cbn [resume_channels]; [done|].
  destruct (negb _); [done|]. apply keeps_bind; [auto with relay|]. intros result.
  destruct (rr_gap result); [unfold _send_error; keeps_auto|].
  apply keeps_bind; [|intros _; apply safe_self; intros conn; keeps_auto].
  apply keeps_for_each. intros m _. unfold replay_one. destruct (b_payload m); try done.
  by apply safe_enqueue, sent_dump.
Qed.

Lemma safe_resume_frame raw : safely (on_resume settings l ws tid raw).
Proof.
  unfold on_resume. destruct (parse_resume raw) as [[sid items]|]; [|done].
  apply keeps_bind; [apply safe_resume_channels|]. intros rg. apply safe_self. intros conn. keeps_auto.
Qed.

#[local] Hint Resolve safe_pong safe_presence safe_subscribe_frame safe_unsubscribe_frame
  safe_ack_frame safe_resume_frame : relay.

Lemma safe_handle_frame raw :
  safely (handle_frame settings validation_text str_of l ws tid raw).
Proof.
  unfold handle_frame, _send_error.
  repeat (case_match; [try done; apply keeps_bind; [auto with relay|done]|]). keeps_auto.
Qed.

Lemma safe_frame_loop inputs :
  safely (_frame_loop settings validation_text str_of l ws tid inputs).
Proof.
  induction inputs as [|raw inputs IH]; cbn [_frame_loop];
    apply safe_self; intros conn; case_decide; try done; intros ?; try done.
  destruct raw; try done. cbn [bind].
  apply keeps_bind; [apply safe_handle_frame|]. by intros [].
Qed.

Lemma safe_dead reason : safely (_on_dead_connection l ws reason).
Proof.
  unfold _on_dead_connection. apply keeps_bind; [by apply safe_update|].
  intros _. apply keeps_catch; keeps_auto.
Qed.

Lemma safe_cleanup : safely (_cleanup_connection settings l ws).
Proof.
  unfold _cleanup_connection. apply keeps_bind; [by apply safe_update|intros _].
  apply safe_self. intros conn. apply keeps_bind; [|intros _].
  { apply keeps_for_each. auto with relay. }
  apply keeps_bind; [|intros _].
  { destruct (truthy_id _); [|done]. apply keeps_bind; [auto with relay|done]. }
  apply keeps_bind; [|intros _; apply keeps_catch; keeps_auto].
  apply safe_same. intros g. cbn. apply heap_remove.
Qed.

Lemma safe_serve inputs : safely (serve settings validation_text str_of l ws tid inputs).
Proof.
  unfold serve. apply keeps_bind.
  - apply keeps_catch; [|intros []; done]. apply keeps_bind; [apply safe_frame_loop|done].
  - intros r. apply keeps_bind; [apply safe_cleanup|]. intros _. by destruct r.
Qed.

(** *** The sender and the heartbeat *)
Lemma sender_step_typed ok c pc c' pc' o :
  sender_step settings ok c pc = Some (c', pc', o) ->
  queue_typed c -> pc_typed pc -> queue_typed c' /\ pc_typed pc'.
Proof.
  intros Hs Hc Hp. destruct pc; cbn in Hs.
  2: { destruct (queue c) as [|i rest] eqn:Hq; [done|]. unfold queue_typed in *. rewrite Hq in Hc.
       injection Hs as <- <- _. split; [intros q ?; apply Hc; by right|].
       case_decide; apply Hc; by left. }
  all: repeat case_match; simplify_eq; done.
Qed.

Lemma safe_sender fuel : forall pc, pc_typed pc -> safely (run_sender settings l ws fuel pc).
Proof.
  induction fuel as [|fuel IH]; intros pc Hpc; cbn [run_sender]; [done|].
  assert (safely (sender_wait ws pc)) as Hw.
  { destruct pc; try done. apply keeps_catch; [|done]. apply keeps_bind; [|done].
    by apply safe_send. }
  assert (safely (let! ok := sender_wait ws pc in
                  let! pc' := local (sender_move settings l ok pc) in
                  run_sender settings l ws fuel pc')) as Hgo.
  { apply keeps_bind; [done|]. intros ok g Hg. cbn. unfold sender_move.
    destruct (conn_at l g) as [c|] eqn:Hc; [|split; [done|by apply IH]].
    destruct (sender_step _ _ _ _) as [[[c' pc'] o]|] eqn:Hs; [|split; [done|by apply IH]].
    destruct (sender_step_typed _ _ _ _ _ _ Hs (Hg l c Hc) Hpc) as [Hc' Hp'].
    split; [|by apply IH]. by apply (typed_alter l (fun _ => c') g). }
  by destruct pc.
Qed.

Lemma safe_poll fuel sent deadline : safely (poll l fuel sent deadline).
Proof.
  induction fuel as [|fuel IH]; cbn [poll]; [done|]. apply keeps_bind; [done|intros t].
  case_match; [|done]. apply keeps_bind; [done|intros _]. apply safe_self. intros conn.
  by repeat case_match.
Qed.

Lemma safe_heartbeat fuel : safely (run_heartbeat settings l ws fuel).
Proof.
  induction fuel as [|fuel IH]; cbn [run_heartbeat]; [done|]. apply safe_self. intros conn.
  case_decide; [|done]. apply keeps_bind; [|by intros []]. unfold heartbeat_round.
  apply keeps_bind; [done|intros _]. apply safe_self. intros conn'. case_decide; [done|].
  apply keeps_bind; [done|intros t]. apply keeps_bind; [|intros []].
  - apply keeps_catch; [|by intros []]. apply keeps_bind; [|done]. by apply safe_enqueue, sent_dump.
  - apply keeps_bind; [apply safe_dead|done].
  - apply keeps_bind; [done|intros t']. apply keeps_bind; [apply safe_poll|].
    intros []; try done. apply keeps_bind; [apply safe_dead|done].
Qed.

End OneHandler.

Lemma heap_add l s : heap (add l s) = heap s.
Proof. unfold add. by destruct (heap s !! l). Qed.

Lemma typed_connect (g : Gateway) cid sid tid ws t uid :
  let conn := set_user_id uid (new_connection cid sid tid ws ACTIVE t) in
  queues_typed g ->
  queues_typed (let '(l, s) := alloc conn (store g) in (l, with_store (fun _ => add l s) g)).2.
Proof.
  intros conn Hg l c. unfold conn_at, alloc. cbn. rewrite heap_add. cbn.
  rewrite lookup_insert_Some. intros [[_ <-]|[_ Hc]]; [|by apply (Hg l)].
  by intros q []%not_elem_of_nil.
Qed.

Lemma safe_handshake sql ws raw : safely (handshake settings str_of sql ws raw).
Proof.
  unfold handshake, _send_error. destruct (negb _); [keeps_auto|].
  apply keeps_bind; [keeps_auto|intros token]. apply keeps_bind; [done|intros _].
  destruct (authenticate_token sql _) as [[]|ctx]; try done; try keeps_auto.
  apply keeps_local. intros g. apply typed_connect.
Qed.

Lemma safe_finally {A} (p : proc Gateway A) f :
  safely p -> (forall g, heap (store (f g)) = heap (store g)) -> safely (finally p f).
Proof.
  intros Hp Hf. unfold finally. apply keeps_bind.
  - apply keeps_catch; [|done]. by apply keeps_bind.
  - intros r. apply keeps_bind; [by apply safe_same|]. intros _. apply keeps_lift.
Qed.

Lemma safe_wait n ws : safely (wait_slot n ws).
Proof.
  induction n as [|n IH]; cbn [wait_slot]; (apply keeps_bind; [done|intros _]).
  - apply keeps_bind; [by apply safe_same|done].
  - apply keeps_bind; [|by intros []]. apply keeps_local. intros g Hg.
    case_decide; [by apply (typed_same_heap g)|done].
Qed.

Lemma safe_connection patience sql ws first inputs :
  safely (handle_connection settings validation_text str_of patience sql ws first inputs).
Proof.
  unfold handle_connection, in_semaphore, acquire, handshake_block.
  apply keeps_bind; [done|intros _]. apply keeps_bind; [|intros [[l tid]|]; [apply safe_serve|done]].
  apply keeps_bind; [|intros _].
  - apply keeps_bind; [|intros []; [done|apply safe_wait]].
    apply keeps_local. intros g. by apply typed_same_heap.
  - apply safe_finally; [|done]. apply keeps_bind; [by apply safe_same|intros _].
    apply safe_finally; [|done]. apply keeps_bind; [done|intros _].
    destruct first as [[]|]; try done. apply safe_handshake.
Qed.

(** *** Publications *)
Lemma safe_publish_message ch payload : safely (publish_message settings ch payload).
Proof.
  unfold publish_message, allocate_sequence, append_to_channel_buffer.
  repeat (apply keeps_bind; [|intros ?]); try solve [keeps_auto].
  apply keeps_redis. repeat constructor. by apply server_dump.
Qed.

Lemma safe_publish_request sql raw authorization key :
  safely (publish_request settings sql raw authorization key).
Proof.
  pose proof safe_publish_message. unfold publish_request, publish, publish_checked, or_503, of_cached.
  keeps_auto; (apply keeps_catch; [auto with relay|by intros []]).
Qed.

(** *** Fanout, termination and drain *)
Lemma deliver_to_typed ch text sq acc l :
  sent_ok text -> queues_typed acc.2 ->
  queues_typed (deliver_to settings ch text sq acc l).2.
Proof.
  intros Ht. destruct acc as [[ds n] g]. intros Hg. cbn. destruct (conn_at l g) as [c|] eqn:Hc; [|done].
  case_decide; [done|]. destruct (enqueue _ _ _ _ _ c) as [x|c'] eqn:He; cbn; [done|].
  apply (typed_alter l (fun _ => c') g); [done| |done]. intros c0 Hc0 Hq. simplify_eq.
  by eapply enqueue_typed.
Qed.

Lemma deliver_typed ch text sq g :
  sent_ok text -> queues_typed g -> queues_typed (deliver_local settings ch text sq g).2.
Proof.
  intros Ht Hg. unfold deliver_local. set (ls := local_subscribers ch (store g)).
  assert (forall acc, queues_typed acc.2 ->
            queues_typed (foldl (deliver_to settings ch text sq) acc ls).2) as H.
  { induction ls as [|l ls IH]; intros acc Hacc; cbn [foldl]; [done|].
    by apply IH, deliver_to_typed. }
  specialize (H ([], 0, g) Hg). destruct (foldl _ _ _) as [[ds n] g']. done.
Qed.

Lemma safe_terminate l ws : safely (terminate_slow_consumer l ws).
Proof.
  unfold terminate_slow_consumer. apply keeps_bind; [by apply (safe_update l (set_state DEAD))|].
  intros _. apply keeps_bind; [|intros _]; apply keeps_catch; keeps_auto.
Qed.

Lemma safe_drain : safely _drain_connections.
Proof.
  unfold _drain_connections. apply keeps_bind; [done|intros conns]. apply keeps_for_each.
  intros conn _. apply keeps_bind; [|intros _]; apply keeps_catch; keeps_auto.
Qed.

(** ** The tasks of a gateway process *)
Inductive process_task :=
| PConnection (patience : nat) (sql : tables) (ws : nat) (first : option json) (inputs : list json)
| PSender (l : loc) (ws : nat) (fuel : nat)
| PHeartbeat (l : loc) (ws : nat) (fuel : nat)
| PPublish (sql : tables) (raw : json) (authorization idempotency_key : option string)
| PDeliver (channel text : string) (sequence : option Z)
| PTerminate (l : loc) (ws : nat)
| PDrain.

Definition process_proc (t : process_task) : proc Gateway unit :=
  match t with
  | PConnection patience sql ws first inputs =>
      handle_connection settings validation_text str_of patience sql ws first inputs
  | PSender l ws fuel => run_sender settings l ws fuel Top
  | PHeartbeat l ws fuel => run_heartbeat settings l ws fuel
  | PPublish sql raw authorization key =>
      let! _ := publish_request settings sql raw authorization key in Ret tt
  | PDeliver ch text sq => modify (fun g => (deliver_local settings ch text sq g).2)
  | PTerminate l ws => terminate_slow_consumer l ws
  | PDrain => _drain_connections
  end.

Lemma safe_process t :
  (forall ch text sq, t = PDeliver ch text sq -> heard text) -> safely (process_proc t).
Proof.
  destruct t; intros Ht; cbn [process_proc].
  - apply safe_connection.
  - by apply safe_sender.
  - apply safe_heartbeat.
  - apply keeps_bind; [apply safe_publish_request|done].
  - apply keeps_modify. intros g. apply deliver_typed. right. by eapply Ht.
  - apply safe_terminate.
  - apply safe_drain.
Qed.

End Typed.

(** What the listeners of the process passed on. *)
Definition passed_on {Ad : AuthDb} (ts : list process_task) (text : string) : Prop :=
  exists ch sq, PDeliver ch text sq ∈ ts.

(** Pub/Sub hands a listener only what was published on its channel. *)
Definition from_log {Rd : Redis} {Ad : AuthDb} (ts : list process_task) (d : db) : Prop :=
  forall ch text sq, PDeliver ch text sq ∈ ts -> (RedisKeys.pubsub_channel ch, text) ∈ plog d.

Definition log_typed {Rd : Redis} {Py : Pydantic} (d : db) : Prop :=
  Forall (fun m => server_text m.2) (plog d).

(** C7.  Protocol typing: in every interleaving of any number of connections
    (from their first frame to their cleanup), senders, heartbeats, publish
    requests, deliveries of what Pub/Sub passes on, terminations and a drain, with
    any client input and any failures: every text published on Redis, every text
    written to a socket and every text waiting in a queue is one of the frames the
    server may send (CONNECTED, PING, SUBSCRIBED, UNSUBSCRIBED, MESSAGE, RESUMED,
    ERROR, DISCONNECT).  A listener forwards what it hears unread, so this rests on
    Pub/Sub handing on only what was published, and on the channels having been
    used by gateways only: what was published before the run are such frames. *)
Theorem wire_typed {Rd : Redis} {Rl : RedisLaws} {Jt : JsonText} {Py : Pydantic} {Sh : Sha256}
    {Ad : AuthDb} (settings : Settings) (validation_text : json_object -> string)
    (str_of : json -> string) (e : env) (ts : list process_task) (sched : list nat)
    (w : world Gateway) :
  queues_typed (fun _ => False) (w_state w) -> wrote (fun _ => server_text) (w_out w) ->
  log_typed (w_db w) ->
  let w' := (run_sched e sched (process_proc settings validation_text str_of <$> ts, w)).2 in
  from_log ts (w_db w') ->
  log_typed (w_db w') /\ wrote (fun _ => server_text) (w_out w') /\
  queues_typed (fun _ => False) (w_state w').
Proof.
  intros Hg Ho Hl w' Hts. set (heard := passed_on ts).
  set (st := (process_proc settings validation_text str_of <$> ts, w)).
  assert (Forall (safe (queues_typed heard) (typed_writes heard)) st.1) as Hsafe.
  { apply Forall_fmap, Forall_forall. intros t Ht. apply safe_process. intros ch text sq ->.
    by exists ch, sq. }
  assert (fine (queues_typed heard) (typed_writes heard) w) as Hfine.
  { split; [intros l c Hc q Hq|intros ws text Hin]; left;
      [by destruct (Hg l c Hc q Hq)|by apply (Ho ws)]. }
  pose proof (run_sched_logged _ _ e sched st Hsafe Hfine Hl) as Hlog.
  destruct (run_sched_safe _ _ e sched st Hsafe Hfine) as [_ [H1 H2]]. fold w' in Hlog, H1, H2.
  assert (forall text, sent_ok heard text -> server_text text) as Hall.
  { intros text [?|(ch & sq & Hin)]; [done|]. specialize (Hts ch text sq Hin).
    by apply (proj1 (Forall_forall _ _) Hlog _ Hts). }
  split; [done|]. split.
  - intros ws text Hin. apply Hall, (H2 ws text Hin).
  - intros l c Hc q Hq. left. apply Hall, (H1 l c Hc q Hq).
Qed.

(** A client connects and subscribes, a message is published, heard and sent. *)
Definition wire_tasks : list (process_task (Ad := list_authdb)) :=
  [PConnection 0 (sample_tables : tables (AuthDb := list_authdb)) 0
     (Some (JObj [("type", JStr "CONNECT"); ("token", JStr "relay_a")])) [subscribe_frame "t-1:chat"];
   PPublish (sample_tables : tables (AuthDb := list_authdb))
     (JObj [("channel", JStr "t-1:chat"); ("payload", JObj [])]) (Some "Bearer relay_a") None;
   PDeliver "t-1:chat" "m1" (Some 1); PSender 0 0 9].
Definition wire_sched : list nat := repeat 0%nat 17 ++ repeat 1%nat 9 ++ 2%nat :: repeat 3%nat 9.
Notation wire_end :=
  (run_sched (Rd := Ref.ref_redis) calm wire_sched
     (process_proc (Sh := marked_hash) default_settings no_text no_str <$> wire_tasks,
      ref_world 0 Ref.empty initial_gateway)).2 (only parsing).

Lemma wire_log : plog (w_db wire_end) = [(RedisKeys.pubsub_channel "t-1:chat", "m1")].
Proof. by vm_compute. Qed.

Lemma wire_heard : from_log wire_tasks (w_db wire_end).
Proof.
  intros ch text sq. rewrite wire_log. unfold wire_tasks.
  rewrite !elem_of_cons, elem_of_nil. intros [[=]|[[=]|[[= -> -> ->]|[[=]|[]]]]]. set_solver.
Qed.

Lemma wire_typed_witness :
  w_out wire_end = [WsSent 0 "CONNECTED"; WsSent 0 "SUBSCRIBED"; WsSent 0 "m1"] /\
  log_typed (w_db wire_end) /\ wrote (fun _ => server_text) (w_out wire_end).
Proof.
  split; [by vm_compute|].
  destruct (wire_typed (Rd := Ref.ref_redis) (Sh := marked_hash) default_settings no_text no_str calm
           wire_tasks wire_sched (ref_world 0 Ref.empty initial_gateway)) as (H1 & H2 & _).
  - intros l c H. by vm_compute in H.
  - by intros ws text []%not_elem_of_nil.
  - constructor.
  - exact wire_heard.
  - exact (conj H1 H2).
Defined.
