(* ===== verification/Tenants.v ===== *)
(** * Tenant isolation of a gateway process

    The tasks of the process that touch connections, together: the handlers
    after their handshake, with whatever frames their clients send (SUBSCRIBE and
    RESUME of foreign channels included), the senders, the heartbeats, the fanout
    of what the listeners hear, the terminations and the drain. *)
From Stdlib Require Import ZArith Lia.
From stdpp Require Import base gmap strings list sets.
From S2P Require Import Prelude Config Frames Keys RedisApi Async Tasks RefRedis Samples Auth Sessions Publisher Replay Connection Registry State Rooms Fanout Presence Handler Isolation Http Heartbeat Wire.

Section Tasks.
Context {Jt : JsonText} {Py : Pydantic}.
Variable settings : Settings.
Variable validation_text : json_object -> string.
Variable str_of : json -> string.

Inductive tenant_task :=
| TServe (h : handler) (inputs : list json)
| TSender (h : handler) (fuel : nat)
| THeartbeat (h : handler) (fuel : nat)
| TDeliver (channel text : string) (sequence : option Z)
| TTerminate (l : loc) (ws : nat)
| TDrain.

Definition tenant_proc (t : tenant_task) : proc Gateway unit :=
  match t with
  | TServe (l, _, tid, ws) inputs => serve settings validation_text str_of l ws tid inputs
  | TSender (l, _, _, ws) fuel => run_sender settings l ws fuel Top
  | THeartbeat (l, _, _, ws) fuel => run_heartbeat settings l ws fuel
  | TDeliver ch text sq => modify (fun g => (deliver_local settings ch text sq g).2)
  | TTerminate l ws => terminate_slow_consumer l ws
  | TDrain => _drain_connections
  end.

Definition task_handler (t : tenant_task) : option handler :=
  match t with
  | TServe h _ | TSender h _ | THeartbeat h _ => Some h
  | TDeliver _ _ _ | TTerminate _ _ | TDrain => None
  end.

(** The handlers of a pool, and what its listeners hear. *)
Definition handlers (ts : list tenant_task) : list handler := omap task_handler ts.
Definition heard_by (ts : list tenant_task) (ch text : string) : Prop :=
  exists sq, TDeliver ch text sq ∈ ts.

(** *** The sender and the heartbeat *)
Section Safe.
Variable heard : string -> string -> Prop.
Variable hs : list handler.
Notation safely p := (safe (inv heard hs) (own_writes heard hs) p).

Section OneHandler.
Variables (l : loc) (ws : nat) (cid tid : string).
Hypothesis Hin : (l, cid, tid, ws) ∈ hs.

(** The item the sender holds. *)
Definition pc_own (pc : sender_pc) : Prop :=
  match pc with
  | Window item | Asleep item | Sending item => own_text heard tid (q_payload item)
  | Top | Getting | Done => True
  end.

(** The sender takes items off the queue, and changes nothing the indexes see. *)
Lemma sender_step_own ok c pc c' pc' o :
  sender_step settings ok c pc = Some (c', pc', o) ->
  (forall q, q ∈ queue c -> own_item heard tid q) -> pc_own pc ->
  index_eq c c' /\ (forall q, q ∈ queue c' -> q ∈ queue c) /\ pc_own pc'.
Proof.
  intros Hs Hc Hp. destruct pc; cbn in Hs.
  2: { destruct (queue c) as [|i rest] eqn:Hq; [done|]. injection Hs as <- <- _.
       split; [done|]. split; [intros q ?; by right|].
       case_decide; apply Hc; by left. }
  all: repeat case_match; simplify_eq; done.
Qed.

(** A text for the client, on the socket it shares with no other tenant. *)
Lemma own_send text : own_text heard tid text ->
  (forall l' cid' tid', (l', cid', tid', ws) ∈ hs -> tid' = tid) -> safely (send_text ws text).
Proof. intros Ht Hw. apply safe_send. intros l' cid' tid' H. by rewrite (Hw l' cid' tid' H). Qed.

Lemma one_tenant (g : Gateway) : inv heard hs g ->
  forall l' cid' tid', (l', cid', tid', ws) ∈ hs -> tid' = tid.
Proof.
  intros Hg l' cid' tid' H'.
  destruct (iso_handlers _ _ _ Hg _ _ _ _ Hin) as (c & Hc & _ & <- & Hw).
  destruct (iso_handlers _ _ _ Hg _ _ _ _ H') as (c' & Hc' & _ & <- & Hw').
  apply (iso_sockets _ _ _ Hg l' l); [done|done|congruence].
Qed.

Lemma own_sender fuel : (forall l' cid' tid', (l', cid', tid', ws) ∈ hs -> tid' = tid) ->
  forall pc, pc_own pc -> safely (run_sender settings l ws fuel pc).
Proof.
  intros Hw. induction fuel as [|fuel IH]; intros pc Hpc; cbn [run_sender]; [done|].
  assert (safely (sender_wait ws pc)) as Hwait.
  { destruct pc; try done. apply keeps_catch; [|done]. apply keeps_bind; [|done].
    by apply own_send. }
  assert (safely (let! ok := sender_wait ws pc in
                  let! pc' := local (sender_move settings l ok pc) in
                  run_sender settings l ws fuel pc')) as Hgo; [|by destruct pc].
  apply keeps_bind; [done|]. intros ok g Hg. cbn. unfold sender_move.
  destruct (iso_handlers _ _ _ Hg _ _ _ _ Hin) as (c & Hc & _ & Htid & _).
  unfold conn_at. rewrite Hc.
  destruct (sender_step _ _ _ _) as [[[c' pc'] o]|] eqn:Hs; [|split; [done|by apply IH]].
  destruct (sender_step_own _ _ _ _ _ _ Hs) as (Hi & Hq & Hp'); [|done|].
  - intros q Hq. rewrite <- Htid. by eapply (iso_queue _ _ _ Hg).
  - split; [|by apply IH]. eapply (inv_replace heard hs l); [exact Hc|done| |done].
    intros q ?. left. by apply Hq.
Qed.

Lemma own_poll fuel sent deadline : safely (poll l fuel sent deadline).
Proof.
  induction fuel as [|fuel IH]; cbn [poll]; [done|]. apply keeps_bind; [done|intros t].
  case_match; [|done]. apply keeps_bind; [done|intros _].
  apply (own_self heard hs l ws cid tid Hin). intros conn _ _. by repeat case_match.
Qed.

Lemma own_heartbeat fuel : safely (run_heartbeat settings l ws fuel).
Proof.
  induction fuel as [|fuel IH]; cbn [run_heartbeat]; [done|].
  apply (own_self heard hs l ws cid tid Hin). intros conn _ _.
  case_decide; [|done]. apply keeps_bind; [|by intros []]. unfold heartbeat_round.
  apply keeps_bind; [done|intros _].
  apply (own_self heard hs l ws cid tid Hin). intros conn' _ _. case_decide; [done|].
  apply keeps_bind; [done|intros t]. apply keeps_bind; [|intros []].
  - apply keeps_catch; [|by intros []]. apply keeps_bind; [|done].
    apply (own_enqueue settings heard hs l ws cid tid Hin). split; [by apply own_control|done].
  - apply keeps_bind; [apply own_dead|done].
  - apply keeps_bind; [done|intros t']. apply keeps_bind; [apply own_poll|].
    intros []; try done. apply keeps_bind; [apply own_dead|done].
Qed.

End OneHandler.

Lemma own_drain : safely _drain_connections.
Proof.
  unfold _drain_connections. apply keeps_bind; [done|intros conns]. apply keeps_for_each.
  intros conn _. apply keeps_bind; [|intros _]; apply keeps_catch; keeps_auto; by apply own_dump.
Qed.

End Safe.

Lemma own_task (ts : list tenant_task) (g : Gateway) t :
  inv (heard_by ts) (handlers ts) g -> t ∈ ts ->
  safe (inv (heard_by ts) (handlers ts)) (own_writes (heard_by ts) (handlers ts)) (tenant_proc t).
Proof.
  intros Hg Ht. assert (forall h, task_handler t = Some h -> h ∈ handlers ts) as Hh.
  { intros h E. apply list_elem_of_omap. eauto. }
  destruct t as [[[[l cid] tid] ws] inputs|[[[l cid] tid] ws] fuel|[[[l cid] tid] ws] fuel|ch text sq|l ws|];
    cbn [tenant_proc].
  - by apply (own_serve _ _ _ _ _ l ws cid tid), Hh.
  - apply (own_sender _ _ l ws cid tid); [by apply Hh| |done].
    by apply (one_tenant (heard_by ts) (handlers ts) l ws cid tid (Hh _ eq_refl) g).
  - by apply (own_heartbeat _ _ l ws cid tid), Hh.
  - apply keeps_modify. intros g'. apply inv_deliver. by exists sq.
  - apply own_terminate.
  - apply own_drain.
Qed.

End Tasks.

(** The invariant, for fewer handlers. *)
Lemma isolated_handlers {Py : Pydantic} heard hs hs' s :
  (forall h, h ∈ hs' -> h ∈ hs) -> isolated heard hs s -> isolated heard hs' s.
Proof. intros H [? ? ? ? ? Hh]. split; [done..|]. intros l cid tid ws ?. by apply Hh, H. Qed.

(** C2.  Tenant isolation: take any number of connections of any tenants, with
    any frames sent by their clients, their senders and heartbeats, in any
    interleaving with fanout, with terminations, with a drain and with each other,
    and whatever Redis and the sockets do.  (1) Every text written on a client's
    socket, and (2) every text in its queue, whether it was delivered or replayed
    by a RESUME, is a MESSAGE of a channel of the client's tenant, was heard on such
    a channel, or is no MESSAGE; (3) fanout of a message on a channel of a tenant
    changes connections of that tenant only. *)
Theorem tenant_isolation {Rd : Redis} {Jt : JsonText} {Py : Pydantic} (settings : Settings)
    (validation_text : json_object -> string) (str_of : json -> string) (e : env)
    (ts : list tenant_task) (sched : list nat) (w : world Gateway) :
  isolated (heard_by ts) (handlers ts) (store (w_state w)) ->
  (forall l cid tid ws text, (l, cid, tid, ws) ∈ handlers ts -> WsSent ws text ∈ w_out w ->
     own_text (heard_by ts) tid text) ->
  let w' := (run_sched e sched (tenant_proc settings validation_text str_of <$> ts, w)).2 in
  let g := w_state w' in
  (forall l cid tid ws text, (l, cid, tid, ws) ∈ handlers ts -> WsSent ws text ∈ w_out w' ->
     own_text (heard_by ts) tid text) /\
  (forall l c q, conn_at l g = Some c -> q ∈ queue c ->
     own_text (heard_by ts) (c_tenant_id c) (q_payload q) /\
     forall ch, q_channel q = Some ch -> channel_belongs_to_tenant ch (c_tenant_id c) = true) /\
  (forall ch text sq t l c, channel_belongs_to_tenant ch t = true -> no_colon t = true ->
     conn_at l g = Some c -> no_colon (c_tenant_id c) = true ->
     conn_at l (deliver_local settings ch text sq g).2 <> conn_at l g -> c_tenant_id c = t).
Proof.
  intros Hiso Ho w' g.
  destruct (run_sched_safe (inv (heard_by ts) (handlers ts)) (own_writes (heard_by ts) (handlers ts))
              e sched (tenant_proc settings validation_text str_of <$> ts, w)) as [_ [Hg Hout]].
  { apply Forall_fmap, Forall_forall. intros t Ht. by apply (own_task _ _ _ ts (w_state w)). }
  { split; [done|]. intros ws text Hin l cid tid Hh. by eapply Ho. }
  split; [|split].
  - intros l cid tid ws text Hh Hin. by apply (Hout ws text Hin l cid).
  - intros l c q Hc Hq. by apply (iso_queue _ _ _ Hg l c q).
  - intros ch text sq t l c Hb Hn Hc Hn' Hne.
    by apply (deliver_own_tenant settings (heard_by ts) (handlers ts) ch text sq t g l c).
Qed.

(** Both clients ask for the recovery of a channel of tenant 1, and to be
    subscribed to it; then message 6 is heard on it. *)
Definition wanted : list json :=
  [JObj [("type", JStr "RESUME"); ("session_id", JStr "s-1");
         ("last_ack_by_channel", JObj [(sample_channel, JInt 4)])]; subscribe_frame sample_channel].
Definition tenant_tasks : list tenant_task :=
  [TServe (0%nat, "c-1", "1", 0%nat) wanted; TServe (1%nat, "c-2", "2", 1%nat) wanted;
   TDeliver sample_channel "m6" (Some 6);
   TSender (0%nat, "c-1", "1", 0%nat) 15; TSender (1%nat, "c-2", "2", 1%nat) 15].
Definition tenant_sched : list nat :=
  (repeat 0 15 ++ repeat 1 7 ++ [2] ++ repeat 3 15 ++ repeat 4 15)%nat.
Notation tenant_end :=
  (run_sched (Rd := Ref.ref_redis) calm tenant_sched
     (tenant_proc default_settings no_text no_str <$> tenant_tasks,
      ref_world 0 sample_db2 two_gateway)).2 (only parsing).

Lemma tenant_handlers : handlers tenant_tasks = two_handlers ++ two_handlers.
Proof. reflexivity. Qed.

Lemma tenant_isolation_witness :
  w_out tenant_end = [WsSent 0 "RESUMED"; WsSent 0 "SUBSCRIBED"; WsSent 1 "RESUMED";
                      WsSent 1 "ERROR"; WsSent 0 "m5"; WsSent 0 "m6"] /\
  own_text (heard_by tenant_tasks) "1" "m5" /\ own_text (heard_by tenant_tasks) "2" "ERROR".
Proof.
  assert (w_out tenant_end = [WsSent 0 "RESUMED"; WsSent 0 "SUBSCRIBED"; WsSent 1 "RESUMED";
    WsSent 1 "ERROR"; WsSent 0 "m5"; WsSent 0 "m6"]) as Hout by by vm_compute.
  split; [exact Hout|].
  destruct (tenant_isolation (Rd := Ref.ref_redis) default_settings no_text no_str calm tenant_tasks
    tenant_sched (ref_world 0 sample_db2 two_gateway)) as (H & _ & _).
  - eapply (isolated_handlers _ two_handlers), two_tenants_isolated.
    clear. rewrite tenant_handlers. intros h. rewrite elem_of_app. tauto.
  - by intros l cid tid ws text _ []%not_elem_of_nil.
  - rewrite Hout, tenant_handlers in H. clear Hout. split.
    + apply (H 0%nat "c-1" "1" 0%nat); set_solver.
    + apply (H 1%nat "c-2" "2" 1%nat); set_solver.
Defined.
