(* ===== verification/Admission.v ===== *)
(** * Admission to the handshake ([websocket/handler.py])

    [handle_connection] runs its handshake inside
    [async with _handshake_semaphore].  Among all tasks of the process, in every
    interleaving and whatever fails: no more than [max_handshakes_in_flight]
    handshakes are in progress at a time, no wake-up of a waiting connection is
    lost, and every slot comes back. *)
From Stdlib Require Import ZArith Lia.
From stdpp Require Import base gmap strings list sets.
From S2P Require Import Prelude Config Frames Keys RedisApi Async Tasks RefRedis Samples Handshake Auth Sessions Publisher Replay Connection Registry State Rooms Fanout Presence Handler Isolation Http Heartbeat Wire.

(** ** The code that does not touch the semaphore *)
Section Frame.
Context {Jt : JsonText} {Py : Pydantic} {Sh : Sha256} {Ad : AuthDb}.
Variable settings : Settings.
Variable validation_text : json_object -> string.
Variable str_of : json -> string.

Definition admission (g : Gateway) : Semaphore * gset nat := (handshake_semaphore g, handshaking g).

Notation outside p := (frames admission p).

Lemma admission_frame_ok g g' : frame_ok g g' -> admission g' = admission g.
Proof. unfold frame_ok, admission. intros (_ & _ & _ & _ & _ & -> & -> & _). done. Qed.

Lemma admission_update l f g : admission (update_at l f g) = admission g.
Proof. done. Qed.

Lemma outside_self {A} l (k : Connection -> proc Gateway A) :
  (forall conn, outside (k conn)) -> outside (bind (self l) k).
Proof.
  intros Hk. apply frames_bind; [|done]. unfold self. frames_auto.
Qed.

Lemma admission_ensure ch g : admission (ensure_listener ch g) = admission g.
Proof. unfold ensure_listener. by destruct (needs_listener ch g). Qed.

Lemma admission_release ch g : admission (release_channel ch g).2 = admission g.
Proof.
  unfold release_channel, stop_listener. destruct (_ <=? _); [|done]. cbn. by destruct (_ !! ch).
Qed.

Lemma outside_on_local_subscribe ch : outside (on_local_subscribe settings ch).
Proof.
  unfold on_local_subscribe. frames_auto; apply frames_modify; intros g; by rewrite ?admission_ensure.
Qed.

Lemma outside_on_local_unsubscribe ch : outside (on_local_unsubscribe settings ch).
Proof.
  unfold on_local_unsubscribe. frames_auto. apply frames_local. intros g. apply admission_release.
Qed.

Lemma outside_replay ch n : outside (replay_channel ch n).
Proof. unfold replay_channel, parse_entries. frames_auto. Qed.

Lemma outside_choose sid tid : outside (choose_session settings sid tid).
Proof. unfold choose_session, get_session, create_session, touch_session. frames_auto. Qed.

Lemma outside_enqueue l payload pr ch sq : outside (enqueue_at settings l payload pr ch sq).
Proof. unfold enqueue_at. frames_auto. Qed.

#[local] Hint Resolve outside_on_local_subscribe outside_on_local_unsubscribe outside_replay
  outside_choose outside_enqueue outside_self : frames.

Lemma outside_resume_channels l ws tid items : forall replayed gaps,
  outside (resume_channels settings l ws tid items replayed gaps).
Proof.
  induction items as [|[ch n] items IH]; intros replayed gaps; cbn [resume_channels]; [done|].
  unfold replay_one, _send_error, self. frames_auto.
Qed.

Lemma outside_handle_frame l ws tid raw :
  outside (handle_frame settings validation_text str_of l ws tid raw).
Proof.
  pose proof outside_resume_channels.
  unfold handle_frame, on_pong, on_presence, on_subscribe, on_unsubscribe, on_ack_frame, on_resume,
    _send_error, self, touch_session, tracker.refresh, tracker.set_state, record_ack, to_int.
  frames_auto. all: apply frames_modify; intros g; unfold apply_ack; by repeat case_match.
Qed.

Lemma outside_frame_loop l ws tid inputs :
  outside (_frame_loop settings validation_text str_of l ws tid inputs).
Proof.
  induction inputs as [|raw inputs IH]; cbn [_frame_loop]; apply outside_self; intros conn;
    case_decide; try done; intros ?; try done.
  destruct raw; try done. cbn [bind].
  apply frames_bind; [apply outside_handle_frame|]. by intros [].
Qed.

Lemma outside_serve l ws tid inputs :
  outside (serve settings validation_text str_of l ws tid inputs).
Proof.
  pose proof outside_frame_loop.
  unfold serve, _cleanup_connection, self, tracker.connection_offline. frames_auto.
Qed.

Lemma outside_handshake sql ws raw : outside (handshake settings str_of sql ws raw).
Proof.
  unfold handshake, _send_error, tracker.connection_online. frames_auto.
Qed.

Lemma outside_sender l ws fuel : forall pc, outside (run_sender settings l ws fuel pc).
Proof.
  induction fuel as [|fuel IH]; intros pc; cbn [run_sender]; [done|].
  destruct pc; try done; unfold sender_wait; frames_auto;
    apply frames_local; intros g; unfold sender_move; by repeat case_match.
Qed.

Lemma outside_poll l fuel sent deadline : outside (poll l fuel sent deadline).
Proof. induction fuel as [|fuel IH]; cbn [poll]; unfold self; frames_auto. Qed.

Lemma outside_heartbeat l ws fuel : outside (run_heartbeat settings l ws fuel).
Proof.
  pose proof outside_poll. induction fuel as [|fuel IH]; cbn [run_heartbeat]; [done|].
  unfold heartbeat_round, _on_dead_connection, self. frames_auto.
Qed.

Lemma outside_publish sql raw authorization key :
  outside (publish_request settings sql raw authorization key).
Proof.
  unfold publish_request, publish, publish_checked, or_503, of_cached, publish_message,
    allocate_sequence, append_to_channel_buffer. frames_auto.
Qed.

Lemma admission_deliver ch text sq g : admission (deliver_local settings ch text sq g).2 = admission g.
Proof.
  unfold deliver_local. set (ls := local_subscribers ch (store g)).
  assert (forall acc, admission (foldl (deliver_to settings ch text sq) acc ls).2 = admission acc.2) as H.
  { induction ls as [|l ls IH]; intros acc; cbn [foldl]; [done|]. rewrite IH.
    destruct acc as [[ds n] g0]. cbn. by repeat case_match. }
  specialize (H ([], 0, g)). by destruct (foldl _ _ _) as [[ds n] g'].
Qed.

Lemma outside_terminate l ws : outside (terminate_slow_consumer l ws).
Proof. unfold terminate_slow_consumer. frames_auto. Qed.

Lemma outside_drain : outside _drain_connections.
Proof. unfold _drain_connections. frames_auto. Qed.
End Frame.

(** ** The part of the semaphore that belongs to a connection *)
Section Owned.
Context {Jt : JsonText} {Py : Pydantic} {Sh : Sha256} {Ad : AuthDb}.
Variable settings : Settings.
Variable validation_text : json_object -> string.
Variable str_of : json -> string.

Definition slots : nat := Z.to_nat (max_handshakes_in_flight settings).

Definition admitted_ok (g : Gateway) : Prop :=
  sem_inv slots (handshake_semaphore g) /\ handshaking g ⊆ inside (handshake_semaphore g).

(** Whether the task holds a slot, waits for one, and is in its handshake. *)
Definition place (i : option nat) (g : Gateway) : bool * bool * bool :=
  match i with
  | None => (false, false, false)
  | Some i => (bool_decide (i ∈ inside (handshake_semaphore g)),
               bool_decide (i ∈ (_waiters (handshake_semaphore g)).*1),
               bool_decide (i ∈ handshaking g))
  end.

Definition gone {B} (v : bool * bool * bool) (_ : B) : Prop := v = (false, false, false).
Definition entered {B} (v : bool * bool * bool) (_ : B) : Prop := v = (true, false, false).

Notation owns := (owned admitted_ok place).

Lemma owns_outside {A} (p : proc Gateway A) i v :
  frames admission p -> owns i v p (fun v' _ => v' = v) (fun v' _ => v' = v).
Proof.
  apply owned_frames. unfold admission. intros g g' [= H1 H2]. split.
  - unfold admitted_ok. by rewrite H1, H2.
  - intros [j|]; [|done]. cbn. by rewrite H1, H2.
Qed.

(** Other tasks keep their places when the sets change in one name only. *)
Lemma place_other ws g g' :
  (forall j, j <> ws -> (j ∈ inside (handshake_semaphore g') <-> j ∈ inside (handshake_semaphore g)) /\
     (j ∈ (_waiters (handshake_semaphore g')).*1 <-> j ∈ (_waiters (handshake_semaphore g)).*1) /\
     (j ∈ handshaking g' <-> j ∈ handshaking g)) ->
  forall j, j <> Some ws -> place j g' = place j g.
Proof.
  intros H [j|] Hj; [|done]. destruct (H j) as (H1 & H2 & H3); [congruence|].
  cbn. f_equal; [f_equal|]; by apply bool_decide_ext.
Qed.

Lemma bool_decide_is (P : Prop) `{Decision P} (b : bool) : bool_decide P = b <-> (Is_true b <-> P).
Proof. destruct (bool_decide_reflect P), b; cbn; naive_solver. Qed.

Lemma place_eq ws g (b1 b2 b3 : bool) : place (Some ws) g = (b1, b2, b3) <->
  (Is_true b1 <-> ws ∈ inside (handshake_semaphore g)) /\
  (Is_true b2 <-> ws ∈ (_waiters (handshake_semaphore g)).*1) /\ (Is_true b3 <-> ws ∈ handshaking g).
Proof. unfold place. rewrite !pair_eq, !bool_decide_is. tauto. Qed.

(** A change of the semaphore by the task [ws]. *)
Lemma semaphore_change ws f g b1 b2 :
  place (Some ws) g = (b1, b2, false) -> admitted_ok g ->
  sem_inv slots (f (handshake_semaphore g)) ->
  (forall j, j <> ws -> (j ∈ inside (f (handshake_semaphore g)) <-> j ∈ inside (handshake_semaphore g)) /\
     (j ∈ (_waiters (f (handshake_semaphore g))).*1 <-> j ∈ (_waiters (handshake_semaphore g)).*1)) ->
  admitted_ok (with_semaphore f g) /\
  forall j, j <> Some ws -> place j (with_semaphore f g) = place j g.
Proof.
  intros (_ & _ & Hn)%place_eq [Hs Hh] Hs' Hj. split; [split|].
  - done.
  - intros j Hin. cbn in *. apply Hj, Hh; [|done]. intros ->. by apply Hn.
  - apply place_other. intros j Hne. destruct (Hj j Hne). cbn. tauto.
Qed.

Lemma owns_acquire_fast ws :
  owns (Some ws) (false, false, false)
    (local (fun g => (negb (locked (handshake_semaphore g)), with_semaphore (arrive ws) g)))
    (fun v r => v = (r, negb r, false)) gone.
Proof.
  apply owned_local. intros g Hg Hv. cbn [snd fst].
  pose proof (proj1 (place_eq _ _ _ _ _) Hv) as (H1 & H2 & H3).
  assert (forall j, j <> ws ->
    (j ∈ inside (arrive ws (handshake_semaphore g)) <-> j ∈ inside (handshake_semaphore g)) /\
    (j ∈ (_waiters (arrive ws (handshake_semaphore g))).*1 <-> j ∈ (_waiters (handshake_semaphore g)).*1)) as Hj.
  { intros j Hne. unfold arrive. destruct (locked _); cbn; [rewrite fmap_app, elem_of_app|]; set_solver. }
  destruct (semaphore_change ws (arrive ws) g false false Hv Hg) as [Ha Hp]; [|done|].
  { apply arrive_inv; [by intros ?%H1|by intros ?%H2|apply Hg]. }
  split; [done|]. split; [done|]. apply place_eq. cbn. unfold arrive.
  destruct (locked _); cbn; (split; [|split; [|tauto]]).
  - tauto.
  - rewrite fmap_app, elem_of_app. set_solver.
  - set_solver.
  - tauto.
Qed.

Lemma wake_all_names s : inside (wake_all s) = inside s /\ (_waiters (wake_all s)).*1 = (_waiters s).*1.
Proof. apply wake_while_names. Qed.

(** A waiter is woken or gives up. *)
Lemma wait_over ws f g (b : bool) :
  place (Some ws) g = (false, true, false) -> admitted_ok g ->
  sem_inv slots (f (handshake_semaphore g)) ->
  inside (f (handshake_semaphore g)) =
    (if b then {[ws]} ∪ inside (handshake_semaphore g) else inside (handshake_semaphore g)) ->
  (_waiters (f (handshake_semaphore g))).*1 = (remove_waiter ws (_waiters (handshake_semaphore g))).*1 ->
  admitted_ok (with_semaphore f g) /\
  (forall j, j <> Some ws -> place j (with_semaphore f g) = place j g) /\
  place (Some ws) (with_semaphore f g) = (b, false, false).
Proof.
  intros Hv Hg Hs Hin Hw. pose proof (proj1 (place_eq _ _ _ _ _) Hv) as (H1 & H2 & H3).
  destruct (semaphore_change ws f g false true Hv Hg Hs) as [Ha Hp].
  { intros j Hne. rewrite Hin, Hw, remove_waiter_names. destruct b; set_solver. }
  split; [done|]. split; [done|]. apply place_eq. cbn. rewrite Hin, Hw, remove_waiter_names.
  destruct b; cbn; set_solver.
Qed.

Lemma waiting_flag ws g : place (Some ws) g = (false, true, false) ->
  (ws, bool_decide ((ws, true) ∈ _waiters (handshake_semaphore g))) ∈ _waiters (handshake_semaphore g).
Proof.
  intros (_ & H & _)%place_eq. apply proj1 in H.
  destruct (proj1 (list_elem_of_fmap _ _ _) (H I)) as ([i b] & -> & Hin). cbn in *. case_bool_decide; [done|]. by destruct b.
Qed.

Lemma owns_wait n ws : owns (Some ws) (false, true, false) (wait_slot n ws) entered gone.
Proof.
  induction n as [|n IH]; cbn [wait_slot]; intros ?; cbn [bind].
  - apply (owned_bind _ _ _ _ _ gone); [|intros v' ? E; exact E].
    intros g Hg Hv. apply (wait_over ws _ g false Hv Hg).
    + apply cancel_inv; [by apply waiting_flag|apply Hg].
    + apply (wake_all_names (mkSemaphore _ _ _)).
    + apply (wake_all_names (mkSemaphore _ _ _)).
  - apply (owned_bind _ _ _ _ _ (fun v r => v = (r, negb r, false))).
    + apply owned_local. intros g Hg Hv. case_decide as Hd; [|done].
      apply (wait_over ws _ g true Hv Hg).
      * apply resume_inv; [done|apply Hg].
      * apply (wake_all_names (mkSemaphore _ _ _)).
      * apply (wake_all_names (mkSemaphore _ _ _)).
    + intros v' [] ->; [done|exact IH].
Qed.

Lemma owns_acquire n ws : owns (Some ws) (false, false, false) (acquire n ws) entered gone.
Proof.
  unfold acquire. eapply owned_bind; [apply owns_acquire_fast|].
  intros v' [] ->; [done|apply owns_wait].
Qed.

(** [finally], when [f] takes the place [v1] to [v2]. *)
Lemma owns_finally {A} ws v v1 v2 (p : proc Gateway A) f :
  owns (Some ws) v p (fun v' _ => v' = v1) (fun v' _ => v' = v1) ->
  (forall g, admitted_ok g -> place (Some ws) g = v1 -> admitted_ok (f g) /\
     (forall j, j <> Some ws -> place j (f g) = place j g) /\ place (Some ws) (f g) = v2) ->
  owns (Some ws) v (finally p f) (fun v' _ => v' = v2) (fun v' _ => v' = v2).
Proof.
  intros Hp Hf. unfold finally. apply (owned_bind _ _ _ _ _ (fun v' _ => v' = v1)).
  - apply (owned_catch _ _ _ _ _ _ (fun v' _ => v' = v1)); [|done].
    by apply (owned_bind _ _ _ _ _ _ _ _ _ Hp).
  - intros v' r ->. apply (owned_bind _ _ _ _ _ (fun v' _ => v' = v2)).
    + intros g Hg Hv. by apply Hf.
    + intros v' [] ->. by destruct r.
Qed.

(** The handshake is in progress only while the slot is held. *)
Lemma owns_block sql ws first :
  owns (Some ws) (true, false, false) (handshake_block settings str_of sql ws first)
    (fun v' _ => v' = (true, false, false)) (fun v' _ => v' = (true, false, false)).
Proof.
  unfold handshake_block. apply (owned_bind _ _ _ _ _ (fun v' _ => v' = (true, false, true))).
  - intros g [Hs Hh] (H1 & H2 & H3)%place_eq. cbn [snd fst]. split; [split; [done|]|split].
    + cbn. apply union_subseteq. split; [|done]. apply singleton_subseteq_l. by apply H1.
    + apply place_other. intros j Hne. cbn. set_solver.
    + apply place_eq. cbn. set_solver.
  - intros v' [] ->. apply owns_finally with (v1 := (true, false, true)).
    + apply owns_outside. intros ?. destruct first as [[]|]; try done. apply outside_handshake.
    + intros g [Hs Hh] (H1 & H2 & H3)%place_eq. split; [split; [done|]|split].
      * cbn. set_solver.
      * apply place_other. intros j Hne. cbn. set_solver.
      * apply place_eq. cbn. set_solver.
Qed.

Lemma owns_connection n sql ws first inputs :
  owns (Some ws) (false, false, false)
    (handle_connection settings validation_text str_of n sql ws first inputs) gone gone.
Proof.
  unfold handle_connection, in_semaphore. intros ?. cbn [bind].
  apply (owned_bind _ _ _ _ _ gone); [|intros v' [[l tid]|] ->; [apply owns_outside, outside_serve|done]].
  eapply owned_bind; [apply owns_acquire|]. intros v' [] ->.
  apply owns_finally with (v1 := (true, false, false)); [apply owns_block|].
  intros g Hg Hv. pose proof (proj1 (place_eq _ _ _ _ _) Hv) as (H1 & H2 & H3).
  destruct (leave_names ws (handshake_semaphore g)) as [Hin Hw].
  destruct (semaphore_change ws (leave ws) g true false Hv Hg) as [Ha Hp].
  - apply leave_inv; [by apply H1|apply Hg].
  - intros j Hne. rewrite Hin, Hw. set_solver.
  - split; [done|]. split; [done|]. apply place_eq. cbn [with_semaphore handshake_semaphore handshaking].
    rewrite Hin, Hw. set_solver.
Qed.

(** *** The pool *)
Definition connection_of (t : process_task) : option nat :=
  match t with PConnection _ _ ws _ _ => Some ws | _ => None end.

Lemma owns_process t :
  owns (connection_of t) (false, false, false) (process_proc settings validation_text str_of t) gone gone.
Proof.
  destruct t; cbn [process_proc connection_of]; [apply owns_connection|apply owns_outside..].
  - apply outside_sender.
  - apply outside_heartbeat.
  - apply frames_bind; [apply outside_publish|done].
  - apply frames_modify. intros g. apply admission_deliver.
  - apply outside_terminate.
  - apply outside_drain.
Qed.

(** A place without an owner among the tasks. *)
Lemma nobody g : handshake_semaphore g = _handshake_semaphore settings -> handshaking g = ∅ ->
  forall i, place i g = (false, false, false).
Proof. intros Hs Hh [ws|]; [|done]. apply place_eq. rewrite Hs, Hh. cbn. set_solver. Qed.

Lemma everybody_gone g : admitted_ok g -> (forall i, place (Some i) g = (false, false, false)) ->
  handshake_semaphore g = _handshake_semaphore settings.
Proof.
  intros [[Hs _ _ _] _] Hp. destruct (handshake_semaphore g) as [v l x] eqn:E. cbn in Hs.
  assert (forall i, i ∉ x /\ i ∉ l.*1) as Hn.
  { intros i. specialize (Hp i). apply place_eq in Hp as (H1 & H2 & _). rewrite E in H1, H2. cbn in *. tauto. }
  assert (x = ∅) as -> by (apply elem_of_equiv_empty_L; intros i; apply Hn).
  destruct l as [|[i b] l]; [|destruct (Hn i) as [_ []]; by left].
  unfold _handshake_semaphore. f_equal. rewrite size_empty in Hs. cbn in Hs. unfold slots in Hs. lia.
Qed.
End Owned.

Definition over {S A} (p : proc S A) : bool := match p with Call _ _ => false | _ => true end.

(** C24.  Admission: among all tasks of a gateway process (connections with their
    handshakes and frames, senders, heartbeats, publish requests, deliveries,
    terminations, the drain), in every interleaving, with any client input and
    whatever Redis, the sockets and the cancellation of waiting connections do:
    (1) at most [max_handshakes_in_flight] handshakes are in progress, and each of
    them holds a slot; (2) no wake-up is lost: while a connection waits, either one
    that was given a slot is about to run, or all slots are held; (3) every slot
    comes back: when all tasks are over the semaphore is as it was created. *)
Theorem handshakes_bounded {Rd : Redis} {Jt : JsonText} {Py : Pydantic} {Sh : Sha256} {Ad : AuthDb}
    (settings : Settings) (validation_text : json_object -> string) (str_of : json -> string)
    (e : env) (ts : list process_task) (sched : list nat) (w : world Gateway) :
  NoDup (omap connection_of ts) ->
  handshake_semaphore (w_state w) = _handshake_semaphore settings -> handshaking (w_state w) = ∅ ->
  let n := Z.to_nat (max_handshakes_in_flight settings) in
  let st := run_sched e sched (process_proc settings validation_text str_of <$> ts, w) in
  let g := w_state st.2 in
  (size (handshaking g) <= n)%nat /\ handshaking g ⊆ inside (handshake_semaphore g) /\
  (forall ws, (ws, false) ∈ _waiters (handshake_semaphore g) ->
     (exists ws', (ws', true) ∈ _waiters (handshake_semaphore g)) \/
     size (inside (handshake_semaphore g)) = n) /\
  (forallb over st.1 = true -> handshake_semaphore g = _handshake_semaphore settings).
Proof.
  intros Hnd Hs Hh n st g.
  assert (forall i, place i (w_state w) = (false, false, false)) as Hnobody by by apply (nobody settings).
  destruct (run_sched_owned (admitted_ok settings) place e (fun _ _ => eq_refl) gone gone
    (connection_of <$> ts) sched (NoDup_distinct_names _ _ Hnd)
    (process_proc settings validation_text str_of <$> ts, w)) as (Hg & Ho & Hrest).
  - split; cbn; [rewrite Hs; apply sem_initial|rewrite Hh; set_solver].
  - intros j p. cbn. rewrite list_lookup_fmap. intros (t & Ht & ->)%fmap_Some.
    exists (connection_of t). rewrite list_lookup_fmap, Ht. split; [done|]. rewrite Hnobody.
    apply owns_process.
  - fold st in Hg, Ho, Hrest. fold g in Hg, Ho, Hrest. pose proof Hg as [Hinv Hsub]. split_and!.
    + apply subseteq_size in Hsub. pose proof (sem_slots _ _ Hinv) as Hn.
      unfold slots in Hn. fold n in Hn. lia.
    + done.
    + intros ws Hw. by apply (sem_progress n _ ws).
    + intros Hover. apply everybody_gone; [done|]. intros i.
      destruct (decide (Some i ∈ connection_of <$> ts)) as [Hi|Hi]; [|by rewrite Hrest].
      apply list_elem_of_lookup in Hi as [j Hj].
      assert (is_Some (st.1 !! j)) as [p Hp].
      { apply lookup_lt_is_Some. unfold st. rewrite run_sched_length. cbn [fst]. rewrite length_fmap.
        apply lookup_lt_Some in Hj. by rewrite length_fmap in Hj. }
      destruct (Ho j p Hp) as (i' & Hi' & Hown). assert (i' = Some i) as -> by congruence.
      rewrite forallb_forall in Hover. apply list_elem_of_lookup_2, list_elem_of_In, Hover in Hp.
      by destruct p.
Qed.

(** Two slots: the third connection waits for one of the first two. *)
Definition connect_task (ws : nat) : process_task (Ad := list_authdb) :=
  PConnection 5 (sample_tables : tables (AuthDb := list_authdb)) ws
    (Some (JObj [("type", JStr "CONNECT"); ("token", JStr "relay_a")])) [].
Definition admission_tasks : list (process_task (Ad := list_authdb)) :=
  [connect_task 7; connect_task 8; connect_task 9].
Definition two_slots : Gateway :=
  with_semaphore (fun _ => _handshake_semaphore tiny_settings) initial_gateway.
Definition admission_run (sched : list nat) : list (proc Gateway unit) * world Gateway :=
  run_sched (Rd := Ref.ref_redis) calm sched
    (process_proc (Sh := marked_hash) tiny_settings no_text no_str <$> admission_tasks,
     ref_world 0 Ref.empty two_slots).

Definition in_between : list nat := [0; 1; 2; 0; 1; 2]%nat.
Definition to_the_end : list nat := (repeat 0 20 ++ repeat 1 20 ++ repeat 2 20)%nat.

Lemma handshakes_bounded_witness :
  let g := w_state (admission_run in_between).2 in
  let st := admission_run to_the_end in
  _waiters (handshake_semaphore g) = [(9%nat, false)] /\ handshaking g = {[7%nat; 8%nat]} /\
  (size (handshaking g) <= 2)%nat /\
  w_out st.2 = [WsSent 7 "CONNECTED"; WsClosed 7 1000; WsSent 8 "CONNECTED"; WsClosed 8 1000;
                WsSent 9 "CONNECTED"; WsClosed 9 1000] /\
  handshake_semaphore (w_state st.2) = _handshake_semaphore tiny_settings.
Proof.
  split; [by vm_compute|]. split; [by vm_compute|].
  assert (NoDup (omap connection_of admission_tasks)) as Hnd by (apply (bool_decide_unpack _); by vm_compute).
  pose proof (fun sched => handshakes_bounded (Rd := Ref.ref_redis) (Sh := marked_hash) tiny_settings
    no_text no_str calm admission_tasks sched (ref_world 0 Ref.empty two_slots) Hnd eq_refl eq_refl) as H.
  split; [apply (H in_between)|]. split; [by vm_compute|]. apply (H to_the_end). clear H.
  by vm_compute.
Defined.
