(* ===== verification/Among.v ===== *)
(** * A task among others, and the end of the heartbeat's loops

    [run_among] runs one coroutine while the rest of the process runs at its
    suspension points: [others ms w] is the world in which it is resumed from a
    wait of [ms] milliseconds that began in [w].  Every wait has its own event
    number, so one function describes any schedule of any other tasks. *)
From Stdlib Require Import ZArith Lia.
From stdpp Require Import base gmap strings list sets.
From S2P Require Import Prelude Config Frames RedisApi Async RefRedis Samples Connection Registry State Fanout Handler Isolation Heartbeat.

Section Among.
Context {Rd : Redis} {S : Type}.
Variable e : env.
Variable others : Z -> world S -> world S.

Definition wait_ms {B} (x : ev S B) : Z := match x with ESleep ms => ms | _ => 0 end.

Fixpoint run_among {A} (p : proc S A) (w : world S) : (exn + A) * world S :=
  match p with
  | Ret a => (inr a, w)
  | Throw x => (inl x, w)
  | Call x k =>
      let '(b, w') := do_ev e x w in
      run_among (k b) (if is_await x then others (wait_ms x) w' else w')
  end.

(** Time passes: [asyncio.sleep(ms)] resumes its task no earlier than that. *)
Definition time_passes : Prop :=
  forall ms w, 0 <= ms -> (w_tick w <= w_tick (others ms w))%nat /\
    clock e (w_tick w) + ms <= clock e (w_tick (others ms w)).

Lemma run_among_bind {A B} (p : proc S A) (f : A -> proc S B) (w : world S) :
  run_among (bind p f) w =
  let '(r, w') := run_among p w in
  match r with inl x => (inl x, w') | inr a => run_among (f a) w' end.
Proof.
  revert w. induction p as [a|x|C x k IH]; intros w; cbn; [done|done|].
  destruct (do_ev e x w) as [b w']. apply IH.
Qed.

Lemma run_among_catch {A} (p : proc S A) (h : exn -> proc S A) (w : world S) :
  run_among (catch p h) w =
  let '(r, w') := run_among p w in
  match r with inl x => run_among (h x) w' | inr a => (inr a, w') end.
Proof.
  revert w. induction p as [a|x|C x k IH]; intros w; cbn; [done|done|].
  destruct (do_ev e x w) as [b w']. apply IH.
Qed.

End Among.

Section Polling.
Context {Rd : Redis} {Py : Pydantic}.
Variable settings : Settings.
Variable e : env.
Variable others : Z -> world Gateway -> world Gateway.
Hypothesis Hmono : mono_clock e.
Hypothesis Htime : time_passes e others.
Variables (l ws : nat).

Notation at_ w := (clock e (w_tick w)).

Lemma self_among {A} (k : Connection -> proc Gateway A) (w : world Gateway) :
  run_among e others (bind (self l) k) w =
  match conn_at l (w_state w) with
  | Some c => run_among e others (k c) (tick w)
  | None => (inl (OtherError "no object"), tick w)
  end.
Proof. unfold self. cbn. by destruct (conn_at l (w_state w)). Qed.

(** The world after the wait of an iteration that began in [w]. *)
Definition polled (w : world Gateway) : world Gateway := others 500 (tick (tick w)).

Lemma polled_later (w : world Gateway) : at_ w + 500 <= at_ (tick (polled w)).
Proof.
  destruct (Htime 500 (tick (tick w)) ltac:(lia)) as [_ H].
  pose proof (Hmono (w_tick w) (w_tick (tick (tick w))) ltac:(cbn; lia)).
  pose proof (Hmono (w_tick (polled w)) (w_tick (tick (polled w))) ltac:(cbn; lia)).
  unfold polled in *. lia.
Qed.

(** One unfolding of the loop. *)
Lemma poll_among (fuel : nat) (sent deadline : Z) (w : world Gateway) :
  run_among e others (poll l (1 + fuel) sent deadline) w =
  if at_ w <? deadline then
    match conn_at l (w_state (polled w)) with
    | None => (inl (OtherError "no object"), tick (polled w))
    | Some conn =>
        if decide (state conn <> ACTIVE) then (inr Inactive, tick (polled w))
        else if sent <=? last_pong_at conn then (inr Alive, tick (polled w))
        else run_among e others (poll l fuel sent deadline) (tick (polled w))
    end
  else (inr TimedOut, tick w).
Proof.
  cbn [Nat.add poll]. rewrite run_among_bind. cbn [run_among now do_ev is_await].
  destruct (_ <? _); [|done]. rewrite run_among_bind. cbn [run_among sleep do_ev is_await wait_ms].
  rewrite self_among. change (others 500 _) with (polled w).
  destruct (conn_at l _) as [c|]; [|done]. by repeat case_match.
Qed.

Lemma poll_ends (sent deadline : Z) (fuel : nat) : forall n (w : world Gateway),
  deadline - at_ w < 500 * Z.of_nat fuel -> (1 + fuel <= n)%nat ->
  run_among e others (poll l n sent deadline) w = run_among e others (poll l (1 + fuel) sent deadline) w /\
  (run_among e others (poll l (1 + fuel) sent deadline) w).1 <> inr OutOfFuel.
Proof.
  induction fuel as [|fuel IH]; intros n w Hd Hn; (destruct n as [|n]; [lia|]);
    change (S n) with (1 + n)%nat.
  - rewrite (poll_among n), (poll_among 0). by rewrite (proj2 (Z.ltb_ge _ _)) by lia.
  - rewrite (poll_among n), (poll_among (S fuel)). destruct (Z.ltb_spec (at_ w) deadline); [|done].
    destruct (conn_at l _) as [c|]; [|done]. repeat case_match; try done.
    apply IH; [|lia]. pose proof (polled_later w). lia.
Qed.

(** *** The round up to its polling *)

(** The world after the interval, and the time the PING is stamped with. *)
Definition rested (w : world Gateway) : world Gateway :=
  others (heartbeat_interval_ms settings) (tick w).
Definition sent_at (w : world Gateway) : Z := clock e (1 + w_tick (rested w)).

Definition verdict (outcome : poll_outcome) : proc Gateway bool :=
  match outcome with
  | Alive => Ret true
  | Inactive | OutOfFuel => Ret false
  | TimedOut => _on_dead_connection l ws "HEARTBEAT_TIMEOUT" ;; Ret false
  end.

Lemma rested_later (w : world Gateway) : 0 <= heartbeat_interval_ms settings ->
  at_ w + heartbeat_interval_ms settings <= at_ (rested w) /\ at_ (rested w) <= sent_at w.
Proof.
  intros Hint. destruct (Htime (heartbeat_interval_ms settings) (tick w) Hint) as [_ H].
  pose proof (Hmono (w_tick w) (w_tick (tick w)) ltac:(cbn; lia)). unfold sent_at, rested in *.
  split; [lia|]. apply Hmono. cbn. lia.
Qed.

Lemma round_among (w : world Gateway) conn :
  conn_at l (w_state (rested w)) = Some conn -> state conn = ACTIVE ->
  exists w2, run_among e others (heartbeat_round settings l ws) w =
      run_among e others (let! outcome := poll l (poll_rounds settings) (sent_at w)
          (clock e (3 + w_tick (rested w)) + heartbeat_timeout_ms settings) in verdict outcome) w2 /\
    conn_at l (w_state w2) = Some (with_ping (dump (PingFrame (py_str (sent_at w)))) conn) /\
    w_out w2 = w_out (rested w) /\ w_tick w2 = (4 + w_tick (rested w))%nat.
Proof.
  intros Hc Hact. unfold heartbeat_round. rewrite run_among_bind.
  cbn [run_among sleep do_ev is_await wait_ms]. change (others _ _) with (rested w).
  rewrite self_among, Hc, decide_False by auto. rewrite run_among_bind.
  cbn [run_among now do_ev is_await]. rewrite run_among_bind, run_among_catch, run_among_bind.
  unfold enqueue_at. rewrite run_among_bind. cbn [run_among local do_ev is_await w_state tick].
  rewrite Hc. change (clock e (w_tick (mkWorld (1 + w_tick (rested w)) _ _ _))) with (sent_at w).
  replace (enqueue settings _ HIGH None None conn) with
    (inr (with_ping (dump (PingFrame (py_str (sent_at w)))) conn) : exn + Connection)
    by (unfold enqueue; by destruct (_ || _)).
  cbn [run_among lift]. rewrite run_among_bind. cbn [run_among now do_ev is_await].
  eexists. split; [reflexivity|]. split; [|done]. unfold conn_at in *. cbn.
  by rewrite lookup_alter_eq, Hc.
Qed.

(** *** A client that has gone silent *)

(** The other tasks handle no PONG of this connection and do not bring it back. *)
Definition silent : Prop :=
  forall ms w conn, conn_at l (w_state w) = Some conn ->
    exists conn', conn_at l (w_state (others ms w)) = Some conn' /\
      last_pong_at conn' = last_pong_at conn /\ (state conn <> ACTIVE -> state conn' <> ACTIVE).

Hypothesis Hsilent : silent.

Lemma poll_silent (sent deadline : Z) (fuel : nat) : forall (w : world Gateway) conn,
  conn_at l (w_state w) = Some conn -> last_pong_at conn < sent ->
  let '(r, w') := run_among e others (poll l fuel sent deadline) w in
  exists conn', conn_at l (w_state w') = Some conn' /\
    (r = inr OutOfFuel \/ r = inr TimedOut \/ r = inr Inactive /\ state conn' <> ACTIVE).
Proof.
  induction fuel as [|fuel IH]; intros w conn Hc Hp; [cbn; eauto|].
  change (S fuel) with (1 + fuel)%nat. rewrite poll_among.
  destruct (at_ w <? deadline); [|eauto].
  destruct (Hsilent 500 (tick (tick w)) conn Hc) as (c' & Hc' & Hp' & _). fold (polled w) in Hc'.
  rewrite Hc'. destruct (decide (state c' <> ACTIVE)); [eauto 8|]. rewrite (proj2 (Z.leb_gt _ _)) by lia.
  by apply (IH _ c'); [|lia].
Qed.

Lemma dead_among (reason : string) (w : world Gateway) conn :
  conn_at l (w_state w) = Some conn ->
  exists w' conn', run_among e others (_on_dead_connection l ws reason) w = (inr tt, w') /\
    conn_at l (w_state w') = Some conn' /\ state conn' <> ACTIVE.
Proof.
  intros Hc. unfold _on_dead_connection. rewrite run_among_bind. cbn [run_among modify local do_ev is_await].
  rewrite run_among_catch. cbn [run_among close do_ev is_await wait_ms].
  set (w1 := mkWorld (1 + _) _ (update_at _ _ _) _).
  assert (conn_at l (w_state w1) = Some (set_state DEAD conn)) as Hc1.
  { unfold w1, conn_at in *. cbn. by rewrite lookup_alter_eq, Hc. }
  destruct (ws_ok e (w_tick w1)); cbn [lift run_among];
    match goal with |- context [others 0 ?v] =>
      destruct (Hsilent 0 v (set_state DEAD conn) Hc1) as (c' & Hc' & _ & Hs') end;
    (eexists _, c'; split; [reflexivity|]; split; [exact Hc'|by apply Hs']).
Qed.

Lemma round_silent (w : world Gateway) conn :
  0 <= heartbeat_interval_ms settings -> 0 <= heartbeat_timeout_ms settings ->
  conn_at l (w_state w) = Some conn -> last_pong_at conn < at_ w ->
  exists w' conn', run_among e others (heartbeat_round settings l ws) w = (inr false, w') /\
    conn_at l (w_state w') = Some conn' /\ state conn' <> ACTIVE.
Proof.
  intros Hint Hto Hc Hp. destruct (rested_later w Hint) as [Hle Hsent].
  destruct (Hsilent (heartbeat_interval_ms settings) (tick w) conn Hc) as (c1 & Hc1 & Hp1 & _).
  change (conn_at l (w_state (rested w)) = Some c1) in Hc1. destruct (decide (state c1 = ACTIVE)) as [Ha|Ha].
  2: { exists (tick (rested w)), c1. split; [|done]. unfold heartbeat_round. rewrite run_among_bind.
       cbn [run_among sleep do_ev is_await wait_ms]. change (others _ _) with (rested w).
       by rewrite self_among, Hc1, decide_True. }
  destruct (round_among w c1 Hc1 Ha) as (w2 & -> & Hc2 & _ & Ht2). rewrite run_among_bind.
  set (deadline := clock e _ + _). pose proof (poll_silent (sent_at w) deadline (poll_rounds settings) w2 _ Hc2) as Hres.
  destruct (poll_rounds_enough settings Hto) as (fuel & Hf & Hb). rewrite Hf in *.
  destruct (poll_ends (sent_at w) deadline fuel (1 + fuel) w2) as [_ Hfuel]; [|lia|].
  { pose proof (Hmono (3 + w_tick (rested w)) (w_tick w2) ltac:(lia))%nat. unfold deadline. lia. }
  destruct (run_among e others (poll l (1 + fuel) (sent_at w) deadline) w2) as [r w3].
  destruct Hres as (c3 & Hc3 & [->|[->|[-> Hs3]]]); [cbn; lia|done| |by exists w3, c3].
  cbn [verdict]. rewrite run_among_bind.
  destruct (dead_among "HEARTBEAT_TIMEOUT" w3 c3 Hc3) as (w4 & c4 & -> & Hc4). by exists w4, c4.
Qed.

End Polling.

(** ** What a round decides *)
Definition on_socket (ws : nat) (x : ws_event) : Prop :=
  match x with WsSent ws' _ | WsClosed ws' _ => ws' = ws end.

#[export] Instance on_socket_dec ws x : Decision (on_socket ws x).
Proof. destruct x; cbn; apply _. Defined.

Notation on_wire ws out := (filter (on_socket ws) out).

Section Verdict.
Context {Rd : Redis} {Py : Pydantic}.
Variable settings : Settings.
Variable e : env.
Variable others : Z -> world Gateway -> world Gateway.
Hypothesis Hmono : mono_clock e.
Hypothesis Htime : time_passes e others.
Variables (l ws : nat).

Notation at_ w := (clock e (w_tick w)).

(** The other tasks do nothing for this connection, as when its client is gone:
    no frame of it comes in, and nothing for it is queued or sent. *)
Definition idle : Prop := forall ms w,
  conn_at l (w_state (others ms w)) = conn_at l (w_state w) /\
  on_wire ws (w_out (others ms w)) = on_wire ws (w_out w).

(** The other tasks keep the connection active, and from the time [t] on a PONG
    that answers a PING of the time [sent] has been handled. *)
Definition responsive (sent t : Z) : Prop := forall ms w c,
  conn_at l (w_state w) = Some c -> state c = ACTIVE ->
  exists c', conn_at l (w_state (others ms w)) = Some c' /\ state c' = ACTIVE /\
    (t <= at_ (others ms w) -> sent <= last_pong_at c').

Lemma poll_idle (sent deadline : Z) (conn : Connection) (fuel : nat) :
  idle -> state conn = ACTIVE -> last_pong_at conn < sent ->
  forall w : world Gateway, conn_at l (w_state w) = Some conn ->
    deadline - at_ w < 500 * Z.of_nat fuel ->
  exists w', run_among e others (poll l (1 + fuel) sent deadline) w = (inr TimedOut, w') /\
    conn_at l (w_state w') = Some conn /\ on_wire ws (w_out w') = on_wire ws (w_out w) /\
    deadline <= at_ w'.
Proof.
  intros Hidle Hact Hpong. induction fuel as [|fuel IH]; intros w Hc Hfuel; rewrite poll_among.
  - rewrite (proj2 (Z.ltb_ge _ _)) by lia. exists (tick w). split_and!; [done..|].
    pose proof (Hmono (w_tick w) (w_tick (tick w)) ltac:(cbn; lia)). lia.
  - destruct (Z.ltb_spec (at_ w) deadline).
    + destruct (Hidle 500 (tick (tick w))) as [Hc' Ho']. fold (polled others w) in Hc', Ho'.
      cbn [tick w_state w_out] in Hc', Ho'. rewrite Hc in Hc'. rewrite Hc', decide_False by auto. rewrite (proj2 (Z.leb_gt _ _)) by done.
      change (S fuel) with (1 + fuel)%nat.
      destruct (IH (tick (polled others w))) as (w' & -> & Hw' & Hout & Hd).
      * exact Hc'.
      * pose proof (polled_later e others Hmono Htime w). lia.
      * exists w'. split_and!; [done|done| |done]. by rewrite Hout.
    + exists (tick w). split_and!; [done..|].
      pose proof (Hmono (w_tick w) (w_tick (tick w)) ltac:(cbn; lia)). lia.
Qed.

Lemma poll_responsive (sent deadline t step : Z) (fuel : nat) :
  responsive sent t -> (forall n, clock e (1 + n) <= clock e n + step) -> t + step <= deadline ->
  forall (w : world Gateway) conn, conn_at l (w_state w) = Some conn -> state conn = ACTIVE ->
    at_ w < deadline -> deadline - at_ w < 500 * Z.of_nat fuel ->
  exists w' c', run_among e others (poll l (1 + fuel) sent deadline) w = (inr Alive, w') /\
    conn_at l (w_state w') = Some c' /\ state c' = ACTIVE /\ sent <= last_pong_at c' /\
    forall P : list ws_event -> Prop, (forall ms v, P (w_out v) -> P (w_out (others ms v))) ->
      P (w_out w) -> P (w_out w').
Proof.
  intros Hresp Hstep Ht. induction fuel as [|fuel IH]; intros w conn Hc Ha Hlt Hfuel; [lia|].
  rewrite poll_among, (proj2 (Z.ltb_lt _ _)) by done.
  destruct (Hresp 500 (tick (tick w)) conn Hc Ha) as (c' & Hc' & Ha' & Hpong).
  fold (polled others w) in Hc', Hpong. rewrite Hc', decide_False by auto.
  destruct (Z.leb_spec sent (last_pong_at c')).
  - exists (tick (polled others w)), c'. split_and!; [done..|]. intros P HP Hw. by apply HP.
  - pose proof (polled_later e others Hmono Htime w).
    pose proof (Hstep (w_tick (polled others w))) as Hs. change (1 + w_tick _)%nat with
      (w_tick (tick (polled others w))) in Hs.
    assert (at_ (polled others w) < t) by (destruct (Z.le_gt_cases t (at_ (polled others w))); [|lia];
      specialize (Hpong ltac:(done)); lia).
    change (S fuel) with (1 + fuel)%nat.
    destruct (IH (tick (polled others w)) c') as (w' & c2 & -> & Hc2 & Ha2 & Hp2 & Hout); [done|done|lia|lia|].
    exists w', c2. split_and!; [done..|]. intros P HP Hw. apply Hout; [done|]. by apply HP.
Qed.

Lemma dead_idle (w : world Gateway) conn : idle -> conn_at l (w_state w) = Some conn ->
  exists w' ok, run_among e others (_on_dead_connection l ws "HEARTBEAT_TIMEOUT") w = (inr tt, w') /\
    conn_at l (w_state w') = Some (set_state DEAD conn) /\ at_ w <= at_ w' /\
    on_wire ws (w_out w') = on_wire ws (w_out w) ++ (if ok : bool then [WsClosed ws 4408] else []) /\
    (ok = false -> exists n, ws_ok e n = false).
Proof.
  intros Hidle Hc. unfold _on_dead_connection. rewrite run_among_bind.
  cbn [run_among modify local do_ev is_await].
  rewrite run_among_catch. cbn [run_among close do_ev is_await wait_ms].
  set (w1 := mkWorld (1 + _) _ (update_at _ _ _) _).
  assert (conn_at l (w_state w1) = Some (set_state DEAD conn)) as Hc1.
  { unfold w1, conn_at in *. cbn. by rewrite lookup_alter_eq, Hc. }
  destruct (ws_ok e (w_tick w1)) eqn:Ek; cbn [lift run_among];
    match goal with |- context [others 0 ?v] => set (w2 := v); destruct (Hidle 0 w2) as [Hc2 Ho2];
      destruct (Htime 0 w2 ltac:(lia)) as [_ Ht2] end;
    (exists (others 0 w2)); [exists true|exists false];
    (split; [reflexivity|]); rewrite Hc2, Ho2; (split; [exact Hc1|]);
    (pose proof (Hmono (w_tick w) (w_tick w2) ltac:(cbn; lia)); split; [lia|]); cbn.
  - rewrite filter_app, filter_cons_True by done. done.
  - rewrite app_nil_r. eauto.
Qed.

End Verdict.

(** C23.  The heartbeat ends its loops whatever the other tasks do, as long as
    a sleep takes its time: the polling loop never runs more often than the
    timeout allows, so that any more iterations give the same result; and when
    no PONG of the client is handled, the round ends, and ends the heartbeat,
    with the connection no longer active. *)
Theorem heartbeat_terminates {Rd : Redis} {Py : Pydantic} (settings : Settings) (e : env)
    (others : Z -> world Gateway -> world Gateway) (l ws : nat) (w : world Gateway) :
  mono_clock e -> time_passes e others ->
  0 <= heartbeat_interval_ms settings -> 0 <= heartbeat_timeout_ms settings ->
  (forall n sent deadline, deadline <= clock e (w_tick w) + heartbeat_timeout_ms settings ->
     (poll_rounds settings <= n)%nat ->
     run_among e others (poll l n sent deadline) w =
       run_among e others (poll l (poll_rounds settings) sent deadline) w /\
     (run_among e others (poll l (poll_rounds settings) sent deadline) w).1 <> inr OutOfFuel) /\
  (forall conn, silent others l -> conn_at l (w_state w) = Some conn ->
     last_pong_at conn < clock e (w_tick w) ->
     exists w' conn', run_among e others (heartbeat_round settings l ws) w = (inr false, w') /\
       conn_at l (w_state w') = Some conn' /\ state conn' <> ACTIVE).
Proof.
  intros Hmono Htime Hint Hto. split.
  - intros n sent deadline Hd Hn. destruct (poll_rounds_enough settings Hto) as (fuel & Hf & Hb).
    rewrite Hf in *. apply poll_ends; [done|done|lia|lia].
  - intros conn Hs Hc Hp. by apply (round_silent settings e others Hmono Htime l ws Hs w conn).
Qed.

(** C28.  Dead connections are detected and live ones are kept, whatever time the
    other tasks take.  (1) When nothing happens for an active connection, a round
    queues a PING even when the queue is full, and ends the heartbeat after the
    timeout and not before, with the connection marked dead and its socket closed
    with 4408 (unless the socket fails), and nothing else written to it.  (2) When
    the other tasks keep the connection active and handle a PONG for this PING
    before the deadline (by a time [t] that one event more does not take past it),
    the round lets the heartbeat go on: the connection is active, and the round
    wrote and closed nothing. *)
Theorem heartbeat_detects {Rd : Redis} {Py : Pydantic} (settings : Settings) (e : env)
    (others : Z -> world Gateway -> world Gateway) (l ws : nat) (w : world Gateway)
    (conn : Connection) :
  mono_clock e -> time_passes e others ->
  0 <= heartbeat_interval_ms settings -> 0 <= heartbeat_timeout_ms settings ->
  conn_at l (w_state w) = Some conn -> state conn = ACTIVE ->
  let sent := sent_at settings e others w in
  let ping := dump (PingFrame (py_str sent)) in
  clock e (w_tick w) + heartbeat_interval_ms settings <= sent /\
  (idle others l ws -> last_pong_at conn < sent ->
   exists w' ok, run_among e others (heartbeat_round settings l ws) w = (inr false, w') /\
     conn_at l (w_state w') = Some (set_state DEAD
       (set_queue (queue conn ++ [mkQueued ping (utf8_len ping) HIGH None None])
          (_queue_bytes conn + utf8_len ping) conn)) /\
     sent + heartbeat_timeout_ms settings <= clock e (w_tick w') /\
     on_wire ws (w_out w') = on_wire ws (w_out w) ++ (if ok : bool then [WsClosed ws 4408] else []) /\
     (ok = false -> exists n, ws_ok e n = false)) /\
  (forall t step, responsive e others l sent t -> (forall n, clock e (1 + n) <= clock e n + step) ->
   step < heartbeat_timeout_ms settings -> t + step <= sent + heartbeat_timeout_ms settings ->
   exists w' c', run_among e others (heartbeat_round settings l ws) w = (inr true, w') /\
     conn_at l (w_state w') = Some c' /\ state c' = ACTIVE /\ sent <= last_pong_at c' /\
     forall P : list ws_event -> Prop, (forall ms v, P (w_out v) -> P (w_out (others ms v))) ->
       P (w_out w) -> P (w_out w')).
Proof.
  intros Hmono Htime Hint Hto Hc Ha sent ping.
  destruct (rested_later settings e others Hmono Htime w Hint) as [Hle Hsent]. fold sent in Hsent.
  pose proof (Hmono (1 + w_tick (rested settings others w)) (3 + w_tick (rested settings others w))
    ltac:(lia))%nat as H13.
  change (clock e (1 + w_tick (rested settings others w))) with sent in H13.
  destruct (poll_rounds_enough settings Hto) as (fuel & Hf & Hb).
  split; [lia|]. split.
  - intros Hidle Hp. destruct (Hidle (heartbeat_interval_ms settings) (tick w)) as [Hc1 Ho1].
    fold (rested settings others w) in Hc1, Ho1. cbn [tick w_state w_out] in Hc1, Ho1. rewrite Hc in Hc1.
    destruct (round_among settings e others l ws w conn Hc1 Ha) as (w2 & -> & Hc2 & Ho2 & Ht2).
    pose proof (Hmono (3 + w_tick (rested settings others w))%nat (w_tick w2) ltac:(lia)).
    rewrite run_among_bind, Hf. fold sent in Hc2 |- *.
    destruct (poll_idle e others Hmono Htime l ws sent
      (clock e (3 + w_tick (rested settings others w)) + heartbeat_timeout_ms settings)
      _ fuel Hidle (Ha : state (with_ping ping conn) = ACTIVE) Hp w2 Hc2) as (w3 & -> & Hc3 & Ho3 & Hd3); [lia|].
    cbn [verdict]. rewrite run_among_bind.
    destruct (dead_idle e others Hmono Htime l ws w3 _ Hidle Hc3) as (w4 & ok & -> & Hc4 & Ht4 & Ho4 & Hok).
    exists w4, ok. split_and!; [done|done|lia| |done]. by rewrite Ho4, Ho3, Ho2, Ho1.
  - intros t step Hresp Hstep Hlt Ht.
    destruct (Hresp (heartbeat_interval_ms settings) (tick w) conn Hc Ha) as (c1 & Hc1 & Ha1 & _).
    fold (rested settings others w) in Hc1.
    destruct (round_among settings e others l ws w c1 Hc1 Ha1) as (w2 & -> & Hc2 & Ho2 & Ht2).
    pose proof (Hmono (3 + w_tick (rested settings others w))%nat (w_tick w2) ltac:(lia)).
    pose proof (Hstep (3 + w_tick (rested settings others w))%nat) as Hs.
    change (1 + (3 + ?n))%nat with (4 + n)%nat in Hs. rewrite <- Ht2 in Hs.
    rewrite run_among_bind, Hf. fold sent in Hc2 |- *.
    destruct (poll_responsive e others Hmono Htime l sent
      (clock e (3 + w_tick (rested settings others w)) + heartbeat_timeout_ms settings) t step fuel
      Hresp Hstep ltac:(lia) w2 _ Hc2 Ha1) as (w3 & c3 & -> & H1 & H2 & H3 & H4); [lia|lia|].
    exists w3, c3. split_and!; [done..|]. intros P HP Hw. apply H4; [done|]. rewrite Ho2. by apply HP.
Qed.

(** A clock of one millisecond an event, and tasks that take the time a sleep
    leaves them. *)
Definition busy (ms : Z) (w : world (Rd := Ref.ref_redis) Gateway) : world Gateway :=
  mkWorld (Z.to_nat ms + w_tick w) (w_db w) (w_state w) (w_out w).
Definition one_ms : env := mkEnv Z.of_nat (fun _ => NetOk 0) (uuid calm) (fun _ => true).

Lemma heartbeat_terminates_witness :
  exists w' conn',
    run_among one_ms busy (heartbeat_round default_settings 0 0)
      (ref_world 5 Ref.empty gateway_sub) = (inr false, w') /\
    conn_at 0 (w_state w') = Some conn' /\ state conn' <> ACTIVE.
Proof.
  eapply (heartbeat_terminates (Rd := Ref.ref_redis) default_settings one_ms busy 0 0
            (ref_world 5 Ref.empty gateway_sub)); [| | | | |reflexivity|].
  - intros i j H. cbn. lia.
  - intros ms w H. cbn. lia.
  - by vm_compute.
  - by vm_compute.
  - intros ms w conn H. by exists conn.
  - by vm_compute.
Defined.

(** A client that answers: its PONG is handled during every wait. *)
Definition prompt (ms : Z) (w : world (Rd := Ref.ref_redis) Gateway) : world Gateway :=
  let w' := busy ms w in
  mkWorld (w_tick w') (w_db w')
    (update_at 0 (set_last_pong (clock one_ms (w_tick w'))) (w_state w')) (w_out w').

Lemma one_ms_mono : mono_clock one_ms.
Proof. intros i j H. cbn. lia. Qed.

Lemma busy_passes : time_passes one_ms busy.
Proof. intros ms w H. cbn. lia. Qed.

Lemma prompt_passes : time_passes one_ms prompt.
Proof. intros ms w H. cbn. lia. Qed.

Lemma prompt_responsive t : responsive one_ms prompt 0 t t.
Proof.
  intros ms w c Hc Ha. exists (set_last_pong (clock one_ms (w_tick (busy ms w))) c).
  unfold conn_at in *. cbn. rewrite lookup_alter_eq, Hc. done.
Qed.

Lemma heartbeat_detects_witness :
  let w := ref_world 5 Ref.empty two_gateway in
  (exists w', run_among one_ms busy (heartbeat_round default_settings 0 0) w = (inr false, w') /\
     on_wire 0 (w_out w') = [WsClosed 0 4408]) /\
  (exists w' c', run_among one_ms prompt (heartbeat_round default_settings 0 0) w = (inr true, w') /\
     conn_at 0 (w_state w') = Some c' /\ state c' = ACTIVE /\ w_out w' = []).
Proof.
  split.
  - destruct (heartbeat_detects (Rd := Ref.ref_redis) default_settings one_ms busy 0 0
      (ref_world 5 Ref.empty two_gateway) conn_1 one_ms_mono busy_passes) as (_ & H & _); [done..|].
    destruct H as (w' & ok & Hrun & _ & _ & Hout & Hok).
    + by intros ms w.
    + by vm_compute.
    + exists w'. split; [exact Hrun|]. rewrite Hout. destruct ok; [done|].
      by destruct (Hok eq_refl).
  - destruct (heartbeat_detects (Rd := Ref.ref_redis) default_settings one_ms prompt 0 0
      (ref_world 5 Ref.empty two_gateway) conn_1 one_ms_mono prompt_passes) as (_ & _ & H); [done..|].
    destruct (H (sent_at default_settings one_ms prompt (ref_world 5 Ref.empty two_gateway)) 1
      (prompt_responsive _)) as (w' & c' & Hrun & Hc & Ha & _ & Hout).
    + intros n. cbn. lia.
    + done.
    + by vm_compute.
    + exists w', c'. split_and!; [exact Hrun|exact Hc|exact Ha|]. by apply (Hout (fun out => out = [])).
Defined.
