(* ===== verification/Nodes.v ===== *)
(** * Node registration ([apps/gateway/nodes/registration.py])

    A node writes its record under a key with a short lifetime and refreshes
    it; other nodes see the nodes whose keys are alive. *)
From Stdlib Require Import ZArith Lia.
From stdpp Require Import base gmap strings list sets.
From S2P Require Import Prelude Config Frames Keys RedisApi Async Tasks RefRedis Scan Samples Connection Registry State.

Section Nodes.
Context {Jt : JsonText}.
Variable settings : Settings.

(** The dict a node writes; [updated_at] in milliseconds. *)
Definition node_record (status : string) (connections updated_at : Z) : json :=
  JObj [("node_id", JStr (node_id settings)); ("status", JStr status);
        ("connections", JInt connections); ("updated_at", JInt updated_at)].

Definition _write : proc Gateway unit :=
  let! g := gets id in
  let! t := now in
  redis (SET (RedisKeys.node (node_id settings))
           (json_dumps (node_record (node_status g) (active_count (store g)) t))
           (Some (node_ttl_seconds settings))).

(** [with contextlib.suppress(Exception)] *)
Definition suppressed (p : proc Gateway unit) : proc Gateway unit := catch p (fun _ => Ret tt).

(** What a task does on resumption: a cancelled one gets [CancelledError], which
    [suppress(Exception)] does not stop. *)
Definition not_cancelled : proc Gateway unit :=
  let! task := gets registrar_task in
  match task with
  | Some false => Throw (OtherError "CancelledError")
  | _ => Ret tt
  end.

(** [_loop], for [fuel] turns. *)
Fixpoint _loop (fuel : nat) : proc Gateway unit :=
  match fuel with
  | O => Ret tt
  | Datatypes.S fuel' =>
      not_cancelled ;;
      suppressed _write ;;
      not_cancelled ;;
      sleep (node_heartbeat_interval_ms settings) ;;
      _loop fuel'
  end.

(** The result is the coroutine that [start] schedules as a task. *)
Definition start : proc Gateway (nat -> proc Gateway unit) :=
  suppressed _write ;;
  modify (set_registrar_task (Some true)) ;;
  Ret _loop.

Definition mark_draining : proc Gateway unit :=
  modify (set_node_status "draining") ;; suppressed _write.

(** [self._task.cancel()], and the wait for its end. *)
Definition stop : proc Gateway unit :=
  let! task := gets registrar_task in
  match task with
  | Some _ => modify (set_registrar_task (Some false)) ;; sleep 0
  | None => Ret tt
  end ;;
  suppressed (redis (DEL [RedisKeys.node (node_id settings)])).

(** [if raw: nodes.append(json.loads(raw))] for each key of a page of the scan. *)
Fixpoint read_nodes (keys : list string) : proc Gateway (list json) :=
  match keys with
  | [] => Ret []
  | key :: keys' =>
      let! raw := redis (GET key) in
      match raw with
      | None | Some "" => read_nodes keys'
      | Some text =>
          match json_loads text with
          | Some j => let! rest := read_nodes keys' in Ret (j :: rest)
          | None => Throw (OtherError "JSONDecodeError")
          end
      end
  end.

Definition list_nodes (fuel : nat) : proc Gateway (list json) :=
  scan_iter fuel "relay:nodes:" 0 read_nodes.

End Nodes.

Section Facts.
Context {Rd : Redis} {Rl : RedisLaws} {Jt : JsonText}.
Variable settings : Settings.
Variable e : env.
Hypothesis Hrel : reliable e.
Hypothesis Hmono : mono_clock e.

Notation at_ w := (clock e (w_tick w)).

Lemma run_write (w : world Gateway) :
  0 < node_ttl_seconds settings ->
  let rec := node_record settings (node_status (w_state w)) (active_count (store (w_state w)))
               (clock e (1 + w_tick w)) in
  exists d', run e (_write settings) w = (inr tt, mkWorld (3 + w_tick w) d' (w_state w) (w_out w)) /\
    forall u k, clock e (2 + w_tick w) <= u ->
      sees d' u k = if bool_decide (k = RedisKeys.node (node_id settings))
                    then expiring (clock e (2 + w_tick w)) (node_ttl_seconds settings)
                           (VStr (json_dumps rec)) u
                    else sees (w_db w) u k.
Proof.
  intros Httl rec. unfold _write.
  rewrite run_bind, run_gets, run_now_bind.
  destruct (run_set_ex e (RedisKeys.node (node_id settings)) (json_dumps rec)
              (node_ttl_seconds settings) (tick (tick w)) (Hrel _) Httl) as (d & Hrun & _ & Hs).
  exists d. split; [exact Hrun|exact Hs].
Qed.

(** The state that [stop] leaves. *)
Definition halted (g : Gateway) : Gateway :=
  match registrar_task g with Some _ => set_registrar_task (Some false) g | None => g end.

(** A started registrar stays off once it is stopped. *)
Lemma run_loop_halted (n : nat) (w : world Gateway) :
  registrar_task (w_state w) = Some false ->
  run e (_loop settings (S n)) w = (inl (OtherError "CancelledError"), tick w).
Proof. intros H. cbn. by rewrite H. Qed.

(** The node keys hold records that can be read, from [t] on. *)
Definition records (d : db) (t : Z) : Prop :=
  forall k u, startswith k "relay:nodes:" = true -> t <= u ->
    match sees d u k with
    | None => True
    | Some (VStr s) => s <> "" /\ is_Some (json_loads s)
    | Some _ => False
    end.

(** [j] was stored under a node key at some time from [t] to [t']. *)
Definition stored_node (d : db) (t t' : Z) (j : json) : Prop :=
  exists k s u, startswith k "relay:nodes:" = true /\ t <= u <= t' /\
    sees d u k = Some (VStr s) /\ json_loads s = Some j.

(** What a page gives, time passing meanwhile. *)
Definition page_nodes (d : db) (keys : list string) (t t' : Z) (js : list json) : Prop :=
  (forall j, j ∈ js -> stored_node d t t' j) /\
  (forall k s j, k ∈ keys -> sees d t' k = Some (VStr s) -> json_loads s = Some j -> j ∈ js).

Lemma stored_node_wider (d : db) (t1 t t' t1' : Z) (j : json) :
  t1 <= t -> t' <= t1' -> stored_node d t t' j -> stored_node d t1 t1' j.
Proof. intros H1 H2 (k & s & u & Hk & Hu & H). exists k, s, u. split; [done|]. split; [lia|done]. Qed.

Lemma run_read_nodes (t0 : Z) (d0 : db) (keys : list string) : forall w : world Gateway,
  records d0 t0 -> still e t0 d0 w ->
  (forall k, k ∈ keys -> startswith k "relay:nodes:" = true) ->
  exists js w', run e (read_nodes keys) w = (inr js, w') /\ still e t0 d0 w' /\
    (w_tick w <= w_tick w')%nat /\ page_nodes d0 keys (at_ w) (at_ w') js.
Proof.
  induction keys as [|k keys IH]; intros w Hr Hw Hk.
  { exists [], w. split_and!; [done|done|lia|split].
    - by intros j []%not_elem_of_nil.
    - by intros k s j []%not_elem_of_nil. }
  cbn [read_nodes]. run_step Hrel. apply law_get in E as [Hsame ->].
  assert (at_ w <= clock e (1 + w_tick w)) as Hle by (apply Hmono; lia).
  destruct (IH (set_db w d) Hr) as (js & w' & Hrun & Hw' & Hle' & Hsound & Hcomplete);
    [by apply still_set_db|intros; apply Hk; by right|].
  assert (clock e (1 + w_tick w) <= at_ w') as Hle1 by (apply Hmono; cbn in *; lia).
  assert (forall j, j ∈ js -> stored_node d0 (at_ w) (at_ w') j) as Hs'.
  { intros j Hj. eapply stored_node_wider; [exact Hle|apply Z.le_refl|by apply Hsound]. }
  destruct Hw as [Hw0 Hws]. pose proof (Hr k (at_ w) (Hk k ltac:(by left)) Hw0) as Hhead.
  rewrite (same_sees _ _ _ _ _ Hws) by lia.
  destruct (sees d0 (at_ w) k) as [[s|h|x|l]|] eqn:Ek; try done.
  - destruct Hhead as [Hne [j Hj]]. destruct s as [|c s]; [done|]. rewrite Hj.
    rewrite run_bind, Hrun. exists (j :: js), w'.
    split_and!; [done|done|cbn in *; lia|split].
    + intros j' [->|Hj']%elem_of_cons; [|by apply Hs'].
      exists k, (String c s), (at_ w). split_and!; [apply Hk; by left|lia|lia|done|done].
    + intros k0 s0 j0 [->|Hin]%elem_of_cons Hs0 Hl0; [|apply elem_of_cons; right; by eapply Hcomplete].
      apply (law_time _ (at_ w)) in Hs0; [|lia]. simplify_eq. apply list_elem_of_here.
  - exists js, w'. split_and!; [done|done|cbn in *; lia|split; [done|]].
    intros k0 s0 j0 [->|Hin]%elem_of_cons Hs0 Hl0; [|by eapply Hcomplete].
    apply (law_time _ (at_ w)) in Hs0; [|lia]. congruence.
Qed.

End Facts.

(** ** Claims *)

(** Dead nodes disappear: a node's record is readable for the node's
    lifetime after its last write and for no longer, whatever the write that
    [mark_draining] or the loop last made, and [list_nodes] reports only
    records read from keys that are alive. *)
Theorem node_record_expires {Rd : Redis} {Rl : RedisLaws} {Jt : JsonText} (settings : Settings)
    (e : env) (w : world Gateway) :
  reliable e -> mono_clock e -> 0 < node_ttl_seconds settings ->
  let t := clock e (3 + w_tick w) in
  exists d', run e (mark_draining settings) w
    = (inr tt, mkWorld (4 + w_tick w) d' (set_node_status "draining" (w_state w)) (w_out w)) /\
  let text := json_dumps (node_record settings "draining" (active_count (store (w_state w)))
                            (clock e (2 + w_tick w))) in
  (forall u, t <= u < t + 1000 * node_ttl_seconds settings ->
     sees d' u (RedisKeys.node (node_id settings)) = Some (VStr text)) /\
  (forall w2 : world Gateway, w_db w2 = d' -> t + 1000 * node_ttl_seconds settings <= clock e (w_tick w2) ->
     forall cursor, exists page w3, run e (redis (SCAN cursor "relay:nodes:")) w2 = (inr page, w3) /\
       RedisKeys.node (node_id settings) ∉ page.2).
Proof.
  intros Hrel Hmono Httl t. unfold mark_draining. rewrite run_bind, run_modify.
  destruct (run_write settings e Hrel
    (mkWorld (1 + w_tick w) (w_db w) (set_node_status "draining" (w_state w)) (w_out w)) Httl)
    as (d & Hrun & Hs).
  exists d. split; [unfold suppressed; by rewrite run_catch, Hrun|].
  cbn [w_tick w_db w_state node_status set_node_status store] in Hs. split.
  - intros u [Hu Hu']. rewrite Hs, bool_decide_true by done. by apply expiring_before.
  - intros w2 Hdb Hlate cursor. rewrite run_redis by apply Hrel.
    destruct (rexec (SCAN _ _) _ _) as [r d2] eqn:E. apply law_scan in E as [_ (c' & ks & -> & Hks)].
    eexists (c', ks), _. split; [reflexivity|]. intros [_ [v Hv]]%Hks.
    assert (t <= clock e (w_tick w2)) as Hle by lia.
    rewrite Hdb, (Hs _ _ Hle), bool_decide_true in Hv by done.
    by rewrite expiring_after in Hv by exact Hlate.
Qed.

Lemma node_record_expires_witness :
  exists d', run calm (mark_draining (Jt := sample_json) default_settings)
    (ref_world 0 Ref.empty initial_gateway)
    = (inr tt, ref_world 4 d' (set_node_status "draining" initial_gateway)).
Proof.
  destruct (node_record_expires (Rd := Ref.ref_redis) (Jt := sample_json) default_settings calm
    (ref_world 0 Ref.empty initial_gateway) calm_reliable calm_mono eq_refl) as (d' & Hrun & _).
  exists d'. exact Hrun.
Defined.

(** [list_nodes] reports the live nodes: when the node keys hold readable
    records, it returns, given the pages the server needs; every record it returns
    was stored under a node key that was alive during the call, and it includes
    the record of every node whose record has not expired by its end. *)
Theorem list_nodes_reports_live {Rd : Redis} {Rl : RedisLaws} {Jt : JsonText} (e : env)
    (w : world Gateway) :
  reliable e -> mono_clock e -> records (w_db w) (clock e (w_tick w)) ->
  exists pages, forall fuel, (pages <= fuel)%nat ->
  exists js w', run e (list_nodes fuel) w = (inr js, w') /\
    (forall j, j ∈ js -> stored_node (w_db w) (clock e (w_tick w)) (clock e (w_tick w')) j) /\
    (forall nid s j, sees (w_db w) (clock e (w_tick w')) (RedisKeys.node nid) = Some (VStr s) ->
       json_loads s = Some j -> j ∈ js).
Proof.
  intros Hrel Hmono Hr.
  destruct (run_scan_iter e Hrel Hmono "relay:nodes:" (clock e (w_tick w)) (w_db w) read_nodes
              (page_nodes (w_db w))) as [n Hn].
  { intros ks w0 Hw0 Hks. by apply run_read_nodes. }
  exists n. intros fuel Hf.
  destruct (Hn fuel w Hf) as (xss & w' & pages & Hrun & _ & Hle & Hg & _ & Hall); [by split|].
  exists (concat xss), w'. split; [exact Hrun|]. split.
  - intros j (xs & Hxs & Hj)%elem_of_concat. apply list_elem_of_lookup in Hxs as [i Hi].
    destruct (Forall2_lookup_r _ _ _ _ _ Hg Hi) as (ks & _ & u & u' & H1 & H2 & Hv & _).
    eapply stored_node_wider; [| |by apply Hv]; done.
  - intros nid s j Hs Hl. destruct (Hall (RedisKeys.node nid)) as (ks & Hks & Hk);
      [apply startswith_app|eauto|].
    apply list_elem_of_lookup in Hks as [i Hi].
    destruct (Forall2_lookup_l _ _ _ _ _ Hg Hi) as (xs & Hxs & u & u' & H1 & H2 & _ & Hc).
    apply elem_of_concat. exists xs. split; [by eapply list_elem_of_lookup_2|].
    apply (Hc (RedisKeys.node nid) s); [done|by eapply law_time|done].
Qed.

(** One node on the reference server. *)
Definition one_node_db : Ref.rdb := {|
  Ref.keys := {[ RedisKeys.node "n1" := (VStr "n7", None) ]};
  Ref.log := []
|}.

Lemma one_node_sees u k :
  sees (Redis := Ref.ref_redis) one_node_db u k = if decide (RedisKeys.node "n1" = k)
                                                 then Some (VStr "n7") else None.
Proof.
  change (sees (Redis := Ref.ref_redis)) with Ref.rsees. unfold Ref.rsees, Ref.look, one_node_db, Ref.keys.
  destruct (decide (RedisKeys.node "n1" = k)) as [<-|Hne].
  - by rewrite lookup_singleton_eq.
  - by rewrite lookup_singleton_ne.
Qed.

Lemma list_nodes_reports_live_witness :
  exists fuel js w', run calm (list_nodes (Jt := sample_json) fuel)
      (ref_world 0 one_node_db initial_gateway) = (inr js, w') /\ JObj (payload_n 7) ∈ js.
Proof.
  destruct (list_nodes_reports_live (Rd := Ref.ref_redis) (Jt := sample_json) calm
    (ref_world 0 one_node_db initial_gateway) calm_reliable calm_mono) as (n & Hn).
  - intros k u _ _. cbn [w_db ref_world]. rewrite one_node_sees. case_decide; [|done].
    split; [done|by eexists].
  - destruct (Hn n (le_n n)) as (js & w' & Hrun & _ & Hc).
    exists n, js, w'. split; [exact Hrun|]. apply (Hc "n1" "n7"); [|reflexivity].
    cbn [w_db ref_world]. rewrite one_node_sees. by rewrite decide_True.
Defined.
