(* ===== verification/Lifespan.v ===== *)
(** * Start-up and graceful shutdown ([apps/gateway/main.py], [lifespan]) *)
From Stdlib Require Import ZArith Lia.
From stdpp Require Import base gmap strings list sets.
From S2P Require Import Prelude Config Frames Keys RedisApi Async Tasks RefRedis Samples Auth Connection Registry State Rooms Isolation Http Nodes.

Section Lifespan.
Context {Jt : JsonText} {Py : Pydantic}.
Variable settings : Settings.

(** A new registrar, its start, and the flag of the application; the log and the
    Redis client are in [Process]. *)
Definition lifespan_startup : proc Gateway (nat -> proc Gateway unit) :=
  modify (fun g => set_registrar_task None (set_node_status "active" g)) ;;
  let! loop := start settings in
  modify (set_draining false) ;;
  Ret loop.

(** The [finally] block, up to the closing of the Redis client ([Process]). *)
Definition lifespan_shutdown : proc Gateway unit :=
  modify (set_draining true) ;;
  mark_draining settings ;;
  _drain_connections ;;
  Rooms.shutdown ;;
  stop settings.

End Lifespan.

Section Facts.
Context {Rd : Redis} {Rl : RedisLaws} {Jt : JsonText} {Py : Pydantic}.
Variable settings : Settings.
Variable e : env.
Hypothesis Hws : forall n, ws_ok e n = true.

(** What a client is sent. *)
Definition goodbye (conn : Connection) : list ws_event :=
  [WsSent (websocket conn) (dump (DisconnectFrame "NODE_DRAINING")); WsClosed (websocket conn) 4503].

Lemma run_goodbyes (conns : list Connection) : forall w : world Gateway,
  run e (for_each conns (fun conn =>
    catch (send_text (websocket conn) (dump (DisconnectFrame "NODE_DRAINING"))) (fun _ => Ret tt) ;;
    catch (close (websocket conn) 4503) (fun _ => Ret tt))) w =
  (inr tt, mkWorld (2 * length conns + w_tick w) (w_db w) (w_state w)
             (w_out w ++ concat (goodbye <$> conns))).
Proof.
  induction conns as [|c conns IH]; intros w; cbn [for_each].
  - cbn. rewrite app_nil_r. by destruct w.
  - rewrite run_bind, run_bind, run_catch. cbn [run send_text do_ev]. rewrite Hws. cbn [run lift].
    rewrite run_catch. cbn [run close do_ev w_tick]. rewrite Hws. cbn [run lift].
    rewrite IH. cbn [w_tick w_db w_state w_out length fmap list_fmap concat goodbye].
    f_equal. f_equal; [lia|]. by rewrite <- !app_assoc.
Qed.

End Facts.

Lemma halted_fields (g : Gateway) :
  draining (halted g) = draining g /\ node_status (halted g) = node_status g /\
  manager (halted g) = manager g /\ listener_tasks (halted g) = listener_tasks g.
Proof. unfold halted. by destruct (registrar_task g). Qed.

(** [stop] on a server that answers: the record is gone from its end on. *)
Lemma run_stop {Rd : Redis} {Rl : RedisLaws} (settings : Settings) (e : env) (w : world Gateway) :
  reliable e ->
  exists w', run e (stop settings) w = (inr tt, w') /\ w_state w' = halted (w_state w) /\
    (w_tick w < w_tick w')%nat /\ w_out w' = w_out w /\
    forall u, clock e (w_tick w' - 1) <= u ->
      sees (w_db w') u (RedisKeys.node (node_id settings)) = None.
Proof.
  intros Hrel. unfold stop, halted. rewrite run_bind, run_gets.
  assert (forall v : world Gateway, exists w', run e (suppressed (redis (DEL [RedisKeys.node (node_id settings)]))) v
    = (inr tt, w') /\ w_state w' = w_state v /\ w_tick w' = S (w_tick v) /\ w_out w' = w_out v /\
    forall u, clock e (w_tick v) <= u -> sees (w_db w') u (RedisKeys.node (node_id settings)) = None) as H.
  { intros v. unfold suppressed. rewrite run_catch, run_redis by apply Hrel.
    destruct (rexec (DEL _) _ _) as [r d2] eqn:E. apply law_del in E as (-> & _ & Hdel).
    eexists. split; [reflexivity|]. split_and!; [done..|]. intros u Hu.
    rewrite Hdel, bool_decide_true; [done|set_solver|done]. }
  destruct (registrar_task (w_state w)); rewrite run_bind; [rewrite run_bind, run_modify|];
    cbn [run sleep do_ev];
    match goal with |- context [run e (suppressed _) ?v] =>
      destruct (H v) as (w' & -> & Hs & Ht & Ho & Hd) end;
    exists w'; rewrite Ht; cbn [w_tick tick] in *; (split_and!; [done|done|lia|done|]);
    intros u Hu; apply Hd; by rewrite Nat.sub_succ, Nat.sub_0_r in Hu.
Qed.

(** [shutdown] stops the tasks of the manager. *)
Lemma stopped_tasks (ts : list nat) (m : gmap nat ListenerTask) t task :
  foldr (alter stop_task) m ts !! t = Some task -> t ∈ ts ->
  lt_stop task = true /\ lt_cancelled task = true.
Proof.
  revert task. induction ts as [|t0 ts IH]; intros task; cbn; [by intros _ []%not_elem_of_nil|].
  rewrite lookup_alter. intros H Hin. destruct (decide (t0 = t)) as [->|Hne].
  - apply fmap_Some in H as (x & _ & ->). done.
  - apply (IH task); [done|]. set_solver.
Qed.

(** The connections the registry knows. *)
Definition registered (g : Gateway) : list Connection :=
  omap (M := list) (fun l => conn_at l g) (all_connections (store g)).

(** C35.  Graceful shutdown: with Redis and the sockets answering, the node
    first marks itself draining, so that it refuses new sockets, then tells
    every registered connection to reconnect elsewhere and closes it with 4503,
    stops every listener, cancels the registrar's loop, which writes no record any
    more, and finally removes its node record. *)
Theorem shutdown_drains {Rd : Redis} {Rl : RedisLaws} {Jt : JsonText} {Py : Pydantic}
    (settings : Settings) (e : env) (w : world Gateway) :
  reliable e -> mono_clock e -> (forall n, ws_ok e n = true) -> 0 < node_ttl_seconds settings ->
  exists w', run e (lifespan_shutdown settings) w = (inr tt, w') /\
    draining (w_state w') = true /\ node_status (w_state w') = "draining" /\
    w_out w' = w_out w ++ concat (goodbye <$> registered (w_state w)) /\
    (forall ch t, _listeners (manager (w_state w)) !! ch = Some t ->
       _listeners (manager (w_state w')) !! ch = None /\
       forall task, listener_tasks (w_state w') !! t = Some task ->
         lt_stop task = true /\ lt_cancelled task = true) /\
    (registrar_task (w_state w) <> None -> forall n w2, w_state w2 = w_state w' ->
       run e (_loop settings (S n)) w2 = (inl (OtherError "CancelledError"), tick w2)) /\
    (forall u, clock e (w_tick w') <= u ->
       sees (w_db w') u (RedisKeys.node (node_id settings)) = None) /\
    (forall ws w2, w_state w2 = w_state w' ->
       run e (websocket_endpoint ws) w2 =
       (inr false, mkWorld (2 + w_tick w2) (w_db w2) (w_state w2) (w_out w2 ++ [WsClosed ws 4503]))).
Proof.
  intros Hrel Hmono Hws Httl. unfold lifespan_shutdown, mark_draining.
  rewrite run_bind, run_modify, run_bind, run_bind, run_modify.
  set (w1 := mkWorld (1 + _) _ _ _).
  destruct (run_write settings e Hrel w1 Httl) as (d & Hrun & _).
  unfold suppressed at 1. rewrite run_catch, Hrun, run_bind.
  unfold _drain_connections. cbv zeta. rewrite run_bind.
  rewrite run_gets, (run_goodbyes e Hws), run_bind. unfold Rooms.shutdown. rewrite run_modify.
  match goal with |- context [run e (stop settings) ?v] => set (w2 := v) end.
  destruct (run_stop settings e w2 Hrel) as (w3 & Hstop & Hst & Hle & Ho & Hdel).
  exists w3. split; [exact Hstop|]. rewrite Hst, Ho.
  destruct (halted_fields (w_state w2)) as (Hd & Hns & Hm & Hlt). rewrite Hd, Hns, Hm, Hlt.
  split; [done|]. split; [done|]. split; [done|]. split; [|split; [|split]].
  - intros ch t Ht. split; [apply lookup_empty|]. intros task Htask.
    eapply stopped_tasks; [exact Htask|]. apply list_elem_of_fmap. exists (ch, t).
    split; [done|]. by apply elem_of_map_to_list.
  - intros Hreg n w4 Hw4. apply run_loop_halted. rewrite Hw4. unfold halted.
    change (registrar_task (w_state w2)) with (registrar_task (w_state w)).
    by destruct (registrar_task (w_state w)).
  - intros u Hu. apply Hdel. etransitivity; [|exact Hu]. apply Hmono. lia.
  - intros ws w4 Hw4. unfold websocket_endpoint. rewrite run_bind.
    rewrite run_gets, Hw4, Hd. cbn. rewrite Hws. cbn. by rewrite Hw4.
Qed.

Lemma shutdown_drains_witness :
  exists w', run calm (lifespan_shutdown (Jt := sample_json) (Py := sample_pydantic) default_settings)
      (ref_world 0 Ref.empty two_gateway) = (inr tt, w') /\
    draining (w_state w') = true.
Proof.
  destruct (shutdown_drains (Rd := Ref.ref_redis) (Jt := sample_json) (Py := sample_pydantic)
    default_settings calm (ref_world 0 Ref.empty two_gateway) calm_reliable calm_mono
    (fun _ => eq_refl) eq_refl) as (w' & Hrun & Hd & _).
  exists w'. split; [exact Hrun|exact Hd].
Defined.
