(* ===== verification/Process.v ===== *)
(** * The processes: gateway and control plane
    ([apps/gateway/main.py] and [apps/control_plane/main.py], [lifespan])

    A process has its module-level objects ([Clients]), its root logger
    ([Logging]) and, for a gateway, the state of [State].  [within] runs a
    coroutine of the gateway's state inside a process; the two lifespans are the
    whole bodies of the two context managers, before and after their [yield]. *)
From Stdlib Require Import ZArith Lia.
From stdpp Require Import base gmap strings list sets.
From S2P Require Import Prelude Config Frames Json Logging Keys RedisApi Async Tasks RefRedis Samples Auth Connection Registry State Clients Rooms Isolation Http Nodes Lifespan.

Record Process := mkProcess {
  globals : Globals;
  logs : LogState;
  gateway : Gateway
}.

Definition on_globals (f : Globals -> Globals) (p : Process) : Process :=
  mkProcess (f (globals p)) (logs p) (gateway p).
Definition on_logs (f : LogState -> LogState) (p : Process) : Process :=
  mkProcess (globals p) (f (logs p)) (gateway p).

(** ** A coroutine of a part of the state *)
Definition within_ev {A} (x : ev Gateway A) : ev Process A :=
  match x in ev _ A return ev Process A with
  | ERedis c => ERedis c
  | ENow => ENow
  | EUuid => EUuid
  | ELocal f => ELocal (fun p => let '(a, g) := f (gateway p) in
                                 (a, mkProcess (globals p) (logs p) g))
  | ESend ws text => ESend ws text
  | EClose ws code => EClose ws code
  | ESleep ms => ESleep ms
  end.

Fixpoint within {A} (p : proc Gateway A) : proc Process A :=
  match p with
  | Ret a => Ret a
  | Throw x => Throw x
  | Call x k => Call (within_ev x) (fun b => within (k b))
  end.

Section Within.
Context {Rd : Redis}.
Variable e : env.

Definition inner (w : world Process) : world Gateway :=
  mkWorld (w_tick w) (w_db w) (gateway (w_state w)) (w_out w).
Definition outer (p : Process) (w : world Gateway) : world Process :=
  mkWorld (w_tick w) (w_db w) (mkProcess (globals p) (logs p) (w_state w)) (w_out w).

Lemma do_within {A} (x : ev Gateway A) (w : world Process) :
  do_ev e (within_ev x) w =
  ((do_ev e x (inner w)).1, outer (w_state w) (do_ev e x (inner w)).2).
Proof.
  destruct w as [n d [g l h] o].
  destruct x; cbn; repeat (case_match; simplify_eq/=); done.
Qed.

(** Running inside the process leaves the other parts alone. *)
Lemma run_within {A} (p : proc Gateway A) : forall w : world Process,
  run e (within p) w =
  ((run e p (inner w)).1, outer (w_state w) (run e p (inner w)).2).
Proof.
  induction p as [a|x|B x k IH]; intros w; cbn; [by destruct w as [? ? [] ?]..|].
  rewrite do_within. destruct (do_ev e x (inner w)) as [b w'] eqn:E. cbn. rewrite IH. cbn.
  by destruct w'.
Qed.

End Within.

(** ** The lifespans *)
Section Lifespans.
Context {Jt : JsonText} {Py : Pydantic}.
Variable settings : Settings.

(** [log_event(logger, logging.INFO, event, node_id=settings.node_id)]. *)
Definition log_node_event (event : string) : proc Process unit :=
  let! t := now in
  modify (on_logs (log_event "relay.gateway" INFO event
                     [("node_id", JStr (node_id settings))] t)).

Definition gateway_startup : proc Process (nat -> proc Process unit) :=
  modify (on_logs (configure_logging INFO)) ;;
  modify (on_globals (fun g => (get_redis settings g).2)) ;;
  let! loop := within (lifespan_startup settings) in
  log_node_event "gateway_started" ;;
  Ret (fun n => within (loop n)).

(** [await close_redis()]. *)
Definition await_close (closing : option exn) : proc Process unit :=
  sleep 0 ;;
  let! r := local (fun p => let '(r, g) := close_redis closing (globals p) in
                            (r, on_globals (fun _ => g) p)) in
  lift r.

(** The manager that [get_subscription_manager] returns is the one of the gateway's state. *)
Definition gateway_shutdown (closing : option exn) : proc Process unit :=
  within (modify (set_draining true) ;; mark_draining settings ;; _drain_connections) ;;
  modify (on_globals (fun g => (get_subscription_manager settings g).2)) ;;
  within (Rooms.shutdown ;; stop settings) ;;
  await_close closing ;;
  log_node_event "gateway_stopped".

Definition control_plane_startup : proc Process unit :=
  modify (on_logs (configure_logging INFO)).

Definition control_plane_shutdown (closing : option exn) : proc Process unit :=
  await_close closing.

End Lifespans.

(** ** Behaviour, whatever Redis and the sockets do *)
Section Facts.
Context {Rd : Redis} {Jt : JsonText} {Py : Pydantic}.
Variable settings : Settings.
Variable e : env.

(** A coroutine that ends well without touching the state. *)
Definition harmless_run {S} (p : proc S unit) : Prop := forall w : world S,
  exists w', run e p w = (inr tt, w') /\ w_state w' = w_state w.

Lemma write_harmless : harmless_run (suppressed (_write settings)).
Proof.
  intros w. unfold suppressed, _write, redis. rewrite run_catch. cbn.
  destruct (request _ _ _ _) as [[x|[]] d]; cbn; eauto.
Qed.

Lemma run_stop_any (w : world Gateway) :
  exists w', run e (stop settings) w = (inr tt, w') /\ w_state w' = halted (w_state w).
Proof.
  unfold stop, halted. rewrite run_bind, run_gets.
  assert (harmless_run (suppressed (redis (DEL [RedisKeys.node (node_id settings)])))) as H.
  { intros v. unfold suppressed, redis. rewrite run_catch. cbn.
    destruct (request _ _ _ _) as [[x|[]] d]; cbn; eauto. }
  destruct (registrar_task (w_state w)); rewrite run_bind; [rewrite run_bind, run_modify|];
    cbn [run sleep do_ev]; match goal with |- context [run e (suppressed _) ?v] => apply (H v) end.
Qed.

Lemma caught_event_harmless (x : ev Gateway (exn + unit)) :
  (forall w, w_state (do_ev e x w).2 = w_state w) ->
  harmless_run (catch (Call x lift) (fun _ => Ret tt)).
Proof.
  intros Hx w. cbn. specialize (Hx w). destruct (do_ev e x w) as [[y|[]] w']; cbn in *; eauto.
Qed.

Lemma bind_harmless {S} (p q : proc S unit) :
  harmless_run p -> harmless_run q -> harmless_run (p ;; q).
Proof.
  intros Hp Hq w. rewrite run_bind. destruct (Hp w) as (w1 & -> & H1).
  destruct (Hq w1) as (w2 & H & H2). exists w2. split; [done|congruence].
Qed.

Lemma for_each_harmless {S A} (f : A -> proc S unit) (l : list A) :
  (forall a, harmless_run (f a)) -> harmless_run (for_each l f).
Proof.
  intros Hf. induction l as [|a l IH]; [intros w; cbn; eauto|]. by apply bind_harmless.
Qed.

Lemma drain_harmless : harmless_run _drain_connections.
Proof.
  intros w. unfold _drain_connections. cbv zeta. rewrite run_bind, run_gets.
  refine (let H := for_each_harmless _ _ _ (tick w) in _). Unshelve.
  - destruct H as (w' & Hr & Hs). exists w'. split; [exact Hr|exact Hs].
  - intros c. apply bind_harmless; apply caught_event_harmless; intros w0; cbn;
      by destruct (ws_ok e _).
Qed.

(** The line of a lifespan event. *)
Definition node_line (event : string) (t : Z) : string :=
  format (mkRecord t "INFO" "relay.gateway" event
            (Some [("event", JStr event); ("node_id", JStr (node_id settings))])).

(** The root logger as [configure_logging()] leaves it. *)
Definition configured (l : LogState) : Prop := root_level l = INFO /\ Logging.handlers l = 1%nat.

Lemma run_log_node_event (event : string) (w : world Process) :
  configured (logs (w_state w)) ->
  exists w', run e (log_node_event settings event) w = (inr tt, w') /\
    globals (w_state w') = globals (w_state w) /\ gateway (w_state w') = gateway (w_state w) /\
    configured (logs (w_state w')) /\
    stdout (logs (w_state w')) = stdout (logs (w_state w)) ++ [node_line event (clock e (w_tick w))].
Proof.
  intros [Hl Hh]. eexists. split; [reflexivity|].
  cbn [w_state on_logs globals gateway logs]. unfold log_event. rewrite Hl, Hh. done.
Qed.

Lemma run_lifespan_startup (w : world Gateway) :
  exists w', run e (lifespan_startup settings) w = (inr (_loop settings), w') /\
    w_state w' = set_draining false (set_registrar_task (Some true)
                   (set_node_status "active" (w_state w))).
Proof.
  unfold lifespan_startup, start. rewrite run_bind, run_modify, run_bind, run_bind.
  destruct (write_harmless (mkWorld (1 + w_tick w) (w_db w)
              (set_registrar_task None (set_node_status "active" (w_state w))) (w_out w))) as (w1 & -> & H1).
  cbn. eexists. split; [reflexivity|]. cbn. by rewrite H1.
Qed.

Lemma run_drain (w : world Gateway) :
  exists w', run e (modify (set_draining true) ;; mark_draining settings ;; _drain_connections) w
             = (inr tt, w') /\
    w_state w' = set_node_status "draining" (set_draining true (w_state w)).
Proof.
  unfold mark_draining. rewrite run_bind, run_modify, run_bind, run_bind, run_modify.
  destruct (bind_harmless _ _ write_harmless drain_harmless
    (mkWorld (1 + (1 + w_tick w)) (w_db w)
       (set_node_status "draining" (set_draining true (w_state w))) (w_out w))) as (w' & Hr & Hs).
  rewrite run_bind in Hr. exists w'. split; [exact Hr|exact Hs].
Qed.

Lemma run_halt (w : world Gateway) :
  exists w', run e (Rooms.shutdown ;; stop settings) w = (inr tt, w') /\
    w_state w' = halted (w_state (run e Rooms.shutdown w).2).
Proof.
  rewrite run_bind. unfold Rooms.shutdown. rewrite run_modify. apply run_stop_any.
Qed.

Lemma pooled_open (g : Globals) :
  pooled settings g ->
  let g' := (get_redis settings g).2 in
  (forall c' o, clients g' !! c' = Some (o, true) <->
                c' = (get_redis settings g).1 /\ o = redis_options settings) /\
  get_redis settings g' = ((get_redis settings g).1, g').
Proof.
  intros Hp g'. pose proof (pooled_step settings _ _ (gl_get settings g) Hp) as Hp'.
  assert (_pool g' = Some (get_redis settings g).1) as Hpool
    by (unfold g', get_redis; by destruct (_pool g) eqn:?).
  split; [|unfold get_redis at 1; by rewrite Hpool].
  intros c' o. fold g' in Hp'. rewrite (Hp' c' o), Hpool. naive_solver.
Qed.

Lemma pooled_closed (g : Globals) :
  pooled settings g ->
  forall c o, clients (close_redis None (get_subscription_manager settings g).2).2 !! c <> Some (o, true).
Proof.
  intros Hp c o H.
  pose proof (pooled_step settings _ _ (gl_manager settings g) Hp) as Hp1.
  apply (pooled_step settings _ _ (gl_close settings None _) Hp1) in H as [H _].
  unfold close_redis in H. by destruct (_pool (get_subscription_manager settings g).2) eqn:E;
    cbn in H; rewrite ?E in H.
Qed.

(** How closing ends, on a client that is pooled or not. *)
Lemma closed_well (closing : option exn) (g : Globals) :
  closing = None \/ _pool g = None ->
  close_redis closing (get_subscription_manager settings g).2 =
  (inr tt, (close_redis None (get_subscription_manager settings g).2).2).
Proof.
  unfold close_redis, get_subscription_manager. destruct (subscription_manager g); cbn;
    destruct (_pool g); intros [->|?]; try done; by destruct closing.
Qed.

Lemma closed_badly (x : exn) (c : nat) (g : Globals) :
  _pool g = Some c ->
  let g' := (get_subscription_manager settings g).2 in
  close_redis (Some x) g' = (inl x, g') /\ _pool g' = Some c.
Proof.
  unfold close_redis, get_subscription_manager. intros H. by destruct (subscription_manager g); cbn; rewrite H.
Qed.

Lemma run_gateway_startup (w : world Process) :
  exists w1, run e (gateway_startup settings) w
             = (inr (fun n => within (_loop settings n)), w1) /\
    globals (w_state w1) = (get_redis settings (globals (w_state w))).2 /\
    gateway (w_state w1) = set_draining false (set_registrar_task (Some true)
                             (set_node_status "active" (gateway (w_state w)))) /\
    configured (logs (w_state w1)) /\
    exists t, stdout (logs (w_state w1)) =
              stdout (logs (w_state w)) ++ [node_line "gateway_started" t].
Proof.
  unfold gateway_startup. rewrite run_bind, run_modify, run_bind, run_modify, run_bind, run_within.
  destruct (run_lifespan_startup (inner (mkWorld (1 + (1 + w_tick w)) (w_db w)
    (on_globals (fun g => (get_redis settings g).2)
       (on_logs (configure_logging INFO) (w_state w))) (w_out w)))) as (w' & Hr & Hs).
  cbn [w_tick w_db w_state w_out] in *. rewrite Hr. cbn [fst snd]. rewrite run_bind.
  destruct (run_log_node_event "gateway_started" (outer
    (on_globals (fun g => (get_redis settings g).2) (on_logs (configure_logging INFO) (w_state w))) w'))
    as (w1 & Hl & Hg & Hgw & Hc & Ho); [done|].
  rewrite Hl. exists w1. split; [done|]. rewrite Hg, Hgw. split; [done|].
  split; [exact Hs|]. split; [done|]. eexists. exact Ho.
Qed.

(** What shutdown has done before it closes the client. *)
Definition drained (g g' : Gateway) : Prop :=
  draining g' = true /\ node_status g' = "draining" /\ _listeners (manager g') = ∅ /\
  registrar_task g' <> Some true /\ store g' = store g.

Lemma drained_halted (g : Gateway) (w : world Gateway) :
  w_state w = set_node_status "draining" (set_draining true g) ->
  drained g (halted (w_state (run e Rooms.shutdown w).2)).
Proof.
  intros H. unfold Rooms.shutdown. rewrite run_modify. cbn [w_state snd]. rewrite H.
  unfold halted, drained. cbn. destruct (registrar_task g) eqn:E; cbn; rewrite ?E; by split_and!.
Qed.

Lemma run_gateway_shutdown (closing : option exn) (w : world Process) :
  configured (logs (w_state w)) ->
  let closed := close_redis closing (get_subscription_manager settings (globals (w_state w))).2 in
  exists w1, run e (gateway_shutdown settings closing) w = (closed.1, w1) /\
    globals (w_state w1) = closed.2 /\ drained (gateway (w_state w)) (gateway (w_state w1)) /\
    match closed.1 with
    | inr _ => exists t, stdout (logs (w_state w1)) =
                 stdout (logs (w_state w)) ++ [node_line "gateway_stopped" t]
    | inl _ => logs (w_state w1) = logs (w_state w)
    end.
Proof.
  intros Hc closed. unfold gateway_shutdown. rewrite run_bind, run_within.
  destruct (run_drain (inner w)) as (w1 & -> & H1). cbn [fst snd].
  rewrite run_bind, run_modify, run_bind, run_within.
  match goal with |- context [run e (Rooms.shutdown ;; stop settings) ?W] =>
    pose proof (drained_halted (gateway (w_state w)) W H1) as Hd;
    destruct (run_halt W) as (w2 & -> & H2) end.
  rewrite <- H2 in Hd. cbn [fst snd]. rewrite run_bind. unfold await_close. rewrite run_bind.
  cbn [run sleep do_ev local outer w_state on_globals globals logs bind].
  fold closed. destruct closed as [[x|[]] g] eqn:Ecl; cbn [lift run].
  { eexists. split; [reflexivity|]. done. }
  match goal with |- context [run e (log_node_event _ _) ?W] =>
    destruct (run_log_node_event "gateway_stopped" W Hc) as (w3 & Hr & Hg & Hgw & _ & Ho) end.
  rewrite Hr. exists w3. split; [done|]. rewrite Hg, Hgw. split_and!; [done|exact Hd|].
  eexists. exact Ho.
Qed.

End Facts.

(** C36.  The life of a gateway process, whatever Redis and the sockets do:
    start-up completes with exactly one Redis client open, the one that
    [get_redis] hands out from then on, the node active, its registrar running, not
    draining, and one line ["gateway_started"] written.  From any later state of
    the process in which logging is still as configured, shutdown leaves the node
    draining, with no listener and no running registrar, and the connections
    otherwise as they were; if the closing of the client ([aclose], which is not
    guarded) succeeds, shutdown completes, no Redis client is left open, and one
    line ["gateway_stopped"] is written; if it raises, shutdown raises the same,
    the client stays pooled, and no line is written. *)
Theorem process_lifespan {Rd : Redis} {Jt : JsonText} {Py : Pydantic}
    (settings : Settings) (e : env) (w : world Process) :
  pooled settings (globals (w_state w)) ->
  exists loop w1, run e (gateway_startup settings) w = (inr loop, w1) /\
    (exists c, forall c' o, clients (globals (w_state w1)) !! c' = Some (o, true) <->
                            c' = c /\ o = redis_options settings) /\
    get_redis settings (globals (w_state w1)) =
      ((get_redis settings (globals (w_state w))).1, globals (w_state w1)) /\
    gateway (w_state w1) = set_draining false (set_registrar_task (Some true)
                             (set_node_status "active" (gateway (w_state w)))) /\
    (exists t, stdout (logs (w_state w1)) =
               stdout (logs (w_state w)) ++ [node_line settings "gateway_started" t]) /\
    configured (logs (w_state w1)) /\ pooled settings (globals (w_state w1)) /\
    forall (closing : option exn) (w2 : world Process),
      configured (logs (w_state w2)) -> pooled settings (globals (w_state w2)) ->
      exists r w3, run e (gateway_shutdown settings closing) w2 = (r, w3) /\
        draining (gateway (w_state w3)) = true /\
        node_status (gateway (w_state w3)) = "draining" /\
        _listeners (manager (gateway (w_state w3))) = ∅ /\
        registrar_task (gateway (w_state w3)) <> Some true /\
        store (gateway (w_state w3)) = store (gateway (w_state w2)) /\
        (closing = None \/ _pool (globals (w_state w2)) = None ->
           r = inr tt /\ (forall c o, clients (globals (w_state w3)) !! c <> Some (o, true)) /\
           exists t, stdout (logs (w_state w3)) =
                     stdout (logs (w_state w2)) ++ [node_line settings "gateway_stopped" t]) /\
        (forall x c, closing = Some x -> _pool (globals (w_state w2)) = Some c ->
           r = inl x /\ _pool (globals (w_state w3)) = Some c /\
           logs (w_state w3) = logs (w_state w2)).
Proof.
  intros Hp. destruct (run_gateway_startup settings e w) as (w1 & Hrun & Hg & Hgw & Hc & Ho).
  destruct (pooled_open settings _ Hp) as [Hopen Hagain]. exists (fun n => within (_loop settings n)), w1. rewrite Hg.
  split; [done|]. split; [by eexists|]. do 4 (split; [done|]).
  split; [by apply (pooled_step settings _ _ (gl_get settings _))|].
  intros closing w2 Hc2 Hp2.
  destruct (run_gateway_shutdown settings e closing w2 Hc2) as (w3 & Hr3 & Hg3 & Hd & Hlog).
  exists (close_redis closing (get_subscription_manager settings (globals (w_state w2))).2).1, w3.
  destruct Hd as (H1 & H2 & H3 & H4 & H5). rewrite Hg3. split_and!; [done..| |].
  - intros Hok. rewrite (closed_well settings closing _ Hok) in Hlog |- *. split; [done|].
    split; [by apply pooled_closed|done].
  - intros x c -> Hpool. destruct (closed_badly settings x c _ Hpool) as [Hcl Hp'].
    rewrite Hcl in Hlog |- *. done.
Qed.

(** A machine on which Redis never answers and every socket is gone. *)
Definition outage : env := mkEnv Z.of_nat (fun _ => NetErr 0) (uuid calm) (fun _ => false).
Definition new_process : Process := mkProcess initial_globals quiet initial_gateway.

Lemma process_lifespan_witness :
  exists loop w1, run outage (gateway_startup (Jt := python_json) default_settings)
      (ref_world 0 Ref.empty new_process) = (inr loop, w1) /\
    (exists r w3, run outage (gateway_shutdown (Jt := python_json) (Py := sample_pydantic)
                                default_settings None) w1 = (r, w3) /\
       r = inr tt /\ forall c o, clients (globals (w_state w3)) !! c <> Some (o, true)) /\
    exists r w3, run outage (gateway_shutdown (Jt := python_json) (Py := sample_pydantic)
                               default_settings (Some RedisConnectionError)) w1 = (r, w3) /\
      draining (gateway (w_state w3)) = true.
Proof.
  destruct (process_lifespan (Rd := Ref.ref_redis) (Jt := python_json) (Py := sample_pydantic)
    default_settings outage (ref_world 0 Ref.empty new_process) (pooled_initial default_settings))
    as (loop & w1 & H1 & _ & _ & _ & _ & Hc & Hp & Hstop).
  exists loop, w1. split; [exact H1|]. split.
  - destruct (Hstop None w1 Hc Hp) as (r & w3 & H3 & _ & _ & _ & _ & _ & Hok & _).
    destruct (Hok (or_introl eq_refl)) as (Hr & Hnone & _).
    exists r, w3. split; [exact H3|]. split; [exact Hr|exact Hnone].
  - destruct (Hstop (Some RedisConnectionError) w1 Hc Hp) as (r & w3 & H3 & Hd & _).
    exists r, w3. split; [exact H3|exact Hd].
Defined.
