(* ===== verification/Stored.v ===== *)
(** * What the gateway stores as JSON is read back as it was

    Three records go through Redis as JSON text: the payload of a stream entry
    ([append_to_channel_buffer], [replay_channel]), the result of an
    idempotent publish ([main.py]) and the node record
    ([nodes/registration.py]).  With Python's codec ([python_json]) each of
    them survives the trip. *)
From Stdlib Require Import ZArith Lia.
From stdpp Require Import base gmap strings list.
From S2P Require Import Prelude Config Frames PyFloat Json JsonLaws Keys RedisApi Async Samples Publisher Replay State Http Nodes.

Section Stored.
Context {Py : Pydantic}.
Variable settings : Settings.

Definition result_ok (r : PublishResult) : bool :=
  is_text (pr_message_id r) && int_ok (pr_sequence r).

Lemma cached_value_ok (r : PublishResult) :
  result_ok r = true -> json_ok (cached_value r) = true.
Proof. intros [H1 H2]%andb_true_iff. cbn. by rewrite H1, H2. Qed.

Lemma node_record_ok (status : string) (n t : Z) :
  is_text (node_id settings) = true -> is_text status = true ->
  int_ok n = true -> int_ok t = true -> json_ok (node_record settings status n t) = true.
Proof. intros H1 H2 H3 H4. cbn. by rewrite H1, H2, H3, H4. Qed.

Lemma entry_readable (id : stream_id) (mid : string) (sq t : Z) (payload : json) :
  json_ok payload = true ->
  parse_entry (Jt := python_json) (id, entry_fields (Jt := python_json) mid sq payload t)
  = Some (mkBuffered mid sq payload t).
Proof.
  intros Hp. unfold parse_entry, entry_fields. cbn. rewrite !py_int_str. cbn.
  rewrite (loads_dumps _ Hp). done.
Qed.

(** C22.  Round trip of everything the gateway keeps in Redis as JSON, with
    Python's [json]: [parse_entry] of [replay_channel] reads a stream entry
    back as the message that [append_to_channel_buffer] stored, for every
    payload Python can print; a repeated publish answers with the result that
    the first one stored; a node record is listed as it was written. *)
Theorem stored_json_roundtrip (id : stream_id) (mid status : string) (sq t n : Z) (payload : json_object)
    (r : PublishResult) :
  (forall s, as_str (JStr s) = Some s) -> (forall z, as_int (JInt z) = Some z) ->
  json_ok (JObj payload) = true -> result_ok r = true ->
  json_ok (node_record settings status n t) = true ->
  parse_entry (Jt := python_json) (id, entry_fields (Jt := python_json) mid sq (JObj payload) t)
    = Some (mkBuffered mid sq (JObj payload) t) /\
  of_cached (Jt := python_json) (json_dumps (JsonText := python_json) (cached_value r)) = Ret r /\
  json_loads (JsonText := python_json)
      (json_dumps (JsonText := python_json) (node_record settings status n t))
    = Some (node_record settings status n t).
Proof.
  intros Hs Hi Hp Hr Hn. split_and!; [by apply entry_readable| |by apply loads_dumps].
  unfold of_cached. cbn [json_loads json_dumps python_json].
  rewrite (loads_dumps _ (cached_value_ok r Hr)).
  unfold str_field, int_field. cbn. rewrite Hs, Hi. by destruct r.
Qed.

End Stored.

Lemma stored_json_roundtrip_witness :
  let payload := [("text", JStr "h\i"); ("n", JArr [JInt (-7); JFloat "1.5"; JNull])] in
  parse_entry (Jt := python_json)
    ((1, 1), entry_fields (Jt := python_json) "m1" 4 (JObj payload) 1000)
  = Some (mkBuffered "m1" 4 (JObj payload) 1000).
Proof.
  exact (proj1 (stored_json_roundtrip (Py := sample_pydantic) tiny_settings (1, 1) "m1" "active" 4 1000 2
    [("text", JStr "h\i"); ("n", JArr [JInt (-7); JFloat "1.5"; JNull])]
    (mkPublishResult "m1" 4) (fun _ => eq_refl) (fun _ => eq_refl)
    ltac:(vm_compute; reflexivity) ltac:(vm_compute; reflexivity) ltac:(vm_compute; reflexivity))).
Defined.
