(* ===== verification/Observability.v ===== *)
(** * Metrics and the operational endpoints
    ([packages/observability/metrics.py],
    the [/health] and [/metrics] endpoints of [apps/gateway/main.py])

    [METRICS] is a [defaultdict(float)]: a counter is only incremented, so its
    value is a float; a gauge is assigned an [int] before it is read, or reads
    the default [0.0].  Values are whole numbers below 2^53, where a float
    prints as the integer followed by [.0]. *)
From Stdlib Require Import Ascii ZArith Lia.
From stdpp Require Import base gmap strings list sets.
From S2P Require Import Prelude Config Frames PyFloat Json JsonLaws RedisApi Async RefRedis Samples Connection Registry State Http.

Module Metrics.

Definition _COUNTERS : list string :=
  ["relay_connections_total"; "relay_connections_rejected_total";
   "relay_disconnects_total"; "relay_messages_received_total";
   "relay_messages_delivered_total"; "relay_messages_acked_total";
   "relay_messages_retried_total"; "relay_messages_dropped_total";
   "relay_slow_consumers_total"; "relay_resume_attempts_total";
   "relay_resume_success_total"; "relay_resume_failures_total";
   "relay_auth_failures_total"; "relay_subscription_rejections_total"].

Definition _GAUGES : list string :=
  ["relay_connections_active"; "relay_queue_depth"; "relay_queue_bytes";
   "relay_active_sessions"; "relay_presence_users"; "relay_fanout_size"].

Definition _HELP : list (string * string) :=
  [("relay_connections_active", "Currently active WebSocket connections on this node");
   ("relay_messages_delivered_total", "Messages written to a client socket");
   ("relay_slow_consumers_total", "Connections disconnected for exceeding queue bounds");
   ("relay_resume_failures_total", "Resume attempts that could not be satisfied")].

Fixpoint help (name : string) (l : list (string * string)) : option string :=
  match l with
  | [] => None
  | (k, v) :: l' => if String.eqb name k then Some v else help name l'
  end.

(** [str(METRICS[name])]. *)
Definition counter_text (m : gmap string Z) (name : string) : string :=
  py_str (default 0 (m !! name)) +:+ ".0".
Definition gauge_text (m : gmap string Z) (name : string) : string :=
  match m !! name with Some z => py_str z | None => "0.0" end.

(** The body of either loop of [render_metrics]. *)
Definition metric_lines (kind : string) (value : string -> string) (name : string) :
    list string :=
  match help name _HELP with
  | Some h => ["# HELP " +:+ name +:+ " " +:+ h]
  | None => []
  end ++ ["# TYPE " +:+ name +:+ " " +:+ kind; name +:+ " " +:+ value name].

Definition newline : string := String "010"%char "".

Definition render_metrics (m : gmap string Z) : string :=
  let lines := flat_map (metric_lines "counter" (counter_text m)) _COUNTERS ++
               flat_map (metric_lines "gauge" (gauge_text m)) _GAUGES in
  join newline lines +:+ newline.

(** ** The exposition format, as a scraper reads it *)

Fixpoint split_lines (acc s : string) : list string :=
  match s with
  | EmptyString => if truthy acc then [acc] else []
  | String c r =>
      if Ascii.eqb c "010"%char then acc :: split_lines "" r
      else split_lines (acc +:+ String c "") r
  end.

(** The text before and after the first space. *)
Fixpoint split_space (s : string) : option (string * string) :=
  match s with
  | EmptyString => None
  | String c r =>
      if Ascii.eqb c " "%char then Some ("", r)
      else '(a, b) ← split_space r; Some (String c a, b)
  end.

(** A comment line gives no sample. *)
Definition sample (line : string) : option (string * string) :=
  if startswith line "#" then None else split_space line.

Definition scrape (text : string) : list (string * string) :=
  omap sample (split_lines "" text).

Definition one_line (s : string) : bool :=
  forall_chars (fun c => negb (Ascii.eqb c "010"%char)) s.

Lemma split_lines_app (a s r : string) :
  one_line s = true -> split_lines a (s +:+ String "010"%char r) = (a +:+ s) :: split_lines "" r.
Proof.
  revert a. induction s as [|c s IH]; intros a; cbn [one_line forall_chars].
  - intros _. rewrite str_app_nil_l, str_app_nil_r. done.
  - unfold one_line. cbn [forall_chars]. intros [Hc Hs]%andb_true_iff.
    rewrite str_app_cons. cbn [split_lines]. destruct (Ascii.eqb c "010"%char); [done|].
    rewrite IH by done. by rewrite str_app_assoc.
Qed.

Lemma split_lines_join (l : list string) (s : string) :
  one_line s = true -> forallb one_line l = true ->
  split_lines "" (join newline (s :: l) +:+ newline) = s :: l.
Proof.
  revert s. induction l as [|t l IH]; intros s Hs Hl.
  - cbn [join]. unfold newline. by rewrite split_lines_app.
  - cbn [forallb] in Hl. apply andb_true_iff in Hl as [Ht Hl].
    rewrite join_two. unfold newline at 1. rewrite str_app_cons, str_app_nil_l.
    rewrite split_lines_app by done. by rewrite IH.
Qed.

Lemma one_line_app (a b : string) : one_line (a +:+ b) = one_line a && one_line b.
Proof. apply forall_chars_app. Qed.

Definition no_space (s : string) : bool :=
  forall_chars (fun c => negb (Ascii.eqb c " "%char)) s.

Lemma split_space_app (a b : string) :
  no_space a = true -> split_space (a +:+ " " +:+ b) = Some (a, b).
Proof.
  unfold no_space. induction a as [|c a IH]; cbn [forall_chars]; [done|].
  intros [Hc Ha]%andb_true_iff. rewrite str_app_cons. cbn [split_space].
  destruct (Ascii.eqb c " "%char); [done|]. by rewrite IH.
Qed.

(** A metric name: a line of its own, without space or comment mark. *)
Definition plain_name (name : string) : bool :=
  one_line name && no_space name && negb (startswith name "#") && truthy name &&
  match help name _HELP with Some h => one_line h | None => true end.

Lemma names_plain : forallb plain_name (_COUNTERS ++ _GAUGES) = true.
Proof. vm_compute. done. Qed.

Lemma sample_name (name value : string) :
  plain_name name = true -> sample (name +:+ " " +:+ value) = Some (name, value).
Proof.
  unfold plain_name. rewrite !andb_true_iff. intros ((((_ & Hs) & Hh) & Ht) & _). unfold sample.
  assert (startswith (name +:+ " " +:+ value) "#" = false) as ->; [|by apply split_space_app].
  destruct name as [|c name]; [done|]. apply not_true_is_false. intros [r E]%startswith_spec.
  rewrite !str_app_cons, str_app_nil_l in E. injection E as -> _.
  apply negb_true_iff in Hh. assert (startswith (String "#"%char name) "#" = true) as Hn.
  { apply startswith_spec. by exists name. }
  congruence.
Qed.

Lemma metric_lines_spec (kind : string) (value : string -> string) (name : string) :
  plain_name name = true -> one_line kind = true -> one_line (value name) = true ->
  forallb one_line (metric_lines kind value name) = true /\
  omap sample (metric_lines kind value name) = [(name, value name)].
Proof.
  intros Hp Hk Hv. pose proof (sample_name name (value name) Hp) as Hs.
  unfold plain_name in Hp. rewrite !andb_true_iff in Hp. destruct Hp as ((((Ho & _) & _) & _) & Hh).
  unfold metric_lines. destruct (help name _HELP) as [h|]; cbn [app forallb omap list_omap];
    rewrite !one_line_app, ?Ho, ?Hk, ?Hv, ?Hh, Hs; done.
Qed.

Lemma render_block (kind : string) (value : string -> string) (names : list string) :
  forallb plain_name names = true -> one_line kind = true ->
  (forall n, one_line (value n) = true) ->
  forallb one_line (flat_map (metric_lines kind value) names) = true /\
  omap sample (flat_map (metric_lines kind value) names) = map (fun n => (n, value n)) names.
Proof.
  intros Hn Hk Hv. induction names as [|n l IH]; [done|]. cbn [forallb flat_map map] in *.
  apply andb_true_iff in Hn as [Hn Hl].
  destruct (metric_lines_spec kind value n Hn Hk (Hv n)) as [H1 H2]. destruct (IH Hl) as [H3 H4].
  rewrite forallb_app, omap_app, H1, H2, H3, H4. done.
Qed.

Lemma py_str_one_line (z : Z) : one_line (py_str z) = true.
Proof. by apply forall_chars_py_str. Qed.

(** What a scraper reads from [render_metrics]: every declared metric once, in
    order, with its current value and no label. *)
Lemma scrape_render (m : gmap string Z) :
  scrape (render_metrics m) =
  map (fun n => (n, counter_text m n)) _COUNTERS ++ map (fun n => (n, gauge_text m n)) _GAUGES.
Proof.
  pose proof names_plain as Hp. rewrite forallb_app in Hp. apply andb_true_iff in Hp as [Hc Hg].
  destruct (render_block "counter" (counter_text m) _COUNTERS Hc eq_refl) as [H1 H2].
  { intros n. unfold counter_text. by rewrite one_line_app, py_str_one_line. }
  destruct (render_block "gauge" (gauge_text m) _GAUGES Hg eq_refl) as [H3 H4].
  { intros n. unfold gauge_text. destruct (m !! n); [apply py_str_one_line|done]. }
  unfold scrape, render_metrics.
  set (lines := flat_map (metric_lines "counter" _) _ ++ _).
  assert (forallb one_line lines = true) as Hl by by unfold lines; rewrite forallb_app, H1, H3.
  assert (split_lines "" (join newline lines +:+ newline) = lines) as ->.
  { destruct lines as [|l ls] eqn:E; [done|]. cbn [forallb] in Hl.
    apply andb_true_iff in Hl as [Hl Hls]. by apply split_lines_join. }
  unfold lines. by rewrite omap_app, H2, H4.
Qed.

End Metrics.

(** ** [/health/live], [/health/ready] and [/metrics] *)
Section Endpoints.
Variable settings : Settings.

Definition health_live : json :=
  JObj [("status", JStr "alive"); ("node_id", JStr (node_id settings))].

(** [type(e).__name__]. *)
Definition class_name (x : exn) : string :=
  match x with
  | SlowConsumerError _ => "SlowConsumerError"
  | RedisConnectionError => "ConnectionError"
  | RedisResponseError _ => "ResponseError"
  | ValidationError => "ValidationError"
  | ValueError _ => "ValueError"
  | AuthenticationError _ => "AuthenticationError"
  | HTTPException _ _ => "HTTPException"
  | WebSocketDisconnect => "WebSocketDisconnect"
  | OtherError text => text
  end.

(** The status code and the body. *)
Definition health_ready : proc Gateway (Z * json) :=
  let! check := catch (redis REDIS_PING ;; Ret "ok")
                  (fun x => Ret ("error: " +:+ class_name x)) in
  let! d := gets draining in
  let ready := String.eqb check "ok" && negb d in
  Ret (if ready then 200 else 503,
       JObj [("ready", JBool ready); ("checks", JObj [("redis", JStr check)]);
             ("draining", JBool d)]).

(** The connections of the registry, [registry.all_connections()]. *)
Definition connections (g : Gateway) : list Connection :=
  omap (M := list) (fun l => conn_at l g) (all_connections (store g)).

Definition sum_over (f : Connection -> Z) (g : Gateway) : Z :=
  foldr (fun c n => f c + n) 0 (connections g).

(** [{c.user_id for c in registry.all_connections() if c.user_id}]. *)
Definition presence_users (g : Gateway) : gset string :=
  list_to_set (omap (fun c => match user_id c with
                              | Some u => if truthy u then Some u else None
                              | None => None
                              end) (connections g)).

Definition metrics : proc Gateway string :=
  modify (fun g => metric_set "relay_connections_active" (active_count (store g)) g) ;;
  modify (fun g => metric_set "relay_queue_depth" (sum_over queue_depth g) g) ;;
  modify (fun g => metric_set "relay_queue_bytes" (sum_over queue_bytes g) g) ;;
  modify (fun g => metric_set "relay_presence_users" (Z.of_nat (size (presence_users g))) g) ;;
  gets (fun g => Metrics.render_metrics (METRICS g)).

End Endpoints.

(** The sample values that a scrape of [/metrics] shows for a gateway state. *)
Definition reported (g : Gateway) : list (string * string) :=
  map (fun n => (n, Metrics.counter_text (METRICS g) n)) Metrics._COUNTERS ++
  [("relay_connections_active", py_str (active_count (store g)));
   ("relay_queue_depth", py_str (sum_over queue_depth g));
   ("relay_queue_bytes", py_str (sum_over queue_bytes g));
   ("relay_active_sessions", Metrics.gauge_text (METRICS g) "relay_active_sessions");
   ("relay_presence_users", py_str (Z.of_nat (size (presence_users g))));
   ("relay_fanout_size", Metrics.gauge_text (METRICS g) "relay_fanout_size")].

(** A scrape of [/metrics] reads every declared metric exactly once, in
    the order of the tables and without labels: the counters as they stand,
    and the gauges of connections, queued frames, queued bytes and users as
    the registry has them at that moment.  The endpoint changes nothing but
    [METRICS]. *)
Theorem metrics_report {Rd : Redis} (e : env) (w : world Gateway) :
  exists text w',
    run e metrics w = (inr text, w') /\
    Metrics.scrape text = reported (w_state w) /\
    w_db w' = w_db w /\ w_out w' = w_out w /\
    store (w_state w') = store (w_state w) /\ manager (w_state w') = manager (w_state w) /\
    listener_tasks (w_state w') = listener_tasks (w_state w) /\
    draining (w_state w') = draining (w_state w).
Proof.
  destruct w as [n d g o]. eexists _, _. split; [reflexivity|].
  split; [|done]. rewrite Metrics.scrape_render. unfold reported. f_equal.
  - apply map_ext_in. intros x Hx. f_equal. unfold Metrics.counter_text. do 2 f_equal.
    cbn in Hx. repeat destruct Hx as [<-|Hx];
      [cbn [METRICS metric_set w_state tick]; by rewrite !lookup_insert_ne..|done].
  - unfold Metrics._GAUGES, Metrics.gauge_text. cbn [map METRICS metric_set w_state tick].
    repeat first [rewrite lookup_insert_eq | rewrite lookup_insert_ne by done]. done.
Qed.

Lemma ping_same {Rd : Redis} {Rl : RedisLaws} (t : Z) (d : db) :
  same t d (exec_once REDIS_PING t d).
Proof.
  unfold exec_once. destruct (rexec REDIS_PING t d) as [r d'] eqn:E.
  by apply law_ping in E as [_ E].
Qed.

(** [/health/ready] answers 200 exactly when Redis replies to PING and
    the node is not draining, and 503 otherwise; it always answers, names the
    failure, and changes nothing that can be observed.  A ready node accepts
    WebSockets. *)
Theorem health_ready_spec {Rd : Redis} {Rl : RedisLaws} (e : env) (w : world Gateway) (ws : nat) :
  let d := draining (w_state w) in
  let up := match net e (w_tick w) with NetOk _ => true | NetErr _ => false end in
  let ready := up && negb d in
  exists w',
    run e health_ready w =
      (inr (if ready then 200 else 503,
            JObj [("ready", JBool ready);
                  ("checks", JObj [("redis", JStr (if up then "ok" else "error: ConnectionError"))]);
                  ("draining", JBool d)]), w') /\
    w_state w' = w_state w /\ w_out w' = w_out w /\
    same (clock e (w_tick w)) (w_db w) (w_db w') /\
    (ready = true -> (run e (websocket_endpoint ws) w').1 = inr true).
Proof.
  intros d up ready.
  assert (forall k, same (clock e (w_tick w)) (w_db w)
            (Nat.iter k (exec_once REDIS_PING (clock e (w_tick w))) (w_db w))) as Hk.
  { induction k as [|k IH]; [done|]. etrans; [exact IH|]. apply ping_same. }
  unfold health_ready. rewrite run_bind, run_catch, run_bind.
  unfold redis. cbn [run do_ev]. unfold request.
  destruct (net e (w_tick w)) as [k|k] eqn:En; subst up ready; cbn [andb].
  - destruct (rexec REDIS_PING _ _) as [r d'] eqn:E. apply law_ping in E as [-> E].
    cbn [of_reply lift run]. rewrite run_bind, run_gets. cbn [run w_state tick String.eqb].
    change (String.eqb "ok" "ok") with true. fold d. eexists. split; [reflexivity|].
    split_and!; [done|done|exact (transitivity (Hk k) E)|].
    intros Hr%negb_true_iff. unfold websocket_endpoint. rewrite run_bind, run_gets.
    cbn [w_state tick]. subst d. by rewrite Hr.
  - cbn [lift run]. rewrite run_bind, run_gets. cbn [run w_state tick].
    change (String.eqb ("error: " +:+ class_name RedisConnectionError) "ok") with false.
    eexists. split; [reflexivity|]. split_and!; [done|done|apply Hk|done].
Qed.

Lemma health_ready_spec_witness :
  (run (Rd := Ref.ref_redis) calm health_ready (ref_world 0 Ref.empty initial_gateway)).1 =
    inr (200, JObj [("ready", JBool true); ("checks", JObj [("redis", JStr "ok")]);
                    ("draining", JBool false)]).
Proof.
  destruct (health_ready_spec (Rd := Ref.ref_redis) calm (ref_world 0 Ref.empty initial_gateway) 0)
    as (w' & -> & _).
  reflexivity.
Defined.
