(* ===== verification/ControlPlane.v ===== *)
(** * The control plane ([apps/control_plane/main.py])

    One definition per endpoint, over the database session of [Database].  A
    request comes with what is fresh in it: the id [uuid.uuid4] gives, the
    readings of the clock, the random token of [secrets] and the fate of its
    statements. *)
From Stdlib Require Import Ascii ZArith Lia.
From stdpp Require Import base gmap strings list sets.
From S2P Require Import Prelude Frames RedisApi Async Auth Database State Nodes.

Record TenantOut := mkTenantOut { to_id : string; to_name : string; to_status : string }.

Record ApiKeyOut := mkApiKeyOut {
  ko_id : string; ko_tenant_id : string; ko_key_prefix : string; ko_api_key : option string
}.

(** The dicts the channel and room endpoints answer with. *)
Record NamedOut := mkNamedOut { no_id : string; no_name : string; no_tenant_id : string }.

(** Request bodies; [Optional] fields have their defaults. *)
Inductive Request :=
| TenantCreate (name : string)
| ListTenants
| ApiKeyCreate (tenant_id : string)
| RevokeApiKey (key_id : string)
| ChannelCreate (tenant_id name : string) (ordering_enabled : bool) (retention_seconds : Z)
| ListChannels
| RoomCreate (tenant_id name : string)
| ListRooms
| Ready.

Inductive Response :=
| Tenants (l : list TenantOut)
| Key (k : ApiKeyOut)
| Named (l : list NamedOut)
| NoContent
| ReadyOut.

Record Fresh := mkFresh {
  f_uuid : string; f_now : Z; f_now' : Z; f_token : string; f_link : nat -> link
}.

Section ControlPlane.
Context {Sh : Sha256} {Ad : AuthDb} {Sq : SqlDb}.

Definition tenant_out (t : Tenant) : TenantOut :=
  mkTenantOut (tenant_id t) (tenant_name t) (tenant_status t).
Definition channel_out (c : Channel) : NamedOut :=
  mkNamedOut (channel_id c) (channel_name c) (channel_tenant_id c).
Definition room_out (r : Room) : NamedOut :=
  mkNamedOut (room_id r) (room_name r) (room_tenant_id r).

Definition create_tenant (name : string) (f : Fresh) : Db TenantOut :=
  let tenant := new_tenant (f_uuid f) name (f_now f) (f_now' f) in
  do! _ := db_write (sql_insert (RTenant tenant)) in
  do! tenant := refresh tenants_of tenant_id (tenant_id tenant) in
  db_ret (tenant_out tenant).

Definition list_tenants : Db (list TenantOut) :=
  do! rows := db_read (fun db => inr (tenants_of db)) in
  db_ret (map tenant_out rows).

Definition create_api_key (body_tenant_id : string) (f : Fresh) : Db ApiKeyOut :=
  do! tenant := sql_get tenants_of tenant_id body_tenant_id in
  match tenant with
  | None => db_throw (HTTPException 404 "tenant not found")
  | Some tenant =>
      let '(plaintext, prefix, key_hash) := generate_api_key (f_token f) in
      let key := new_api_key (f_uuid f) (tenant_id tenant) prefix key_hash (f_now f) in
      do! _ := db_write (sql_insert (RApiKey key)) in
      do! key := refresh keys_of apikey_id (apikey_id key) in
      db_ret (mkApiKeyOut (apikey_id key) (apikey_tenant_id key) prefix (Some plaintext))
  end.

Definition revoke_api_key (key_id : string) : Db unit :=
  do! key := sql_get keys_of apikey_id key_id in
  match key with
  | None => db_throw (HTTPException 404 "api key not found")
  | Some key => db_write (sql_set_key_status (apikey_id key) "revoked")
  end.

(** The row [make] builds for a tenant id given as text: the text is bound to a
    UUID column, so a malformed one makes the INSERT fail and the row holds the
    canonical form. *)
Definition insert_for (body_tenant_id : string) (make : string -> row) : Db unit :=
  db_write (fun db =>
    match uuid_text body_tenant_id with
    | None => inl (OtherError "DBAPIError")
    | Some tid => sql_insert (make tid) db
    end).

Definition create_channel (body_tenant_id name : string) (ordering : bool) (retention : Z)
    (f : Fresh) : Db NamedOut :=
  do! _ := insert_for body_tenant_id (fun tid =>
             RChannel (new_channel (f_uuid f) tid name ordering retention (f_now f))) in
  do! channel := refresh channels_of channel_id (f_uuid f) in
  db_ret (channel_out channel).

Definition list_channels : Db (list NamedOut) :=
  do! rows := db_read (fun db => inr (channels_of db)) in
  db_ret (map channel_out rows).

Definition create_room (body_tenant_id name : string) (f : Fresh) : Db NamedOut :=
  do! _ := insert_for body_tenant_id (fun tid =>
             RRoom (new_room (f_uuid f) tid name (f_now f))) in
  do! room := refresh rooms_of room_id (f_uuid f) in
  db_ret (room_out room).

Definition list_rooms : Db (list NamedOut) :=
  do! rows := db_read (fun db => inr (rooms_of db)) in
  db_ret (map room_out rows).

(** [/health/ready]: [SELECT 1]. *)
Definition ready : Db unit := db_read (fun _ => inr tt).

(** [/admin/nodes]: the live nodes, from Redis; [/health/live]. *)
Definition admin_nodes {Jt : JsonText} (fuel : nat) : proc Gateway (list json) := list_nodes fuel.
Definition live_out : json := JObj [("status", JStr "alive")].

(** The routes of the application that use the database. *)
Definition handle (q : Request) (f : Fresh) : Db Response :=
  match q with
  | TenantCreate name => do! t := create_tenant name f in db_ret (Tenants [t])
  | ListTenants => do! l := list_tenants in db_ret (Tenants l)
  | ApiKeyCreate tid => do! k := create_api_key tid f in db_ret (Key k)
  | RevokeApiKey kid => do! _ := revoke_api_key kid in db_ret NoContent
  | ChannelCreate tid name o r => do! c := create_channel tid name o r f in db_ret (Named [c])
  | ListChannels => do! l := list_channels in db_ret (Named l)
  | RoomCreate tid name => do! r := create_room tid name f in db_ret (Named [r])
  | ListRooms => do! l := list_rooms in db_ret (Named l)
  | Ready => do! _ := ready in db_ret ReadyOut
  end.

(** One request, in a session of its own. *)
Definition serve1 (q : Request) (f : Fresh) (db : tables) : (exn + Response) * tables :=
  let '(r, s) := handle q f (f_link f) (mkSession 0 db) in (r, rows s).

(** A history of requests: what each answered, and the tables it left. *)
Fixpoint serve (l : list (Request * Fresh)) (db : tables) :
    list (exn + Response) * tables :=
  match l with
  | [] => ([], db)
  | (q, f) :: l' =>
      let '(r, db') := serve1 q f db in
      let '(rs, db'') := serve l' db' in (r :: rs, db'')
  end.

(** ** The seeding script ([scripts/seed.py])

    It posts a tenant and a key for it, and prints the tenant's id, the key and
    a channel of the tenant; an error body has no such fields ([KeyError]). *)
Definition seed (f1 f2 : Fresh) (db : tables) : (exn + (string * string * string)) * tables :=
  match serve1 (TenantCreate "demo") f1 db with
  | (inr (Tenants [tenant]), db1) =>
      match serve1 (ApiKeyCreate (to_id tenant)) f2 db1 with
      | (inr (Key key), db2) =>
          (inr (to_id tenant, default "None" (ko_api_key key),
                "t-" +:+ to_id tenant +:+ ":room-engineering"), db2)
      | (_, db2) => (inl (OtherError "KeyError"), db2)
      end
  | (_, db1) => (inl (OtherError "KeyError"), db1)
  end.

End ControlPlane.
