(* ===== verification/KeyDirectory.v ===== *)
(** * The control plane as a directory of API keys

    What the gateway relies on: the tables behave as a directory that maps the
    hash of each live key to its tenant and id.  The endpoints refine the
    operations of the directory ([control_plane_refines]) for every history of
    requests and every failure of the connection to the database, and
    [authenticate_token] is a lookup in it. *)
From Stdlib Require Import Ascii ZArith Lia.
From stdpp Require Import base gmap strings list sets.
From S2P Require Import Prelude PyFloat Frames Json Async Auth Hash Database ControlPlane.

(** ** The abstract directory *)

(** The live keys by hash, and the hashes that were ever issued. *)
Record directory := mkDirectory { live : gmap string AuthContext; issued : gset string }.

Definition issue (h : string) (ctx : AuthContext) (d : directory) : directory :=
  mkDirectory (<[h := ctx]> (live d)) ({[h]} ∪ issued d).

Definition revoke (key_id : string) (d : directory) : directory :=
  mkDirectory (filter (fun hc => auth_api_key_id hc.2 <> key_id) (live d)) (issued d).

Section Spec.
Context {Sh : Sha256} {Ad : AuthDb} {Sq : SqlDb}.

Definition key_of (f : Fresh) : string := (generate_api_key (f_token f)).1.1.

(** What a request that answers [r] does to the directory.  When the answer is
    an error, its write may still have been committed. *)
Definition dir_step (q : Request) (f : Fresh) (r : exn + Response) (d d' : directory) : Prop :=
  match q with
  | ApiKeyCreate tid =>
      let h := hash_api_key (key_of f) in
      match r with
      | inr (Key out) =>
          ko_api_key out = Some (key_of f) /\ uuid_text tid = Some (ko_tenant_id out) /\
          h ∉ issued d /\ d' = issue h (mkAuthContext (ko_tenant_id out) (ko_id out)) d
      | inr _ => False
      | inl _ => d' = d \/ exists t, uuid_text tid = Some t /\ h ∉ issued d /\
                            d' = issue h (mkAuthContext t (f_uuid f)) d
      end
  | RevokeApiKey kid =>
      match r with
      | inr NoContent => exists i, uuid_text kid = Some i /\ d' = revoke i d
      | inr _ => False
      | inl _ => d' = d \/ exists i, uuid_text kid = Some i /\ d' = revoke i d
      end
  | _ => d' = d
  end.

Inductive dir_steps : list (Request * Fresh) -> list (exn + Response) -> directory -> directory -> Prop :=
| dir_nil d : dir_steps [] [] d d
| dir_cons q f r l rs d d' d'' :
    dir_step q f r d d' -> dir_steps l rs d' d'' -> dir_steps ((q, f) :: l) (r :: rs) d d''.

(** The tables hold the directory [d]. *)
Definition holds (db : tables) (d : directory) : Prop :=
  (forall h ctx, live d !! h = Some ctx <->
     exists k t, k ∈ keys_of db /\ t ∈ tenants_of db /\ active_row h k t /\
       ctx = mkAuthContext (tenant_id t) (apikey_id k)) /\
  (forall h, h ∈ issued d <-> exists k, k ∈ keys_of db /\ apikey_hash k = h).

(** The tables are consistent, and every tenant is active: no endpoint changes
    the status of one. *)
Definition cp_inv (db : tables) : Prop :=
  schema_ok db /\ forall t, t ∈ tenants_of db -> tenant_status t = "active".

End Spec.

Section Proofs.
Context {Sh : Sha256} {Ad : AuthDb} {Sq : SqlDb} {Sl : SqlLaws}.

(** [head (filter ...)] finds a row when there is one. *)
Lemma head_filter_Some {R} (P : R -> Prop) `{!forall x, Decision (P x)} (l : list R) r :
  head (filter P l) = Some r -> r ∈ l /\ P r.
Proof. intros Hh%head_Some_elem_of. by apply list_elem_of_filter in Hh as [? ?]. Qed.

Lemma head_filter_None {R} (P : R -> Prop) `{!forall x, Decision (P x)} (l : list R) r :
  head (filter P l) = None -> r ∈ l -> ~ P r.
Proof.
  intros Hh%head_None Hr HP. assert (r ∈ filter P l) as Hin by by apply list_elem_of_filter.
  rewrite Hh in Hin. by apply not_elem_of_nil in Hin.
Qed.

(** An inserted row is the one its primary key finds. *)
Lemma head_filter_pk {R} (l : list R) (pk : R -> string) (r : R) :
  r ∈ l -> (forall r', r' ∈ l -> pk r' = pk r -> r' = r) ->
  head (filter (fun x => pk x = pk r) l) = Some r.
Proof.
  intros Hr Hu. destruct (head _) as [r'|] eqn:E.
  - apply head_filter_Some in E as [H1 H2]. by rewrite (Hu r' H1 H2).
  - by eapply head_filter_None in E; [|exact Hr].
Qed.

(** *** The directory under the writes *)

Lemma active_row_status (h : string) (k : ApiKey) (t : Tenant) :
  apikey_status k = "active" -> tenant_status t = "active" ->
  active_row h k t <-> apikey_tenant_id k = tenant_id t /\ apikey_hash k = h.
Proof. unfold active_row. tauto. Qed.

Lemma holds_other (db db' : tables) (r : row) (d : directory) :
  schema_ok db -> match r with RApiKey _ => False | _ => True end ->
  admits db r -> inserted db db' r -> holds db d -> holds db' d.
Proof.
  intros Hs Hr Ha (Ht & Hk & _ & _) [Hl Hi].
  assert (forall k, k ∈ keys_of db' <-> k ∈ keys_of db) as Hk'.
  { intros k. rewrite Hk. split; [|auto]. intros [?| ->]; [done|]. by destruct Hr. }
  split; [|intros h; rewrite Hi; by setoid_rewrite Hk'].
  intros h ctx. rewrite Hl. setoid_rewrite Hk'. split.
  - intros (k & t & H1 & H2 & H3). exists k, t. rewrite Ht. auto.
  - intros (k & t & H1 & H2 & H3 & H4). apply Ht in H2 as [H2| ->]; [eauto 10|].
    destruct (ok_key_tenant _ Hs k H1) as (t' & Ht' & Et'). destruct H3 as (Hj & H3).
    destruct Ha as [Hf _]. destruct (Hf t' Ht'). congruence.
Qed.

Lemma holds_issue (db db' : tables) (k : ApiKey) (t : Tenant) (d : directory) :
  cp_inv db -> t ∈ tenants_of db -> apikey_tenant_id k = tenant_id t -> apikey_status k = "active" ->
  admits db (RApiKey k) -> inserted db db' (RApiKey k) -> holds db d ->
  apikey_hash k ∉ issued d /\
  holds db' (issue (apikey_hash k) (mkAuthContext (tenant_id t) (apikey_id k)) d).
Proof.
  intros [Hs Hact] Ht Hkt Hst [Hf _] (Ht' & Hk' & _ & _) [Hl Hi].
  assert (apikey_hash k ∉ issued d) as Hn.
  { rewrite Hi. intros (k0 & Hk0 & E). by destruct (Hf k0 Hk0). }
  split; [done|]. split; cbn [live issued issue].
  - intros h ctx. rewrite lookup_insert_Some. setoid_rewrite Hk'. setoid_rewrite Ht'. split.
    + intros [[<- <-]|[Hne Hd]].
      * exists k, t. split_and!; [auto|auto|by apply active_row_status; auto|done].
      * apply Hl in Hd as (k0 & t0 & H1 & H2 & H3). exists k0, t0. auto.
    + intros (k0 & t0 & [H1|[= <-]] & [H2|?] & (Hj & <- & Hx) & ->); [|done| |done].
      * right. split; [by destruct (Hf k0 H1)|]. apply Hl. exists k0, t0. by split_and!.
      * left. split; [done|]. by rewrite (ok_tenant_pk _ Hs t t0) by congruence.
  - intros h. rewrite elem_of_union, elem_of_singleton, Hi. setoid_rewrite Hk'. split.
    + intros [->|(k0 & H1 & H2)]; [exists k|exists k0]; auto.
    + intros (k0 & [H1|[= <-]] & H2); [right; eauto|by left].
Qed.

Lemma holds_revoke (db db' : tables) (i : string) (d : directory) :
  schema_ok db -> restatused db db' i "revoked" -> holds db d -> holds db' (revoke i d).
Proof.
  intros Hs (Ht & Hk & _ & _) [Hl Hi]. split; cbn [live issued revoke].
  - intros h ctx. rewrite map_lookup_filter_Some, Hl. cbn [snd]. split.
    + intros [(k & t & H1 & H2 & H3 & ->) Hne]. exists k, t. cbn in Hne.
      rewrite Ht, Hk. split_and!; [|done..]. exists k.
      by destruct (String.eqb_spec (apikey_id k) i).
    + intros (k & t & (k0 & H1 & ->)%Hk & H2%Ht & H3 & ->).
      destruct (String.eqb_spec (apikey_id k0) i) as [E|E].
      { destruct H3 as (_ & _ & H3 & _). done. }
      split; [by exists k0, t|done].
  - intros h. rewrite Hi. split.
    + intros (k & H1 & H2). eexists. rewrite Hk. split; [by exists k|].
      by destruct (String.eqb _ _).
    + intros (k & (k0 & H1 & E)%Hk & H2). exists k0. split; [done|].
      apply restatused_key in E as (_ & E & _). congruence.
Qed.

(** *** The statements *)

(** A query leaves the rows alone. *)
Lemma read_rows {A} (f : tables -> exn + A) lk s r s' :
  db_read f lk s = (r, s') -> rows s' = rows s /\ ((exists x, r = inl x) \/ r = f (rows s)).
Proof. unfold db_read. destruct (lk _); intros [= <- <-]; eauto. Qed.

(** A write is applied, or it failed and nothing changed. *)
Lemma write_rows (f : tables -> exn + tables) lk s r s' :
  db_write f lk s = (r, s') ->
  (rows s' = rows s /\ exists x, r = inl x) \/
  (f (rows s) = inr (rows s') /\ (r = inr tt \/ exists x, r = inl x)).
Proof. unfold db_write. destruct (lk _), (f (rows s)) eqn:E; intros [= <- <-]; eauto. Qed.

Lemma bind_inv {A B} (p : Db A) (g : A -> Db B) lk s r s' :
  db_bind p g lk s = (r, s') ->
  (exists x, p lk s = (inl x, s') /\ r = inl x) \/
  (exists a s1, p lk s = (inr a, s1) /\ g a lk s1 = (r, s')).
Proof. unfold db_bind. destruct (p lk s) as [[x|a] s1]; [intros [= <- <-]|]; eauto. Qed.

(** Requests that only read. *)
Lemma read_only {A B} (f : tables -> exn + A) (g : A -> B) lk s r s' :
  db_bind (db_read f) (fun a => db_ret (g a)) lk s = (r, s') -> rows s' = rows s.
Proof.
  intros [(x & H & _)|(a & s1 & H & [= _ <-])]%bind_inv; by apply read_rows in H as [? _].
Qed.

(** Requests that insert one row and read it back. *)
Lemma insert_then {A} (f : tables -> exn + tables) (g : unit -> Db A) lk s r s' :
  (forall s1 r1 s2, g tt lk s1 = (r1, s2) -> rows s2 = rows s1) ->
  db_bind (db_write f) g lk s = (r, s') ->
  (rows s' = rows s /\ exists x, r = inl x) \/
  (f (rows s) = inr (rows s') /\
   ((exists x, r = inl x) \/ exists s1, rows s1 = rows s' /\ g tt lk s1 = (r, s'))).
Proof.
  intros Hg [(x & H & ->)|([] & s1 & H & Hr)]%bind_inv;
    apply write_rows in H as [[H [y Hy]]|[H Hy]].
  - left. eauto.
  - right. destruct Hy as [|[y Hy]]; [done|]. eauto.
  - done.
  - right. pose proof (Hg _ _ _ Hr) as E. rewrite E. split; [done|]. right. by exists s1.
Qed.

(** *** The requests *)

(** A row that is not a key, and of an active tenant when it is a tenant. *)
Definition plain_row (r : row) : Prop :=
  match r with
  | RApiKey _ => False
  | RTenant t => tenant_status t = "active"
  | _ => True
  end.

Lemma plain_sim (db db' : tables) (r : row) (d : directory) :
  plain_row r -> cp_inv db -> sql_insert r db = inr db' -> holds db d ->
  holds db' d /\ cp_inv db'.
Proof.
  intros Hp [Hs Ht] Hi Hd. apply law_insert in Hi as [Ha Hi]. split; [|split].
  - eapply holds_other; [done| |done..]. by destruct r.
  - by eapply inserted_schema.
  - destruct Hi as (Hin & _). intros t [H| ->]%Hin; auto.
Qed.

Definition is_key_request (q : Request) : bool :=
  match q with ApiKeyCreate _ | RevokeApiKey _ => true | _ => false end.

Lemma serve1_plain (q : Request) (f : Fresh) (db db' : tables) r :
  is_key_request q = false -> serve1 q f db = (r, db') ->
  db' = db \/ exists x, plain_row x /\ sql_insert x db = inr db'.
Proof.
  intros Hq. unfold serve1. destruct (handle q f (f_link f) (mkSession 0 db)) as [r0 s] eqn:E.
  intros [= _ <-]. destruct q; cbn [handle] in E; try done.
  - apply bind_inv in E as [(x & E & _)|(a & s1 & E & [= _ <-])];
      apply insert_then in E as [[-> _]|[E _]]; auto;
      try (right; eexists; split; [|exact E]; done);
      by intros ? ? ? ?%read_only.
  - left. apply bind_inv in E as [(x & E & _)|(a & s1 & E & [= _ <-])]; by apply read_only in E.
  - apply bind_inv in E as [(x & E & _)|(a & s1 & E & [= _ <-])];
      apply insert_then in E as [[-> _]|[E _]]; auto;
      try (cbn in E; case_match; [|done]; right; eexists; split; [|exact E]; done);
      by intros ? ? ? ?%read_only.
  - left. apply bind_inv in E as [(x & E & _)|(a & s1 & E & [= _ <-])]; by apply read_only in E.
  - apply bind_inv in E as [(x & E & _)|(a & s1 & E & [= _ <-])];
      apply insert_then in E as [[-> _]|[E _]]; auto;
      try (cbn in E; case_match; [|done]; right; eexists; split; [|exact E]; done);
      by intros ? ? ? ?%read_only.
  - left. apply bind_inv in E as [(x & E & _)|(a & s1 & E & [= _ <-])]; by apply read_only in E.
  - left. by apply read_only in E.
Qed.

(** A key that was inserted is the one the refresh finds. *)
Lemma refresh_key (db db' : tables) (k : ApiKey) lk s r s' :
  admits db (RApiKey k) -> inserted db db' (RApiKey k) -> rows s = db' ->
  refresh keys_of apikey_id (apikey_id k) lk s = (r, s') -> (exists x, r = inl x) \/ r = inr k.
Proof.
  intros [Hf _] (_ & Hk & _ & _) <- E. apply read_rows in E as [_ [E|E]]; [by left|]. right.
  rewrite head_filter_pk in E; [done|by apply Hk; right|].
  intros k' [H|[= <-]]%Hk Hid; [|done]. by destruct (Hf k' H).
Qed.

Definition issued_key (t : Tenant) (f : Fresh) : ApiKey :=
  new_api_key (f_uuid f) (tenant_id t) (generate_api_key (f_token f)).1.2
    (hash_api_key (key_of f)) (f_now f).

Lemma get_row {R} (l : tables -> list R) (pk : R -> string) (i : string) lk s o s' :
  sql_get l pk i lk s = (inr o, s') ->
  rows s' = rows s /\ forall r, o = Some r -> r ∈ l (rows s) /\ uuid_text i = Some (pk r).
Proof.
  intros E. apply read_rows in E as [H [[x ?]|E]]; [done|]. split; [done|]. intros r ->.
  destruct (uuid_text i) as [u|]; [|done]. injection E as E. symmetry in E.
  apply head_filter_Some in E as [? <-]. done.
Qed.

Lemma create_api_key_effect (tid : string) (f : Fresh) lk s r s' :
  create_api_key tid f lk s = (r, s') ->
  (rows s' = rows s /\ exists x, r = inl x) \/
  exists t, t ∈ tenants_of (rows s) /\ uuid_text tid = Some (tenant_id t) /\
    sql_insert (RApiKey (issued_key t f)) (rows s) = inr (rows s') /\
    ((exists x, r = inl x) \/
     r = inr (mkApiKeyOut (f_uuid f) (tenant_id t) (generate_api_key (f_token f)).1.2
                (Some (key_of f)))).
Proof.
  unfold create_api_key. intros [(x & E & ->)|(o & s1 & E & H)]%bind_inv.
  { left. apply read_rows in E as [? _]. eauto. }
  apply get_row in E as [Hr Ho]. destruct o as [t|]; [|injection H as <- <-; left; eauto].
  destruct (Ho t eq_refl) as [Ht Hu]. rewrite <- Hr in *.
  change (generate_api_key (f_token f)) with
    (key_of f, (generate_api_key (f_token f)).1.2, hash_api_key (key_of f)) in H.
  cbn beta iota in H. fold (issued_key t f) in H.
  apply insert_then in H as [H|[Hi H]]; [by left| |].
  - right. exists t. split_and!; [done..|]. destruct H as [H|(s2 & Hs2 & H)]; [by left|].
    apply law_insert in Hi as [Ha Hi].
    apply bind_inv in H as [(x & H & ->)|(k & s3 & H & Hk)]; [eauto|].
    eapply refresh_key in H as [[x ?]|[= ->]]; [done| |done..].
    injection Hk as <- _. by right.
  - intros s0 r1 s2 [(x & E & _)|(a & s3 & E & [= _ <-])]%bind_inv; by apply read_rows in E as [? _].
Qed.

Lemma create_key_sim (tid : string) (f : Fresh) (db db' : tables) r (d : directory) :
  cp_inv db -> holds db d -> serve1 (ApiKeyCreate tid) f db = (r, db') ->
  exists d', dir_step (ApiKeyCreate tid) f r d d' /\ holds db' d' /\ cp_inv db'.
Proof.
  intros Hinv Hd. unfold serve1.
  destruct (handle _ f (f_link f) (mkSession 0 db)) as [r0 s] eqn:E. intros [= -> <-].
  cbn [handle] in E.
  assert (exists r1, create_api_key tid f (f_link f) (mkSession 0 db) = (r1, s) /\
    r = match r1 with inl x => inl x | inr k => inr (Key k) end) as (r1 & E1 & ->).
  { apply bind_inv in E as [(x & E & ->)|(k & s1 & E & [= <- <-])]; eauto. }
  apply create_api_key_effect in E1 as [[-> [x ->]]|(t & Ht & Hu & Hi & Hr)].
  { exists d. split; [by left|done]. }
  cbn [rows] in *. apply law_insert in Hi as [Ha Hi].
  destruct (holds_issue db (rows s) (issued_key t f) t d Hinv Ht eq_refl eq_refl Ha Hi Hd) as [Hn Hh].
  eexists. split; [|split; [exact Hh|]].
  - cbn [dir_step]. destruct Hr as [[x ->]| ->]; [right; by exists (tenant_id t)|done].
  - destruct Hinv as [Hs Hact]. split; [by eapply inserted_schema|].
    destruct Hi as (Hin & _). intros t' [?|[=]]%Hin. auto.
Qed.

Lemma revoke_key_sim (kid : string) (f : Fresh) (db db' : tables) r (d : directory) :
  cp_inv db -> holds db d -> serve1 (RevokeApiKey kid) f db = (r, db') ->
  exists d', dir_step (RevokeApiKey kid) f r d d' /\ holds db' d' /\ cp_inv db'.
Proof.
  intros [Hs Hact] Hd. unfold serve1.
  destruct (handle _ f (f_link f) (mkSession 0 db)) as [r0 s] eqn:E. intros [= -> <-].
  cbn [handle] in E.
  assert (exists r1, revoke_api_key kid (f_link f) (mkSession 0 db) = (r1, s) /\
    r = match r1 with inl x => inl x | inr _ => inr NoContent end) as (r1 & E1 & ->).
  { apply bind_inv in E as [(x & E & ->)|(k & s1 & E & [= <- <-])]; eauto. }
  unfold revoke_api_key in E1. apply bind_inv in E1 as [(x & E1 & ->)|(o & s1 & E1 & H)].
  { apply read_rows in E1 as [-> _]. exists d. split; [by left|done]. }
  apply get_row in E1 as [Hr Ho]. cbn [rows] in Hr. destruct o as [k|].
  2: { injection H as <- <-. rewrite Hr. exists d. split; [by left|done]. }
  destruct (Ho k eq_refl) as [Hk Hu]. apply write_rows in H as [[-> [x ->]]|[H Hr1]].
  { rewrite Hr. exists d. split; [by left|done]. }
  rewrite Hr in H. destruct (law_status (apikey_id k) "revoked" db eq_refl) as (db1 & E2 & Hst).
  rewrite H in E2. injection E2 as <-.
  exists (revoke (apikey_id k) d). split; [|split; [by eapply holds_revoke|split]].
  - cbn [dir_step]. destruct Hr1 as [->|[x ->]]; [|right]; by exists (apikey_id k).
  - by eapply restatused_schema.
  - destruct Hst as (Hin & _). intros t Ht%Hin. auto.
Qed.

(** One request refines one step of the directory. *)
Lemma serve1_sim (q : Request) (f : Fresh) (db db' : tables) r (d : directory) :
  cp_inv db -> holds db d -> serve1 q f db = (r, db') ->
  exists d', dir_step q f r d d' /\ holds db' d' /\ cp_inv db'.
Proof.
  intros Hinv Hd E. destruct (is_key_request q) eqn:Hq.
  - destruct q; try done; [by eapply create_key_sim|by eapply revoke_key_sim].
  - exists d. split; [by destruct q|].
    destruct (serve1_plain _ _ _ _ _ Hq E) as [->|(x & Hx & Hi)]; [done|].
    by eapply plain_sim.
Qed.

Lemma serve_sim (l : list (Request * Fresh)) : forall db db' rs d,
  cp_inv db -> holds db d -> serve l db = (rs, db') ->
  exists d', dir_steps l rs d d' /\ holds db' d' /\ cp_inv db'.
Proof.
  induction l as [|[q f] l IH]; intros db db' rs d Hinv Hd; cbn [serve].
  { intros [= <- <-]. exists d. split; [constructor|done]. }
  destruct (serve1 q f db) as [r db1] eqn:E1. destruct (serve l db1) as [rs1 db2] eqn:E2.
  intros [= <- <-]. destruct (serve1_sim _ _ _ _ _ _ Hinv Hd E1) as (d1 & Hs1 & Hd1 & Hi1).
  destruct (IH _ _ _ _ Hi1 Hd1 E2) as (d2 & Hs2 & Hd2 & Hi2).
  exists d2. split; [by econstructor|done].
Qed.

(** Authentication is a lookup of the hash among the live keys. *)
Lemma authenticate_lookup (db : tables) (d : directory) (tok : string) :
  schema_ok db -> holds db d -> tok <> "" ->
  authenticate_token db tok =
  match live d !! hash_api_key tok with
  | Some ctx => inr ctx
  | None => inl (AuthenticationError "invalid or revoked API key")
  end.
Proof.
  intros Hs [Hl _] Htok. unfold authenticate_token. destruct tok as [|c tok]; [done|].
  cbn [truthy negb]. set (h := hash_api_key _).
  destruct (first_active_row db h) as [[k t]|] eqn:E.
  - apply law_row_sound in E as (Hk & Ht & Ha).
    by rewrite (proj2 (Hl h (mkAuthContext (tenant_id t) (apikey_id k)))) by (by exists k, t).
  - destruct (live d !! h) as [ctx|] eqn:Ed; [|done].
    apply Hl in Ed as (k & t & Hk & Ht & Ha & _).
    by destruct (law_row_complete _ _ _ _ E Hk Ht).
Qed.

End Proofs.

(** ** Facts on the abstract directory *)
Section Abstract.
Context {Sh : Sha256} {Ad : AuthDb} {Sq : SqlDb}.

Definition dir_ok (d : directory) : Prop := forall h ctx, live d !! h = Some ctx -> h ∈ issued d.

(** Every step is nothing, an issue of a new hash, or a revocation. *)
Lemma dir_step_cases (q : Request) (f : Fresh) r (d d' : directory) :
  dir_step q f r d d' ->
  d' = d \/ (exists h ctx, h ∉ issued d /\ d' = issue h ctx d) \/
  (exists kid i, q = RevokeApiKey kid /\ uuid_text kid = Some i /\ d' = revoke i d).
Proof.
  destruct q; cbn; try (by left); destruct r as [x|[]]; try done.
  - intros [->|(t & Hu & Hn & ->)]; [by left|right; left; eauto].
  - intros (_ & _ & Hn & ->). right; left; eauto.
  - intros [->|(i & Hu & ->)]; [by left|right; right; eauto].
  - intros (i & Hu & ->). right; right; eauto.
Qed.

Lemma dir_ok_step (q : Request) (f : Fresh) r (d d' : directory) :
  dir_step q f r d d' -> dir_ok d -> dir_ok d'.
Proof.
  intros H Hd. apply dir_step_cases in H as [->|[(h & ctx & Hn & ->)|(kid & i & _ & _ & ->)]];
    [done| |]; intros h' ctx'; cbn.
  - rewrite lookup_insert_Some. intros [[<- _]|[_ H]]; [set_solver|]. apply Hd in H. set_solver.
  - rewrite map_lookup_filter_Some. intros [H _]. by eapply Hd.
Qed.

(** A live key stays live as long as nobody asks for its revocation. *)
Lemma live_kept (l : list (Request * Fresh)) rs (d d' : directory) (h : string) (ctx : AuthContext) :
  dir_steps l rs d d' -> dir_ok d -> live d !! h = Some ctx ->
  (forall kid f, (RevokeApiKey kid, f) ∈ l -> uuid_text kid <> Some (auth_api_key_id ctx)) ->
  live d' !! h = Some ctx.
Proof.
  induction 1 as [|q f r l rs d d1 d' Hs _ IH]; intros Hd Hl Hno; [done|].
  apply IH; [by eapply dir_ok_step| |intros kid f' Hin; apply (Hno kid f'); by right].
  apply dir_step_cases in Hs as [->|[(h' & ctx' & Hn & ->)|(kid & i & -> & Hu & ->)]]; cbn; [done| |].
  - rewrite lookup_insert_ne; [done|]. intros ->. by apply Hn, (Hd h ctx).
  - rewrite map_lookup_filter_Some. split; [done|]. cbn. intros <-.
    apply (Hno kid f); [by left|done].
Qed.

(** A hash that was issued and is not live never becomes live again. *)
Lemma gone_stays (l : list (Request * Fresh)) rs (d d' : directory) (h : string) :
  dir_steps l rs d d' -> h ∈ issued d -> live d !! h = None -> live d' !! h = None.
Proof.
  induction 1 as [|q f r l rs d d1 d' Hs _ IH]; intros Hi Hl; [done|]. apply IH.
  - apply dir_step_cases in Hs as [->|[(h' & ctx' & Hn & ->)|(kid & i & -> & Hu & ->)]]; set_solver.
  - apply dir_step_cases in Hs as [->|[(h' & ctx' & Hn & ->)|(kid & i & -> & Hu & ->)]]; cbn; [done| |].
    + rewrite lookup_insert_ne; [done|]. by intros ->.
    + apply map_lookup_filter_None. by left.
Qed.

Lemma issued_grows (l : list (Request * Fresh)) rs (d d' : directory) :
  dir_steps l rs d d' -> issued d ⊆ issued d'.
Proof.
  induction 1 as [|q f r l rs d d1 d' Hs _ IH]; [done|]. etrans; [|exact IH].
  apply dir_step_cases in Hs as [->|[(h & ctx & _ & ->)|(kid & i & _ & _ & ->)]]; set_solver.
Qed.

(** While a hash is live it stands for the same key. *)
Lemma live_same (l : list (Request * Fresh)) rs (d d' : directory) (h : string) (ctx ctx' : AuthContext) :
  dir_steps l rs d d' -> dir_ok d -> live d !! h = Some ctx -> live d' !! h = Some ctx' -> ctx' = ctx.
Proof.
  induction 1 as [|q f r l rs d d1 d' Hs Hl IH]; intros Hd H H'; [congruence|].
  destruct (live d1 !! h) as [ctx1|] eqn:E1.
  - assert (ctx1 = ctx) as ->; [|apply IH; [by eapply dir_ok_step|done..]].
    apply dir_step_cases in Hs as [->|[(h' & c & Hn & ->)|(kid & i & _ & _ & ->)]]; cbn in E1.
    + congruence.
    + apply lookup_insert_Some in E1 as [[-> _]|[_ E1]]; [by destruct (Hn (Hd h ctx H))|congruence].
    + apply map_lookup_filter_Some in E1 as [E1 _]. congruence.
  - rewrite (gone_stays _ _ _ _ h Hl) in H'; [done| |done].
    pose proof (issued_grows _ _ _ _ (dir_cons _ _ _ _ _ _ _ _ Hs (dir_nil d1))).
    pose proof (Hd h ctx H). set_solver.
Qed.

Lemma holds_dir_ok (db : tables) (d : directory) : holds db d -> dir_ok d.
Proof.
  intros [Hl Hi] h ctx (k & t & Hk & _ & (_ & Hh & _) & _)%Hl. apply Hi. eauto.
Qed.

End Abstract.

(** ** A database in memory *)
Record mem := mkMem {
  m_tenants : list Tenant; m_keys : list ApiKey; m_channels : list Channel; m_rooms : list Room
}.

Definition mem_authdb : AuthDb := {|
  tables := mem;
  keys_of := m_keys;
  tenants_of := m_tenants;
  first_active_row := fun db h =>
    first_active_row (AuthDb := list_authdb) (m_keys db, m_tenants db) h
|}.

Definition has {R} (l : list R) (f : R -> string) (i : string) : bool :=
  existsb (fun r => String.eqb (f r) i) l.

Definition mem_insert (r : row) (db : mem) : exn + mem :=
  let ok := match r with
    | RTenant t => negb (has (m_tenants db) tenant_id (tenant_id t)) && fits 255 (tenant_name t)
    | RApiKey k => negb (has (m_keys db) apikey_id (apikey_id k)) &&
        negb (has (m_keys db) apikey_hash (apikey_hash k)) &&
        has (m_tenants db) tenant_id (apikey_tenant_id k) &&
        fits 32 (apikey_prefix k) && fits 64 (apikey_hash k)
    | RChannel c => negb (has (m_channels db) channel_id (channel_id c)) &&
        has (m_tenants db) tenant_id (channel_tenant_id c) && fits 200 (channel_name c) &&
        (- 2 ^ 31 <=? retention_seconds c) && (retention_seconds c <? 2 ^ 31)
    | RRoom x => negb (has (m_rooms db) room_id (room_id x)) &&
        has (m_tenants db) tenant_id (room_tenant_id x) && fits 200 (room_name x)
    end in
  if ok then inr match r with
    | RTenant t => mkMem (m_tenants db ++ [t]) (m_keys db) (m_channels db) (m_rooms db)
    | RApiKey k => mkMem (m_tenants db) (m_keys db ++ [k]) (m_channels db) (m_rooms db)
    | RChannel c => mkMem (m_tenants db) (m_keys db) (m_channels db ++ [c]) (m_rooms db)
    | RRoom x => mkMem (m_tenants db) (m_keys db) (m_channels db) (m_rooms db ++ [x])
    end
  else inl (OtherError "IntegrityError").

Definition mem_sql : SqlDb (Ad := mem_authdb) := {|
  channels_of := (m_channels : tables (AuthDb := mem_authdb) -> _);
  rooms_of := m_rooms;
  uuid_text := fun s => if truthy s then Some s else None;
  sql_insert := mem_insert;
  sql_set_key_status := fun i s db =>
    inr (mkMem (m_tenants db)
           (map (fun k => if String.eqb (apikey_id k) i then with_status s k else k) (m_keys db))
           (m_channels db) (m_rooms db))
|}.

Lemma has_true {R} (l : list R) (f : R -> string) (i : string) :
  has l f i = true <-> exists r, r ∈ l /\ f r = i.
Proof.
  unfold has. rewrite existsb_exists. setoid_rewrite <- list_elem_of_In.
  setoid_rewrite String.eqb_eq. done.
Qed.

Lemma has_false {R} (l : list R) (f : R -> string) (i : string) :
  negb (has l f i) = true <-> forall r, r ∈ l -> f r <> i.
Proof.
  rewrite negb_true_iff, <- not_true_iff_false, has_true. naive_solver.
Qed.

Lemma mem_admits (r : row) (db : mem) :
  admits (Ad := mem_authdb) (Sq := mem_sql) db r <-> exists db', mem_insert r db = inr db'.
Proof.
  unfold mem_insert. destruct r; cbn [admits keys_of tenants_of channels_of rooms_of mem_authdb mem_sql];
    match goal with |- _ <-> exists db', (if ?b then _ else _) = _ =>
      transitivity (b = true); [|destruct b; naive_solver] end;
    rewrite ?andb_true_iff, ?has_false, ?has_true, ?Z.leb_le, ?Z.ltb_lt;
    [done|firstorder|tauto|tauto].
Qed.

Lemma mem_inserted (r : row) (db db' : mem) :
  mem_insert r db = inr db' -> inserted (Ad := mem_authdb) (Sq := mem_sql) db db' r.
Proof.
  unfold mem_insert. case_match; [|done]. intros [= <-].
  unfold inserted; destruct r; cbn; split_and!; intros;
    rewrite ?elem_of_app, ?list_elem_of_singleton; naive_solver.
Qed.

#[global] Instance mem_laws : SqlLaws (Ad := mem_authdb) (Sq := mem_sql).
Proof.
  split.
  - split; intros db h k t; [apply (law_row_sound (AuthDbLaws := list_authdb_laws) (m_keys db, m_tenants db))
                            |apply (law_row_complete (AuthDbLaws := list_authdb_laws) (m_keys db, m_tenants db))].
  - intros r db db' H. split; [apply mem_admits; eauto|by apply mem_inserted].
  - intros r db H. by apply mem_admits.
  - intros i s db _. eexists. split; [reflexivity|]. unfold restatused. cbn. split_and!; try done.
    intros k. rewrite list_elem_of_fmap. naive_solver.
  - intros a b. cbn. destruct (truthy a) eqn:E; [|done]. intros [= <-]. by rewrite E.
Qed.

Definition empty_mem : mem := mkMem [] [] [] [].

(** ** Properties *)

(** No tenant, key, channel or room: the tables [init_db] creates. *)
Definition fresh_schema {Ad : AuthDb} {Sq : SqlDb} (db : tables) : Prop :=
  tenants_of db = [] /\ keys_of db = [] /\ channels_of db = [] /\ rooms_of db = [].

Lemma fresh_inv {Sh : Sha256} {Ad : AuthDb} {Sq : SqlDb} (db : tables) :
  fresh_schema db -> cp_inv db /\ holds db (mkDirectory ∅ ∅).
Proof.
  intros (Ht & Hk & Hc & Hr). split; [split; [split|]|split]; rewrite ?Ht, ?Hk, ?Hc, ?Hr;
    try (intros; by match goal with H : _ ∈ [] |- _ => apply not_elem_of_nil in H end).
  - intros h ctx. cbn. rewrite lookup_empty. split; [done|].
    intros (k & _ & []%not_elem_of_nil & _).
  - intros h. cbn. split; [set_solver|]. intros (k & []%not_elem_of_nil & _).
Qed.

(** C10.  The control plane refines a directory of API keys: for every history
    of requests on a fresh schema, whatever the fate of each statement (answered,
    not reaching the server, or executed with its answer lost), the tables stay
    consistent (unique ids and hashes, every row with its tenant) and hold a
    directory reached by the abstract steps that the answers describe; a token
    authenticates exactly when its hash is live there, as the tenant and key it
    was issued for. *)
Theorem control_plane_refines {Sh : Sha256} {Ad : AuthDb} {Sq : SqlDb} {Sl : SqlLaws}
    (l : list (Request * Fresh)) (db0 db : tables) (rs : list (exn + Response)) :
  fresh_schema db0 -> serve l db0 = (rs, db) ->
  schema_ok db /\
  exists d, dir_steps l rs (mkDirectory ∅ ∅) d /\
    forall tok, tok <> "" ->
      authenticate_token db tok =
      match live d !! hash_api_key tok with
      | Some ctx => inr ctx
      | None => inl (AuthenticationError "invalid or revoked API key")
      end.
Proof.
  intros [Hinv Hd]%fresh_inv E.
  destruct (serve_sim _ _ _ _ _ Hinv Hd E) as (d & Hs & Hh & Hi & _).
  split; [done|]. exists d. split; [done|]. intros tok Htok. by apply authenticate_lookup.
Qed.

(** C11.  The life of an API key across the two services: the key that
    [create_api_key] returns authenticates at the gateway, as its tenant and
    with its id, after any further requests to the control plane as long as
    none of them asks for its revocation; once a revocation of it has been
    answered, it is refused for ever, whatever is requested afterwards. *)
Theorem key_lifecycle {Sh : Sha256} {Ad : AuthDb} {Sq : SqlDb} {Sl : SqlLaws}
    (db db1 db2 : tables) (d : directory) (tid : string) (f : Fresh) (out : ApiKeyOut)
    (l : list (Request * Fresh)) (rs : list (exn + Response)) :
  cp_inv db -> holds db d ->
  serve1 (ApiKeyCreate tid) f db = (inr (Key out), db1) -> serve l db1 = (rs, db2) ->
  exists key, ko_api_key out = Some key /\
    ((forall kid f', (RevokeApiKey kid, f') ∈ l -> uuid_text kid <> Some (ko_id out)) ->
     authenticate_token db2 key = inr (mkAuthContext (ko_tenant_id out) (ko_id out))) /\
    (forall kid f' db3 l' rs' db4,
       uuid_text kid = Some (ko_id out) ->
       serve1 (RevokeApiKey kid) f' db2 = (inr NoContent, db3) -> serve l' db3 = (rs', db4) ->
       authenticate_token db4 key = inl (AuthenticationError "invalid or revoked API key")).
Proof.
  intros Hinv Hd E1 E2.
  destruct (serve1_sim _ _ _ _ _ _ Hinv Hd E1) as (d1 & (Hkey & _ & Hn & ->) & Hd1 & Hi1).
  set (h := hash_api_key (key_of f)) in *. set (ctx := mkAuthContext _ _) in *.
  destruct (serve_sim _ _ _ _ _ Hi1 Hd1 E2) as (d2 & Hs2 & Hd2 & Hi2).
  exists (key_of f). split; [done|].
  assert (key_of f <> "") as Hne by done.
  assert (live (issue h ctx d) !! h = Some ctx) as Hl by apply lookup_insert_eq.
  pose proof (holds_dir_ok _ _ Hd1) as Hok1. split.
  - intros Hno. rewrite (authenticate_lookup db2 d2); [|apply Hi2|done..]. fold h.
    by rewrite (live_kept _ _ _ _ _ _ Hs2 Hok1 Hl Hno).
  - intros kid f' db3 l' rs' db4 Hu E3 E4.
    destruct (serve1_sim _ _ _ _ _ _ Hi2 Hd2 E3) as (d3 & (i & Hi & ->) & Hd3 & Hi3).
    destruct (serve_sim _ _ _ _ _ Hi3 Hd3 E4) as (d4 & Hs4 & Hd4 & Hi4).
    rewrite (authenticate_lookup db4 d4); [|apply Hi4|done..]. fold h.
    rewrite (gone_stays _ _ _ _ h Hs4); [done| |].
    + cbn. pose proof (issued_grows _ _ _ _ Hs2) as Hg. set_solver.
    + rewrite Hu in Hi. injection Hi as <-. cbn. apply map_lookup_filter_None. right.
      intros ctx' Hc Hx. apply Hx. cbn.
      by rewrite (live_same _ _ _ _ _ _ _ Hs2 Hok1 Hl Hc).
Qed.

(** *** Witnesses: a tenant, two keys, one of them revoked *)
Definition fresh_of (uid token : string) : Fresh := mkFresh uid 1 2 token (fun _ => Up).

Definition sample_history : list (Request * Fresh) :=
  [(TenantCreate "acme", fresh_of "t1" ""); (ApiKeyCreate "t1", fresh_of "k1" "aa");
   (ApiKeyCreate "t1", fresh_of "k2" "bb"); (RevokeApiKey "k1", fresh_of "" "");
   (ApiKeyCreate "t9", fresh_of "k3" "cc")].

Definition sample_mem : mem :=
  (serve (Sh := python_sha256) (Sq := mem_sql) sample_history empty_mem).2.

Lemma control_plane_refines_witness :
  schema_ok (Sq := mem_sql) sample_mem /\
  authenticate_token (Sh := python_sha256) (Ad := mem_authdb) sample_mem "relay_bb"
    = inr (mkAuthContext "t1" "k2").
Proof.
  split; [|vm_compute; reflexivity].
  exact (proj1 (control_plane_refines (Sh := python_sha256) (Sl := mem_laws) sample_history empty_mem
    sample_mem (serve (Sh := python_sha256) (Sq := mem_sql) sample_history empty_mem).1
    (conj eq_refl (conj eq_refl (conj eq_refl eq_refl))) (surjective_pairing _))).
Defined.

Definition one_tenant : mem := mkMem [mkTenant "t1" "acme" "active" 1 2] [] [] [].

Lemma one_tenant_inv :
  cp_inv (Sq := mem_sql) one_tenant /\ holds (Ad := mem_authdb) one_tenant (mkDirectory ∅ ∅).
Proof.
  split; [split; [split|]|split]; cbn; try (intros; by match goal with H : _ ∈ [] |- _ =>
    apply not_elem_of_nil in H end).
  - intros t t' ->%list_elem_of_singleton ->%list_elem_of_singleton. done.
  - by intros t ->%list_elem_of_singleton.
  - intros h ctx. rewrite lookup_empty. split; [done|]. intros (k & _ & []%not_elem_of_nil & _).
  - intros h. split; [set_solver|]. intros (k & []%not_elem_of_nil & _).
Qed.

Lemma key_lifecycle_witness :
  let f := fresh_of "k1" "aa" in
  let db1 := (serve1 (Sh := marked_hash) (Sq := mem_sql) (ApiKeyCreate "t1") f one_tenant).2 in
  let db3 := (serve1 (Sh := marked_hash) (Sq := mem_sql) (RevokeApiKey "k1") f db1).2 in
  authenticate_token (Sh := marked_hash) (Ad := mem_authdb) db1 "relay_aa"
    = inr (mkAuthContext "t1" "k1") /\
  authenticate_token (Sh := marked_hash) (Ad := mem_authdb) db3 "relay_aa"
    = inl (AuthenticationError "invalid or revoked API key").
Proof.
  set (f := fresh_of "k1" "aa").
  destruct (key_lifecycle (Sh := marked_hash) (Sl := mem_laws) one_tenant
    (serve1 (Sh := marked_hash) (Sq := mem_sql) (ApiKeyCreate "t1") f one_tenant).2
    (serve1 (Sh := marked_hash) (Sq := mem_sql) (ApiKeyCreate "t1") f one_tenant).2
    (mkDirectory ∅ ∅) "t1" f (mkApiKeyOut "k1" "t1" "relay_aa" (Some "relay_aa")) [] []
    (proj1 one_tenant_inv) (proj2 one_tenant_inv) ltac:(vm_compute; reflexivity) eq_refl)
    as (key & [= <-] & H1 & H2).
  split.
  - apply H1. intros kid f' H. by apply not_elem_of_nil in H.
  - eapply (H2 "k1" f _ [] []); [reflexivity| |reflexivity]. vm_compute. reflexivity.
Defined.

(** ** Every branch of [create_api_key] *)

Lemma py_len_le_length (s : string) : (py_len s <= String.length s)%nat.
Proof. induction s as [|c s IH]; cbn; [done|]. destruct (is_continuation c); lia. Qed.

Lemma py_len_take (n : nat) (s : string) : (py_len (py_take n s) <= n)%nat.
Proof.
  revert n. induction s as [|c s IH]; intros n; cbn; [lia|].
  destruct (is_continuation c) eqn:E; cbn; [rewrite E; apply IH|].
  destruct n as [|n]; cbn; [lia|]. rewrite E. specialize (IH n). lia.
Qed.

Lemma forall_chars_take (f : Ascii.ascii -> bool) (s : string) : forall n,
  forall_chars f s = true -> forall_chars f (py_take n s) = true.
Proof.
  induction s as [|c s IH]; intros n; cbn [forall_chars py_take]; [done|].
  intros [Hc Hs]%andb_true_iff. destruct (is_continuation c); [|destruct n]; cbn [forall_chars];
    rewrite ?Hc; cbn; auto.
Qed.

(** A generated key fits its columns: 14 characters of prefix, 64 of hash. *)
Lemma generated_key_fits (token : string) : no_nul token = true ->
  fits 32 (generate_api_key (Sh := python_sha256) token).1.2 = true /\
  fits 64 (generate_api_key (Sh := python_sha256) token).2 = true.
Proof.
  intros Hn. unfold fits. split; (apply andb_true_iff; split; [apply Nat.leb_le|]).
  - etrans; [apply py_len_take|]. cbn. lia.
  - apply forall_chars_take. rewrite forall_chars_app. exact Hn.
  - etrans; [apply py_len_le_length|]. cbn [generate_api_key snd]. by rewrite sha256_length.
  - apply sha256_chars. intros z Hz. pattern z.
    apply (proj1 (Forall_forall _ (seqZ 0 16))); [|apply elem_of_seqZ; lia].
    by repeat constructor.
Qed.

(** [create_api_key] on every branch, with SHA-256 and a reachable
    database: a malformed tenant id makes the statement fail, an unknown tenant
    is answered 404, and for a known tenant the request succeeds unless the
    fresh id or hash is taken (the generated columns always fit): the answer
    then carries the plaintext, while the row stored holds its hash and the
    prefix only. *)
Theorem create_api_key_branches {Ad : AuthDb} {Sq : SqlDb} {Sl : SqlLaws} (db : tables)
    (tid uid token : string) (t t' : Z) : no_nul token = true ->
  let f := mkFresh uid t t' token (fun _ => Up) in
  let '(key, prefix, hash) := generate_api_key (Sh := python_sha256) token in
  let '(r, db') := serve1 (Sh := python_sha256) (ApiKeyCreate tid) f db in
  match uuid_text tid with
  | None => r = inl (OtherError "DBAPIError") /\ db' = db
  | Some i =>
      ((forall x, x ∈ tenants_of db -> tenant_id x <> i) ->
         r = inl (HTTPException 404 "tenant not found") /\ db' = db) /\
      ((exists x, x ∈ tenants_of db /\ tenant_id x = i) ->
       (forall k, k ∈ keys_of db -> apikey_id k <> uid /\ apikey_hash k <> hash) ->
         r = inr (Key (mkApiKeyOut uid i prefix (Some key))) /\
         inserted db db' (RApiKey (mkApiKey uid i prefix hash "active" t None)))
  end.
Proof.
  intros Hn. destruct (generated_key_fits token Hn) as [Hp Hh].
  unfold generate_api_key in *. cbn [fst snd] in *. cbn beta iota zeta.
  unfold serve1. cbn [handle f_link]. unfold create_api_key, generate_api_key, db_bind, sql_get, db_read.
  cbn beta iota zeta. cbn [statements rows f_token f_uuid f_now].
  destruct (uuid_text tid) as [i|]; [|done].
  destruct (head _) as [x|] eqn:Ex.
  - apply head_filter_Some in Ex as [Hx <-]. cbn beta iota zeta.
    match goal with |- let '(_, _) := ?e in _ => destruct e as [r db'] eqn:Er end.
    split; [intros Hno; by apply Hno in Hx|]. intros _ Hf. revert Er.
    unfold db_write, new_api_key. cbn [next statements rows].
    set (k := mkApiKey _ _ _ _ _ _ _).
    assert (admits db (RApiKey k)) as Ha by (split_and!; [done|by exists x|done..]).
    destruct (law_insert_ok _ _ Ha) as [db1 E]. rewrite E. apply law_insert in E as [_ Hi].
    pose proof Hi as (_ & Hk & _ & _).
    cbn beta iota zeta. unfold refresh, db_read. cbn [next statements rows].
    rewrite (head_filter_pk (keys_of db1) apikey_id k); [|by apply Hk; right|].
    { intros [= <- <-]. done. }
    intros k' [Hk'|[= <-]]%Hk Hid; [|done]. by destruct (Hf k' Hk').
  - split; [done|]. intros (x & Hx & <-). by eapply head_filter_None in Ex; [|exact Hx].
Qed.

Lemma create_api_key_branches_witness :
  (serve1 (Sh := python_sha256) (Sq := mem_sql) (ApiKeyCreate "t9") (fresh_of "k1" "aa") one_tenant).1
  = inl (HTTPException 404 "tenant not found").
Proof.
  pose proof (create_api_key_branches (Sl := mem_laws) one_tenant "t9" "k1" "aa" 1 2 eq_refl) as H.
  unfold generate_api_key in H. cbn beta iota zeta in H. change (mkFresh "k1" 1 2 "aa" (fun _ => Up))
    with (fresh_of "k1" "aa") in H.
  match type of H with let '(_, _) := ?e in _ => destruct e as [r db'] end. destruct H as [H _].
  apply H. intros x ->%list_elem_of_singleton. discriminate.
Defined.

(** A key past its [expires_at] authenticates: the query has no condition on
    the column. *)
Example expired_key_accepted :
  authenticate_token (Sh := marked_hash) (Ad := mem_authdb)
    (mkMem [mkTenant "t1" "acme" "active" 1 2]
       [mkApiKey "k1" "t1" "relay_aa" "sha:relay_aa" "active" 1 (Some 0)] [] []) "relay_aa"
  = inr (mkAuthContext "t1" "k1").
Proof. reflexivity. Qed.

(** ** The seeding script *)

(** What [create_tenant] answers with. *)
Lemma create_tenant_out {Sh : Sha256} {Ad : AuthDb} {Sq : SqlDb} {Sl : SqlLaws}
    (name : string) (f : Fresh) (db db' : tables) t :
  serve1 (TenantCreate name) f db = (inr (Tenants [t]), db') -> to_id t = f_uuid f.
Proof.
  unfold serve1. destruct (handle _ f (f_link f) (mkSession 0 db)) as [r s] eqn:E. intros [= -> <-].
  cbn [handle] in E. apply bind_inv in E as [(x & _ & [=])|(t' & s1 & E & H)].
  injection H as -> <-. unfold create_tenant in E.
  apply bind_inv in E as [(x & _ & [=])|([] & s2 & _ & E)].
  apply bind_inv in E as [(x & _ & [=])|(t0 & s3 & E & H)]. injection H as <- _.
  apply read_rows in E as [_ [[x ?]|E]]; [done|].
  destruct (head _) as [t1|] eqn:Eh; [|done]. injection E as ->.
  by apply head_filter_Some in Eh as [_ Eh].
Qed.

(** What [seed.py] prints is usable: when it prints a tenant, a key and a
    channel, the key authenticates as that tenant and the channel belongs to it
    (and to no other tenant id without a colon), so a client can connect,
    subscribe and publish with them. *)
Theorem seed_usable {Sh : Sha256} {Ad : AuthDb} {Sq : SqlDb} {Sl : SqlLaws} (db db' : tables)
    (d : directory) (f1 f2 : Fresh) (tid key channel : string) :
  cp_inv db -> holds db d -> uuid_text (f_uuid f1) = Some (f_uuid f1) ->
  seed f1 f2 db = (inr (tid, key, channel), db') ->
  (exists ctx, authenticate_token db' key = inr ctx /\ auth_tenant_id ctx = tid) /\
  channel_belongs_to_tenant channel tid = true /\
  (forall other, no_colon tid = true -> no_colon other = true ->
     channel_belongs_to_tenant channel other = true -> other = tid).
Proof.
  intros Hinv Hd Hu. unfold seed.
  destruct (serve1 (TenantCreate "demo") f1 db) as [[x|[[|t []]| | | |]] db1] eqn:E1; try done.
  destruct (serve1 (ApiKeyCreate (to_id t)) f2 db1) as [[x|[]] db2] eqn:E2; try done.
  intros [= <- <- <- <-]. pose proof (create_tenant_out _ _ _ _ _ E1) as Ht.
  destruct (serve1_sim _ _ _ _ _ _ Hinv Hd E1) as (d1 & _ & Hd1 & Hi1).
  destruct (serve1_sim _ _ _ _ _ _ Hi1 Hd1 E2) as (d2 & (Hkey & Hkt & _ & ->) & Hd2 & Hi2).
  assert (channel_belongs_to_tenant ("t-" +:+ to_id t +:+ ":room-engineering") (to_id t) = true) as Hb.
  { apply channel_belongs_iff. by exists "room-engineering". }
  split_and!; [|done|].
  - rewrite Hkey. cbn [from_option id]. rewrite (authenticate_lookup db2 _ _ (proj1 Hi2) Hd2) by done.
    cbn [live issue]. rewrite lookup_insert_eq. eexists. split; [reflexivity|].
    cbn. rewrite Ht, Hu in Hkt. rewrite Ht. congruence.
  - intros other H1 H2 Ho. apply channel_belongs_iff in Ho as [n Ho].
    change ("t-" +:+ to_id t +:+ ":room-engineering") with
      (namespaced_channel (to_id t) "room-engineering") in Ho.
    by apply namespaced_channel_inj in Ho as [<- _].
Qed.

Lemma seed_usable_witness :
  channel_belongs_to_tenant "t-t1:room-engineering" "t1" = true /\
  exists ctx, authenticate_token (Sh := marked_hash) (Ad := mem_authdb)
    (seed (Sh := marked_hash) (Sq := mem_sql) (fresh_of "t1" "") (fresh_of "k1" "aa") empty_mem).2
    "relay_aa" = inr ctx /\ auth_tenant_id ctx = "t1".
Proof.
  destruct (fresh_inv (Sh := marked_hash) (Sq := mem_sql) empty_mem
    (conj eq_refl (conj eq_refl (conj eq_refl eq_refl)))) as [Hi Hd].
  destruct (seed_usable (Sh := marked_hash) (Sl := mem_laws) empty_mem
    (seed (Sh := marked_hash) (Sq := mem_sql) (fresh_of "t1" "") (fresh_of "k1" "aa") empty_mem).2
    (mkDirectory ∅ ∅) (fresh_of "t1" "") (fresh_of "k1" "aa") "t1" "relay_aa" "t-t1:room-engineering"
    Hi Hd eq_refl ltac:(vm_compute; reflexivity)) as (H1 & H2 & _).
  split; [exact H2|exact H1].
Defined.
