(* ===== verification/Quickstart.v ===== *)
(** * A new deployment

    The steps of a first run, composed: [scripts/init_db.py] creates the
    schema, [scripts/seed.py] a tenant and a key through the control plane, and
    [demo-publisher/publish.py] publishes with them through the gateway. *)
From Stdlib Require Import ZArith Lia QArith.
From stdpp Require Import base gmap strings list sets.
From S2P Require Import Prelude Config Frames Keys RedisApi Async RefRedis Samples Auth Database Publisher State Http DemoPublisher ControlPlane KeyDirectory.

Open Scope Z_scope.

(** [Base.metadata.create_all] of SQLAlchemy on a database, [None] when the
    tables do not exist: it creates the missing tables and leaves the others
    alone. *)
Class Ddl {Ad : AuthDb} := { create_all : option tables -> exn + tables }.

Class DdlLaws {Ad : AuthDb} {Sq : SqlDb} {Dl : Ddl} : Prop := {
  law_create_fresh : forall db, create_all None = inr db -> fresh_schema db;
  law_create_kept : forall db db', create_all (Some db) = inr db' -> db' = db
}.

(** [main] of [init_db.py]: the line it prints, and the tables. *)
Definition init_db {Ad : AuthDb} {Dl : Ddl} (db : option tables) : exn + (string * tables) :=
  match create_all db with
  | inl x => inl x
  | inr db' => inr ("schema created", db')
  end.

Lemma init_db_fresh {Ad : AuthDb} {Sq : SqlDb} {Dl : Ddl} {Dll : DdlLaws} text db :
  init_db None = inr (text, db) -> fresh_schema db.
Proof.
  unfold init_db. destruct (create_all None) as [|db'] eqn:E; [done|]. intros [= _ ->].
  by apply law_create_fresh.
Qed.

(** The script can be run again: the rows stay. *)
Lemma init_db_again {Ad : AuthDb} {Sq : SqlDb} {Dl : Ddl} {Dll : DdlLaws} text db db' :
  init_db (Some db) = inr (text, db') -> db' = db.
Proof.
  unfold init_db. destruct (create_all (Some db)) as [|db''] eqn:E; [done|]. intros [= _ ->].
  by apply law_create_kept.
Qed.

(** A request with a key that authenticates, on a channel of its tenant. *)
Lemma bearer_accepted {Jt : JsonText} {Sh : Sha256} {Ad : AuthDb} settings db key ch payload ctx :
  authenticate_token db key = inr ctx -> validate_channel_name ch = inr ch ->
  channel_belongs_to_tenant ch (auth_tenant_id ctx) = true ->
  utf8_len (json_dumps (JObj payload)) <= max_message_size_bytes settings ->
  accepted_request settings db ch payload (Some ("Bearer " +:+ key)) ctx.
Proof.
  intros Ha Hv Hb Hs. split_and!; [|done..]. unfold _auth_http.
  rewrite startswith_app. replace (truthy ("Bearer " +:+ key)) with true by (by rewrite str_app_cons).
  cbn [negb orb]. unfold removeprefix. rewrite drop_prefix_app. by rewrite Ha.
Qed.

(** Redis has no key of the channel. *)
Lemma represents_new {Rd : Redis} {Jt : JsonText} d t ch :
  (forall u k, t <= u -> sees d u k = None) -> represents d t ch (mkView 0 []).
Proof.
  intros Hn. unfold represents, persistent. rewrite !(Hn t) by lia. split_and!.
  - intros u Hu. by rewrite Hn.
  - done.
  - intros u Hu. by rewrite Hn.
  - by exists [].
Qed.

(** C18.  A new deployment works: the schema is created on an empty database,
    the key and channel that the seeding script prints are accepted by the
    publish endpoint, and the demo publisher that is started with them numbers
    its messages from 1, announces each exactly once and in order, and prints
    the number of each that was answered. *)
Theorem quickstart {Rd : Redis} {Rl : RedisLaws} {Jt : JsonText} {Py : Pydantic} {Pl : PydanticLaws}
    {Sh : Sha256} {Ad : AuthDb} {Sq : SqlDb} {Sl : SqlLaws} {Dl : Ddl} {Dll : DdlLaws}
    (settings : Settings) (e : env) (f1 f2 : Fresh) (text tid key channel : string)
    (db0 db : tables) (fate : nat -> nat -> http_fate) (count : Z) (w : world Gateway) :
  let msgs := seq 0 (Z.to_nat count) in
  init_db None = inr (text, db0) -> seed f1 f2 db0 = (inr (tid, key, channel), db) ->
  uuid_text (f_uuid f1) = Some (f_uuid f1) -> validate_channel_name channel = inr channel ->
  reliable e -> mono_clock e -> 0 < idempotency_ttl_seconds settings ->
  (forall n, clock e (50 + n) < clock e n + 1000 * idempotency_ttl_seconds settings) ->
  (forall r, json_dumps (cached_value r) <> "" /\
             json_loads (json_dumps (cached_value r)) = Some (cached_value r)) ->
  (forall n m, uuid e n = uuid e m -> n = m) -> (forall n, uuid e n <> "") ->
  (forall i, i ∈ msgs -> utf8_len (json_dumps (JObj (demo_payload i))) <= max_message_size_bytes settings) ->
  (forall u k, clock e (w_tick w) <= u -> sees (w_db w) u k = None) ->
  Z.of_nat (length msgs) <= int64_max ->
  exists lines w' frames,
    run e (demo_main settings db fate key channel None (Some count)) w = (inr lines, w') /\
    plog (w_db w') = plog (w_db w) ++ frames /\
    Forall2 (announces channel) (numbered 0 (List.filter (reached fate) msgs)) frames /\
    omap sent lines = List.filter (fun p => answered fate p.1)
                        (numbered 0 (List.filter (reached fate) msgs)).
Proof.
  intros msgs Hinit Hseed Hu Hv Hrel Hmono Httl Hfast Hjson Huuid Hne Hsize Hredis Hmax.
  destruct (fresh_inv db0 (init_db_fresh _ _ Hinit)) as [Hinv Hd].
  destruct (seed_usable db0 db _ f1 f2 tid key channel Hinv Hd Hu Hseed)
    as ((ctx & Hauth & Htid) & Hbel & _).
  unfold demo_main. cbn [default from_option id].
  eapply (run_demo_loop settings db fate key channel ctx e Hrel Hmono Httl Hfast Hjson Huuid Hne
            (5 # 1) msgs (mkView 0 []) w); [|done| |done|].
  - intros i Hi. apply bearer_accepted; [done|done|by rewrite Htid|by apply Hsize].
  - by apply represents_new.
  - intros n u _ Hle. by apply Hredis.
Qed.

(** *** With the database and the codecs of the other witnesses *)
Definition mem_ddl : Ddl (Ad := mem_authdb) :=
  {| create_all := fun db : option (tables (AuthDb := mem_authdb)) =>
                     inr (match db with Some db => db | None => empty_mem end) |}.

Lemma mem_ddl_laws : DdlLaws (Sq := mem_sql) (Dl := mem_ddl).
Proof. split; [intros db [= <-]; by split_and!|by intros db db' [= <-]]. Qed.

Lemma quickstart_witness :
  exists lines w' a b,
    run calm (demo_main (Jt := sample_json) (Py := sample_pydantic) (Sh := marked_hash)
        (Ad := mem_authdb) default_settings
        (seed (Sh := marked_hash) (Sq := mem_sql) (fresh_of "t1" "") (fresh_of "k1" "aa") empty_mem).2
        sample_fate "relay_aa" "t-t1:room-engineering" None (Some 3))
      (ref_world 0 Ref.empty initial_gateway) = (inr lines, w') /\
    plog (w_db w') = [a; b] /\ omap sent lines = [(0%nat, 1); (2%nat, 2)].
Proof.
  destruct (quickstart (Rd := Ref.ref_redis) (Pl := sample_laws) (Sh := marked_hash) (Sl := mem_laws)
    (Dll := mem_ddl_laws) default_settings calm (fresh_of "t1" "") (fresh_of "k1" "aa")
    "schema created" "t1" "relay_aa" "t-t1:room-engineering" empty_mem
    (seed (Sh := marked_hash) (Sq := mem_sql) (fresh_of "t1" "") (fresh_of "k1" "aa") empty_mem).2
    sample_fate 3 (ref_world 0 Ref.empty initial_gateway))
    as (lines & w' & frames & Hrun & Hlog & Hfs & Hls).
  - reflexivity.
  - by vm_compute.
  - reflexivity.
  - by vm_compute.
  - apply calm_reliable.
  - apply calm_mono.
  - reflexivity.
  - intros n. cbn [clock calm]. change (idempotency_ttl_seconds default_settings) with 600. lia.
  - exact sample_cached_readable.
  - intros n m H. cbn in H. apply str_app_inv_l, py_str_inj in H. lia.
  - intros n. cbn. by rewrite str_app_cons.
  - intros i _. by vm_compute.
  - done.
  - by vm_compute.
  - change (Forall2 (announces (Py := sample_pydantic) "t-t1:room-engineering")
              [(0%nat, 1); (2%nat, 2)] frames) in Hfs.
    inversion Hfs as [|? a ? fs Ha Hfs']; subst. inversion Hfs' as [|? b ? fs' Hb Hnil]; subst.
    inversion Hnil; subst.
    exists lines, w', a, b. split; [exact Hrun|]. split; [exact Hlog|exact Hls].
Defined.
