(* ===== verification/Tests.v ===== *)
(** * The project's own test suite, evaluated on the model

    Each test of [tests/unit/test_core.py] and of
    [tests/reliability/test_resume.py] whose subject is modelled, as a closed
    statement of the same name that the definitions settle by evaluation: the
    same calls with the same arguments and the same assertions.  Python's JSON
    codec and SHA-256 are the concrete instances of [Json] and [Hash], the
    server is the one of [RefRedis], and a patched setting is a [Settings]
    with that field changed.  The quotes inside payloads that are only counted are
    single ones.  Where a test loops over random tokens, the statement
    takes the tokens the loop would draw from a fixed list. *)
From Stdlib Require Import Ascii ZArith Lia QArith.
From stdpp Require Import base gmap strings list sorting.
From S2P Require Import Prelude Config Frames Json FrameText Keys RedisApi Async RefRedis Auth Hash Sessions Publisher Replay Connection Registry Tasks.
#[local] Open Scope Z_scope.
#[local] Existing Instance python_json | 0.
#[local] Existing Instance python_pydantic | 0.
#[local] Existing Instance python_sha256 | 0.

(** [monkeypatch.setattr(settings, ...)] of the four settings the tests change. *)
Definition patched (queue_messages queue_bytes window buffer : Z) : Settings :=
  let s := default_settings in
  mkSettings (node_id s) (environment s) (database_url s) (redis_url s)
    (heartbeat_interval_ms s) (heartbeat_timeout_ms s) (session_resume_window_seconds s)
    (message_retention_seconds s) buffer (channel_buffer_max_bytes s) queue_messages queue_bytes
    (connection_queue_high_watermark_ratio s) window (ack_timeout_ms s) (max_retry_attempts s)
    (retry_base_delay_ms s) (max_connections_per_tenant s) (max_connections_per_api_key s)
    (max_handshakes_in_flight s) (max_message_size_bytes s) (presence_ttl_seconds s)
    (node_ttl_seconds s) (node_heartbeat_interval_ms s) (dedup_window_seconds s)
    (idempotency_ttl_seconds s).

Definition with_queue (n : Z) : Settings := patched n 2000000 100 1000.
Definition with_buffer (n : Z) : Settings := patched 1000 2000000 100 n.

(** ** Channel names and frames *)
Example test_valid_channel_names_accepted :
  Forall (fun c => validate_channel_name c = inr c)
    ["chat:room-42"; "notifications:user-123"; "events:order-456"].
Proof. by repeat constructor. Qed.

Definition newline : string := String "010"%char "".
Definition null_byte : string := String "000"%char "".
Fixpoint repeat_str (n : nat) (s : string) : string :=
  match n with O => "" | S n' => s +:+ repeat_str n' s end.

Example test_unsafe_channel_names_rejected :
  Forall (fun c => exists text, validate_channel_name c = inl text)
    [""; repeat_str 500 "a"; "room" +:+ newline +:+ "42"; "room 42";
     "room" +:+ null_byte +:+ "null"; "room*glob"; "room:{injection}"].
Proof. repeat constructor; by eexists. Qed.

Example test_subscribe_frame_rejects_unsafe_channel :
  parse_subscribe [("channel", JStr "bad channel!")] = None.
Proof. done. Qed.

Example test_message_envelope_requires_core_fields :
  let data := frame_object (MessageF {|
    mf_message_id := "m-1"; mf_channel := "chat:room-42"; mf_sequence := 1042;
    mf_timestamp := "2026-09-17T12:00:00Z"; mf_payload := [("text", JStr "hello")] |}) in
  Forall (fun f => is_Some (obj_get f data))
    ["message_id"; "channel"; "sequence"; "type"; "payload"].
Proof. repeat constructor; by eexists. Qed.

Example test_ack_frame_is_cumulative_by_sequence :
  snd <$> parse_ack [("channel", JStr "chat:room-42"); ("sequence", JInt 1050)] = Some 1050.
Proof. done. Qed.

(** ** API keys *)
Definition tokens : list string :=
  (fun i => "h3Jq0vXwK2mPzL9sTfR7bNcYdA4eGu6o_-8iQxW1" +:+ py_str i) <$> seqZ 0 20.

Example test_api_key_is_hashed_not_stored_plaintext :
  let '(plaintext, prefix, key_hash) := generate_api_key (default "" (head tokens)) in
  String.index 0 plaintext key_hash = None /\
  String.length key_hash = 64%nat /\
  String.prefix prefix plaintext = true /\
  verify_api_key plaintext key_hash = true.
Proof. by vm_compute. Qed.

Example test_wrong_api_key_rejected :
  verify_api_key "relay_wrong_key" (generate_api_key (default "" (head tokens))).2 = false.
Proof. by vm_compute. Qed.

Example test_api_keys_are_unique :
  bool_decide (NoDup ((fun t => (generate_api_key t).1.1) <$> tokens)) = true.
Proof. by vm_compute. Qed.

(** ** Queue bounds and flow control *)
Definition _make_connection : Connection :=
  new_connection "conn-test" "sess-test" "tenant-test" 0 ACTIVE 0.

(** [await conn.enqueue(...)] once for each item, stopping at the first exception. *)
Definition enqueue_all (s : Settings) (l : list (string * option string * option Z))
    (c : Connection) : exn + Connection :=
  foldl (fun r i => match r with
                    | inl x => inl x
                    | inr c => enqueue s i.1.1 NORMAL i.1.2 i.2 c
                    end) (inr c) l.

Example test_queue_is_bounded_and_raises_slow_consumer :
  let s := with_queue 5 in
  match enqueue_all s ((fun i => ("{'n':" +:+ py_str i +:+ "}", Some "c", Some i)) <$> seqZ 0 5)
          _make_connection with
  | inr conn => enqueue s "overflow" NORMAL (Some "c") (Some 99) conn
                = inl (SlowConsumerError "conn-test")
  | inl _ => False
  end.
Proof. by vm_compute. Qed.

Example test_byte_bound_enforced_independently :
  enqueue_all (patched 1000 100 100 1000) (replicate 50 (repeat_str 30 "x", None, None))
    _make_connection = inl (SlowConsumerError "conn-test").
Proof. by vm_compute. Qed.

Example test_low_priority_dropped_instead_of_disconnecting :
  let s := with_queue 2 in
  match enqueue_all s [("a", Some "c", Some 1); ("b", Some "c", Some 2)] _make_connection with
  | inr conn => exists conn', enqueue s "typing" LOW None None conn = inr conn' /\
                  messages_dropped conn' = 1%nat
  | inl _ => False
  end.
Proof. vm_compute. eauto. Qed.

Example test_high_priority_control_frame_bypasses_bound :
  let s := with_queue 1 in
  match enqueue_all s [("msg", Some "c", Some 1)] _make_connection with
  | inr conn => exists conn', enqueue s "PING" HIGH None None conn = inr conn' /\
                  queue_depth conn' = 2
  | inl _ => False
  end.
Proof. vm_compute. eauto. Qed.

(** [conn._inflight = l]. *)
Definition with_inflight (l : list (string * Z)) : Connection :=
  set_inflight l true _make_connection.

Example test_cumulative_ack_releases_window :
  let '(released, conn) := on_ack (patched 1000 2000000 10 1000) "chat" 3
                             (with_inflight (pair "chat" <$> seqZ 1 5)) in
  released = 3 /\ inflight_count conn = 2.
Proof. by vm_compute. Qed.

Example test_ack_on_one_channel_does_not_release_another :
  inflight (on_ack default_settings "chat" 5
              (with_inflight [("chat", 1); ("chat", 2); ("orders", 1)])).2 = [("orders", 1)].
Proof. by vm_compute. Qed.

Example test_duplicate_ack_is_harmless :
  let '(r1, conn) := on_ack default_settings "chat" 2
                       (with_inflight [("chat", 1); ("chat", 2)]) in
  r1 = 2 /\ (on_ack default_settings "chat" 2 conn).1 = 0.
Proof. by vm_compute. Qed.

(** The sender until it waits, with what it wrote; [n] bounds its steps. *)
Fixpoint run_sender_for (n : nat) (s : Settings) (c : Connection) (pc : sender_pc) :
    Connection * sender_pc * list string :=
  match n with
  | O => (c, pc, [])
  | S n' =>
      match sender_step s true c pc with
      | None => (c, pc, [])
      | Some (c', pc', out) =>
          let '(c2, pc2, l) := run_sender_for n' s c' pc' in
          (c2, pc2, match out with Some m => q_payload m :: l | None => l end)
      end
  end.

Example test_sender_stops_at_window_and_resumes_on_ack :
  let s := patched 100 2000000 3 1000 in
  match enqueue_all s ((fun i => ("{'seq':" +:+ py_str i +:+ "}", Some "chat", Some i))
                         <$> seqZ 1 10) _make_connection with
  | inl _ => False
  | inr conn =>
      let '(conn, pc, sent) := run_sender_for 100 s conn Top in
      length sent = 3%nat /\ sender_step s true conn pc = None /\
      let '(conn, pc, more) := run_sender_for 100 s (on_ack s "chat" 3 conn).2 pc in
      length (sent ++ more) = 6%nat /\ sender_step s true conn pc = None
  end.
Proof. by vm_compute. Qed.

(** ** The registry *)
Definition reg_add (cid : string) (s : Store) : Store :=
  let '(l, s') := alloc (new_connection cid "sess-test" "tenant-test" 0 ACTIVE 0) s in
  Registry.add l s'.

Definition subscriber_ids (channel : string) (s : Store) : list string :=
  omap (fun l => connection_id <$> heap s !! l) (local_subscribers channel s).

Example test_registry_isolates_subscribers_per_channel :
  let reg := reg_add "conn-b" (reg_add "conn-test" empty_store) in
  let reg := Registry.subscribe "conn-b" "chat:two"
               (Registry.subscribe "conn-test" "chat:one" reg) in
  subscriber_ids "chat:one" reg = ["conn-test"] /\ subscriber_ids "chat:two" reg = ["conn-b"].
Proof. by vm_compute. Qed.

Example test_registry_removal_cleans_up_all_indexes :
  let reg := Registry.subscribe "conn-test" "chat:one" (reg_add "conn-test" empty_store) in
  active_count reg = 1 /\
  let reg := (Registry.remove "conn-test" reg).2 in
  active_count reg = 0 /\ local_subscribers "chat:one" reg = [] /\
  tenant_connection_count "tenant-test" reg = 0.
Proof. by vm_compute. Qed.

Example test_tenant_connection_counting :
  tenant_connection_count "tenant-test"
    (foldl (fun reg i => reg_add ("conn-" +:+ py_str i) reg) empty_store (seqZ 0 3)) = 3.
Proof. by vm_compute. Qed.

(** ** Recovery buffer *)
Definition channel : string := "test:0a1b2c3d".

(** [_publish(r, channel, n)]. *)
Definition _publish (s : Settings) (n : nat) : proc unit (list Z) :=
  (fix go (i : nat) (rest : nat) : proc unit (list Z) :=
     match rest with
     | O => Ret []
     | S rest' =>
         let! seq := allocate_sequence channel in
         append_to_channel_buffer s channel ("msg-" +:+ py_str seq) seq
           [("i", JInt (Z.of_nat i))] ;;
         let! l := go (S i) rest' in
         Ret (seq :: l)
     end) O n.

(** What a test asserts of the messages [replay_channel] returned, and the gap. *)
Definition replay_after (s : Settings) (n : nat) (last : list Z -> Z) :
    exn + (list Z * bool) :=
  (run calm (let! seqs := _publish s n in
             let! r := replay_channel channel (last seqs) in
             Ret (b_sequence <$> rr_messages r, rr_gap r)) (ref_world 0 Ref.empty tt)).1.

Definition nth_seq (i : nat) (l : list Z) : Z := default 0 (l !! i).

Example test_replay_returns_only_messages_after_last_ack :
  replay_after default_settings 10 (nth_seq 4) = inr (seqZ 6 5, false).
Proof. by vm_compute. Qed.

Example test_replay_preserves_order :
  replay_after default_settings 50 (fun _ => 0) = inr (seqZ 1 50, false).
Proof. by vm_compute. Qed.

Example test_fully_acked_channel_replays_nothing :
  replay_after default_settings 5 (nth_seq 4) = inr ([], false).
Proof. by vm_compute. Qed.

Example test_gap_detected_when_buffer_evicted_past_client_position :
  snd <$> (match replay_after (with_buffer 10) 60 (fun _ => 2) with
           | inr r => Some r | inl _ => None end) = Some true.
Proof. by vm_compute. Qed.

Example test_no_gap_reported_when_client_is_within_retention :
  replay_after (with_buffer 100) 20 (nth_seq 10) = inr (seqZ 12 9, false).
Proof. by vm_compute. Qed.

Example test_empty_channel_replays_nothing_without_claiming_a_gap :
  replay_after default_settings 0 (fun _ => 0) = inr ([], false).
Proof. by vm_compute. Qed.

Example test_buffer_is_bounded :
  match run calm (_publish (with_buffer 20) 500 ;;
                  redis (XRANGE_ALL (RedisKeys.channel_stream channel)))
          (ref_world 0 Ref.empty tt) with
  | (inr entries, _) => (length entries <? 200)%nat = true
  | (inl _, _) => False
  end.
Proof. by vm_compute. Qed.

(** Two hundred allocations at once; the event loop serves the last task first. *)
Example test_sequence_allocation_is_monotonic_under_concurrency :
  (run_sched calm (reverse (seq 0 200))
     (replicate 200 (allocate_sequence (S := unit) channel), ref_world 0 Ref.empty tt)).1
  = Ret <$> reverse (seqZ 1 200).
Proof. by vm_compute. Qed.

(** ** Sessions and ack positions *)
Definition outcome {A} (p : proc unit A) : exn + A := (run calm p (ref_world 0 Ref.empty tt)).1.

Example test_session_created_with_ttl :
  outcome (let! session_id := create_session default_settings "tenant-1" "relay-node-a" in
           let! data := get_session session_id in
           Ret (data ≫= lookup "tenant_id")) = inr (Some "tenant-1").
Proof. by vm_compute. Qed.

(** The deadline the server keeps for the new session, from the end of the call. *)
Example test_session_created_ttl_value :
  match run calm (create_session default_settings "tenant-1" "relay-node-a")
          (ref_world (S := unit) 0 Ref.empty tt) with
  | (inr session_id, w) =>
      match Ref.keys (w_db w) !! RedisKeys.session session_id with
      | Some (_, Some deadline) =>
          let ttl := deadline - Z.of_nat (w_tick w) in
          0 < ttl <= session_resume_window_seconds default_settings * 1000
      | _ => False
      end
  | (inl _, _) => False
  end.
Proof. by vm_compute. Qed.

Example test_ack_position_advances_but_never_regresses :
  let s := default_settings in
  outcome (let! session_id := create_session s "tenant-1" "relay-node-a" in
           record_ack s session_id "chat" 100 ;; record_ack s session_id "chat" 150 ;;
           let! a := get_ack session_id "chat" in
           record_ack s session_id "chat" 120 ;;
           let! b := get_ack session_id "chat" in
           Ret (a, b)) = inr (150, 150).
Proof. by vm_compute. Qed.

Example test_ack_positions_are_per_channel :
  let s := default_settings in
  outcome (let! session_id := create_session s "tenant-1" "relay-node-a" in
           record_ack s session_id "chat" 100 ;; record_ack s session_id "orders" 5 ;;
           let! a := get_ack session_id "chat" in
           let! b := get_ack session_id "orders" in
           Ret (a, b)) = inr (100, 5).
Proof. by vm_compute. Qed.

Example test_unknown_session_returns_none :
  outcome (get_session "does-not-exist") = inr None.
Proof. by vm_compute. Qed.
